(* ===== verification/_CoqProject ===== *)
-Q . S2P
Prelude.v
Misc.v
EthUdp.v
DtlsIo.v
RtxList.v
DtlsDefs.v
DtlsEpoch.v
DtlsWindow.v
DtlsRecord.v
DtlsPlain.v
DtlsMsg.v
DtlsState.v
DtlsOut.v
DtlsProtect.v
DtlsRtx.v
DtlsSend.v
DtlsFlight.v
DtlsHandshake.v
Keccak.v
Sha3.v
MlkemReduce.v
MlkemNtt.v
MlkemRing.v
MlkemMul.v
MlkemCodec.v
MlkemSample.v
MlkemCrt.v
MlkemPke.v
MlkemKem.v
MlkemHash.v
Firmware.v
MldsaHint.v
MldsaNtt.v
MldsaCodec.v
MldsaSample.v
MldsaVerify.v
MldsaHash.v
