(* ===== verification/Prelude.v ===== *)
(** * A verification of the DTLS 1.3 client on bare-metal RISC-V

    The program is a VexRiscv/LiteX firmware (src/boot) that opens a DTLS 1.3
    connection with post-quantum key exchange from a machine without an
    operating system: a polled Ethernet driver (libliteeth), a shim between the
    driver and wolfSSL (dtls_io.c), and wolfSSL itself (src/boot/src and
    src/boot/wolfcrypt).  A datagram travels

      wire -> [eth_rx]/[udp_service] -> the UDP callback of dtls_io.c -> receive
      ring -> [dtls_recv_cb] -> record header and window -> AEAD -> handshake
      layer (reassembly, reordering, acknowledgements) -> message handlers

    and back through fragmentation, record protection, the output buffer and
    [udp_send].  This library follows that path; each file translates a part of
    the C code, function by function, and proves what it promises its caller.
    The configuration is that of src/boot/wolfssl/wolfcrypt/user_settings.h (32-bit, DTLS 1.3
    client, TLS_AES_128_GCM_SHA256, no connection ids, no early data, no async
    crypto), and code that the preprocessor removes is not modelled.

    ** Files

    - Prelude: machine words as [Z] with an explicit [wrap], byte lists, memory
      copies, the state-error monad, tactics ([lia_mod], ...) and hint databases.
    - Misc (wolfcrypt/src/misc.c): codecs, [w64] counters, constant-time masks,
      [xorbuf], [ConstantCompare].
    - EthUdp (libliteeth/udp.c): the whole driver over one flat byte memory
      that holds the ETHMAC slots, so that an access past a slot lands where it
      does on the machine; ARP, IP and UDP checksums, the receive filter.
    - DtlsIo (dtls_io.c): receive ring, send callback, timer and the interrupt
      handler; [step] interleaves the interrupt handler with the consumer at
      every memory access.
    - DtlsDefs: error codes, message types and sizes.
    - DtlsEpoch (dtls13.c, [SetKeysSide] of keys.c): the four-slot epoch table,
      installing and recalling keys, reconstruction of the epoch from two bits.
    - DtlsWindow (internal.c): the anti-replay windows of DTLS 1.3 and 1.2.
    - DtlsRecord, DtlsPlain (dtls13.c, internal.c): the unified header, the
      plaintext record header, the handshake header, record number encryption
      and sequence number reconstruction.
    - DtlsProtect (tls13.c, internal.c, dtls13.c): sealing and opening of
      records, nonces, padding, the AEAD limits.
    - DtlsMsg (internal.c, [DtlsMsg...]): fragment buckets, reassembly, the list
      of waiting messages.
    - RtxList: the linked list of dtls13.c with its tail pointer, node by node
      in a store, refined to lists; DtlsState: the part of [WOLFSSL] the sender
      works on; DtlsOut (internal.c): the output buffer and partial sends.
    - DtlsRtx (dtls13.c): acknowledgements and the retransmission buffer.
    - DtlsSend (dtls13.c): the sender, from [Dtls13HandshakeSend] down to the
      output buffer: fragmentation, resumption after a blocked transport,
      retransmission, timers, scheduled work.
    - DtlsFlight (tls13.c): the start of [wolfSSL_connect_TLSv13], which resumes
      a suspended flight.
    - DtlsHandshake (dtls13.c, internal.c): the receiver, from a handshake
      record to the handler of its message and back.
    - Keccak, Sha3 (wolfcrypt/src/sha3.c): the block operation and the Keccak
      permutation of FIPS 202 on bits; the buffering of messages, the hashes of
      fixed length and SHAKE.
    - MlkemReduce, MlkemNtt, MlkemRing, MlkemMul (wc_mlkem_poly.c): modular
      reductions on 16 and 32 bits, the number-theoretic transform with its loops
      as unrolled in the code, what it means in Z_q[X]/(X^256 + 1), and products
      of vectors through it.  The loops are run once on symbolic rows whose
      bounds and coefficients are checked by computation.
    - MlkemCodec (wc_mlkem_poly.c): compression, packing, messages.
    - MlkemSample (wc_mlkem_poly.c): the matrix by rejection sampling and the
      centered binomial noise, over the interface [KemHash].
    - MlkemCrt: the transform as an isomorphism of rings; MlkemPke
      (wc_mlkem_poly.c): key generation, encryption and decryption from seeds.
    - MlkemKem (wc_mlkem.c): the key object, the encodings of keys, key
      generation, encapsulation and decapsulation, with every error return.
    - MlkemHash (wc_mlkem_poly.c): the calls that hash with the objects of
      Sha3, and FIPS 202 as an instance of [KemHash].
    - Firmware (main.c): random bytes, start-up, the handshake loop with its
      retransmission timer and time limit, the exchange of a message.
    - MldsaHint, MldsaNtt, MldsaCodec, MldsaSample (wolfcrypt/src/dilithium.c):
      hints, decomposition and encoding of the high bits; the transform on 32
      bits; decoding of keys and responses; matrix entries and challenge over the
      interface [DsaHash].  MldsaVerify composes them to the verification of an
      ML-DSA-44 signature, from the call of the application down; MldsaHash has
      the calls that hash with the objects of Sha3.

    ** How the model relates to the code

    A C function is a Rocq function of the same name.  Integers are [Z] kept in
    range by [wrap w] where the C type wraps; buffers are lists of bytes, and an
    offset past the end is an error or, in EthUdp, an access to what lies
    there.  Functions with one result and no failure are pure; those that
    return an error code return it beside the new state, so that the state left
    behind by an early return is part of the model.  Pointers matter in three
    places and are modelled there: the epoch pointers (indices in the table, so
    that the aliasing of current epoch and slot is kept), the retransmission
    list (RtxList) and the slots of the driver.  Elsewhere a linked list that is
    only walked is a list.

    Code outside the files modelled enters through interfaces, each inhabited
    by a concrete instance in the witnesses:
    - [Crypto], [CryptoLaws] (DtlsState): the AEAD and the block cipher of the
      record layer, with the law that opening undoes sealing under the same key,
      nonce and additional data;
    - [Heap] (DtlsState): [XMALLOC] may refuse any request;
    - [Handlers] and [Orderly] (DtlsHandshake): the handlers of the handshake
      messages, which may change what they like but the reordering state, and in
      the theorem on the order of delivery do not block;
    - [set_key], [set_keys] arguments: key installation of the cipher objects;
    - [KemHash], [KemHashLaws] (MlkemSample): the hashes of ML-KEM, of bytes and
      of the documented lengths; MlkemHash gives the instance the code uses and
      proves that its calls of sha3.c compute it;
    - [DsaHash], [DsaHashLaws] (MldsaSample): the same for ML-DSA, with the
      instance in MldsaHash;
    - [Library], [LibraryTime] (Firmware): wolfSSL as main.c calls it, with the
      time its calls take.

    In the key encapsulation [allocs] and the [mem] arguments say which
    allocations succeed and [heap] what fresh memory holds; the vectors of a key
    have [WC_ML_KEM_MAX_K] polynomials whatever its type, as in the code.

    ** What the theorems show

    - Safety of the record layer: no record is accepted twice
      ([DtlsWindow.no_replay]); in an epoch no record number is used twice before
      all 2^64 are used, as long as an epoch that was used and evicted is not
      created again ([DtlsEpoch.record_numbers_unique]); the DTLS 1.3 window is
      the set of numbers seen, but for jumps whose distance does not survive a
      cut to 32 bits ([DtlsWindow.window_refines_set],
      [DtlsWindow.long_jump_marks_unseen]); nonces of the two ends agree exactly
      on equal record numbers.
    - Round trips: writers of headers, ACKs and sealed records against their
      readers; which messages an ACK removes, in terms of the record numbers that
      carried them ([DtlsRtx.ack_roundtrip]); epochs; driver to driver and shim to
      shim for a datagram, if nothing is answered from the interrupt handler in
      the middle of the send and the peer's ring has room
      ([DtlsIo.dtls_datagram_end_to_end]).
    - Order: messages reach the handlers of a client once, complete and in the
      order of their numbers, whatever the order and duplication of the records,
      as long as no fragment is placed where the merge mishandles it, allocations
      succeed and no handler blocks ([DtlsHandshake.in_order_delivery],
      [DtlsMsg.fragments_reassemble], [DtlsFlight.fragmented_message_arrives]).
    - Refinements: window to set, linked list to list, ring to queue (in every
      interleaving with the interrupt handler).
    - Key exchange: the block operation is Keccak-p bit by bit
      ([Keccak.BlockSha3_is_keccak_p]) and a message is hashed as FIPS 202 says
      in whatever pieces it comes ([Sha3.sha3_hashes_any_pieces]); the transform
      is evaluation at the roots of X^256 + 1 and inner products of length 2
      through it are those of the ring; noise and matrix are those of FIPS 203;
      both ends of
      ML-KEM-512 hold the same secret when the noise is small enough to decrypt
      ([MlkemKem.kem_exchange_agrees]), and any other ciphertext of the right
      length is rejected implicitly ([MlkemKem.decapsulation_rejects_implicitly]).
    - Signatures: hint check, hint use, high bits, decoding and sampling against
      the algorithms of FIPS 204, and the call that verifies an ML-DSA-44
      signature against Verify of that standard
      ([MldsaVerify.verification_is_FIPS204]), with the errors it returns.
    - Termination: the interrupt handler, rejection sampling, and the handshake
      loop of the firmware, whatever the peer and the library do in it
      ([Firmware.handshake_terminates]).
    - Bounds: ACK size, output buffer size, AEAD limits, 16-bit lengths.
    - What goes wrong, stated as theorems about the code as it is: the
      fragment between two others, or over the front of one, that corrupts the
      message ([DtlsMsg.gap_fragment_corrupts]), the record counter that wraps and
      starts over ([DtlsEpoch.wrapped_counter_restarts]), the message
      dropped by a blocked flush ([DtlsFlight.blocked_flush_drops_message]), the
      stale message that blocks the queue
      ([DtlsHandshake.stale_message_blocks_queue]), the send callback that
      races with the interrupt handler ([DtlsIo.dtls_send_cb_races_with_isr]), the
      inverse transform that overflows 16
      bits for four polynomials ([MlkemMul.inverse_transform_overflows_k4]), the
      allocation failure that encapsulation reports as success
      ([MlkemKem.encapsulation_hides_allocation_failure]) and the random
      generator whose past follows from its state ([Firmware.rng_reveals_past]).
      Of signatures: the first hint byte, which is not checked when there is no
      hint ([MldsaHint.check_hint_is_HintBitUnpack]), the hint on a coefficient
      without low part, which is rounded the other way
      ([MldsaHint.use_hint_is_UseHint]), the context whose length is cut to a
      byte ([MldsaVerify.context_length_is_cut]), the challenge that goes on from
      a reset object when the first block does not suffice
      ([MldsaSample.sample_in_ball_is_SampleInBall]), and the sums that enter the
      inverse transform without a reduction, so that verification needs a bound
      on them as a hypothesis ([MldsaNtt.dsa_invntt_inverts], [well_formed] of
      MldsaVerify).

    ** Fuel and bounds

    Loops over a list or a counter are structural or take as fuel a bound the
    code itself has (bytes left, slots, list length); theorems that speak of a
    result show that the fuel is enough, or that the loop ends
    ([DtlsIo.ethmac_rx_isr_drains]).  The fuel of rejection sampling is the
    number of blocks squeezed beyond the first three: no number is enough for
    every hash, and the theorems say which blocks are needed; in ML-DSA it counts
    the blocks beyond the first five of a matrix entry, and for the challenge 136
    per block of index bytes, the first of which suffices in verification.  That of the firmware's loops is one iteration per tick of the clock.  Sizes that the configuration fixes
    (window words, MTU, ring slots, epoch slots) are constants.

    ** Not modelled

    - The handshake messages of tls13.c and their key schedule (HKDF over the
      transcript), certificate processing (asn.c) and extensions (tls.c): they
      are the handlers behind [Handlers].
    - AES, GHASH, SHA-2, HMAC and the big-number code: interfaces, or not
      reached by a theorem.
    - Of ML-DSA: key generation, signing and private keys, which the
      verify-only build of the firmware leaves out; the larger parameter sets in
      the theorems on verification; pre-hashed messages; keys in ASN.1.
    - Of ML-KEM: allocation and release of key objects, and the Kyber types of
      before the standard, which are not compiled.  The definitions cover the
      three parameter sets; the theorems on the exchange are for ML-KEM-512,
      which the firmware uses, and the compressions to 11 and 5 bits of
      ML-KEM-1024 have no round-trip theorem.
    - The assembly and vendor-specific variants of wolfcrypt (sp_arm32.c,
      sp_x86_64.c, ...), which this target does not build.
    - The SoC generator (Python), BIOS, board files, linker scripts and the
      host tools of LiteX.
    - The DTLS 1.2 retransmission pool ([DtlsMsgPoolSend]) and list destruction
      functions, which only free. *)

From Stdlib Require Export ZArith Lia Btauto.
From stdpp Require Export base numbers list.

Open Scope Z_scope.

(** ** Machine words

    A w-bit unsigned integer is a [Z] in [0, 2^w); every C operation that can
    leave that range is followed by the [wrap] its type performs. *)

Definition wrap (w x : Z) : Z := x mod 2 ^ w.

Abbreviation u8 := (wrap 8).
Abbreviation u16 := (wrap 16).
Abbreviation u32 := (wrap 32).
Abbreviation u64 := (wrap 64).

(** Two's complement reading of the low [w] bits (conversion to a signed type). *)
Definition sext (w x : Z) : Z :=
  if wrap w x <? 2 ^ (w - 1) then wrap w x else wrap w x - 2 ^ w.

Abbreviation s16 := (sext 16).
Abbreviation s32 := (sext 32).

Definition in_word (w x : Z) : Prop := 0 <= x < 2 ^ w.

Abbreviation is_u8 := (in_word 8).
Abbreviation is_u16 := (in_word 16).
Abbreviation is_u32 := (in_word 32).
Abbreviation is_u64 := (in_word 64).

(** C truth value of a comparison. *)
Definition c_bool (b : bool) : Z := if b then 1 else 0.

Create HintDb word.
Create Rewrite HintDb wrap_push.

Lemma wrap_range w x : 0 <= w -> in_word w (wrap w x).
Proof. intros. apply Z.mod_pos_bound. lia. Qed.

Lemma wrap_small w x : in_word w x -> wrap w x = x.
Proof. apply Z.mod_small. Qed.

Lemma wrap_idem w x : 0 <= w -> wrap w (wrap w x) = wrap w x.
Proof. intros. apply wrap_small, wrap_range. done. Qed.

Lemma wrap_add_l w x y : wrap w (wrap w x + y) = wrap w (x + y).
Proof. apply Zplus_mod_idemp_l. Qed.

Lemma wrap_add_r w x y : wrap w (x + wrap w y) = wrap w (x + y).
Proof. apply Zplus_mod_idemp_r. Qed.

Lemma wrap_sub_l w x y : wrap w (wrap w x - y) = wrap w (x - y).
Proof. apply Zminus_mod_idemp_l. Qed.

Lemma wrap_sub_r w x y : wrap w (x - wrap w y) = wrap w (x - y).
Proof. apply Zminus_mod_idemp_r. Qed.

Lemma wrap_mul_l w x y : wrap w (wrap w x * y) = wrap w (x * y).
Proof. apply Zmult_mod_idemp_l. Qed.

Lemma wrap_mul_r w x y : wrap w (x * wrap w y) = wrap w (x * y).
Proof. apply Zmult_mod_idemp_r. Qed.

(** Conversion to a narrower type forgets an earlier wider wrap. *)
Lemma wrap_wrap_le v w x : 0 <= v <= w -> wrap v (wrap w x) = wrap v x.
Proof.
  intros. unfold wrap. apply Z.mod_mod_divide.
  exists (2 ^ (w - v)). rewrite <- Z.pow_add_r by lia. f_equal. lia.
Qed.

Lemma sext_range w x : 0 < w -> - 2 ^ (w - 1) <= sext w x < 2 ^ (w - 1).
Proof.
  intros Hw. unfold sext.
  assert (2 ^ w = 2 * 2 ^ (w - 1)) as E.
  { rewrite <- (Z.pow_succ_r 2) by lia. f_equal. lia. }
  pose proof (wrap_range w x ltac:(lia)) as R. unfold in_word in R.
  destruct (Z.ltb_spec (wrap w x) (2 ^ (w - 1))); lia.
Qed.

Lemma sext_small w x : 0 < w -> - 2 ^ (w - 1) <= x < 2 ^ (w - 1) -> sext w x = x.
Proof.
  intros Hw Hx. unfold sext.
  assert (2 ^ w = 2 * 2 ^ (w - 1)) as E.
  { rewrite <- (Z.pow_succ_r 2) by lia. f_equal. lia. }
  destruct (Z.le_gt_cases 0 x).
  - rewrite wrap_small by (unfold in_word; lia).
    destruct (Z.ltb_spec x (2 ^ (w - 1))); lia.
  - assert (wrap w x = x + 2 ^ w) as ->.
    { unfold wrap. rewrite <- (Z_mod_plus_full x 1 (2 ^ w)).
      rewrite Z.mul_1_l. apply Z.mod_small. lia. }
    destruct (Z.ltb_spec (x + 2 ^ w) (2 ^ (w - 1))); lia.
Qed.


Lemma wrap_sext w x : 0 < w -> wrap w (sext w x) = wrap w x.
Proof.
  intros Hw. unfold sext. destruct (_ <? _); [apply wrap_idem; lia|].
  unfold wrap at 1. replace (wrap w x - 2 ^ w) with (wrap w x + (-1) * 2 ^ w) by lia.
  rewrite Z_mod_plus_full. apply wrap_idem. lia.
Qed.

#[export] Hint Resolve wrap_range wrap_small : word.
#[export] Hint Rewrite wrap_add_l wrap_add_r wrap_sub_l wrap_sub_r wrap_mul_l
  wrap_mul_r : wrap_push.

(** Decide a goal about wrapped arithmetic by eliminating [/] and [mod]. *)
Ltac lia_mod :=
  unfold in_word, wrap in *; Z.to_euclidean_division_equations; lia.

(** ** Bits *)

Create Rewrite HintDb zbits.

Lemma testbit_high w x i : 0 <= x < 2 ^ w -> w <= i -> Z.testbit x i = false.
Proof.
  intros Hx Hi. destruct (Z.le_gt_cases 0 w) as [Hw|Hw].
  - rewrite <- (Z.mod_small x (2 ^ w)) by lia. apply Z.mod_pow2_bits_high. lia.
  - rewrite Z.pow_neg_r in Hx by lia. lia.
Qed.

Lemma testbit_wrap w x i :
  0 <= w -> Z.testbit (wrap w x) i = (i <? w) && Z.testbit x i.
Proof.
  intros Hw. unfold wrap. destruct (Z.ltb_spec i w); simpl.
  - destruct (Z.le_gt_cases 0 i).
    + apply Z.mod_pow2_bits_low. lia.
    + rewrite !Z.testbit_neg_r by lia. done.
  - apply Z.mod_pow2_bits_high. lia.
Qed.

Lemma testbit_ones w i :
  0 <= w -> Z.testbit (Z.ones w) i = (0 <=? i) && (i <? w).
Proof.
  intros Hw. destruct (Z.leb_spec 0 i); simpl.
  - apply Z.testbit_ones_nonneg; lia.
  - apply Z.testbit_neg_r. lia.
Qed.

Lemma wrap_land_ones w x : 0 <= w -> wrap w x = Z.land x (Z.ones w).
Proof. intros. unfold wrap. symmetry. apply Z.land_ones. lia. Qed.

Lemma land_shiftl_0 n a b :
  0 <= n -> 0 <= a < 2 ^ n -> Z.land (Z.shiftl b n) a = 0.
Proof.
  intros Hn Ha. apply Z.bits_inj'; intros i Hi.
  rewrite Z.land_spec, Z.shiftl_spec, Z.bits_0 by lia.
  destruct (Z.lt_ge_cases i n).
  - rewrite Z.testbit_neg_r by lia. done.
  - rewrite (testbit_high n a) by lia. apply andb_false_r.
Qed.

(** A field placed above [n] free bits adds. *)
Lemma lor_shiftl_add n a b :
  0 <= n -> 0 <= a < 2 ^ n -> Z.lor (Z.shiftl b n) a = b * 2 ^ n + a.
Proof.
  intros Hn Ha. pose proof (land_shiftl_0 n a b Hn Ha).
  rewrite <- Z.lxor_lor, <- Z.add_nocarry_lxor by done.
  rewrite Z.shiftl_mul_pow2 by lia. done.
Qed.

Lemma lor_range w a b : 0 <= w -> in_word w a -> in_word w b -> in_word w (Z.lor a b).
Proof.
  intros Hw Ha Hb. unfold in_word in *.
  assert (Z.lor a b = wrap w (Z.lor a b)) as ->; [|apply wrap_range; lia].
  apply Z.bits_inj'; intros i Hi. rewrite testbit_wrap, Z.lor_spec by lia.
  destruct (Z.ltb_spec i w); simpl; [done|].
  rewrite !(testbit_high w) by lia. done.
Qed.

Lemma lxor_range w a b : 0 <= w -> in_word w a -> in_word w b -> in_word w (Z.lxor a b).
Proof.
  intros Hw Ha Hb. unfold in_word in *.
  assert (Z.lxor a b = wrap w (Z.lxor a b)) as ->; [|apply wrap_range; lia].
  apply Z.bits_inj'; intros i Hi. rewrite testbit_wrap, Z.lxor_spec by lia.
  destruct (Z.ltb_spec i w); simpl; [done|].
  rewrite !(testbit_high w) by lia. done.
Qed.

Lemma land_range w a b : 0 <= w -> 0 <= a -> in_word w b -> in_word w (Z.land a b).
Proof.
  intros Hw Ha Hb. unfold in_word in *.
  assert (Z.land a b = wrap w (Z.land a b)) as ->; [|apply wrap_range; lia].
  apply Z.bits_inj'; intros i Hi. rewrite testbit_wrap, Z.land_spec by lia.
  destruct (Z.ltb_spec i w); simpl; [done|].
  rewrite (testbit_high w b) by lia. apply andb_false_r.
Qed.

#[export] Hint Resolve lor_range lxor_range land_range : word.
#[export] Hint Rewrite Z.land_spec Z.lor_spec Z.lxor_spec Z.bits_0 : zbits.
#[export] Hint Rewrite testbit_wrap testbit_ones Z.shiftl_spec Z.shiftr_spec
  using lia : zbits.

(** Reduce an equation between words to its bits. *)
Ltac bitwise i :=
  apply Z.bits_inj'; intros i ?; autorewrite with zbits.

(** ** Byte strings and memory *)

Definition is_byte (b : Z) : Prop := 0 <= b < 256.

Abbreviation bytes := (Forall is_byte).

#[export] Instance is_byte_dec b : Decision (is_byte b).
Proof. unfold is_byte. apply _. Defined.

(** [slice off len l]: the [len] bytes of [l] from offset [off]. *)
Definition slice {A} (off len : nat) (l : list A) : list A := take len (drop off l).

(** [blit off src dst]: memcpy of [src] over [dst] at offset [off]; bytes that
    would fall past the end of [dst] are not part of [dst]. *)
Definition blit {A} (off : nat) (src dst : list A) : list A :=
  take off dst ++ take (length dst - off) src ++ drop (off + length src) dst.

(** Byte [i] of a buffer, 0 outside it. *)
Definition at_ (l : list Z) (i : nat) : Z := nth i l 0.

Section ListFacts.
Context {A : Type}.
Implicit Types l src dst : list A.

Lemma length_slice off len l :
  (off + len <= length l)%nat -> length (slice off len l) = len.
Proof. intros. unfold slice. rewrite length_take, length_drop. lia. Qed.

Lemma length_blit off src dst : (off <= length dst)%nat ->
  length (blit off src dst) = length dst.
Proof.
  intros. unfold blit. rewrite !length_app, !length_take, length_drop. lia.
Qed.

Lemma lookup_blit off src dst k : (off + length src <= length dst)%nat ->
  blit off src dst !! k
  = if decide (off <= k < off + length src)%nat then src !! (k - off)%nat else dst !! k.
Proof.
  intros L. unfold blit. rewrite (take_ge src) by lia.
  assert (length (take off dst) = off) as Lo by (rewrite length_take; lia).
  destruct (decide _) as [D|D].
  - rewrite lookup_app_r, lookup_app_l by lia. rewrite Lo. done.
  - destruct (Nat.lt_ge_cases k off).
    + rewrite lookup_app_l by lia. apply lookup_take_lt. lia.
    + rewrite !lookup_app_r by lia. rewrite lookup_drop. f_equal. lia.
Qed.

Lemma slice_blit_same off src dst :
  (off + length src <= length dst)%nat ->
  slice off (length src) (blit off src dst) = src.
Proof.
  intros. unfold slice, blit.
  rewrite drop_app_ge by (rewrite length_take; lia).
  rewrite length_take, Nat.min_l, Nat.sub_diag, drop_0 by lia.
  rewrite take_app_le by (rewrite length_take; lia).
  rewrite take_take. apply take_ge. lia.
Qed.

Lemma slice_app_l off len l1 l2 :
  (off + len <= length l1)%nat -> slice off len (l1 ++ l2) = slice off len l1.
Proof.
  intros. unfold slice. rewrite drop_app_le, take_app_le by (rewrite ?length_drop; lia).
  done.
Qed.

Lemma slice_app_r off len l1 l2 :
  (length l1 <= off)%nat ->
  slice off len (l1 ++ l2) = slice (off - length l1) len l2.
Proof. intros. unfold slice. rewrite drop_app_ge by lia. done. Qed.

Lemma slice_all len l : length l = len -> slice 0 len l = l.
Proof. intros. unfold slice. rewrite drop_0. apply take_ge. lia. Qed.

Lemma slice_slice o1 n1 o2 n2 l :
  (o2 + n2 <= n1)%nat -> slice o2 n2 (slice o1 n1 l) = slice (o1 + o2) n2 l.
Proof.
  intros. unfold slice.
  rewrite skipn_firstn_comm, take_take, drop_drop. f_equal. lia.
Qed.

Lemma slice_split off n1 n2 l :
  slice off (n1 + n2) l = slice off n1 l ++ slice (off + n1) n2 l.
Proof.
  unfold slice. rewrite <- (take_drop n1 (take (n1 + n2) (drop off l))).
  rewrite take_take, Nat.min_l by lia. f_equal.
  rewrite skipn_firstn_comm, drop_drop. f_equal. lia.
Qed.

Lemma Forall_slice (P : A -> Prop) off len l : Forall P l -> Forall P (slice off len l).
Proof. intros. apply Forall_take, Forall_drop. done. Qed.
End ListFacts.

#[export] Hint Resolve Forall_slice : word.

(** ** A state-error monad

    A C function that mutates the connection object and returns 0 or a
    negative code is a computation [S -> (Z + A) * S]: [inl e] is the early
    return of code [e], and the changes made before it stay. *)

Definition M (S A : Type) : Type := S -> (Z + A) * S.

Definition ret {S A} (a : A) : M S A := fun s => (inr a, s).
Definition fail {S A} (e : Z) : M S A := fun s => (inl e, s).
Definition get {S} : M S S := fun s => (inr s, s).
Definition put {S} (s' : S) : M S unit := fun _ => (inr tt, s').
Definition modify {S} (f : S -> S) : M S unit := fun s => (inr tt, f s).
Definition bind {S A B} (m : M S A) (k : A -> M S B) : M S B :=
  fun s => match m s with
           | (inl e, s') => (inl e, s')
           | (inr a, s') => k a s'
           end.

Declare Scope c_scope.
Delimit Scope c_scope with c.
Notation "'let!' x := m 'in' k" := (bind m (fun x => k))
  (at level 10, x pattern, m at level 100, k at level 200) : c_scope.
Notation "m ';;;' k" := (bind m (fun _ => k))
  (at level 199, right associativity) : c_scope.
