(* ===== verification/Misc.v ===== *)
(** * wolfcrypt/src/misc.c: integer codecs, 64-bit counters, constant time

    The big-endian codecs ([c16toa], [ato16], ...), the [w64wrapper] counters
    the DTLS 1.3 record layer numbers its epochs and records with (the
    [WORD64_AVAILABLE] branch, as compiled for rv32), the constant-time masks,
    [min]/[max], [xorbuf] and [ConstantCompare]. *)

From S2P Require Import Prelude.
Open Scope Z_scope.

(** ** Big-endian codecs *)

Definition c32to24 (x : Z) : list Z :=
  [u8 (Z.land (Z.shiftr x 16) 255); u8 (Z.land (Z.shiftr x 8) 255);
   u8 (Z.land x 255)].

Definition c16toa (x : Z) : list Z :=
  [u8 (Z.land (Z.shiftr x 8) 255); u8 (Z.land x 255)].

Definition c32toa (x : Z) : list Z :=
  [u8 (Z.land (Z.shiftr x 24) 255); u8 (Z.land (Z.shiftr x 16) 255);
   u8 (Z.land (Z.shiftr x 8) 255); u8 (Z.land x 255)].

Definition c24to32 (c : list Z) : Z :=
  Z.lor (Z.lor (u32 (Z.shiftl (at_ c 0) 16)) (u32 (Z.shiftl (at_ c 1) 8))) (at_ c 2).

Definition ato24 (c : list Z) : Z :=
  Z.lor (Z.lor (u32 (Z.shiftl (at_ c 0) 16)) (u32 (Z.shiftl (at_ c 1) 8))) (at_ c 2).

Definition ato16 (c : list Z) : Z := u16 (Z.lor (Z.shiftl (at_ c 0) 8) (at_ c 1)).

Definition ato32 (c : list Z) : Z :=
  Z.lor (Z.lor (Z.lor (u32 (Z.shiftl (at_ c 0) 24)) (u32 (Z.shiftl (at_ c 1) 16)))
               (u32 (Z.shiftl (at_ c 2) 8))) (at_ c 3).

Definition ato32le (c : list Z) : Z :=
  Z.lor (Z.lor (Z.lor (at_ c 0) (u32 (Z.shiftl (at_ c 1) 8)))
               (u32 (Z.shiftl (at_ c 2) 16))) (u32 (Z.shiftl (at_ c 3) 24)).

(** The four bytes of a word as the little-endian core stores them. *)
Definition le_bytes (n : nat) (x : Z) : list Z :=
  map (fun i => u8 (Z.shiftr x (8 * Z.of_nat i))) (seq 0 n).

Fixpoint le_word (l : list Z) : Z :=
  match l with [] => 0 | b :: l' => b + 256 * le_word l' end.

Definition rotlFixed (x y : Z) : Z := Z.lor (u32 (Z.shiftl x y)) (Z.shiftr x (32 - y)).
Definition rotrFixed (x y : Z) : Z := Z.lor (Z.shiftr x y) (u32 (Z.shiftl x (32 - y))).

Definition ByteReverseWord32 (value : Z) : Z :=
  let value := Z.lor (Z.shiftr (Z.land value 0xFF00FF00) 8)
                     (u32 (Z.shiftl (Z.land value 0x00FF00FF) 8)) in
  rotlFixed value 16.

Definition ByteReverseWord64 (value : Z) : Z :=
  Z.lor (u64 (Z.shiftl (ByteReverseWord32 (u32 value)) 32))
        (ByteReverseWord32 (u32 (Z.shiftr value 32))).

Definition c64toa (a : Z) : list Z := le_bytes 8 (ByteReverseWord64 a).
Definition ato64 (c : list Z) : Z := ByteReverseWord64 (le_word (take 8 c)).

(** ** 64-bit counters *)

Definition w64Increment (n : Z) : Z := u64 (n + 1).
Definition w64Decrement (n : Z) : Z := u64 (n - 1).
Definition w64Equal (a b : Z) : bool := a =? b.
Definition w64GetLow32 (n : Z) : Z := u32 n.
Definition w64GetHigh32 (n : Z) : Z := u32 (Z.shiftr n 32).
Definition w64SetLow32 (n low : Z) : Z :=
  Z.lor (Z.land n (u64 (Z.lnot 0xffffffff))) low.

(** The wrap flag is only ever raised: the caller clears it. *)
Definition w64Add32 (a b : Z) (wrap_in : bool) : Z * bool :=
  let s := u64 (a + b) in (s, if s <? b then true else wrap_in).
Definition w64Sub32 (a b : Z) (wrap_in : bool) : Z * bool :=
  (u64 (a - b), if a <? b then true else wrap_in).
Definition w64Sub (a b : Z) : Z := u64 (a - b).
Definition w64GT (a b : Z) : bool := b <? a.
Definition w64GTE (a b : Z) : bool := b <=? a.
Definition w64LT (a b : Z) : bool := a <? b.
Definition w64IsZero (a : Z) : bool := a =? 0.
Definition w64From32 (hi lo : Z) : Z := Z.lor (u64 (Z.shiftl hi 32)) lo.

(** ** Constant-time operations *)

Definition ctMaskGT (a b : Z) : Z :=
  u8 (u32 (Z.shiftr (u32 (a - b - 1)) 31 - 1)).
Definition ctMaskGTE (a b : Z) : Z := u8 (u32 (Z.shiftr (u32 (a - b)) 31 - 1)).
Definition ctMaskWord32GTE (a b : Z) : Z :=
  u32 (u64 (Z.shiftr (u64 (a - b)) 63 - 1)).
Definition ctMaskLT (a b : Z) : Z :=
  u8 (u32 (Z.shiftr (u32 (b - a - 1)) 31 - 1)).
Definition ctMaskLTE (a b : Z) : Z := u8 (u32 (Z.shiftr (u32 (b - a)) 31 - 1)).
Definition ctMaskEq (a b : Z) : Z :=
  u8 (Z.land (u8 (Z.lnot (ctMaskGT a b))) (u8 (Z.lnot (ctMaskLT a b)))).
Definition ctMaskNotEq (a b : Z) : Z := u8 (Z.lor (ctMaskGT a b) (ctMaskLT a b)).
Definition ctMaskSel (m a b : Z) : Z :=
  u8 (Z.lor (Z.land b (u8 (u32 (Z.lnot m)))) (Z.land a m)).

Definition min32 (a b : Z) : Z :=
  let gte_mask := ctMaskWord32GTE a b in
  Z.lor (Z.land a (u32 (Z.lnot gte_mask))) (Z.land b gte_mask).
Definition max32 (a b : Z) : Z :=
  let gte_mask := ctMaskWord32GTE a b in
  Z.lor (Z.land a gte_mask) (Z.land b (u32 (Z.lnot gte_mask))).

(** The word loop: [n] words of 4 bytes, loaded and stored little-endian. *)
Fixpoint XorWords (n : nat) (b m : list Z) : list Z :=
  match n with
  | O => b
  | S n' => le_bytes 4 (Z.lxor (le_word (take 4 b)) (le_word (take 4 m)))
              ++ XorWords n' (drop 4 b) (drop 4 m)
  end.

(** The byte loop: [count] bytes in place. *)
Fixpoint xor_bytes (count : nat) (b m : list Z) : list Z :=
  match count, b, m with
  | S n, x :: b', y :: m' => Z.lxor x y :: xor_bytes n b' m'
  | _, _, _ => b
  end.

(** Words first, then the 0..3 bytes left, from an aligned position. *)
Definition xorbuf_aligned (count : nat) (b m : list Z) : list Z :=
  let n := (count / 4)%nat in
  let b' := XorWords n b m in
  take (4 * n) b' ++ xor_bytes (count mod 4) (drop (4 * n) b') (drop (4 * n) m).

(** Bytes before the next multiple of 4 of an address. *)
Definition to_align (addr : Z) : nat := Z.to_nat ((- addr) mod 4).

(** [baddr], [maddr]: the addresses of the two buffers. *)
Definition xorbuf (baddr maddr : Z) (b m : list Z) (count : nat) : list Z :=
  if (Z.land baddr 3 =? 0) && (Z.land maddr 3 =? 0) then xorbuf_aligned count b m
  else if Z.land baddr 3 =? Z.land maddr 3 then
    let k := Nat.min (to_align baddr) count in
    let b' := xor_bytes k b m in
    take k b' ++ xorbuf_aligned (count - k) (drop k b') (drop k m)
  else xor_bytes count b m.

Fixpoint ConstantCompare_loop (a b : list Z) (length : nat) (compareSum : Z) : Z :=
  match length with
  | O => compareSum
  | S n => ConstantCompare_loop (tail a) (tail b) n
             (Z.lor compareSum (Z.lxor (at_ a 0) (at_ b 0)))
  end.
Definition ConstantCompare (a b : list Z) (length : nat) : Z :=
  ConstantCompare_loop a b length 0.

(** Bytes up to an aligned address, words of [unsigned long] (4 bytes), then
    the bytes left. *)
Definition zero_bytes (n : nat) (mem : list Z) : list Z := replicate n 0 ++ drop n mem.

Fixpoint zero_words (n : nat) (mem : list Z) : list Z :=
  match n with
  | O => mem
  | S n' => replicate 4 0 ++ zero_words n' (drop 4 mem)
  end.

Definition ForceZero (addr : Z) (mem : list Z) (len : nat) : list Z :=
  if (len <? to_align addr)%nat then zero_bytes len mem
  else
    let k := to_align addr in
    let n := ((len - k) / 4)%nat in
    let mem1 := zero_bytes k mem in
    let mem2 := take k mem1 ++ zero_words n (drop k mem1) in
    take (k + 4 * n) mem2 ++ zero_bytes ((len - k) mod 4) (drop (k + 4 * n) mem2).

(** ** Codecs: lemmas *)

Lemma byte_mask x : 0 <= x -> u8 (Z.land x 255) = x mod 256.
Proof.
  intros. change 255 with (Z.ones 8). rewrite Z.land_ones by lia.
  apply (wrap_idem 8). lia.
Qed.

Lemma length_c16toa x : length (c16toa x) = 2%nat. Proof. done. Qed.
Lemma length_c32to24 x : length (c32to24 x) = 3%nat. Proof. done. Qed.
Lemma length_c32toa x : length (c32toa x) = 4%nat. Proof. done. Qed.
Lemma length_le_bytes n x : length (le_bytes n x) = n.
Proof. unfold le_bytes. rewrite length_map, length_seq. done. Qed.
Lemma length_c64toa x : length (c64toa x) = 8%nat. Proof. apply length_le_bytes. Qed.

Lemma u8_byte x : is_byte (u8 x).
Proof. apply (wrap_range 8). lia. Qed.

Lemma bytes_c16toa x : bytes (c16toa x).
Proof. repeat constructor; apply u8_byte. Qed.
Lemma bytes_c32to24 x : bytes (c32to24 x).
Proof. repeat constructor; apply u8_byte. Qed.
Lemma bytes_c32toa x : bytes (c32toa x).
Proof. repeat constructor; apply u8_byte. Qed.
Lemma bytes_le_bytes n x : bytes (le_bytes n x).
Proof. apply Forall_map, Forall_true. intros. apply u8_byte. Qed.
Lemma bytes_c64toa x : bytes (c64toa x). Proof. apply bytes_le_bytes. Qed.

#[export] Hint Resolve u8_byte bytes_c16toa bytes_c32to24 bytes_c32toa bytes_c64toa
  bytes_le_bytes : word.

(** Decoders as positional sums, on bytes. *)
Lemma ato16_sum b0 b1 l : is_byte b0 -> is_byte b1 ->
  ato16 (b0 :: b1 :: l) = b0 * 256 + b1.
Proof.
  unfold is_byte. intros. unfold ato16, at_. simpl.
  rewrite lor_shiftl_add by lia. apply wrap_small. unfold in_word. lia.
Qed.

Lemma ato24_sum b0 b1 b2 l : is_byte b0 -> is_byte b1 -> is_byte b2 ->
  ato24 (b0 :: b1 :: b2 :: l) = b0 * 65536 + b1 * 256 + b2.
Proof.
  unfold is_byte. intros. unfold ato24, at_. simpl.
  rewrite !(wrap_small 32) by (unfold in_word; rewrite Z.shiftl_mul_pow2 by lia; lia).
  rewrite <- Z.lor_assoc, (lor_shiftl_add 8) by lia.
  rewrite (lor_shiftl_add 16) by lia. lia.
Qed.

Lemma ato32_sum b0 b1 b2 b3 l :
  is_byte b0 -> is_byte b1 -> is_byte b2 -> is_byte b3 ->
  ato32 (b0 :: b1 :: b2 :: b3 :: l) = b0 * 2 ^ 24 + b1 * 65536 + b2 * 256 + b3.
Proof.
  unfold is_byte. intros. unfold ato32, at_. simpl.
  rewrite !(wrap_small 32) by (unfold in_word; rewrite Z.shiftl_mul_pow2 by lia; lia).
  rewrite <- !Z.lor_assoc, (lor_shiftl_add 8) by lia.
  rewrite (lor_shiftl_add 16), (lor_shiftl_add 24) by lia. lia.
Qed.

Lemma ato16_c16toa x l : is_u16 x -> ato16 (c16toa x ++ l) = x.
Proof.
  unfold in_word. intros. unfold c16toa. simpl.
  rewrite ato16_sum by apply u8_byte.
  rewrite !byte_mask, Z.shiftr_div_pow2 by (rewrite ?Z.shiftr_div_pow2 by lia; lia_mod).
  lia_mod.
Qed.

Lemma ato24_c32to24 x l : in_word 24 x -> ato24 (c32to24 x ++ l) = x.
Proof.
  unfold in_word. intros. unfold c32to24. simpl.
  rewrite ato24_sum by apply u8_byte.
  rewrite !byte_mask, !Z.shiftr_div_pow2 by (rewrite ?Z.shiftr_div_pow2 by lia; lia_mod).
  lia_mod.
Qed.

Lemma ato32_c32toa x l : is_u32 x -> ato32 (c32toa x ++ l) = x.
Proof.
  unfold in_word. intros. unfold c32toa. simpl.
  rewrite ato32_sum by apply u8_byte.
  rewrite !byte_mask, !Z.shiftr_div_pow2 by (rewrite ?Z.shiftr_div_pow2 by lia; lia_mod).
  lia_mod.
Qed.

Lemma c16toa_ato16 b0 b1 l : is_byte b0 -> is_byte b1 ->
  c16toa (ato16 (b0 :: b1 :: l)) = [b0; b1].
Proof.
  unfold is_byte. intros. rewrite ato16_sum by done. unfold c16toa.
  rewrite !byte_mask, !Z.shiftr_div_pow2 by (rewrite ?Z.shiftr_div_pow2 by lia; lia_mod).
  repeat f_equal; lia_mod.
Qed.

Lemma c24to32_ato24 c : c24to32 c = ato24 c. Proof. done. Qed.

(** The byte swap, bit by bit: bit [8i+j] comes from bit [8(3-i)+j]. *)
Lemma ByteReverseWord32_bits v i j : is_u32 v -> 0 <= i < 4 -> 0 <= j < 8 ->
  Z.testbit (ByteReverseWord32 v) (8 * i + j) = Z.testbit v (8 * (3 - i) + j).
Proof.
  intros Hv Hi Hj. unfold ByteReverseWord32, rotlFixed.
  assert (i = 0 \/ i = 1 \/ i = 2 \/ i = 3) as Ci by lia.
  assert (j = 0 \/ j = 1 \/ j = 2 \/ j = 3 \/ j = 4 \/ j = 5 \/ j = 6 \/ j = 7) as Cj by lia.
  destruct Ci as [-> | [-> | [-> | ->]]];
  destruct Cj as [-> | [-> | [-> | [-> | [-> | [-> | [-> | ->]]]]]]];
  autorewrite with zbits; simpl;
  rewrite ?(Z.testbit_neg_r v), ?(testbit_high 32 v), ?andb_true_r, ?andb_false_r,
    ?orb_false_r by lia; done.
Qed.

Lemma ByteReverseWord32_range v : is_u32 v -> is_u32 (ByteReverseWord32 v).
Proof.
  intros Hv. unfold ByteReverseWord32, rotlFixed. apply lor_range; [lia|apply wrap_range; lia|].
  set (x := Z.lor _ _).
  assert (is_u32 x) as Hx.
  { apply lor_range; [lia| |apply wrap_range; lia].
    rewrite Z.shiftr_div_pow2 by lia.
    pose proof (land_range 32 0xFF00FF00 v ltac:(lia) ltac:(lia) Hv) as R.
    rewrite Z.land_comm in R. lia_mod. }
  rewrite Z.shiftr_div_pow2 by lia. lia_mod.
Qed.

(** Two bytes (or words) equal when their bits are. *)
Lemma word_eq_bits w a b : in_word w a -> in_word w b ->
  (forall i, 0 <= i < w -> Z.testbit a i = Z.testbit b i) -> a = b.
Proof.
  intros Ha Hb H. apply Z.bits_inj'. intros i Hi.
  destruct (Z.lt_ge_cases i w); [apply H; lia|].
  rewrite !(testbit_high w) by (unfold in_word in *; lia). done.
Qed.

Lemma byte_of_bits x i j : 0 <= i -> 0 <= j < 8 ->
  Z.testbit (u8 (Z.shiftr x (8 * i))) j = Z.testbit x (8 * i + j).
Proof.
  intros. autorewrite with zbits. destruct (Z.ltb_spec j 8); [|lia].
  rewrite andb_true_l. f_equal. lia.
Qed.

Lemma le_bytes_reverse32 v : is_u32 v -> le_bytes 4 (ByteReverseWord32 v) = c32toa v.
Proof.
  intros Hv. unfold le_bytes, c32toa. simpl map.
  change 255 with (Z.ones 8). rewrite <- !wrap_land_ones, !wrap_idem by lia.
  repeat apply (f_equal2 cons); try done; apply (word_eq_bits 8);
    try (apply wrap_range; lia); intros j Hj.
  - rewrite (byte_of_bits _ 0), (byte_of_bits v 3), ByteReverseWord32_bits by (done || lia). done.
  - rewrite (byte_of_bits _ 1), (byte_of_bits v 2), ByteReverseWord32_bits by (done || lia). done.
  - rewrite (byte_of_bits _ 2), (byte_of_bits v 1), ByteReverseWord32_bits by (done || lia). done.
  - rewrite (byte_of_bits _ 3), ByteReverseWord32_bits by (done || lia).
    rewrite testbit_wrap by lia. destruct (Z.ltb_spec j 8); [done|lia].
Qed.

Lemma le_bytes_app n m x :
  le_bytes (n + m) x = le_bytes n x ++ le_bytes m (Z.shiftr x (8 * Z.of_nat n)).
Proof.
  unfold le_bytes. rewrite seq_app, map_app. f_equal.
  rewrite <- (Nat.add_0_r (0 + n)), <- fmap_add_seq, <- list_fmap_compose. simpl.
  apply list_fmap_ext. intros i k Hk. simpl. f_equal.
  rewrite Z.shiftr_shiftr by lia. f_equal. lia.
Qed.

(** [c64toa] writes the two halves big-endian, high half first. *)
Lemma c64toa_c32toa a : is_u64 a ->
  c64toa a = c32toa (Z.shiftr a 32) ++ c32toa (u32 a).
Proof.
  intros Ha. unfold c64toa, ByteReverseWord64.
  pose proof (wrap_range 32 a ltac:(lia)) as Hlo.
  pose proof (ByteReverseWord32_range _ Hlo) as Rlo.
  rewrite (wrap_small 32 (Z.shiftr a 32)) by
    (unfold in_word in *; rewrite Z.shiftr_div_pow2 by lia; lia_mod).
  assert (is_u32 (Z.shiftr a 32)) as Hhi by
    (unfold in_word in *; rewrite Z.shiftr_div_pow2 by lia; lia_mod).
  pose proof (ByteReverseWord32_range _ Hhi) as Rhi.
  rewrite (wrap_small 64) by (unfold in_word in *; rewrite Z.shiftl_mul_pow2 by lia; lia).
  rewrite (le_bytes_app 4 4). f_equal.
  - rewrite <- le_bytes_reverse32 by done. unfold le_bytes. apply map_ext_in.
    intros i Hi%in_seq. apply (word_eq_bits 8); try (apply wrap_range; lia).
    intros j Hj. rewrite !byte_of_bits, Z.lor_spec, Z.shiftl_spec by lia.
    rewrite Z.testbit_neg_r by lia. done.
  - rewrite <- le_bytes_reverse32 by done. f_equal. bitwise i.
    rewrite (testbit_high 32 _ (i + _)) by (unfold in_word in *; lia).
    rewrite orb_false_r. f_equal. lia.
Qed.

Lemma ByteReverseWord32_invol v : is_u32 v -> ByteReverseWord32 (ByteReverseWord32 v) = v.
Proof.
  intros Hv. pose proof (ByteReverseWord32_range v Hv) as Rv.
  apply (word_eq_bits 32); [by apply ByteReverseWord32_range|done|].
  intros k Hk. pose proof (Z.div_mod k 8 ltac:(lia)) as E.
  pose proof (Z.mod_pos_bound k 8 ltac:(lia)) as B.
  rewrite E, !ByteReverseWord32_bits by (done || lia). f_equal. lia.
Qed.

Lemma ByteReverseWord64_range v : is_u64 (ByteReverseWord64 v).
Proof.
  unfold ByteReverseWord64. apply lor_range; [lia|apply wrap_range; lia|].
  pose proof (ByteReverseWord32_range (u32 (Z.shiftr v 32)) (wrap_range 32 _ ltac:(lia))).
  unfold in_word in *. lia.
Qed.

Lemma ByteReverseWord64_invol v : is_u64 v -> ByteReverseWord64 (ByteReverseWord64 v) = v.
Proof.
  intros Hv.
  pose proof (ByteReverseWord32_range _ (wrap_range 32 v ltac:(lia))) as Rlo.
  pose proof (ByteReverseWord32_range _ (wrap_range 32 (Z.shiftr v 32) ltac:(lia))) as Rhi.
  unfold ByteReverseWord64 at 2.
  rewrite (wrap_small 64) by (unfold in_word in *; rewrite Z.shiftl_mul_pow2 by lia; lia).
  unfold in_word in *. rewrite lor_shiftl_add by lia.
  set (lo := ByteReverseWord32 (u32 v)) in *.
  set (hi := ByteReverseWord32 (u32 (Z.shiftr v 32))) in *.
  unfold ByteReverseWord64. rewrite Z.shiftr_div_pow2 by lia.
  replace (u32 (lo * 2 ^ 32 + hi)) with hi by lia_mod.
  replace (u32 ((lo * 2 ^ 32 + hi) / 2 ^ 32)) with lo by lia_mod.
  subst lo hi. rewrite !ByteReverseWord32_invol by (apply wrap_range; lia).
  rewrite (wrap_small 64) by (pose proof (wrap_range 32 (Z.shiftr v 32) ltac:(lia));
    unfold in_word in *; rewrite Z.shiftl_mul_pow2 by lia; lia).
  rewrite lor_shiftl_add by (try apply wrap_range; lia).
  rewrite Z.shiftr_div_pow2 by lia. lia_mod.
Qed.

Lemma le_word_le_bytes n x : le_word (le_bytes n x) = x mod 2 ^ (8 * Z.of_nat n).
Proof.
  revert x. induction n as [|n IH]; intros x.
  - simpl. rewrite Z.mod_1_r. done.
  - rewrite (le_bytes_app 1 n). simpl app. simpl le_word. rewrite IH, Z.shiftr_0_r.
    rewrite Z.shiftr_div_pow2 by lia. unfold wrap.
    replace (8 * Z.of_nat (S n)) with (8 + 8 * Z.of_nat n) by lia.
    rewrite Z.pow_add_r by lia.
    rewrite (Z.rem_mul_r x (2 ^ 8)) by lia. change (8 * Z.of_nat 1) with 8.
    change (2 ^ 8) with 256. lia.
Qed.

Lemma le_bytes_le_word l : bytes l -> le_bytes (length l) (le_word l) = l.
Proof.
  induction 1 as [|b l Hb Hl IH]; [done|].
  simpl length. rewrite (le_bytes_app 1 (length l)). simpl le_word.
  unfold is_byte in Hb.
  replace (Z.shiftr (b + 256 * le_word l) (8 * Z.of_nat 1)) with (le_word l).
  - rewrite IH. unfold le_bytes. simpl. rewrite Z.shiftr_0_r. f_equal. lia_mod.
  - rewrite Z.shiftr_div_pow2 by lia. simpl (8 * Z.of_nat 1). lia_mod.
Qed.

Lemma le_word_range l : bytes l -> in_word (8 * Z.of_nat (length l)) (le_word l).
Proof.
  intros H. rewrite <- (le_bytes_le_word l H), le_word_le_bytes, length_le_bytes.
  apply wrap_range. lia.
Qed.

Lemma ato64_c64toa a l : is_u64 a -> ato64 (c64toa a ++ l) = a.
Proof.
  intros Ha. unfold ato64.
  rewrite take_app_length' by (symmetry; apply length_c64toa).
  unfold c64toa. rewrite le_word_le_bytes.
  rewrite Z.mod_small by apply ByteReverseWord64_range.
  by apply ByteReverseWord64_invol.
Qed.

Lemma c64toa_ato64 l : bytes l -> length l = 8%nat -> c64toa (ato64 l) = l.
Proof.
  intros Hb Hl. unfold c64toa, ato64. rewrite take_ge by lia.
  rewrite ByteReverseWord64_invol.
  - rewrite <- Hl. by apply le_bytes_le_word.
  - pose proof (le_word_range l Hb) as R. rewrite Hl in R. done.
Qed.

Lemma ato64_range c : is_u64 (ato64 c).
Proof. apply ByteReverseWord64_range. Qed.

Lemma ato16_range c : is_u16 (ato16 c).
Proof. apply wrap_range. lia. Qed.

#[export] Hint Resolve ato64_range ato16_range : word.

(** ** Counters: lemmas *)

Lemma w64_halves n : is_u64 n ->
  w64From32 (w64GetHigh32 n) (w64GetLow32 n) = n.
Proof.
  intros Hn. unfold w64From32, w64GetHigh32, w64GetLow32, in_word in *.
  rewrite Z.shiftr_div_pow2 by lia.
  rewrite (wrap_small 64) by (unfold in_word; rewrite Z.shiftl_mul_pow2 by lia; lia_mod).
  rewrite lor_shiftl_add by lia_mod. lia_mod.
Qed.

Lemma w64SetLow32_spec n low : is_u64 n -> is_u32 low ->
  w64SetLow32 n low = n / 2 ^ 32 * 2 ^ 32 + low.
Proof.
  intros Hn Hl. unfold w64SetLow32.
  assert (Z.land n (u64 (Z.lnot 0xffffffff)) = Z.shiftl (Z.shiftr n 32) 32) as ->.
  { bitwise i. destruct (Z.lt_ge_cases i 32).
    - rewrite (Z.testbit_neg_r _ (i - 32)) by lia.
      change 4294967295 with (Z.ones 32). rewrite Z.lnot_spec, testbit_ones by lia.
      destruct (Z.leb_spec 0 i), (Z.ltb_spec i 32); try lia;
        simpl; rewrite ?andb_false_r; done.
    - rewrite Z.shiftr_spec by lia. replace (i - 32 + 32) with i by lia.
      change 4294967295 with (Z.ones 32). rewrite Z.lnot_spec, testbit_ones by lia.
      destruct (Z.ltb_spec i 32), (Z.ltb_spec i 64); try lia;
        rewrite andb_false_r; simpl; rewrite ?andb_true_r, ?andb_false_r; try done.
      rewrite (testbit_high 64 n) by (done || lia). done. }
  rewrite lor_shiftl_add by (done || lia). rewrite Z.shiftr_div_pow2 by lia. done.
Qed.

(** ** Masks: lemmas *)

Lemma sign_mask d : - 2 ^ 31 <= d < 2 ^ 31 ->
  u8 (u32 (Z.shiftr (u32 d) 31 - 1)) = if 0 <=? d then 255 else 0.
Proof.
  intros Hd. rewrite Z.shiftr_div_pow2 by lia.
  destruct (Z.leb_spec 0 d).
  - replace (u32 d / 2 ^ 31) with 0 by lia_mod. done.
  - replace (u32 d / 2 ^ 31) with 1 by lia_mod. done.
Qed.

Lemma ctMaskWord32GTE_spec a b : is_u32 a -> is_u32 b ->
  ctMaskWord32GTE a b = if b <=? a then 0xffffffff else 0.
Proof.
  intros Ha Hb. unfold ctMaskWord32GTE, in_word in *. rewrite Z.shiftr_div_pow2 by lia.
  destruct (Z.leb_spec b a).
  - replace (u64 (a - b) / 2 ^ 63) with 0 by lia_mod. done.
  - replace (u64 (a - b) / 2 ^ 63) with 1 by lia_mod. done.
Qed.

Lemma land_ones32 a : is_u32 a -> Z.land a 0xffffffff = a.
Proof.
  intros. change 0xffffffff with (Z.ones 32). rewrite Z.land_ones by lia.
  by apply wrap_small.
Qed.

Lemma min32_spec a b : is_u32 a -> is_u32 b -> min32 a b = Z.min a b.
Proof.
  intros Ha Hb. unfold min32. rewrite ctMaskWord32GTE_spec by done.
  destruct (Z.leb_spec b a);
    change (u32 (Z.lnot 4294967295)) with 0; change (u32 (Z.lnot 0)) with 0xffffffff.
  - rewrite Z.land_0_r, land_ones32, Z.lor_0_l by done. lia.
  - rewrite Z.land_0_r, land_ones32, Z.lor_0_r by done. lia.
Qed.

Lemma max32_spec a b : is_u32 a -> is_u32 b -> max32 a b = Z.max a b.
Proof.
  intros Ha Hb. unfold max32. rewrite ctMaskWord32GTE_spec by done.
  destruct (Z.leb_spec b a);
    change (u32 (Z.lnot 4294967295)) with 0; change (u32 (Z.lnot 0)) with 0xffffffff.
  - rewrite Z.land_0_r, land_ones32, Z.lor_0_r by done. lia.
  - rewrite Z.land_0_r, land_ones32, Z.lor_0_l by done. lia.
Qed.

(** The constant-time masks are all-ones exactly when the comparison they
    are named after holds, and zero otherwise, for operands whose difference
    fits an [int] (the 31-bit shift reads the sign of the wrapped difference). *)
Theorem ct_masks_correct a b (H : Z.abs (a - b) < 2 ^ 31) :
  ctMaskGT a b = (if b <? a then 255 else 0) /\
  ctMaskGTE a b = (if b <=? a then 255 else 0) /\
  ctMaskLT a b = (if a <? b then 255 else 0) /\
  ctMaskLTE a b = (if a <=? b then 255 else 0) /\
  ctMaskEq a b = (if a =? b then 255 else 0) /\
  ctMaskNotEq a b = (if a =? b then 0 else 255).
Proof.
  assert (ctMaskGT a b = if b <? a then 255 else 0) as GT.
  { unfold ctMaskGT. rewrite sign_mask by lia.
    destruct (Z.leb_spec 0 (a - b - 1)), (Z.ltb_spec b a); lia || done. }
  assert (ctMaskLT a b = if a <? b then 255 else 0) as LT.
  { unfold ctMaskLT. rewrite sign_mask by lia.
    destruct (Z.leb_spec 0 (b - a - 1)), (Z.ltb_spec a b); lia || done. }
  unfold ctMaskGTE, ctMaskLTE, ctMaskEq, ctMaskNotEq. rewrite GT, LT, !sign_mask by lia.
  destruct (Z.ltb_spec b a), (Z.ltb_spec a b), (Z.leb_spec 0 (a - b)),
    (Z.leb_spec b a), (Z.leb_spec 0 (b - a)), (Z.leb_spec a b), (Z.eqb_spec a b);
    lia || done.
Qed.

Lemma ct_masks_correct_witness :
  Z.abs (5 - (-7)) < 2 ^ 31 /\ ctMaskGT 5 (-7) = 255 /\ ctMaskEq 5 (-7) = 0.
Proof.
  split; [done|]. destruct (ct_masks_correct 5 (-7)) as (G & _ & _ & _ & E & _); [lia|].
  rewrite G, E. done.
Defined.

(** ** ConstantCompare *)

Lemma lor_zero a b : Z.lor a b = 0 <-> a = 0 /\ b = 0.
Proof. rewrite Z.lor_eq_0_iff. done. Qed.

Lemma ConstantCompare_loop_zero n a b acc :
  (n <= length a)%nat -> (n <= length b)%nat ->
  ConstantCompare_loop a b n acc = 0 <-> acc = 0 /\ take n a = take n b.
Proof.
  revert a b acc. induction n as [|n IH]; intros a b acc Ha Hb; simpl.
  { split; [done|tauto]. }
  destruct a as [|x a], b as [|y b]; simpl in *; try lia.
  rewrite IH, lor_zero, Z.lxor_eq_0_iff by lia. unfold at_. simpl.
  split; [intros [[-> ->] ->]; done|intros [-> E]; injection E as -> ->; done].
Qed.

(** [ConstantCompare] returns 0 exactly when the first [n] bytes of the two
    buffers agree, wherever the first difference is. *)
Theorem ConstantCompare_zero_iff a b n
    (Ha : (n <= length a)%nat) (Hb : (n <= length b)%nat) :
  ConstantCompare a b n = 0 <-> take n a = take n b.
Proof. unfold ConstantCompare. rewrite ConstantCompare_loop_zero by done. tauto. Qed.

Lemma ConstantCompare_zero_iff_witness :
  (ConstantCompare [1; 2; 3] [1; 2; 4] 2 = 0 <-> take 2 [1; 2; 3] = take 2 [1; 2; 4]) /\
  ConstantCompare [1; 2; 3] [1; 2; 4] 3 = 7.
Proof. split; [apply (ConstantCompare_zero_iff [1;2;3] [1;2;4] 2); simpl; lia|done]. Defined.

(** ** xorbuf *)

Lemma length_xor_bytes n b m : length (xor_bytes n b m) = length b.
Proof.
  revert b m. induction n; intros [|x b] [|y m]; simpl; auto.
Qed.

Lemma xor_bytes_app n k b m :
  xor_bytes (n + k) b m =
  take n (xor_bytes n b m) ++ xor_bytes k (drop n (xor_bytes n b m)) (drop n m).
Proof.
  revert b m. induction n as [|n IH]; intros b m.
  { rewrite take_0, !drop_0. done. }
  destruct b as [|x b], m as [|y m]; simpl.
  - destruct k; done.
  - destruct k; done.
  - rewrite <- (take_drop n b) at 1. destruct k; [done|].
    destruct (drop n b); done.
  - rewrite IH. done.
Qed.

Lemma drop_xor_bytes n b m : drop n (xor_bytes n b m) = drop n b.
Proof.
  revert b m. induction n as [|n IH]; intros [|x b] [|y m]; simpl; auto.
Qed.

Lemma lxor_byte_word x y v w : is_byte x -> is_byte y ->
  Z.lxor (x + 256 * v) (y + 256 * w) = Z.lxor x y + 256 * Z.lxor v w.
Proof.
  unfold is_byte. intros Hx Hy.
  assert (forall p q, 0 <= p < 2 ^ 8 -> p + 256 * q = Z.lor (Z.shiftl q 8) p) as E.
  { intros p q Hp. rewrite lor_shiftl_add by lia. lia. }
  rewrite (E x v), (E y w), (E (Z.lxor x y) (Z.lxor v w)) by
    (try apply (lxor_range 8); unfold in_word; lia).
  bitwise i. destruct (Z.lt_ge_cases i 8).
  - rewrite !(Z.testbit_neg_r _ (i - 8)) by lia. done.
  - rewrite !(testbit_high 8 _ i) by
      (try apply (lxor_range 8); unfold in_word; lia).
    rewrite !orb_false_r. done.
Qed.

Lemma le_word_xor n b m :
  bytes b -> bytes m -> length b = n -> length m = n ->
  Z.lxor (le_word b) (le_word m) = le_word (xor_bytes n b m) /\ bytes (xor_bytes n b m).
Proof.
  revert b m. induction n as [|n IH]; intros b m Hb Hm Lb Lm.
  - destruct b, m; done.
  - destruct b as [|x b], m as [|y m]; try done. simpl in *.
    inversion_clear Hb. inversion_clear Hm.
    destruct (IH b m) as [E B]; try done; try lia.
    split.
    + rewrite lxor_byte_word, E by done. done.
    + constructor; [apply (lxor_range 8); unfold in_word, is_byte in *; lia|done].
Qed.

Lemma XorWords_bytes n b m :
  bytes b -> bytes m -> (4 * n <= length b)%nat -> (4 * n <= length m)%nat ->
  XorWords n b m = xor_bytes (4 * n) b m.
Proof.
  revert b m. induction n as [|n IH]; intros b m Hb Hm Lb Lm; [done|].
  replace (4 * S n)%nat with (4 + 4 * n)%nat by lia.
  rewrite xor_bytes_app, drop_xor_bytes. cbn [XorWords].
  rewrite IH by (rewrite ?length_drop; auto using Forall_drop; lia). f_equal.
  destruct (le_word_xor 4 (take 4 b) (take 4 m)) as [E B];
    auto using Forall_take; try (rewrite length_take; lia).
  rewrite E. clear IH E.
  pose proof (le_bytes_le_word _ B) as E2. rewrite length_xor_bytes, length_take in E2.
  rewrite Nat.min_l in E2 by lia. rewrite E2.
  destruct b as [|b0 [|b1 [|b2 [|b3 b]]]], m as [|m0 [|m1 [|m2 [|m3 m]]]];
    simpl in *; try lia. done.
Qed.

Lemma xorbuf_aligned_bytes count b m :
  bytes b -> bytes m -> (count <= length b)%nat -> (count <= length m)%nat ->
  xorbuf_aligned count b m = xor_bytes count b m.
Proof.
  intros Hb Hm Lb Lm. unfold xorbuf_aligned.
  pose proof (Nat.div_mod_eq count 4) as D.
  rewrite XorWords_bytes by (done || lia).
  transitivity (xor_bytes (4 * (count / 4) + count mod 4) b m); [|f_equal; lia].
  rewrite xor_bytes_app, drop_xor_bytes. done.
Qed.

Lemma xorbuf_xor_bytes baddr maddr b m count
    (Hb : bytes b) (Hm : bytes m)
    (Lb : (count <= length b)%nat) (Lm : (count <= length m)%nat) :
  xorbuf baddr maddr b m count = xor_bytes count b m.
Proof.
  unfold xorbuf. destruct (_ && _); [by apply xorbuf_aligned_bytes|].
  destruct (_ =? _); [|done].
  set (k := Nat.min (to_align baddr) count).
  rewrite drop_xor_bytes, xorbuf_aligned_bytes by
    (rewrite ?length_drop; auto using Forall_drop; lia).
  transitivity (xor_bytes (k + (count - k)) b m); [|f_equal; lia].
  rewrite xor_bytes_app, drop_xor_bytes. done.
Qed.

(** [xorbuf], whichever alignment path it takes (aligned word loop,
    leading bytes to a word boundary, or bytes only), xors exactly the first
    [count] bytes in place: it equals the byte-wise reference. *)
Theorem xorbuf_bytewise baddr maddr b m count
    (Hb : bytes b) (Hm : bytes m)
    (Lb : (count <= length b)%nat) (Lm : (count <= length m)%nat) :
  xorbuf baddr maddr b m count = xor_bytes count b m.
Proof. apply xorbuf_xor_bytes; done. Qed.

Lemma xorbuf_bytewise_witness :
  xorbuf 0x1001 0x2001 [1; 2; 3; 4; 5; 6; 7; 8] [255; 0; 255; 0; 255; 0; 255; 0] 8
  = [254; 2; 252; 4; 250; 6; 248; 8].
Proof.
  rewrite (xorbuf_bytewise 0x1001 0x2001 [1; 2; 3; 4; 5; 6; 7; 8]
             [255; 0; 255; 0; 255; 0; 255; 0] 8);
    [reflexivity | repeat constructor; done | repeat constructor; done | simpl; lia
    | simpl; lia].
Defined.

(** Xoring twice with one mask restores the buffer. *)
Lemma xor_bytes_invol n b m : xor_bytes n (xor_bytes n b m) m = b.
Proof.
  revert b m. induction n as [|n IH]; intros [|x b] [|y m]; simpl; try done.
  rewrite IH, Z.lxor_assoc, Z.lxor_nilpotent, Z.lxor_0_r. done.
Qed.

(** ** ForceZero *)

Lemma zero_words_spec n mem : (4 * n <= length mem)%nat ->
  zero_words n mem = replicate (4 * n) 0 ++ drop (4 * n) mem.
Proof.
  revert mem. induction n as [|n IH]; intros mem L; [done|].
  cbn [zero_words]. rewrite IH by (rewrite length_drop; lia).
  replace (4 * S n)%nat with (4 + 4 * n)%nat by lia.
  rewrite replicate_add, drop_drop, app_assoc. done.
Qed.

(** Zeroing a prefix in two goes. *)
Lemma zero_bytes_app n k mem :
  zero_bytes (n + k) mem =
  take n (zero_bytes n mem) ++ zero_bytes k (drop n (zero_bytes n mem)).
Proof.
  unfold zero_bytes. rewrite replicate_add, <- drop_drop, <- app_assoc.
  rewrite take_app_length', drop_app_length' by (rewrite length_replicate; done). done.
Qed.

(** [ForceZero], whatever the alignment of the buffer, clears exactly the
    first [len] bytes and leaves the rest alone. *)
Theorem ForceZero_clears addr mem len (L : (len <= length mem)%nat) :
  ForceZero addr mem len = replicate len 0 ++ drop len mem.
Proof.
  unfold ForceZero. destruct (Nat.ltb_spec len (to_align addr)) as [|G]; [done|].
  set (k := to_align addr) in *. set (n := ((len - k) / 4)%nat).
  pose proof (Nat.div_mod_eq (len - k) 4) as D. fold n in D.
  set (r := ((len - k) mod 4)%nat) in *.
  change (replicate len 0 ++ drop len mem) with (zero_bytes len mem).
  transitivity (zero_bytes (k + 4 * n + r) mem); [|f_equal; lia].
  rewrite (zero_bytes_app (k + 4 * n)), (zero_bytes_app k (4 * n)).
  rewrite zero_words_spec; [done|].
  unfold zero_bytes. rewrite drop_app_length' by (rewrite length_replicate; done).
  rewrite length_drop. lia.
Qed.

Lemma ForceZero_clears_witness :
  ForceZero 0x1003 [1; 2; 3; 4; 5; 6; 7; 8] 6 = [0; 0; 0; 0; 0; 0; 7; 8].
Proof. rewrite (ForceZero_clears 0x1003 [1; 2; 3; 4; 5; 6; 7; 8] 6); [done|simpl; lia]. Defined.

(** The big-endian codecs round-trip: decoding what an encoder wrote gives
    the integer back, for 16, 24, 32 and 64 bits, and re-encoding eight decoded
    bytes gives the bytes back; [c64toa] (through the word-swapping code the
    32-bit build uses) is the high half's [c32toa] followed by the low half's. *)
Theorem be_codecs_roundtrip x l (Hx : is_u64 x) (Hl : bytes l) (Ll : length l = 8%nat) :
  ato16 (c16toa (u16 x)) = u16 x /\
  ato24 (c32to24 (wrap 24 x)) = wrap 24 x /\
  ato32 (c32toa (u32 x)) = u32 x /\
  ato64 (c64toa x) = x /\
  c64toa x = c32toa (Z.shiftr x 32) ++ c32toa (u32 x) /\
  c64toa (ato64 l) = l.
Proof.
  repeat split.
  - rewrite <- (app_nil_r (c16toa _)). apply ato16_c16toa, wrap_range. lia.
  - rewrite <- (app_nil_r (c32to24 _)). apply ato24_c32to24, wrap_range. lia.
  - rewrite <- (app_nil_r (c32toa _)). apply ato32_c32toa, wrap_range. lia.
  - rewrite <- (app_nil_r (c64toa _)). by apply ato64_c64toa.
  - by apply c64toa_c32toa.
  - by apply c64toa_ato64.
Qed.

Lemma be_codecs_roundtrip_witness :
  ato64 (c64toa 0x0102030405060708) = 0x0102030405060708 /\
  c64toa 0x0102030405060708 = [1; 2; 3; 4; 5; 6; 7; 8].
Proof.
  destruct (be_codecs_roundtrip 0x0102030405060708 [1; 2; 3; 4; 5; 6; 7; 8])
    as (_ & _ & _ & E & _ & _); [unfold in_word; lia|repeat constructor; done|done|].
  split; [exact E|vm_compute; reflexivity].
Defined.
