(* ===== verification/EthUdp.v ===== *)
(** * The Ethernet/IP/UDP driver (src/litex/litex/soc/software/libliteeth/udp.c)

    One flat byte memory holds the ETHMAC slots, exactly as the C code sees
    them through [rxbuffer] and [txbuffer]: addresses are relative to
    ETHMAC_BASE, the receive slots come first and the transmit slots follow.
    A packed struct access is a load or a store at the field's offset, so an
    access past a slot lands where it does on the machine.

    The static variables of the file are the record [eth].  The hardware is
    the input queue [rxq] (what each poll of the SRAM writer finds) and the
    trace [sent] (what each write of the start register transmits).  The
    upper layer's callback is the trace [upcalls].  Built with
    HW_PREAMBLE_CRC, without ETH_UDP_BROADCAST and without the debug prints. *)

From S2P Require Import Prelude.

(** ** Constants *)

Definition ETHERTYPE_ARP := 0x0806.
Definition ETHERTYPE_IP := 0x0800.
Definition ARP_HWTYPE_ETHERNET := 1.
Definition ARP_PROTO_IP := 0x0800.
Definition ARP_PACKET_LENGTH := 60.
Definition ARP_OPCODE_REQUEST := 1.
Definition ARP_OPCODE_REPLY := 2.
Definition IP_IPV4 := 0x45.
Definition IP_DONT_FRAGMENT := 0x4000.
Definition IP_TTL := 64.
Definition IP_PROTO_UDP := 0x11.
Definition IP_PROTO_ICMP := 0x01.
Definition ICMP_ECHO_REPLY := 0.
Definition ICMP_ECHO := 8.
Definition PING_IDENT := 0xbe7c.

(** generated/mem.h, generated/soc.h: the SoC of csr.json. *)
Definition ETHMAC_SLOT_SIZE := 2048.
Definition ETHMAC_RX_SLOTS := 2.
Definition ETHMAC_TX_SLOTS := 2.

(** Struct sizes and field offsets (all packed). *)
Definition sizeof_eth := 14.
Definition sizeof_ip := 20.
Definition sizeof_udp_frame := 28.
Definition sizeof_udp := 8.
Definition sizeof_icmp_frame := 28.
Definition sizeof_icmp := 8.
Definition sizeof_pseudo := 12.
Definition off_ip := 14.
Definition off_l4 := 34.
Definition off_payload := 42.

(** ** Memory *)

Definition memory := Z -> Z.

Definition st8 (a v : Z) (m : memory) : memory :=
  fun x => if x =? a then v else m x.

(** A run of bytes: memcpy, or a loop of byte stores. *)
Definition stb (a : Z) (l : list Z) (m : memory) : memory :=
  fun x => if (a <=? x) && (x <? a + Z.of_nat (length l))
           then at_ l (Z.to_nat (x - a)) else m x.

(** Big-endian bytes of a 16- and a 32-bit field: [htons]/[htonl] followed by
    the little-endian store. *)
Definition be16 (v : Z) : list Z := [u8 (Z.shiftr v 8); u8 v].
Definition be32 (v : Z) : list Z :=
  [u8 (Z.shiftr v 24); u8 (Z.shiftr v 16); u8 (Z.shiftr v 8); u8 v].
Definition le16 (v : Z) : list Z := [u8 v; u8 (Z.shiftr v 8)].

Definition st16 (a v : Z) (m : memory) : memory := stb a (be16 v) m.
Definition st32 (a v : Z) (m : memory) : memory := stb a (be32 v) m.

Definition ld16 (m : memory) (a : Z) : Z := m a * 256 + m (a + 1).
Definition ld32 (m : memory) (a : Z) : Z :=
  ((m a * 256 + m (a + 1)) * 256 + m (a + 2)) * 256 + m (a + 3).
Definition ld16le (m : memory) (a : Z) : Z := m a + 256 * m (a + 1).

Definition ldb (m : memory) (a : Z) (n : nat) : list Z :=
  map (fun i : nat => m (a + Z.of_nat i)) (seq 0 n).

(** for (i = 0; i < n; i++) dst[i] = src[i], in address order over one memory. *)
Fixpoint copy_loop (n : nat) (dst src : Z) (m : memory) : memory :=
  match n with
  | O => m
  | S n' => copy_loop n' (dst + 1) (src + 1) (st8 dst (m src) m)
  end.

(** ** State *)

(** What the callback of [udp_set_callback] receives; [up_data] is the
    content of the [length] bytes at the data pointer during the call. *)
Record upcall := Upcall {
  up_ip : Z; up_sport : Z; up_dport : Z; up_off : Z; up_length : Z;
  up_data : list Z }.

(** A frame handed to the SRAM reader: slot and length registers, and the
    bytes the MAC reads. *)
Record txframe := TxFrame { tx_slot : Z; tx_len : Z; tx_bytes : list Z }.

(** A frame written by the SRAM writer: slot, length register, bytes. *)
Record rxframe := RxFrame { rx_slot : Z; rx_flen : Z; rx_bytes : list Z }.

Record eth := Eth {
  mem : memory;
  rxslot : Z; rxlen : Z; rxbuffer : Z;
  txslot : Z; txlen : Z; txbuffer : Z;
  my_mac : list Z; my_ip : Z;
  cached_mac : list Z; cached_ip : Z;
  ping_seq_number : Z; ping_ts_send : Z;
  rx_callback : bool;
  rxq : list (option rxframe);
  sent : list txframe;
  upcalls : list upcall }.

Definition set_mem m s := Eth m (rxslot s) (rxlen s) (rxbuffer s) (txslot s) (txlen s)
  (txbuffer s) (my_mac s) (my_ip s) (cached_mac s) (cached_ip s) (ping_seq_number s)
  (ping_ts_send s) (rx_callback s) (rxq s) (sent s) (upcalls s).
Definition set_rx sl ln b q s := Eth (mem s) sl ln b (txslot s) (txlen s)
  (txbuffer s) (my_mac s) (my_ip s) (cached_mac s) (cached_ip s) (ping_seq_number s)
  (ping_ts_send s) (rx_callback s) q (sent s) (upcalls s).
Definition set_txlen ln s := Eth (mem s) (rxslot s) (rxlen s) (rxbuffer s) (txslot s) ln
  (txbuffer s) (my_mac s) (my_ip s) (cached_mac s) (cached_ip s) (ping_seq_number s)
  (ping_ts_send s) (rx_callback s) (rxq s) (sent s) (upcalls s).
Definition set_my mac ip s := Eth (mem s) (rxslot s) (rxlen s) (rxbuffer s) (txslot s)
  (txlen s) (txbuffer s) mac ip (cached_mac s) (cached_ip s) (ping_seq_number s)
  (ping_ts_send s) (rx_callback s) (rxq s) (sent s) (upcalls s).
Definition set_cache mac ip s := Eth (mem s) (rxslot s) (rxlen s) (rxbuffer s) (txslot s)
  (txlen s) (txbuffer s) (my_mac s) (my_ip s) mac ip (ping_seq_number s)
  (ping_ts_send s) (rx_callback s) (rxq s) (sent s) (upcalls s).
Definition set_ping sq ts s := Eth (mem s) (rxslot s) (rxlen s) (rxbuffer s) (txslot s)
  (txlen s) (txbuffer s) (my_mac s) (my_ip s) (cached_mac s) (cached_ip s) sq
  ts (rx_callback s) (rxq s) (sent s) (upcalls s).
Definition udp_set_callback cb s := Eth (mem s) (rxslot s) (rxlen s) (rxbuffer s) (txslot s)
  (txlen s) (txbuffer s) (my_mac s) (my_ip s) (cached_mac s) (cached_ip s)
  (ping_seq_number s) (ping_ts_send s) cb (rxq s) (sent s) (upcalls s).
Definition add_upcall u s := Eth (mem s) (rxslot s) (rxlen s) (rxbuffer s) (txslot s)
  (txlen s) (txbuffer s) (my_mac s) (my_ip s) (cached_mac s) (cached_ip s)
  (ping_seq_number s) (ping_ts_send s) (rx_callback s) (rxq s) (sent s) (upcalls s ++ [u]).

Definition udp_set_ip (ip : Z) (s : eth) : eth := set_my (my_mac s) ip s.
Definition udp_get_ip (s : eth) : Z := my_ip s.
Definition udp_set_mac (macaddr : list Z) (s : eth) : eth :=
  set_my (take 6 macaddr) (my_ip s) s.

Definition slot_addr (k : Z) : Z := ETHMAC_SLOT_SIZE * k.

(** ** Transmission *)

Definition fill_eth_header (h : Z) (destmac srcmac : list Z) (ethertype : Z)
    (m : memory) : memory :=
  let m := stb h (take 6 destmac) m in
  let m := stb (h + 6) (take 6 srcmac) m in
  st16 (h + 12) ethertype m.

(** The wait on [ethmac_sram_reader_ready_read] is the hardware's: the frame
    is transmitted once the reader is ready. *)
Definition send_packet (s : eth) : eth :=
  let f := TxFrame (txslot s) (txlen s) (ldb (mem s) (txbuffer s) (Z.to_nat (txlen s))) in
  let slot := u32 (txslot s + 1) mod ETHMAC_TX_SLOTS in
  Eth (mem s) (rxslot s) (rxlen s) (rxbuffer s) slot (txlen s)
    (slot_addr (ETHMAC_RX_SLOTS + slot)) (my_mac s) (my_ip s) (cached_mac s)
    (cached_ip s) (ping_seq_number s) (ping_ts_send s) (rx_callback s) (rxq s)
    (sent s ++ [f]) (upcalls s).

(** [buf] is the buffer the pointer argument points to; [length] is halved by
    the shift of line 326. *)
Fixpoint csum_words (n : nat) (i : Z) (buf : Z -> Z) (r : Z) : Z :=
  match n with
  | O => r
  | S n' => csum_words n' (i + 1) buf
      (u32 (r + Z.lor (Z.shiftl (buf (2 * i)) 8) (buf (2 * i + 1))))
  end.

Fixpoint csum_fold (fuel : nat) (r : Z) : Z :=
  match fuel with
  | O => r
  | S f => if Z.shiftr r 16 =? 0 then r
           else csum_fold f (u32 (Z.land r 0xffff + Z.shiftr r 16))
  end.

(** Two iterations of the fold are enough for any 32-bit sum
    ([csum_fold_done]). *)
Definition ip_checksum (r : Z) (buf : Z -> Z) (length : Z) (complete : bool) : Z :=
  let r := csum_words (Z.to_nat (Z.shiftr length 1)) 0 buf r in
  let r := csum_fold 3 r in
  if complete then
    let r := Z.land (u32 (Z.lnot r)) 0xffff in
    u16 (if r =? 0 then 0xffff else r)
  else u16 r.

(** The bytes at an address, as a buffer argument. *)
Definition at_addr (m : memory) (a : Z) : Z -> Z := fun i => m (a + i).
Definition at_list (l : list Z) : Z -> Z := fun i => at_ l (Z.to_nat i).

Definition udp_get_tx_buffer (s : eth) : Z := txbuffer s + off_payload.

(** The IPv4 header that [udp_send], [send_ping] and [process_icmp] write
    (lines 373-384, 425-437, 495-507); the destination is stored as given,
    in network order. *)
Definition fill_ip_header (h : Z) (total_length proto src : Z) (dst : list Z)
    (m : memory) : memory :=
  let m := st8 h IP_IPV4 m in
  let m := st8 (h + 1) 0 m in
  let m := st16 (h + 2) total_length m in
  let m := st16 (h + 4) 0 m in
  let m := st16 (h + 6) IP_DONT_FRAGMENT m in
  let m := st8 (h + 8) IP_TTL m in
  let m := st8 (h + 9) proto m in
  let m := stb (h + 10) [0; 0] m in
  let m := st32 (h + 12) src m in
  let m := stb (h + 16) dst m in
  st16 (h + 10) (ip_checksum 0 (at_addr m h) sizeof_ip true) m.

Definition mac_is_zero (l : list Z) : bool := forallb (Z.eqb 0) (take 6 l).

(** [sizeof] expressions are 32-bit on the target, so [txlen] wraps at 2^32. *)
Definition udp_send (src_port dst_port length : Z) (s : eth) : Z * eth :=
  if mac_is_zero (cached_mac s) then (0, s)
  else
    let txl := u32 (length + sizeof_eth + sizeof_udp_frame) in
    let txl := if txl <? ARP_PACKET_LENGTH then ARP_PACKET_LENGTH else txl in
    let b := txbuffer s in
    let m := fill_eth_header b (cached_mac s) (my_mac s) ETHERTYPE_IP (mem s) in
    let m := fill_ip_header (b + off_ip) (u16 (length + sizeof_udp_frame))
               IP_PROTO_UDP (my_ip s) (be32 (cached_ip s)) m in
    let h := be32 (my_ip s) ++ be32 (cached_ip s) ++ [0; IP_PROTO_UDP]
             ++ be16 (u16 (length + sizeof_udp)) in
    let m := st16 (b + off_l4) src_port m in
    let m := st16 (b + off_l4 + 2) dst_port m in
    let m := st16 (b + off_l4 + 4) (u16 (length + sizeof_udp)) m in
    let m := stb (b + off_l4 + 6) [0; 0] m in
    let r := ip_checksum 0 (at_list h) sizeof_pseudo false in
    let '(m, length) :=
      if Z.odd length then (st8 (b + off_payload + length) 0 m, u32 (length + 1))
      else (m, length) in
    let r := ip_checksum r (at_addr m (b + off_l4)) (u32 (sizeof_udp + length)) true in
    let m := st16 (b + off_l4 + 6) r m in
    (1, send_packet (set_txlen txl (set_mem m s))).

(** ** ARP *)

(** The frame written by [process_arp] and [udp_arp_resolve]. *)
Definition fill_arp (a : Z) (opcode : Z) (sender_mac : list Z) (sender_ip : Z)
    (target_ip : Z) (m : memory) : memory :=
  let m := st16 a ARP_HWTYPE_ETHERNET m in
  let m := st16 (a + 2) ARP_PROTO_IP m in
  let m := st8 (a + 4) 6 m in
  let m := st8 (a + 5) 4 m in
  let m := st16 (a + 6) opcode m in
  let m := st32 (a + 14) sender_ip m in
  let m := stb (a + 28) (repeat 0 18) m in
  let m := stb (a + 8) (take 6 sender_mac) m in
  st32 (a + 24) target_ip m.

Definition process_arp (s : eth) : eth :=
  let rx_arp := rxbuffer s + sizeof_eth in
  let m := mem s in
  if rxlen s <? ARP_PACKET_LENGTH then s
  else if negb (ld16 m rx_arp =? ARP_HWTYPE_ETHERNET) then s
  else if negb (ld16 m (rx_arp + 2) =? ARP_PROTO_IP) then s
  else if negb (m (rx_arp + 4) =? 6) then s
  else if negb (m (rx_arp + 5) =? 4) then s
  else if ld16 m (rx_arp + 6) =? ARP_OPCODE_REPLY then
    if ld32 m (rx_arp + 14) =? cached_ip s then
      set_cache (ldb m (rx_arp + 8) 6) (cached_ip s) s
    else s
  else if ld16 m (rx_arp + 6) =? ARP_OPCODE_REQUEST then
    if ld32 m (rx_arp + 24) =? my_ip s then
      let b := txbuffer s in
      let m := fill_eth_header b (ldb m (rx_arp + 8) 6) (my_mac s) ETHERTYPE_ARP m in
      let m := fill_arp (b + sizeof_eth) ARP_OPCODE_REPLY (my_mac s) (my_ip s)
                 (ld32 m (rx_arp + 14)) m in
      let m := stb (b + sizeof_eth + 18) (ldb m (rx_arp + 8) 6) m in
      send_packet (set_mem m (set_txlen ARP_PACKET_LENGTH s))
    else s
  else s.

Definition broadcast : list Z := repeat 0xff 6.

(** ** ICMP echo *)

Definition process_icmp (s : eth) : eth :=
  let rx := rxbuffer s in
  let rx_icmp := rx + sizeof_eth in
  if rxlen s <? sizeof_eth + sizeof_icmp_frame then s
  else if ld16 (mem s) (rx_icmp + 2) <? sizeof_icmp_frame then s
  else
    let length := u16 (ld16 (mem s) (rx_icmp + 2) - sizeof_icmp_frame) in
    if mem s (rx + off_l4) =? ICMP_ECHO then
      let b := txbuffer s in
      let m := fill_eth_header b (ldb (mem s) (rx + 6) 6) (my_mac s) ETHERTYPE_IP (mem s) in
      let m := fill_ip_header (b + off_ip) (u16 (length + sizeof_icmp_frame))
                 IP_PROTO_ICMP (my_ip s) (ldb m (rx_icmp + 12) 4) m in
      let m := st8 (b + off_l4) ICMP_ECHO_REPLY m in
      let m := st8 (b + off_l4 + 1) 0 m in
      let m := copy_loop 2 (b + off_l4 + 4) (rx + off_l4 + 4) m in
      let m := copy_loop 2 (b + off_l4 + 6) (rx + off_l4 + 6) m in
      let m := copy_loop (Z.to_nat length) (b + off_payload) (rx + off_payload) m in
      let m := stb (b + off_l4 + 2) [0; 0] m in
      let r := ip_checksum 0 (at_addr m (b + off_l4)) (length + sizeof_icmp) true in
      let m := st16 (b + off_l4 + 2) r m in
      send_packet (set_mem m (set_txlen (length + sizeof_eth + sizeof_icmp_frame) s))
    else if mem s (rx + off_l4) =? ICMP_ECHO_REPLY then
      if negb (ld16le (mem s) (rx + off_l4 + 6) =? ping_seq_number s) then s
      else if negb (ld16le (mem s) (rx + off_l4 + 4) =? PING_IDENT) then s
      else set_ping (ping_seq_number s) 0 s
    else s.

(** ** UDP reception *)

Definition process_udp (s : eth) : eth :=
  let m := mem s in
  let udp_ip := rxbuffer s + sizeof_eth in
  if rxlen s <? sizeof_eth + sizeof_udp_frame then s
  else if ld16 m (udp_ip + 2) <? sizeof_udp_frame then s
  else if negb (m (udp_ip + 9) =? IP_PROTO_UDP) then s
  else if ld16 m (udp_ip + 24) <? sizeof_udp then s
  else if negb (ld32 m (udp_ip + 16) =? my_ip s) then s
  else if rx_callback s then
    let len := ld16 m (udp_ip + 24) - sizeof_udp in
    add_upcall (Upcall (ld32 m (udp_ip + 12)) (ld16 m (udp_ip + 20))
      (ld16 m (udp_ip + 22)) (udp_ip + 28) len (ldb m (udp_ip + 28) (Z.to_nat len))) s
  else s.

Definition process_frame (s : eth) : eth :=
  let m := mem s in
  let ethertype := ld16 m (rxbuffer s + 12) in
  if ethertype =? ETHERTYPE_ARP then process_arp s
  else if ethertype =? ETHERTYPE_IP then
    let hdr := rxbuffer s + off_ip in
    if negb (m hdr =? IP_IPV4) then s
    else if negb (ld32 m (hdr + 16) =? my_ip s) then s
    else if m (hdr + 9) =? IP_PROTO_UDP then process_udp s
    else if m (hdr + 9) =? IP_PROTO_ICMP then process_icmp s
    else s
  else s.

(** The frame found by this poll is in its slot when the event is pending. *)
Definition udp_service (s : eth) : eth :=
  match rxq s with
  | [] => s
  | None :: q => set_rx (rxslot s) (rxlen s) (rxbuffer s) q s
  | Some f :: q =>
      let a := slot_addr (rx_slot f) in
      process_frame (set_rx (rx_slot f) (rx_flen f) a q
        (set_mem (stb a (rx_bytes f) (mem s)) s))
  end.

(** ** ARP resolution and ping *)

Fixpoint arp_poll (n : nat) (s : eth) : bool * eth :=
  match n with
  | O => (false, s)
  | S n' => let s := udp_service s in
            if mac_is_zero (cached_mac s) then arp_poll n' s else (true, s)
  end.

(** One round of [udp_arp_resolve]: build and send the request (lines 286-307). *)
Definition send_arp_request (ip : Z) (s : eth) : eth :=
  let b := txbuffer s in
  let m := fill_eth_header b broadcast (my_mac s) ETHERTYPE_ARP (mem s) in
  let m := fill_arp (b + sizeof_eth) ARP_OPCODE_REQUEST (my_mac s) (my_ip s) ip m in
  let m := stb (b + sizeof_eth + 18) (repeat 0 6) m in
  send_packet (set_mem m (set_txlen ARP_PACKET_LENGTH s)).

Fixpoint arp_tries (n timeout : nat) (ip : Z) (s : eth) : Z * eth :=
  match n with
  | O => (0, s)
  | S n' =>
      let '(found, s) := arp_poll timeout (send_arp_request ip s) in
      if found then (1, s) else arp_tries n' timeout ip s
  end.

(** [timeout] is the inner bound, 100000 in the source. *)
Definition udp_arp_resolve (timeout : nat) (ip : Z) (s : eth) : Z * eth :=
  if (cached_ip s =? ip) && negb (mac_is_zero (cached_mac s)) then (1, s)
  else arp_tries 8 timeout ip (set_cache (repeat 0 6) ip s).

Fixpoint ping_poll (n : nat) (s : eth) : Z * eth :=
  match n with
  | O => (-2, s)
  | S n' => let s := udp_service s in
            if ping_ts_send s =? 0 then (0, s) else ping_poll n' s
  end.

(** [arp_timeout] and [timeout] are 100000 and 10000 in the source. *)
Definition send_ping (arp_timeout timeout : nat) (ip payload_length : Z) (s : eth)
    : Z * eth :=
  let '(ok, s) := udp_arp_resolve arp_timeout ip s in
  if ok =? 0 then (-1, s)
  else
    let b := txbuffer s in
    let m := fill_eth_header b (cached_mac s) (my_mac s) ETHERTYPE_IP (mem s) in
    let m := fill_ip_header (b + off_ip) (u16 (payload_length + sizeof_icmp_frame))
               IP_PROTO_ICMP (my_ip s) (be32 ip) m in
    let m := st8 (b + off_l4) ICMP_ECHO m in
    let m := st8 (b + off_l4 + 1) 0 m in
    let m := stb (b + off_l4 + 4) (le16 PING_IDENT) m in
    let seqn := u32 (ping_seq_number s + 1) in
    let m := stb (b + off_l4 + 6) (le16 (u16 seqn)) m in
    let m := stb (b + off_payload)
               ((fun i : nat => u8 (Z.of_nat i)) <$> seq 0 (Z.to_nat payload_length)) m in
    let m := stb (b + off_l4 + 2) [0; 0] m in
    let r := ip_checksum 0 (at_addr m (b + off_l4)) (payload_length + sizeof_icmp) true in
    let m := st16 (b + off_l4 + 2) r m in
    let s := send_packet (set_ping seqn (ping_ts_send s)
               (set_mem m (set_txlen (payload_length + sizeof_eth + sizeof_icmp_frame) s))) in
    ping_poll timeout (set_ping (ping_seq_number s) 1 s).

Definition udp_start (macaddr : list Z) (ip : Z) (s : eth) : eth :=
  let s := udp_set_mac macaddr (udp_set_ip ip s) in
  Eth (mem s) 0 (rxlen s) (slot_addr 0) 0 (txlen s) (slot_addr ETHMAC_RX_SLOTS)
    (my_mac s) (my_ip s) (repeat 0 6) 0 (ping_seq_number s) (ping_ts_send s) false
    (rxq s) (sent s) (upcalls s).

(** ** Memory lemmas *)

Create Rewrite HintDb mem.

Lemma stb_out a l m x :
  x < a \/ a + Z.of_nat (length l) <= x -> stb a l m x = m x.
Proof.
  intros. unfold stb. destruct (Z.leb_spec a x), (Z.ltb_spec x (a + Z.of_nat (length l)));
    simpl; auto; lia.
Qed.

Lemma stb_in a l m x :
  a <= x < a + Z.of_nat (length l) -> stb a l m x = at_ l (Z.to_nat (x - a)).
Proof.
  intros. unfold stb. destruct (Z.leb_spec a x), (Z.ltb_spec x (a + Z.of_nat (length l)));
    simpl; auto; lia.
Qed.

Lemma st8_same a v m : st8 a v m a = v.
Proof. unfold st8. rewrite Z.eqb_refl. done. Qed.

Lemma st8_out a v m x : x <> a -> st8 a v m x = m x.
Proof. unfold st8. intros. destruct (Z.eqb_spec x a); [lia|done]. Qed.

Lemma length_ldb m a n : length (ldb m a n) = n.
Proof. unfold ldb. rewrite length_map, length_seq. done. Qed.

Lemma at_ldb m a n i : (i < n)%nat -> at_ (ldb m a n) i = m (a + Z.of_nat i).
Proof.
  intros. unfold at_, ldb.
  rewrite (nth_indep _ _ (m (a + Z.of_nat 0))) by (rewrite length_map, length_seq; lia).
  rewrite (map_nth (fun i : nat => m (a + Z.of_nat i))), seq_nth by lia. done.
Qed.

(** Two byte strings with the same length and the same bytes are equal. *)
Lemma bytes_ext l1 l2 :
  length l1 = length l2 -> (forall i, (i < length l1)%nat -> at_ l1 i = at_ l2 i) -> l1 = l2.
Proof. apply nth_ext. Qed.

Lemma ldb_ext m m' a a' n :
  (forall i, 0 <= i < Z.of_nat n -> m (a + i) = m' (a' + i)) -> ldb m a n = ldb m' a' n.
Proof.
  intros H. apply bytes_ext; rewrite !length_ldb; [done|].
  intros i Hi. rewrite !at_ldb by done. apply H. lia.
Qed.

Lemma at_app_l l1 l2 i : (i < length l1)%nat -> at_ (l1 ++ l2) i = at_ l1 i.
Proof. apply app_nth1. Qed.

Lemma at_app_r l1 l2 i :
  (length l1 <= i)%nat -> at_ (l1 ++ l2) i = at_ l2 (i - length l1).
Proof. apply app_nth2. Qed.

Lemma at_slice off n l i :
  (i < n)%nat -> at_ (slice off n l) i = at_ l (off + i).
Proof.
  intros. unfold at_, slice. rewrite <- nth_skipn.
  destruct (Nat.lt_ge_cases i (length (drop off l))).
  - rewrite <- (firstn_skipn n (skipn off l)) at 2.
    rewrite app_nth1; [done|]. rewrite length_take. lia.
  - rewrite !nth_overflow; [done|lia|rewrite length_take; lia].
Qed.

Lemma slice_ldb m a n off len :
  (off + len <= n)%nat -> slice off len (ldb m a n) = ldb m (a + Z.of_nat off) len.
Proof.
  intros. apply bytes_ext; rewrite length_slice, ?length_ldb by (rewrite length_ldb; lia);
    [done|].
  intros i Hi. rewrite at_slice, !at_ldb by lia. f_equal. lia.
Qed.

Lemma ldb_app m a n1 n2 : ldb m a (n1 + n2) = ldb m a n1 ++ ldb m (a + Z.of_nat n1) n2.
Proof.
  apply bytes_ext; [rewrite length_app, !length_ldb; done|].
  rewrite length_ldb. intros i Hi. rewrite at_ldb by done.
  destruct (Nat.lt_ge_cases i n1).
  - rewrite at_app_l, at_ldb by (rewrite ?length_ldb; done). done.
  - rewrite at_app_r, length_ldb, at_ldb by (rewrite ?length_ldb; lia). f_equal. lia.
Qed.

Lemma ldb_stb_out a l m b n :
  b + Z.of_nat n <= a \/ a + Z.of_nat (length l) <= b ->
  ldb (stb a l m) b n = ldb m b n.
Proof. intros. apply ldb_ext. intros. apply stb_out. lia. Qed.

(** Reading a window of what [stb] stored. *)
Lemma ldb_stb_sub a l m b n :
  a <= b -> b + Z.of_nat n <= a + Z.of_nat (length l) ->
  ldb (stb a l m) b n = slice (Z.to_nat (b - a)) n l.
Proof.
  intros. apply bytes_ext; rewrite length_ldb, ?length_slice by lia; [done|].
  intros i Hi. rewrite at_ldb, at_slice, stb_in by lia. f_equal. lia.
Qed.

Lemma ldb_stb_same a l m : ldb (stb a l m) a (length l) = l.
Proof.
  rewrite ldb_stb_sub by lia. rewrite Z.sub_diag. apply slice_all. done.
Qed.

Lemma ldb_stb_len a l m n : length l = n -> ldb (stb a l m) a n = l.
Proof. intros <-. apply ldb_stb_same. Qed.

Lemma ld16_ldb m a : ld16 m a = at_ (ldb m a 2) 0 * 256 + at_ (ldb m a 2) 1.
Proof. unfold ld16. rewrite !at_ldb by lia. rewrite Z.add_0_r. done. Qed.

Lemma ld16_out a l m x :
  x + 2 <= a \/ a + Z.of_nat (length l) <= x -> ld16 (stb a l m) x = ld16 m x.
Proof. intros. unfold ld16. rewrite !stb_out by lia. done. Qed.

Lemma ld32_out a l m x :
  x + 4 <= a \/ a + Z.of_nat (length l) <= x -> ld32 (stb a l m) x = ld32 m x.
Proof. intros. unfold ld32. rewrite !stb_out by lia. done. Qed.

Lemma ld16_st8_out a v m x : a < x \/ x + 2 <= a -> ld16 (st8 a v m) x = ld16 m x.
Proof. intros. unfold ld16. rewrite !st8_out by lia. done. Qed.

Lemma ld32_st8_out a v m x : a < x \/ x + 4 <= a -> ld32 (st8 a v m) x = ld32 m x.
Proof. intros. unfold ld32. rewrite !st8_out by lia. done. Qed.

Lemma ldb_st8_out a v m x n : a < x \/ x + Z.of_nat n <= a -> ldb (st8 a v m) x n = ldb m x n.
Proof. intros. apply ldb_ext. intros. apply st8_out. lia. Qed.

Lemma be16_value v : at_ (be16 v) 0 * 256 + at_ (be16 v) 1 = u16 v.
Proof.
  unfold be16, at_, wrap. cbn [nth]. rewrite Z.shiftr_div_pow2 by lia.
  change (2 ^ 8) with 256. change (2 ^ 16) with 65536. lia_mod.
Qed.

Lemma be32_value v :
  ((at_ (be32 v) 0 * 256 + at_ (be32 v) 1) * 256 + at_ (be32 v) 2) * 256
  + at_ (be32 v) 3 = u32 v.
Proof.
  unfold be32, at_, wrap. cbn [nth]. rewrite !Z.shiftr_div_pow2 by lia.
  change (2 ^ 8) with 256. change (2 ^ 16) with 65536. change (2 ^ 24) with 16777216.
  change (2 ^ 32) with 4294967296. lia_mod.
Qed.

Lemma ld16_st16 a v m : ld16 (st16 a v m) a = u16 v.
Proof.
  rewrite <- be16_value. unfold ld16, st16.
  rewrite !stb_in by (change (length (be16 v)) with 2%nat; lia).
  replace (Z.to_nat (a - a)) with 0%nat by lia.
  replace (Z.to_nat (a + 1 - a)) with 1%nat by lia. done.
Qed.

Lemma ld32_st32 a v m : ld32 (st32 a v m) a = u32 v.
Proof.
  rewrite <- be32_value. unfold ld32, st32.
  rewrite !stb_in by (change (length (be32 v)) with 4%nat; lia).
  replace (Z.to_nat (a - a)) with 0%nat by lia.
  replace (Z.to_nat (a + 1 - a)) with 1%nat by lia.
  replace (Z.to_nat (a + 2 - a)) with 2%nat by lia.
  replace (Z.to_nat (a + 3 - a)) with 3%nat by lia. done.
Qed.

Lemma ldb_st32 a v m : ldb (st32 a v m) a 4 = be32 v.
Proof. apply (ldb_stb_same a (be32 v)). Qed.
Lemma ldb_st16 a v m : ldb (st16 a v m) a 2 = be16 v.
Proof. apply (ldb_stb_same a (be16 v)). Qed.

(** A field whose bytes are known has the known value. *)
Lemma ld32_of_ldb m a v : ldb m a 4 = be32 v -> ld32 m a = u32 v.
Proof.
  intros E. rewrite <- be32_value, <- E, !at_ldb by lia.
  unfold ld32. rewrite Z.add_0_r. done.
Qed.
Lemma ld16_of_ldb m a v : ldb m a 2 = be16 v -> ld16 m a = u16 v.
Proof.
  intros E. rewrite <- be16_value, <- E, !at_ldb by lia.
  unfold ld16. rewrite Z.add_0_r. done.
Qed.

Lemma ld32_stb_be32 a v m : ld32 (stb a (be32 v) m) a = u32 v.
Proof. apply ld32_st32. Qed.

Lemma ld16_st16_out a v m x : x + 2 <= a \/ a + 2 <= x -> ld16 (st16 a v m) x = ld16 m x.
Proof. apply (ld16_out a (be16 v)). Qed.
Lemma ld32_st16_out a v m x : x + 4 <= a \/ a + 2 <= x -> ld32 (st16 a v m) x = ld32 m x.
Proof. apply (ld32_out a (be16 v)). Qed.
Lemma ld16_st32_out a v m x : x + 2 <= a \/ a + 4 <= x -> ld16 (st32 a v m) x = ld16 m x.
Proof. apply (ld16_out a (be32 v)). Qed.
Lemma ld32_st32_out a v m x : x + 4 <= a \/ a + 4 <= x -> ld32 (st32 a v m) x = ld32 m x.
Proof. apply (ld32_out a (be32 v)). Qed.
Lemma st16_out a v m x : x < a \/ a + 2 <= x -> st16 a v m x = m x.
Proof. apply (stb_out a (be16 v)). Qed.
Lemma st32_out a v m x : x < a \/ a + 4 <= x -> st32 a v m x = m x.
Proof. apply (stb_out a (be32 v)). Qed.
Lemma ldb_st16_out a v m x n :
  x + Z.of_nat n <= a \/ a + 2 <= x -> ldb (st16 a v m) x n = ldb m x n.
Proof. apply (ldb_stb_out a (be16 v)). Qed.
Lemma ldb_st32_out a v m x n :
  x + Z.of_nat n <= a \/ a + 4 <= x -> ldb (st32 a v m) x n = ldb m x n.
Proof. apply (ldb_stb_out a (be32 v)). Qed.

(** A side condition about addresses: list lengths to numbers, then [lia]. *)
Ltac addr :=
  unfold off_l4, off_ip, off_payload, sizeof_eth in *;
  rewrite ?length_take, ?length_ldb, ?length_app, ?repeat_length;
  cbn [length be16 be32 le16 Nat.add]; lia.

#[export] Hint Rewrite ld16_st16 ld32_st32 ld32_stb_be32 ldb_st16 ldb_st32 st8_same ldb_stb_same : mem.
#[export] Hint Rewrite ld16_st8_out ld32_st8_out ldb_st8_out st8_out ld16_st16_out
  ld32_st16_out ld16_st32_out ld32_st32_out st16_out st32_out ldb_st16_out ldb_st32_out
  ld16_out ld32_out ldb_stb_out stb_out using addr : mem.

Ltac mem_simp := autorewrite with mem.

(** ** The Internet checksum *)

(** One's complement value of a sum: its representative modulo 65535, 0 only
    for 0. *)
Definition ones (r : Z) : Z := if r =? 0 then 0 else 1 + (r - 1) mod 65535.

(** Sum of the first [n] big-endian 16-bit words of a buffer. *)
Fixpoint word_sum (n : nat) (i : Z) (buf : Z -> Z) : Z :=
  match n with
  | O => 0
  | S n' => buf (2 * i) * 256 + buf (2 * i + 1) + word_sum n' (i + 1) buf
  end.

Lemma ones_small r : 0 <= r <= 65535 -> ones r = r.
Proof.
  intros. unfold ones. destruct (Z.eqb_spec r 0); [lia|].
  rewrite Z.mod_small by lia. lia.
Qed.

Lemma ones_range r : 0 <= r -> 0 <= ones r <= 65535.
Proof. intros. unfold ones. destruct (Z.eqb_spec r 0); [lia|]. lia_mod. Qed.

Lemma ones_congr a b k :
  0 < a -> 0 < b -> a = b + k * 65535 -> ones a = ones b.
Proof.
  intros Ha Hb E. unfold ones. destruct (Z.eqb_spec a 0), (Z.eqb_spec b 0); try lia.
  f_equal. replace (a - 1) with (b - 1 + k * 65535) by lia. apply Z_mod_plus_full.
Qed.

Lemma ones_0 r : 0 <= r -> ones r = 0 -> r = 0.
Proof. intros H. unfold ones. destruct (Z.eqb_spec r 0); [lia|]. lia_mod. Qed.

Lemma ones_add a b : 0 <= a -> 0 <= b -> ones (ones a + b) = ones (a + b).
Proof.
  intros Ha Hb. destruct (Z.eq_dec a 0) as [->|Na]; [done|].
  assert (exists k, ones a = a + k * 65535 /\ 0 < ones a) as (k & E & P).
  { unfold ones. destruct (Z.eqb_spec a 0); [lia|].
    exists (- ((a - 1) / 65535)). split; lia_mod. }
  apply (ones_congr _ _ k); lia.
Qed.

Lemma ones_idem a : 0 <= a -> ones (ones a) = ones a.
Proof. intros. apply ones_small, ones_range. done. Qed.

Lemma fold_step r : 0 <= r < 2 ^ 32 ->
  u32 (Z.land r 0xffff + Z.shiftr r 16) = r mod 65536 + r / 65536.
Proof.
  intros. change 0xffff with (Z.ones 16). rewrite Z.land_ones, Z.shiftr_div_pow2 by lia.
  change (2 ^ 16) with 65536. apply wrap_small. unfold in_word. lia_mod.
Qed.

Lemma ones_fold_step r : 65536 <= r -> ones (r mod 65536 + r / 65536) = ones r.
Proof. intros. apply (ones_congr _ _ (- (r / 65536))); lia_mod. Qed.

(** The carry loop ends within two rounds on every 32-bit sum. *)
Lemma csum_fold_done r f : 0 <= r < 2 ^ 32 -> csum_fold (S (S (S f))) r = ones r.
Proof.
  intros Hr.
  assert (forall x g, 0 <= x <= 65535 -> csum_fold (S g) x = ones x) as Hbase.
  { intros x g Hx. cbn [csum_fold]. rewrite Z.shiftr_div_pow2, Z.div_small by lia.
    rewrite ones_small by lia. done. }
  assert (forall x g, 0 <= x < 2 ^ 32 -> 65535 < x ->
    csum_fold (S g) x = csum_fold g (x mod 65536 + x / 65536)) as Hstep.
  { intros x g Hx Hb. cbn [csum_fold]. rewrite fold_step by done.
    rewrite Z.shiftr_div_pow2 by lia. change (2 ^ 16) with 65536.
    destruct (Z.eqb_spec (x / 65536) 0); [lia_mod|done]. }
  destruct (Z.le_gt_cases r 65535); [apply Hbase; lia|].
  rewrite Hstep, <- (ones_fold_step r) by lia.
  set (r1 := r mod 65536 + r / 65536).
  assert (0 <= r1 <= 131070) by (unfold r1; lia_mod).
  destruct (Z.le_gt_cases r1 65535); [apply Hbase; lia|].
  rewrite Hstep, <- (ones_fold_step r1) by lia.
  apply Hbase. lia_mod.
Qed.

Lemma word_sum_range n i buf :
  (forall j, is_byte (buf j)) -> 0 <= word_sum n i buf <= 65535 * Z.of_nat n.
Proof.
  intros Hb. revert i. induction n as [|n IH]; intros i; cbn [word_sum]; [lia|].
  specialize (IH (i + 1)). pose proof (Hb (2 * i)). pose proof (Hb (2 * i + 1)).
  unfold is_byte in *. lia.
Qed.

Lemma csum_words_sum n i buf r :
  (forall j, is_byte (buf j)) -> 0 <= r -> r + 65535 * Z.of_nat n < 2 ^ 32 ->
  csum_words n i buf r = r + word_sum n i buf.
Proof.
  intros Hb. revert i r. induction n as [|n IH]; intros i r Hr Hn;
    cbn [csum_words word_sum]; [lia|].
  pose proof (Hb (2 * i)). pose proof (Hb (2 * i + 1)). unfold is_byte in *.
  rewrite (lor_shiftl_add 8) by lia. change (2 ^ 8) with 256.
  rewrite wrap_small by (unfold in_word; lia). rewrite IH by lia. lia.
Qed.

(** A checksum length the 32-bit accumulator cannot overflow on. *)
Definition csum_length (length : Z) : nat := Z.to_nat (Z.shiftr length 1).

Lemma wrap_lnot16 o : 0 <= o <= 65535 -> u16 (Z.lnot o) = 65535 - o.
Proof.
  intros. unfold wrap, Z.lnot.
  replace (Z.pred (- o)) with (65535 - o + (-1) * 2 ^ 16) by lia.
  rewrite Z_mod_plus_full. apply Z.mod_small. lia.
Qed.

Lemma ip_checksum_partial r buf len :
  (forall j, is_byte (buf j)) -> 0 <= r <= 65535 -> 0 <= len <= 130000 ->
  ip_checksum r buf len false = ones (r + word_sum (csum_length len) 0 buf).
Proof.
  intros Hb Hr Hl. unfold ip_checksum. fold (csum_length len).
  assert (Z.of_nat (csum_length len) <= 65000).
  { unfold csum_length. rewrite Z.shiftr_div_pow2 by lia. change (2 ^ 1) with 2. lia_mod. }
  pose proof (word_sum_range (csum_length len) 0 buf Hb).
  rewrite csum_words_sum by (done || lia). rewrite csum_fold_done by lia.
  apply wrap_small. pose proof (ones_range (r + word_sum (csum_length len) 0 buf) ltac:(lia)).
  unfold in_word. lia.
Qed.

Lemma ip_checksum_complete r buf len :
  (forall j, is_byte (buf j)) -> 0 <= r <= 65535 -> 0 <= len <= 130000 ->
  exists c, ip_checksum r buf len true = c /\ 0 < c <= 65535
    /\ ones (r + word_sum (csum_length len) 0 buf + c) = 65535.
Proof.
  intros Hb Hr Hl. unfold ip_checksum. fold (csum_length len).
  assert (Z.of_nat (csum_length len) <= 65000).
  { unfold csum_length. rewrite Z.shiftr_div_pow2 by lia. change (2 ^ 1) with 2. lia_mod. }
  pose proof (word_sum_range (csum_length len) 0 buf Hb) as Hs.
  rewrite csum_words_sum by (done || lia). rewrite csum_fold_done by lia.
  set (x := r + word_sum (csum_length len) 0 buf) in *.
  pose proof (ones_range x ltac:(lia)) as Ho.
  assert (Z.land (u32 (Z.lnot (ones x))) 0xffff = 65535 - ones x) as ->.
  { change 0xffff with (Z.ones 16). rewrite Z.land_ones by lia.
    fold (wrap 16 (u32 (Z.lnot (ones x)))). rewrite wrap_wrap_le by lia.
    apply wrap_lnot16. done. }
  assert (forall c, 0 < c -> ones (x + c) = ones (ones x + c)) as E.
  { intros. symmetry. apply ones_add; lia. }
  destruct (Z.eqb_spec (65535 - ones x) 0) as [Z0|Z0].
  - exists 65535. split; [done|]. split; [lia|]. rewrite E by lia.
    replace (ones x + 65535) with (65535 + 1 * 65535) by lia. done.
  - exists (65535 - ones x). split; [apply wrap_small; unfold in_word; lia|].
    split; [lia|]. rewrite E by lia. replace (ones x + (65535 - ones x)) with 65535 by lia.
    done.
Qed.

Lemma csum_words_ext n i b1 b2 r :
  (forall j, 2 * i <= j < 2 * (i + Z.of_nat n) -> b1 j = b2 j) ->
  csum_words n i b1 r = csum_words n i b2 r.
Proof.
  revert i r. induction n as [|n IH]; intros i r H; cbn [csum_words]; [done|].
  rewrite !H by lia. apply IH. intros. apply H. lia.
Qed.

Lemma ip_checksum_ext r b1 b2 len complete :
  (forall j, 0 <= j < len -> b1 j = b2 j) ->
  ip_checksum r b1 len complete = ip_checksum r b2 len complete.
Proof.
  intros H. unfold ip_checksum. erewrite csum_words_ext; [reflexivity|].
  intros j Hj. apply H. rewrite Z.shiftr_div_pow2 in Hj by lia.
  change (2 ^ 1) with 2 in Hj. lia_mod.
Qed.

Lemma word_sum_ext n i b1 b2 :
  (forall j, 2 * i <= j < 2 * (i + Z.of_nat n) -> b1 j = b2 j) ->
  word_sum n i b1 = word_sum n i b2.
Proof.
  revert i. induction n as [|n IH]; intros i H; cbn [word_sum]; [done|].
  rewrite !H by lia. rewrite (IH (i + 1)) by (intros; apply H; lia). done.
Qed.

(** Storing [c] in a zero word adds [c] to the sum. *)
Lemma word_sum_store n i k b1 b2 c :
  i <= k < i + Z.of_nat n ->
  b1 (2 * k) = 0 -> b1 (2 * k + 1) = 0 ->
  b2 (2 * k) * 256 + b2 (2 * k + 1) = c ->
  (forall j, j <> 2 * k -> j <> 2 * k + 1 -> b2 j = b1 j) ->
  word_sum n i b2 = word_sum n i b1 + c.
Proof.
  intros Hk Z1 Z2 Hc Hj. revert i Hk.
  induction n as [|n IH]; intros i Hk; cbn [word_sum]; [lia|].
  destruct (Z.eq_dec i k) as [->|Ne].
  - rewrite (word_sum_ext n (k + 1) b2 b1) by (intros; apply Hj; lia). lia.
  - rewrite IH, !Hj by lia. lia.
Qed.

(** Writing the computed checksum into its zeroed field makes the region's
    one's complement sum 0xffff, whatever partial sum it started from. *)
Lemma checksum_store m a len k r :
  (forall x, is_byte (m x)) -> 0 <= r <= 65535 -> 0 <= len <= 130000 ->
  0 <= k < Z.of_nat (csum_length len) ->
  m (a + 2 * k) = 0 -> m (a + 2 * k + 1) = 0 ->
  let c := ip_checksum r (at_addr m a) len true in
  ip_checksum r (at_addr (st16 (a + 2 * k) c m) a) len false = 65535.
Proof.
  intros Hm Hr Hl Hk Z1 Z2 c.
  destruct (ip_checksum_complete r (at_addr m a) len) as (c' & Ec & Hc & Ho);
    [intros; apply Hm|done|done|].
  fold c in Ec. subst c'.
  assert (u16 c = c) as Uc by (apply wrap_small; unfold in_word; lia).
  rewrite ip_checksum_partial; [|intros j|done|done].
  - rewrite (word_sum_store _ 0 k (at_addr m a) _ c); unfold at_addr; try lia.
    + rewrite Z.add_assoc. exact Ho.
    + rewrite Z.add_assoc. exact Z2.
    + transitivity (u16 c); [|exact Uc]. rewrite <- (ld16_st16 (a + 2 * k) c m). unfold ld16.
      rewrite Z.add_assoc. done.
    + intros j N1 N2. apply st16_out. lia.
  - unfold at_addr, st16, stb. destruct (_ && _) eqn:E; [|apply Hm].
    apply andb_true_iff in E as [E1 E2]. apply Z.leb_le in E1. apply Z.ltb_lt in E2.
    cbn [length be16] in E2. set (t := Z.to_nat _).
    assert (t = 0 \/ t = 1)%nat as [-> | ->] by lia; apply wrap_range; lia.
Qed.

(** ** Frames *)

Definition mem_bytes (m : memory) : Prop := forall x, is_byte (m x).

Lemma mem_bytes_stb a l m : bytes l -> mem_bytes m -> mem_bytes (stb a l m).
Proof.
  intros Hl Hm x. unfold stb. destruct (_ && _) eqn:E; [|apply Hm].
  apply andb_true_iff in E as [E1 E2]. apply Z.leb_le in E1. apply Z.ltb_lt in E2.
  unfold at_. rewrite Forall_forall in Hl. apply Hl.
  apply list_elem_of_In, nth_In. lia.
Qed.

Lemma mem_bytes_st8 a v m : is_byte v -> mem_bytes m -> mem_bytes (st8 a v m).
Proof. intros Hv Hm x. unfold st8. destruct (_ =? _); [done|apply Hm]. Qed.

Lemma bytes_be16 v : bytes (be16 v).
Proof. repeat constructor; apply wrap_range; lia. Qed.
Lemma bytes_be32 v : bytes (be32 v).
Proof. repeat constructor; apply wrap_range; lia. Qed.
Lemma mem_bytes_st16 a v m : mem_bytes m -> mem_bytes (st16 a v m).
Proof. apply mem_bytes_stb, bytes_be16. Qed.
Lemma mem_bytes_st32 a v m : mem_bytes m -> mem_bytes (st32 a v m).
Proof. apply mem_bytes_stb, bytes_be32. Qed.
Lemma bytes_ldb m a n : mem_bytes m -> bytes (ldb m a n).
Proof. intros Hm. apply Forall_map, Forall_true. intros. apply Hm. Qed.

#[export] Hint Resolve mem_bytes_stb mem_bytes_st8 mem_bytes_st16 mem_bytes_st32
  bytes_be16 bytes_be32 bytes_ldb : word.

Ltac byte_tac :=
  repeat first [ apply mem_bytes_st16 | apply mem_bytes_st32 | apply mem_bytes_st8
               | apply mem_bytes_stb ];
  try (solve [ assumption | apply bytes_be32 | apply bytes_be16 | apply bytes_ldb; assumption
             | unfold is_byte, IP_IPV4, IP_TTL, IP_PROTO_UDP; lia
             | repeat constructor; unfold is_byte, IP_PROTO_UDP; lia
             | apply Forall_take; assumption ]).

Section IpHeader.
Context (h tl p src : Z) (dst : list Z) (m : memory).
Hypothesis Hdst : length dst = 4%nat.

Lemma fill_ip_out x : x < h \/ h + 20 <= x -> fill_ip_header h tl p src dst m x = m x.
Proof. intros. unfold fill_ip_header. mem_simp. done. Qed.

Lemma fill_ip_fields :
  let m' := fill_ip_header h tl p src dst m in
  m' h = IP_IPV4 /\ ld16 m' (h + 2) = u16 tl /\ m' (h + 9) = p
  /\ ldb m' (h + 12) 4 = be32 src /\ ldb m' (h + 16) 4 = dst.
Proof.
  unfold fill_ip_header. mem_simp. repeat split.
  rewrite <- Hdst at 1. mem_simp. done.
Qed.

Lemma fill_ip_bytes : bytes dst -> is_byte p -> mem_bytes m ->
  mem_bytes (fill_ip_header h tl p src dst m).
Proof. intros. unfold fill_ip_header. byte_tac. Qed.

Lemma fill_ip_checksum : bytes dst -> is_byte p -> mem_bytes m ->
  ip_checksum 0 (at_addr (fill_ip_header h tl p src dst m) h) sizeof_ip false = 65535.
Proof.
  intros. unfold fill_ip_header. change (h + 10) with (h + 2 * 5).
  apply (checksum_store _ h sizeof_ip 5).
  - byte_tac.
  - lia.
  - unfold sizeof_ip; lia.
  - split; [lia|reflexivity].
  - mem_simp. rewrite stb_in by (cbn [length]; lia).
    replace (Z.to_nat _) with 0%nat by lia. done.
  - mem_simp. rewrite stb_in by (cbn [length]; lia).
    replace (Z.to_nat _) with 1%nat by lia. done.
Qed.
End IpHeader.

Section EthHeader.
Context (h et : Z) (dm sm : list Z) (m : memory).
Hypothesis (Hd : length dm = 6%nat) (Hs : length sm = 6%nat).

Lemma fill_eth_out x : x < h \/ h + 14 <= x -> fill_eth_header h dm sm et m x = m x.
Proof. intros. unfold fill_eth_header. rewrite !take_ge by lia. mem_simp. done. Qed.

Lemma fill_eth_fields :
  let m' := fill_eth_header h dm sm et m in
  ldb m' h 6 = dm /\ ldb m' (h + 6) 6 = sm /\ ld16 m' (h + 12) = u16 et.
Proof.
  unfold fill_eth_header. rewrite !take_ge by lia. mem_simp. repeat split.
  - rewrite <- Hd at 1. apply ldb_stb_same.
  - rewrite <- Hs at 1. apply ldb_stb_same.
Qed.

Lemma fill_eth_bytes : bytes dm -> bytes sm -> mem_bytes m ->
  mem_bytes (fill_eth_header h dm sm et m).
Proof. intros. unfold fill_eth_header. byte_tac. Qed.
End EthHeader.

(** ** The frame [udp_send] builds *)

Section UdpSend.
Context (src_port dst_port len : Z) (s : eth).
Hypothesis (Hlen : 0 <= len <= ETHMAC_SLOT_SIZE - 42).
Hypothesis (Hmy : length (my_mac s) = 6%nat) (Hca : length (cached_mac s) = 6%nat).
Let b := txbuffer s.

(** The frame in stages: link header, IP header, UDP header without its
    checksum, padding byte, checksum. *)
Definition udp_eth_mem : memory :=
  fill_eth_header b (cached_mac s) (my_mac s) ETHERTYPE_IP (mem s).
Definition udp_ip_mem : memory :=
  fill_ip_header (b + off_ip) (u16 (len + sizeof_udp_frame)) IP_PROTO_UDP (my_ip s)
    (be32 (cached_ip s)) udp_eth_mem.
Definition udp_ports_mem : memory :=
  st16 (b + off_l4 + 4) (u16 (len + sizeof_udp))
    (st16 (b + off_l4 + 2) dst_port (st16 (b + off_l4) src_port udp_ip_mem)).
Definition udp_hdr_mem : memory :=
  let m := stb (b + off_l4 + 6) [0; 0] udp_ports_mem in
  if Z.odd len then st8 (b + off_payload + len) 0 m else m.

Definition udp_even_len : Z := if Z.odd len then len + 1 else len.
Definition udp_pseudo : list Z :=
  be32 (my_ip s) ++ be32 (cached_ip s) ++ [0; IP_PROTO_UDP]
    ++ be16 (u16 (len + sizeof_udp)).
Definition udp_csum : Z :=
  ip_checksum (ip_checksum 0 (at_list udp_pseudo) sizeof_pseudo false)
    (at_addr udp_hdr_mem (b + off_l4)) (sizeof_udp + udp_even_len) true.
Definition udp_mem : memory := st16 (b + off_l4 + 6) udp_csum udp_hdr_mem.
Definition udp_txlen : Z := Z.max ARP_PACKET_LENGTH (len + 42).

Lemma udp_even_len_range : len <= udp_even_len <= len + 1.
Proof. unfold udp_even_len. destruct (Z.odd len); lia. Qed.

Lemma udp_send_eq : mac_is_zero (cached_mac s) = false ->
  udp_send src_port dst_port len s = (1, send_packet (set_txlen udp_txlen (set_mem udp_mem s))).
Proof.
  intros Hz. unfold udp_send. rewrite Hz.
  unfold ETHMAC_SLOT_SIZE in Hlen. pose proof udp_even_len_range as He.
  assert ((let x := u32 (len + sizeof_eth + sizeof_udp_frame) in
           if x <? ARP_PACKET_LENGTH then ARP_PACKET_LENGTH else x) = udp_txlen) as E1.
  { unfold udp_txlen, sizeof_eth, sizeof_udp_frame, ARP_PACKET_LENGTH.
    rewrite wrap_small by (unfold in_word; lia).
    cbv zeta. destruct (Z.ltb_spec (len + 14 + 28) 60); lia. }
  cbv zeta in E1 |- *. rewrite E1. unfold udp_mem, udp_csum, udp_hdr_mem, udp_even_len in *.
  fold b. destruct (Z.odd len).
  - rewrite (wrap_small 32 (len + 1)), (wrap_small 32 (sizeof_udp + _))
      by (unfold in_word, sizeof_udp; lia). done.
  - rewrite (wrap_small 32 (sizeof_udp + _)) by (unfold in_word, sizeof_udp; lia). done.
Qed.

Lemma udp_hdr_mem_out x : x < b + 40 \/ b + 42 <= x < b + 42 + len \/ b + 43 + len <= x ->
  udp_hdr_mem x = udp_ports_mem x.
Proof.
  intros. unfold udp_hdr_mem, off_l4, off_payload.
  destruct (Z.odd len); rewrite ?st8_out, stb_out by (cbn [length]; lia); done.
Qed.

Lemma udp_mem_out x : x < b + 40 \/ b + 42 <= x < b + 42 + len \/ b + 43 + len <= x ->
  udp_mem x = udp_ports_mem x.
Proof.
  intros. unfold udp_mem, off_l4. rewrite st16_out by lia. apply udp_hdr_mem_out. lia.
Qed.

Lemma udp_ports_mem_out x : x < b + 34 \/ b + 40 <= x -> udp_ports_mem x = udp_ip_mem x.
Proof. intros. unfold udp_ports_mem. mem_simp. done. Qed.

Lemma udp_ip_mem_out x : x < b + 14 \/ b + 34 <= x -> udp_ip_mem x = udp_eth_mem x.
Proof. intros. apply fill_ip_out; [done|]. unfold off_ip. lia. Qed.

Lemma udp_eth_mem_out x : x < b \/ b + 14 <= x -> udp_eth_mem x = mem s x.
Proof. intros. apply fill_eth_out; [done|done|lia]. Qed.

(** Nothing outside the frame area is written. *)
Lemma udp_mem_outside x : x < b \/ b + 43 + len <= x -> udp_mem x = mem s x.
Proof.
  intros. rewrite udp_mem_out, udp_ports_mem_out, udp_ip_mem_out, udp_eth_mem_out by lia.
  done.
Qed.

Lemma udp_mem_payload i : 0 <= i < len -> udp_mem (b + 42 + i) = mem s (b + 42 + i).
Proof.
  intros. rewrite udp_mem_out, udp_ports_mem_out, udp_ip_mem_out, udp_eth_mem_out by lia.
  done.
Qed.

Lemma udp_mem_pad : Z.odd len = true -> udp_mem (b + 42 + len) = 0.
Proof.
  intros Ho. unfold udp_mem, udp_hdr_mem, off_l4, off_payload. rewrite Ho.
  rewrite st16_out by lia. apply st8_same.
Qed.

Lemma udp_mem_eth_fields :
  ldb udp_mem b 6 = cached_mac s /\ ldb udp_mem (b + 6) 6 = my_mac s
  /\ ld16 udp_mem (b + 12) = ETHERTYPE_IP.
Proof.
  destruct (fill_eth_fields b ETHERTYPE_IP (cached_mac s) (my_mac s) (mem s) Hca Hmy)
    as (E1 & E2 & E3). fold udp_eth_mem in E1, E2, E3.
  assert (forall x, x < b + 14 -> udp_mem x = udp_eth_mem x) as F.
  { intros. rewrite udp_mem_out, udp_ports_mem_out, udp_ip_mem_out by lia. done. }
  split; [|split].
  - rewrite <- E1. apply ldb_ext. intros. apply F. lia.
  - rewrite <- E2. apply ldb_ext. intros. apply F. lia.
  - unfold ld16. rewrite !F by lia. exact E3.
Qed.

Lemma udp_mem_ip_fields :
  udp_mem (b + 14) = IP_IPV4 /\ ld16 udp_mem (b + 16) = len + 28
  /\ udp_mem (b + 23) = IP_PROTO_UDP /\ ldb udp_mem (b + 26) 4 = be32 (my_ip s)
  /\ ldb udp_mem (b + 30) 4 = be32 (cached_ip s).
Proof.
  unfold ETHMAC_SLOT_SIZE in Hlen.
  destruct (fill_ip_fields (b + off_ip) (u16 (len + sizeof_udp_frame)) IP_PROTO_UDP (my_ip s)
    (be32 (cached_ip s)) udp_eth_mem eq_refl) as (I1 & I2 & I3 & I4 & I5).
  fold udp_ip_mem in I1, I2, I3, I4, I5. unfold off_ip in *.
  rewrite wrap_idem, wrap_small in I2 by (unfold in_word, sizeof_udp_frame; lia).
  assert (forall x, x < b + 34 -> udp_mem x = udp_ip_mem x) as F.
  { intros. rewrite udp_mem_out, udp_ports_mem_out by lia. done. }
  replace (b + 16) with (b + 14 + 2) by lia. replace (b + 23) with (b + 14 + 9) by lia.
  replace (b + 26) with (b + 14 + 12) by lia. replace (b + 30) with (b + 14 + 16) by lia.
  repeat split.
  - rewrite F by lia. exact I1.
  - unfold ld16. rewrite !F by lia. exact I2.
  - rewrite F by lia. exact I3.
  - rewrite <- I4. apply ldb_ext. intros. apply F. lia.
  - rewrite <- I5. apply ldb_ext. intros. apply F. lia.
Qed.

Lemma udp_mem_udp_fields :
  ld16 udp_mem (b + 34) = u16 src_port /\ ld16 udp_mem (b + 36) = u16 dst_port
  /\ ldb udp_mem (b + 38) 2 = be16 (u16 (len + sizeof_udp)).
Proof.
  unfold ETHMAC_SLOT_SIZE in Hlen.
  assert (forall x, x < b + 40 -> udp_mem x = udp_ports_mem x) as F
    by (intros; apply udp_mem_out; lia).
  replace (b + 36) with (b + 34 + 2) by lia. replace (b + 38) with (b + 34 + 4) by lia.
  unfold ld16. rewrite !F by lia. rewrite (ldb_ext _ udp_ports_mem _ (b + 34 + 4))
    by (intros; apply F; lia).
  fold (ld16 udp_ports_mem (b + 34)). fold (ld16 udp_ports_mem (b + 34 + 2)).
  unfold udp_ports_mem, off_l4. mem_simp. done.
Qed.

Section Bytes.
Context (Hm : mem_bytes (mem s)) (Hbm : bytes (my_mac s)) (Hbc : bytes (cached_mac s)).

Lemma udp_ip_mem_bytes : mem_bytes udp_ip_mem.
Proof. apply fill_ip_bytes; byte_tac. Qed.

Lemma udp_hdr_mem_bytes : mem_bytes udp_hdr_mem.
Proof.
  unfold udp_hdr_mem, udp_ports_mem. pose proof udp_ip_mem_bytes.
  destruct (Z.odd len); byte_tac.
Qed.

Lemma udp_mem_ip_checksum :
  ip_checksum 0 (at_addr udp_mem (b + 14)) sizeof_ip false = 65535.
Proof.
  assert (ip_checksum 0 (at_addr udp_ip_mem (b + off_ip)) sizeof_ip false = 65535) as <-.
  { apply fill_ip_checksum; byte_tac. }
  apply ip_checksum_ext.
  intros j Hj. unfold at_addr, off_ip, sizeof_ip in *.
  rewrite udp_mem_out, udp_ports_mem_out by lia. done.
Qed.

Lemma at_list_byte l j : bytes l -> is_byte (at_list l j).
Proof.
  intros Hl. unfold at_list, at_. destruct (Nat.lt_ge_cases (Z.to_nat j) (length l)).
  - rewrite Forall_forall in Hl. apply Hl, list_elem_of_In, nth_In. done.
  - rewrite nth_overflow by done. unfold is_byte. lia.
Qed.

Lemma udp_pseudo_bytes : bytes udp_pseudo.
Proof.
  unfold udp_pseudo. rewrite !Forall_app. repeat split; byte_tac.
Qed.

Lemma udp_mem_udp_checksum :
  ip_checksum (ip_checksum 0 (at_list udp_pseudo) sizeof_pseudo false)
    (at_addr udp_mem (b + 34)) (sizeof_udp + udp_even_len) false = 65535.
Proof.
  unfold ETHMAC_SLOT_SIZE in Hlen. pose proof udp_even_len_range.
  unfold udp_mem, udp_csum. change (b + off_l4 + 6) with (b + off_l4 + 2 * 3).
  change (b + 34) with (b + off_l4). apply checksum_store.
  - apply udp_hdr_mem_bytes.
  - rewrite ip_checksum_partial; [apply ones_range| |lia|unfold sizeof_pseudo; lia].
    + rewrite Z.add_0_l. apply word_sum_range. intros. apply at_list_byte, udp_pseudo_bytes.
    + intros. apply at_list_byte, udp_pseudo_bytes.
  - unfold sizeof_udp. lia.
  - unfold csum_length, sizeof_udp. rewrite Z.shiftr_div_pow2 by lia. change (2 ^ 1) with 2.
    lia_mod.
  - unfold udp_hdr_mem, off_l4, off_payload.
    destruct (Z.odd len); rewrite ?st8_out, stb_in by (cbn [length]; lia);
      replace (Z.to_nat _) with 0%nat by lia; done.
  - unfold udp_hdr_mem, off_l4, off_payload.
    destruct (Z.odd len); rewrite ?st8_out, stb_in by (cbn [length]; lia);
      replace (Z.to_nat _) with 1%nat by lia; done.
Qed.
End Bytes.
End UdpSend.

(** ** Frames on the wire *)

(** The frame [f] arrives in receive slot [k], as the next poll's result. *)
Definition wire (k : Z) (f : txframe) : rxframe := RxFrame k (tx_len f) (tx_bytes f).
Definition arrive (fr : rxframe) (s : eth) : eth :=
  set_rx (rxslot s) (rxlen s) (rxbuffer s) (Some fr :: rxq s) s.

Section Wire.
Context (m m2 : memory) (a b : Z) (n : nat).

Lemma wire_mem i : 0 <= i < Z.of_nat n -> stb a (ldb m b n) m2 (a + i) = m (b + i).
Proof.
  intros. rewrite stb_in by (rewrite length_ldb; lia). rewrite at_ldb by lia. f_equal. lia.
Qed.

Lemma wire_ld16 i : 0 <= i -> i + 2 <= Z.of_nat n ->
  ld16 (stb a (ldb m b n) m2) (a + i) = ld16 m (b + i).
Proof. intros. unfold ld16. rewrite <- !Z.add_assoc, !wire_mem by lia. done. Qed.

Lemma wire_ld32 i : 0 <= i -> i + 4 <= Z.of_nat n ->
  ld32 (stb a (ldb m b n) m2) (a + i) = ld32 m (b + i).
Proof. intros. unfold ld32. rewrite <- !Z.add_assoc, !wire_mem by lia. done. Qed.

Lemma wire_ldb i j : 0 <= i -> i + Z.of_nat j <= Z.of_nat n ->
  ldb (stb a (ldb m b n) m2) (a + i) j = ldb m (b + i) j.
Proof. intros. apply ldb_ext. intros. rewrite <- !Z.add_assoc, !wire_mem by lia. done. Qed.
End Wire.

Ltac decide_cond :=
  match goal with
  | |- context [?a <? ?b] => destruct (Z.ltb_spec a b); [try lia|try lia]
  | |- context [?a =? ?b] => destruct (Z.eqb_spec a b); [try lia|try lia]
  end; cbn [negb].

(** Add up constant field offsets: [a + 14 + 9] to [a + 23]. *)
Ltac const_offsets :=
  rewrite <- ?Z.add_assoc;
  repeat match goal with
  | |- context [Zpos ?p + Zpos ?q] =>
      let v := eval vm_compute in (Zpos p + Zpos q) in
      change (Zpos p + Zpos q) with v
  end.

(** What [process_frame] does with a well-formed UDP datagram in its buffer. *)
Lemma process_frame_udp s :
  let a := rxbuffer s in let m := mem s in
  42 <= rxlen s -> ld16 m (a + 12) = ETHERTYPE_IP -> m (a + 14) = IP_IPV4 ->
  28 <= ld16 m (a + 16) -> m (a + 23) = IP_PROTO_UDP -> ld32 m (a + 30) = my_ip s ->
  8 <= ld16 m (a + 38) -> rx_callback s = true ->
  process_frame s = add_upcall (Upcall (ld32 m (a + 26)) (ld16 m (a + 34)) (ld16 m (a + 36))
    (a + 42) (ld16 m (a + 38) - 8) (ldb m (a + 42) (Z.to_nat (ld16 m (a + 38) - 8)))) s.
Proof.
  cbv zeta. intros Hl He Hv Ht Hp Hd Hu Hc.
  unfold process_frame, process_udp, off_ip, sizeof_eth, sizeof_udp_frame, sizeof_udp.
  const_offsets.
  rewrite He, Hv, Hp, Hd, Hc, !Z.eqb_refl.
  change (ETHERTYPE_IP =? ETHERTYPE_ARP) with false. cbn [negb].
  repeat decide_cond. done.
Qed.

(** What the receiver's callback sees of a datagram sent by [udp_send]. *)
Lemma udp_send_delivers src_port dst_port len s r k :
  0 <= len <= ETHMAC_SLOT_SIZE - 42 ->
  length (my_mac s) = 6%nat -> length (cached_mac s) = 6%nat ->
  mac_is_zero (cached_mac s) = false ->
  is_u16 src_port -> is_u16 dst_port -> is_u32 (my_ip s) -> is_u32 (cached_ip s) ->
  my_ip r = cached_ip s -> rx_callback r = true ->
  let '(rc, s') := udp_send src_port dst_port len s in
  rc = 1 /\ exists f, sent s' = sent s ++ [f] /\
    upcalls (udp_service (arrive (wire k f) r)) = upcalls r ++
      [Upcall (my_ip s) src_port dst_port (slot_addr k + 42) len
         (ldb (mem s) (udp_get_tx_buffer s) (Z.to_nat len))].
Proof.
  intros Hlen Hmy Hca Hz Hsp Hdp Hip Hcip Hr Hcb.
  rewrite udp_send_eq by done. split; [done|]. eexists; split; [reflexivity|].
  destruct (udp_mem_eth_fields src_port dst_port len s Hlen Hmy Hca) as (_ & _ & E).
  destruct (udp_mem_ip_fields src_port dst_port len s Hlen Hmy Hca) as (V & T & P & S & D).
  destruct (udp_mem_udp_fields src_port dst_port len s Hlen Hmy Hca) as (U1 & U2 & U3).
  apply ld32_of_ldb in S, D. apply ld16_of_ldb in U3.
  set (n := Z.to_nat (udp_txlen len)).
  assert (Z.of_nat n = Z.max 60 (len + 42)) as Hn
    by (unfold n, udp_txlen, ARP_PACKET_LENGTH; lia).
  unfold udp_service, arrive, wire. cbn -[udp_mem Z.to_nat stb ldb slot_addr process_frame].
  fold n. set (a := slot_addr k).
  unfold sizeof_udp in U3.
  unfold ETHMAC_SLOT_SIZE in Hlen. rewrite wrap_idem, wrap_small in U3 by (unfold in_word; lia).
  rewrite process_frame_udp; cbn [mem rxbuffer rxlen my_ip rx_callback set_mem set_rx set_txlen];
    rewrite ?wire_ld16, ?wire_ld32, ?wire_mem by lia.
  - cbn [add_upcall upcalls set_rx set_mem]. f_equal. f_equal.
    rewrite U3. replace (len + 8 - 8) with len by lia.
    rewrite wire_ldb by lia. rewrite S, U1, U2, !wrap_small by done.
    f_equal. apply ldb_ext. intros i Hi. apply udp_mem_payload; lia || done.
  - unfold udp_txlen. lia.
  - exact E.
  - exact V.
  - rewrite T. lia.
  - exact P.
  - rewrite D, wrap_small by done. done.
  - rewrite U3. lia.
  - exact Hcb.
Qed.

(** A datagram sent by [udp_send] and received by [udp_service] on the peer is
    handed to the peer's callback unchanged: the payload written at
    [udp_get_tx_buffer], its length, both ports and the sender's address. *)
Theorem udp_send_receive src_port dst_port len s r k :
  0 <= len <= ETHMAC_SLOT_SIZE - 42 ->
  length (my_mac s) = 6%nat -> length (cached_mac s) = 6%nat ->
  mac_is_zero (cached_mac s) = false ->
  is_u16 src_port -> is_u16 dst_port -> is_u32 (my_ip s) -> is_u32 (cached_ip s) ->
  my_ip r = cached_ip s -> rx_callback r = true ->
  let '(rc, s') := udp_send src_port dst_port len s in
  rc = 1 /\ exists f, sent s' = sent s ++ [f] /\
    upcalls (udp_service (arrive (wire k f) r)) = upcalls r ++
      [Upcall (my_ip s) src_port dst_port (slot_addr k + 42) len
         (ldb (mem s) (udp_get_tx_buffer s) (Z.to_nat len))].
Proof. apply udp_send_delivers. Qed.

(** A frame sent by [udp_send] verifies: its IPv4 header and its UDP datagram
    (with the pseudo header and the zero padding byte) both sum to 0xffff in
    one's complement arithmetic, the Ethernet header carries the cached and the
    own MAC address, its length is the payload's plus 42 (at least 60), and no
    byte outside the transmit slot is written. *)
Theorem udp_send_frame_valid src_port dst_port len s :
  0 <= len < ETHMAC_SLOT_SIZE - 42 ->
  length (my_mac s) = 6%nat -> length (cached_mac s) = 6%nat ->
  mac_is_zero (cached_mac s) = false ->
  mem_bytes (mem s) -> bytes (my_mac s) -> bytes (cached_mac s) ->
  let '(rc, s') := udp_send src_port dst_port len s in
  exists F, sent s' = sent s ++ [TxFrame (txslot s) (Z.max 60 (len + 42)) F]
    /\ slice 0 6 F = cached_mac s /\ slice 6 6 F = my_mac s
    /\ ip_checksum 0 (at_list (slice 14 20 F)) sizeof_ip false = 0xffff
    /\ ip_checksum (ip_checksum 0
           (at_list (slice 26 8 F ++ [0; IP_PROTO_UDP] ++ slice 38 2 F)) sizeof_pseudo false)
         (at_list (slice 34 (Z.to_nat (8 + len)) F ++ [0]))
         (8 + len + len mod 2) false = 0xffff
    /\ (forall x, x < txbuffer s \/ txbuffer s + ETHMAC_SLOT_SIZE <= x -> mem s' x = mem s x).
Proof.
  intros Hlen' Hmy Hca Hz Hm Hbm Hbc.
  assert (0 <= len <= ETHMAC_SLOT_SIZE - 42) as Hlen by lia.
  rewrite udp_send_eq by done. unfold ETHMAC_SLOT_SIZE in Hlen'.
  set (m := udp_mem src_port dst_port len s). set (b := txbuffer s).
  set (n := Z.to_nat (udp_txlen len)).
  assert (Z.of_nat n = Z.max 60 (len + 42)) as Hn
    by (unfold n, udp_txlen, ARP_PACKET_LENGTH; lia).
  exists (ldb m b n).
  destruct (udp_mem_eth_fields src_port dst_port len s Hlen Hmy Hca) as (E1 & E2 & _).
  destruct (udp_mem_ip_fields src_port dst_port len s Hlen Hmy Hca) as (_ & _ & _ & S & D).
  destruct (udp_mem_udp_fields src_port dst_port len s Hlen Hmy Hca) as (_ & _ & U).
  fold m b in E1, E2, S, D, U. split_and!.
  - cbn -[m b Z.to_nat ldb]. fold n. f_equal.
  - rewrite slice_ldb, Z.add_0_r by lia. exact E1.
  - rewrite slice_ldb by lia. exact E2.
  - rewrite <- (udp_mem_ip_checksum src_port dst_port len s) by done.
    apply ip_checksum_ext. unfold sizeof_ip. intros j Hj. unfold at_list, at_addr.
    rewrite slice_ldb, at_ldb by lia. fold m b. f_equal. lia.
  - rewrite !slice_ldb by lia.
    change (Z.of_nat 26) with 26. change (Z.of_nat 38) with 38. change (Z.of_nat 34) with 34.
    change (ldb m (b + 26) 8) with (ldb m (b + 26) (4 + 4)).
    rewrite ldb_app, <- app_assoc.
    replace (b + 26 + Z.of_nat 4) with (b + 30) by lia.
    rewrite S, D, U. fold (udp_pseudo len s).
    rewrite <- (udp_mem_udp_checksum src_port dst_port len s) by done.
    replace (8 + len + len mod 2) with (sizeof_udp + udp_even_len len)
      by (unfold sizeof_udp, udp_even_len; rewrite Zmod_odd; destruct (Z.odd len); lia).
    apply ip_checksum_ext. intros j Hj. unfold at_list, at_addr. fold m b.
    destruct (Z.lt_ge_cases j (8 + len)).
    + rewrite at_app_l, at_ldb by (rewrite ?length_ldb; lia). f_equal. lia.
    + unfold sizeof_udp, udp_even_len in Hj. destruct (Z.odd len) eqn:Ho; [|lia].
      rewrite at_app_r by (rewrite length_ldb; lia). rewrite length_ldb.
      replace (Z.to_nat j - Z.to_nat (8 + len))%nat with 0%nat by lia.
      replace (b + 34 + j) with (b + 42 + len) by lia. symmetry. apply udp_mem_pad; done.
  - intros x Hx. unfold ETHMAC_SLOT_SIZE in Hx. cbn -[m]. apply udp_mem_outside; [done|done|done|].
    fold b. lia.
Qed.

(** ** ARP *)

(** The bytes of a received frame form an ARP reply for [ip] from [mac]. *)
Definition arp_reply_bytes (ip : Z) (mac : list Z) (m : memory) (a : Z) : Prop :=
  ld16 m (a + 12) = ETHERTYPE_ARP /\ ld16 m (a + 14) = ARP_HWTYPE_ETHERNET
  /\ ld16 m (a + 16) = ARP_PROTO_IP /\ m (a + 18) = 6 /\ m (a + 19) = 4
  /\ ld16 m (a + 20) = ARP_OPCODE_REPLY /\ ld32 m (a + 28) = ip
  /\ ldb m (a + 22) 6 = mac.

Definition arp_reply (ip : Z) (mac : list Z) (fr : rxframe) : Prop :=
  ARP_PACKET_LENGTH <= rx_flen fr /\ (42 <= length (rx_bytes fr))%nat
  /\ arp_reply_bytes ip mac (at_list (rx_bytes fr)) 0.

Lemma process_frame_arp_reply s ip mac :
  ARP_PACKET_LENGTH <= rxlen s -> arp_reply_bytes ip mac (mem s) (rxbuffer s) ->
  cached_ip s = ip -> process_frame s = set_cache mac ip s.
Proof.
  intros Hl (A & H & P & S & Q & O & I & M) Hc.
  unfold process_frame, process_arp, sizeof_eth. const_offsets.
  rewrite A, H, P, S, Q, O, I, M, Hc, !Z.eqb_refl. cbn [negb].
  destruct (Z.ltb_spec (rxlen s) ARP_PACKET_LENGTH); [lia|done].
Qed.

Lemma arp_reply_received ip mac fr m a :
  arp_reply ip mac fr -> arp_reply_bytes ip mac (stb a (rx_bytes fr) m) a.
Proof.
  intros (_ & Hl & H). unfold arp_reply_bytes in *. cbn [Z.add] in H.
  assert (forall i, 0 <= i < 42 -> stb a (rx_bytes fr) m (a + i) = at_list (rx_bytes fr) i) as R.
  { intros. rewrite stb_in by lia. unfold at_list. f_equal. lia. }
  unfold ld16, ld32 in *. rewrite <- !Z.add_assoc, !R by lia.
  destruct H as (A & H & P & S & Q & O & I & M). split_and!; try done.
  rewrite <- M. apply ldb_ext. intros. rewrite <- Z.add_assoc, R by lia. done.
Qed.

(** What one poll can change of the identity and the ARP cache. *)
Definition same_identity (s s' : eth) : Prop :=
  my_mac s' = my_mac s /\ my_ip s' = my_ip s /\ cached_ip s' = cached_ip s
  /\ rx_callback s' = rx_callback s /\ rxq s' = rxq s.

Ltac split_ifs :=
  repeat match goal with
  | |- context [if ?c then _ else _] => destruct c
  end.

Lemma process_arp_identity s : same_identity s (process_arp s).
Proof. unfold process_arp. cbv zeta. split_ifs; repeat split. Qed.

Lemma process_icmp_identity s :
  same_identity s (process_icmp s) /\ cached_mac (process_icmp s) = cached_mac s.
Proof. unfold process_icmp. cbv zeta. split_ifs; repeat split. Qed.

Lemma process_udp_identity s :
  same_identity s (process_udp s) /\ cached_mac (process_udp s) = cached_mac s.
Proof. unfold process_udp. cbv zeta. split_ifs; repeat split. Qed.

Lemma process_frame_identity s : same_identity s (process_frame s).
Proof.
  unfold process_frame. cbv zeta. split_ifs; try (repeat split; fail).
  - apply process_arp_identity.
  - apply process_udp_identity.
  - apply process_icmp_identity.
Qed.

Lemma process_arp_cache s :
  cached_mac (process_arp s) <> cached_mac s ->
  ARP_PACKET_LENGTH <= rxlen s
  /\ ld16 (mem s) (rxbuffer s + 20) = ARP_OPCODE_REPLY
  /\ ld32 (mem s) (rxbuffer s + 28) = cached_ip s
  /\ cached_mac (process_arp s) = ldb (mem s) (rxbuffer s + 22) 6.
Proof.
  unfold process_arp, sizeof_eth. cbv zeta. const_offsets. intros H.
  destruct (Z.ltb_spec (rxlen s) ARP_PACKET_LENGTH); [done|].
  do 4 (destruct (negb _); [done|]).
  destruct (Z.eqb_spec (ld16 (mem s) (rxbuffer s + 20)) ARP_OPCODE_REPLY).
  - destruct (Z.eqb_spec (ld32 (mem s) (rxbuffer s + 28)) (cached_ip s)); [|done].
    done.
  - exfalso. revert H. split_ifs; intros H; apply H; done.
Qed.

Lemma process_frame_cache s :
  cached_mac (process_frame s) <> cached_mac s ->
  ld16 (mem s) (rxbuffer s + 12) = ETHERTYPE_ARP
  /\ ARP_PACKET_LENGTH <= rxlen s
  /\ ld16 (mem s) (rxbuffer s + 20) = ARP_OPCODE_REPLY
  /\ ld32 (mem s) (rxbuffer s + 28) = cached_ip s
  /\ cached_mac (process_frame s) = ldb (mem s) (rxbuffer s + 22) 6.
Proof.
  unfold process_frame. cbv zeta.
  destruct (Z.eqb_spec (ld16 (mem s) (rxbuffer s + 12)) ETHERTYPE_ARP) as [E|E].
  - intros H. split; [exact E|]. apply process_arp_cache. exact H.
  - intros H. exfalso. revert H.
    split_ifs; intros H; apply H;
      [| | apply process_udp_identity | apply process_icmp_identity | | ]; done.
Qed.

Lemma udp_service_identity s :
  my_mac (udp_service s) = my_mac s /\ my_ip (udp_service s) = my_ip s
  /\ cached_ip (udp_service s) = cached_ip s /\ rx_callback (udp_service s) = rx_callback s
  /\ rxq (udp_service s) = tail (rxq s).
Proof.
  unfold udp_service. destruct (rxq s) as [|[f|] q] eqn:E; try (repeat split; done).
  set (s1 := set_rx _ _ _ _ _).
  destruct (process_frame_identity s1) as (A & B & C & D & F).
  rewrite A, B, C, D, F. done.
Qed.

(** One poll changes the ARP cache only to the sender MAC of an ARP reply of at
    least 60 bytes whose sender address is the one being resolved; the peer
    address, the own address and the own MAC are never changed by traffic. *)
Theorem arp_cache_only_from_replies s :
  cached_ip (udp_service s) = cached_ip s /\ my_ip (udp_service s) = my_ip s
  /\ my_mac (udp_service s) = my_mac s
  /\ (cached_mac (udp_service s) = cached_mac s \/
      exists f q, rxq s = Some f :: q /\ ARP_PACKET_LENGTH <= rx_flen f
        /\ let a := slot_addr (rx_slot f) in let m := stb a (rx_bytes f) (mem s) in
           ld16 m (a + 12) = ETHERTYPE_ARP /\ ld16 m (a + 20) = ARP_OPCODE_REPLY
           /\ ld32 m (a + 28) = cached_ip s
           /\ cached_mac (udp_service s) = ldb m (a + 22) 6).
Proof.
  destruct (udp_service_identity s) as (A & B & C & _). split_and!; try done.
  destruct (decide (cached_mac (udp_service s) = cached_mac s)) as [E|E]; [by left|right].
  unfold udp_service in *. destruct (rxq s) as [|[f|] q] eqn:Q; [done| |done].
  exists f, q. split; [done|].
  destruct (process_frame_cache _ E) as (X1 & X2 & X3 & X4 & X5).
  split; [exact X2|]. cbv zeta. split_and!; try done.
Qed.

Lemma udp_service_arp_reply s fr q ip mac :
  rxq s = Some fr :: q -> arp_reply ip mac fr -> cached_ip s = ip ->
  cached_mac (udp_service s) = mac.
Proof.
  intros Q R C. unfold udp_service. rewrite Q.
  erewrite process_frame_arp_reply; [reflexivity|apply R| |exact C].
  apply arp_reply_received. done.
Qed.

Lemma arp_poll_reply ip mac fr : arp_reply ip mac fr -> mac_is_zero mac = false ->
  forall n j s, rxq s !! j = Some (Some fr) -> (j < n)%nat -> cached_ip s = ip ->
  fst (arp_poll n s) = true.
Proof.
  intros R Hz. induction n as [|n IH]; intros j s Hj Hn Hc; [lia|]. cbn [arp_poll].
  destruct (udp_service_identity s) as (_ & _ & C & _ & Q).
  destruct (rxq s) as [|o q] eqn:E; [done|]. destruct j as [|j].
  - injection Hj as ->. rewrite (udp_service_arp_reply s fr q ip mac) by done.
    rewrite Hz. done.
  - destruct (mac_is_zero (cached_mac (udp_service s))); [|done].
    apply (IH j); [rewrite Q; exact Hj|lia|congruence].
Qed.

Lemma arp_poll_sound n s : fst (arp_poll n s) = true ->
  mac_is_zero (cached_mac (snd (arp_poll n s))) = false.
Proof.
  revert s. induction n as [|n IH]; intros s H; [done|]. cbn [arp_poll] in *.
  destruct (mac_is_zero (cached_mac (udp_service s))) eqn:E; [apply IH; done|done].
Qed.

Lemma arp_poll_cached_ip n s : cached_ip (snd (arp_poll n s)) = cached_ip s.
Proof.
  revert s. induction n as [|n IH]; intros s; [done|]. cbn [arp_poll].
  destruct (udp_service_identity s) as (_ & _ & C & _).
  destruct (mac_is_zero _); [rewrite IH|]; exact C.
Qed.

Lemma send_arp_request_identity ip s :
  cached_ip (send_arp_request ip s) = cached_ip s
  /\ rxq (send_arp_request ip s) = rxq s /\ cached_mac (send_arp_request ip s) = cached_mac s.
Proof. done. Qed.

Lemma arp_tries_sound n t ip s :
  cached_ip s = ip -> fst (arp_tries n t ip s) = 1 ->
  let s' := snd (arp_tries n t ip s) in
  cached_ip s' = ip /\ mac_is_zero (cached_mac s') = false.
Proof.
  revert s. induction n as [|n IH]; intros s Hc H; [done|]. cbn [arp_tries] in *.
  pose proof (arp_poll_sound t (send_arp_request ip s)) as S.
  pose proof (arp_poll_cached_ip t (send_arp_request ip s)) as C.
  destruct (arp_poll t (send_arp_request ip s)) as [[] s1]; cbn [fst snd] in *.
  - rewrite C. split; [exact Hc|apply S; done].
  - apply IH; [rewrite C; exact Hc|exact H].
Qed.

Lemma arp_tries_reply n t ip s j fr mac :
  rxq s !! j = Some (Some fr) -> (j < t)%nat -> arp_reply ip mac fr ->
  mac_is_zero mac = false -> cached_ip s = ip -> fst (arp_tries (S n) t ip s) = 1.
Proof.
  intros Hj Hn R Hz Hc. cbn [arp_tries].
  pose proof (arp_poll_reply ip mac fr R Hz t j (send_arp_request ip s) Hj Hn Hc) as P.
  destruct (arp_poll t (send_arp_request ip s)) as [[] s1]; [reflexivity|discriminate P].
Qed.

(** [udp_arp_resolve] succeeds whenever one of the first [timeout] polls after the
    first request finds an ARP reply from the address being resolved, whatever
    other frames arrive before it; and whenever it returns 1, the cache holds a
    nonzero MAC for that address (so [udp_send] will transmit). *)
Theorem udp_arp_resolve_correct timeout ip s :
  (forall j fr mac, rxq s !! j = Some (Some fr) -> (j < timeout)%nat ->
     arp_reply ip mac fr -> mac_is_zero mac = false ->
     fst (udp_arp_resolve timeout ip s) = 1)
  /\ (fst (udp_arp_resolve timeout ip s) = 1 ->
      let s' := snd (udp_arp_resolve timeout ip s) in
      cached_ip s' = ip /\ mac_is_zero (cached_mac s') = false).
Proof.
  unfold udp_arp_resolve.
  destruct (Z.eqb_spec (cached_ip s) ip) as [E|E], (mac_is_zero (cached_mac s)) eqn:Z;
    cbn [andb negb]; (split; [|try (apply arp_tries_sound; done)]).
  all: try (intros; done).
  all: intros; eapply arp_tries_reply; done.
Qed.

Lemma arp_frame_fields b op sm sip tip dm m :
  length sm = 6%nat -> length dm = 6%nat ->
  let m' := stb (b + 14 + 18) dm (fill_arp (b + 14) op sm sip tip m) in
  ld16 m' (b + 14) = ARP_HWTYPE_ETHERNET /\ ld16 m' (b + 16) = ARP_PROTO_IP
  /\ m' (b + 18) = 6 /\ m' (b + 19) = 4 /\ ld16 m' (b + 20) = u16 op
  /\ ldb m' (b + 22) 6 = sm /\ ld32 m' (b + 28) = u32 sip
  /\ ldb m' (b + 32) 6 = dm /\ ld32 m' (b + 38) = u32 tip
  /\ (forall x, x < b + 14 \/ b + 60 <= x -> m' x = m x).
Proof.
  intros Hs Hd. unfold fill_arp. rewrite (take_ge sm) by lia. const_offsets. mem_simp.
  split_and!; try done.
  - apply ldb_stb_len. done.
  - apply ldb_stb_len. done.
  - intros. mem_simp. done.
Qed.

(** ** The exchange of a request and a reply *)

Definition arp_request_mem (ip : Z) (s : eth) : memory :=
  mem (send_arp_request ip s).

Lemma arp_request_fields ip s :
  length (my_mac s) = 6%nat ->
  let b := txbuffer s in let m := arp_request_mem ip s in
  ld16 m (b + 12) = ETHERTYPE_ARP
  /\ ld16 m (b + 14) = ARP_HWTYPE_ETHERNET /\ ld16 m (b + 16) = ARP_PROTO_IP
  /\ m (b + 18) = 6 /\ m (b + 19) = 4 /\ ld16 m (b + 20) = ARP_OPCODE_REQUEST
  /\ ldb m (b + 22) 6 = my_mac s /\ ld32 m (b + 28) = u32 (my_ip s)
  /\ ld32 m (b + 38) = u32 ip
  /\ sent (send_arp_request ip s) = sent s ++ [TxFrame (txslot s) 60 (ldb m b 60)].
Proof.
  intros Hmy. cbv zeta.
  destruct (arp_frame_fields (txbuffer s) ARP_OPCODE_REQUEST (my_mac s) (my_ip s) ip
    (repeat 0 6) (fill_eth_header (txbuffer s) broadcast (my_mac s) ETHERTYPE_ARP (mem s))
    Hmy eq_refl) as (A & B & C & D & E & F & G & H & I & K).
  destruct (fill_eth_fields (txbuffer s) ETHERTYPE_ARP broadcast (my_mac s) (mem s)
    eq_refl Hmy) as (_ & _ & T).
  unfold arp_request_mem, send_arp_request, sizeof_eth in *. cbn [mem send_packet set_mem].
  split_and!; try done. unfold ld16. rewrite !K by lia. exact T.
Qed.

(** A request for the node's own address is answered with a reply to the asker. *)
Lemma process_frame_arp_request s :
  let a := rxbuffer s in let b := txbuffer s in let m := mem s in
  length (my_mac s) = 6%nat -> ARP_PACKET_LENGTH <= rxlen s ->
  a + 60 <= b \/ b + 60 <= a ->
  ld16 m (a + 12) = ETHERTYPE_ARP -> ld16 m (a + 14) = ARP_HWTYPE_ETHERNET ->
  ld16 m (a + 16) = ARP_PROTO_IP -> m (a + 18) = 6 -> m (a + 19) = 4 ->
  ld16 m (a + 20) = ARP_OPCODE_REQUEST -> ld32 m (a + 38) = my_ip s ->
  is_u32 (my_ip s) ->
  exists f, sent (process_frame s) = sent s ++ [f]
    /\ cached_mac (process_frame s) = cached_mac s
    /\ tx_len f = 60 /\ length (tx_bytes f) = 60%nat
    /\ slice 0 6 (tx_bytes f) = ldb m (a + 22) 6
    /\ arp_reply_bytes (my_ip s) (my_mac s) (at_list (tx_bytes f)) 0.
Proof.
  cbv zeta. intros Hmy Hl Hab A H P S Q O T Hip.
  set (a := rxbuffer s) in *. set (b := txbuffer s).
  destruct (fill_eth_fields b ETHERTYPE_ARP (ldb (mem s) (a + 22) 6) (my_mac s) (mem s)
    (length_ldb _ _ _) Hmy) as (E1 & _ & E3).
  unfold process_frame, process_arp, sizeof_eth. fold a b. const_offsets.
  rewrite A, H, P, S, Q, O, T, !Z.eqb_refl.
  change (ARP_OPCODE_REQUEST =? ARP_OPCODE_REPLY) with false. cbn [negb].
  destruct (Z.ltb_spec (rxlen s) ARP_PACKET_LENGTH); [lia|].
  set (m0 := fill_eth_header _ _ _ _ _) in *.
  destruct (arp_frame_fields b ARP_OPCODE_REPLY (my_mac s) (my_ip s) (ld32 m0 (a + 28))
    (ldb (fill_arp (b + 14) ARP_OPCODE_REPLY (my_mac s) (my_ip s) (ld32 m0 (a + 28)) m0)
       (a + 22) 6) m0 Hmy (length_ldb _ _ _)) as (F1 & F2 & F3 & F4 & F5 & F6 & F7 & _ & _ & K).
  revert F1 F2 F3 F4 F5 F6 F7 K. const_offsets. set (m1 := stb _ _ _). intros.
  eexists. split; [reflexivity|]. split; [reflexivity|]. split; [reflexivity|].
  cbn [tx_bytes txlen mem set_mem set_txlen]. change (Z.to_nat ARP_PACKET_LENGTH) with 60%nat.
  change (txbuffer (set_mem m1 (set_txlen ARP_PACKET_LENGTH s))) with b.
  split; [apply length_ldb|]. split.
  - rewrite slice_ldb, Z.add_0_r by lia. rewrite <- E1. apply ldb_ext. intros. apply K. lia.
  - assert (forall i, 0 <= i < 60 -> at_list (ldb m1 b 60) i = m1 (b + i)) as R.
    { intros. unfold at_list. rewrite at_ldb by lia. f_equal. lia. }
    unfold arp_reply_bytes, ld16, ld32 in *. cbn [Z.add].
    rewrite !R by lia. rewrite <- !Z.add_assoc in *. cbn [Z.add Pos.add Pos.succ] in *.
    rewrite (wrap_small 32) in F7 by done.
    split_and!; try done.
    + rewrite !K by lia. exact E3.
    + rewrite <- F6. apply ldb_ext. intros i Hi.
      replace (b + 22 + i) with (b + (0 + 22 + i)) by lia. apply R. lia.
Qed.

Lemma udp_service_arp_request s r ip k :
  length (my_mac s) = 6%nat -> length (my_mac r) = 6%nat -> is_u32 ip -> my_ip r = ip ->
  slot_addr k + 60 <= txbuffer r \/ txbuffer r + 60 <= slot_addr k ->
  let f := TxFrame (txslot s) 60 (ldb (arp_request_mem ip s) (txbuffer s) 60) in
  exists g, sent (udp_service (arrive (wire k f) r)) = sent r ++ [g]
    /\ slice 0 6 (tx_bytes g) = my_mac s
    /\ forall k', arp_reply ip (my_mac r) (wire k' g).
Proof.
  intros Hs Hr Hip Hmy Hsl f.
  destruct (arp_request_fields ip s Hs) as (A & B & C & D & E & F & G & _ & I & _).
  set (b := txbuffer s) in *. set (m := arp_request_mem ip s) in *.
  unfold udp_service, arrive, wire. cbn [rxq set_rx rx_slot rx_flen rx_bytes tx_len tx_bytes f].
  set (r1 := set_rx k 60 (slot_addr k) (rxq r) _).
  assert (mem r1 = stb (slot_addr k) (ldb m b 60) (mem r)) as M1 by done.
  destruct (process_frame_arp_request r1) as (g & G1 & _ & G3 & G4 & G5 & G6);
    rewrite ?M1; cbn [rxbuffer r1 set_rx txbuffer set_mem rxlen my_ip my_mac] in *;
    rewrite ?wire_ld16, ?wire_ld32, ?wire_mem, ?wire_ldb by lia; try done.
  - rewrite I. subst ip. apply wrap_small. done.
  - rewrite Hmy. done.
  - exists g. split; [exact G1|]. split.
    + rewrite G5, M1, wire_ldb by lia. exact G.
    + intros k'. split; [|split]; cbn [rx_flen rx_bytes wire].
      * rewrite G3. done.
      * rewrite G4. lia.
      * rewrite <- Hmy. exact G6.
Qed.

(** Address resolution works end to end: the request [udp_arp_resolve] sends is
    answered by the peer that owns the address with one frame addressed to the
    asker, and when that frame comes back the resolution returns 1 with the
    peer's MAC address in the cache. *)
Theorem arp_exchange s r ip k k' timeout :
  length (my_mac s) = 6%nat -> length (my_mac r) = 6%nat ->
  mac_is_zero (my_mac r) = false -> is_u32 ip -> my_ip r = ip ->
  slot_addr k + 60 <= txbuffer r \/ txbuffer r + 60 <= slot_addr k ->
  cached_ip s <> ip ->
  exists f g, sent (send_arp_request ip s) = sent s ++ [f]
    /\ sent (udp_service (arrive (wire k f) r)) = sent r ++ [g]
    /\ slice 0 6 (tx_bytes g) = my_mac s
    /\ let '(rc, s') := udp_arp_resolve (S timeout) ip (arrive (wire k' g) s) in
       rc = 1 /\ cached_ip s' = ip /\ cached_mac s' = my_mac r.
Proof.
  intros Hs Hr Hz Hip Hmy Hsl Hc.
  destruct (udp_service_arp_request s r ip k Hs Hr Hip Hmy Hsl) as (g & G1 & G2 & G3).
  eexists _, g. split; [apply arp_request_fields; done|]. split; [exact G1|].
  split; [exact G2|]. unfold udp_arp_resolve.
  destruct (Z.eqb_spec (cached_ip (arrive (wire k' g) s)) ip) as [E|_]; [done|].
  set (s1 := set_cache _ _ _). cbn [andb]. change 8%nat with (S 7). cbn [arp_tries arp_poll].
  set (s2 := send_arp_request ip s1).
  rewrite (udp_service_arp_reply s2 (wire k' g) (rxq s) ip (my_mac r)) by done.
  rewrite Hz. split; [done|]. split.
  - destruct (udp_service_identity s2) as (_ & _ & -> & _). done.
  - apply (udp_service_arp_reply s2 (wire k' g) (rxq s) ip); done.
Qed.

(** ** Driver invariant *)

(** [txbuffer] always points to the transmit slot [txslot], and the MAC
    addresses have six bytes. *)
Definition eth_wf (s : eth) : Prop :=
  0 <= txslot s < ETHMAC_TX_SLOTS
  /\ txbuffer s = slot_addr (ETHMAC_RX_SLOTS + txslot s)
  /\ length (my_mac s) = 6%nat /\ length (cached_mac s) = 6%nat.

Lemma send_packet_wf s : eth_wf s -> eth_wf (send_packet s).
Proof.
  intros (A & B & C & D). unfold eth_wf, send_packet. cbn [txslot txbuffer my_mac cached_mac].
  split_and!; try done; apply Z.mod_pos_bound; unfold ETHMAC_TX_SLOTS; lia.
Qed.

Lemma eth_wf_ext s s' :
  txslot s' = txslot s -> txbuffer s' = txbuffer s -> my_mac s' = my_mac s ->
  cached_mac s' = cached_mac s -> eth_wf s -> eth_wf s'.
Proof. intros A B C D. unfold eth_wf. rewrite A, B, C, D. done. Qed.

Create HintDb eth_wf.
#[export] Hint Resolve send_packet_wf : eth_wf.
#[export] Hint Extern 5 (eth_wf _) =>
  (eapply eth_wf_ext; [reflexivity|reflexivity|reflexivity|reflexivity|eassumption]) : eth_wf.

Lemma set_cache_wf mac ip s : length mac = 6%nat -> eth_wf s -> eth_wf (set_cache mac ip s).
Proof. intros H (A & B & C & D). done. Qed.

Lemma process_frame_wf s : eth_wf s -> eth_wf (process_frame s).
Proof.
  intros W. unfold process_frame, process_arp, process_udp, process_icmp. cbv zeta.
  split_ifs; auto with eth_wf. apply set_cache_wf; [apply length_ldb|done].
Qed.

Lemma udp_service_wf s : eth_wf s -> eth_wf (udp_service s).
Proof.
  intros W. unfold udp_service. destruct (rxq s) as [|[f|] q]; auto with eth_wf.
  apply process_frame_wf. auto with eth_wf.
Qed.

Lemma udp_send_wf sp dp len s : eth_wf s -> eth_wf (snd (udp_send sp dp len s)).
Proof.
  intros W. unfold udp_send. destruct (mac_is_zero _); [done|]. cbv zeta.
  destruct (Z.odd len); cbn [snd]; auto with eth_wf.
Qed.

Lemma arp_poll_wf n s : eth_wf s -> eth_wf (snd (arp_poll n s)).
Proof.
  revert s. induction n as [|n IH]; intros s W; [done|]. cbn [arp_poll].
  destruct (mac_is_zero _); [apply IH|]; apply udp_service_wf; done.
Qed.

Lemma arp_tries_wf n t ip s : eth_wf s -> eth_wf (snd (arp_tries n t ip s)).
Proof.
  revert s. induction n as [|n IH]; intros s W; [done|]. cbn [arp_tries].
  assert (eth_wf (send_arp_request ip s)) as W1
    by (unfold send_arp_request; auto with eth_wf).
  pose proof (arp_poll_wf t _ W1). destruct (arp_poll t (send_arp_request ip s)) as [[] ?]; auto.
Qed.

Lemma udp_arp_resolve_wf t ip s : eth_wf s -> eth_wf (snd (udp_arp_resolve t ip s)).
Proof.
  intros W. unfold udp_arp_resolve. destruct (_ && _); [done|].
  apply arp_tries_wf, set_cache_wf; done.
Qed.

Lemma ping_poll_wf n s : eth_wf s -> eth_wf (snd (ping_poll n s)).
Proof.
  revert s. induction n as [|n IH]; intros s W; [done|]. cbn [ping_poll].
  destruct (_ =? 0); [|apply IH]; apply udp_service_wf; done.
Qed.

Lemma send_ping_wf at_ t ip pl s : eth_wf s -> eth_wf (snd (send_ping at_ t ip pl s)).
Proof.
  intros W. unfold send_ping. pose proof (udp_arp_resolve_wf at_ ip s W) as W1.
  destruct (udp_arp_resolve at_ ip s) as [ok s1]. cbn [snd] in W1.
  destruct (ok =? 0); [done|]. apply ping_poll_wf.
  eapply eth_wf_ext; [reflexivity..|]. apply send_packet_wf. auto with eth_wf.
Qed.

(** [udp_start] establishes, and reception, sending, address resolution and ping
    preserve, the driver invariant: the transmit pointer is always one of the
    transmit slots, never a receive slot, and the MAC addresses keep six bytes. *)
Theorem eth_wf_invariant :
  (forall mac ip s, (6 <= length mac)%nat -> eth_wf (udp_start mac ip s))
  /\ (forall s, eth_wf s -> eth_wf (udp_service s))
  /\ (forall sp dp len s, eth_wf s -> eth_wf (snd (udp_send sp dp len s)))
  /\ (forall t ip s, eth_wf s -> eth_wf (snd (udp_arp_resolve t ip s)))
  /\ (forall ta t ip pl s, eth_wf s -> eth_wf (snd (send_ping ta t ip pl s))).
Proof.
  split_and!.
  - intros mac ip s H. unfold eth_wf, udp_start. cbn. rewrite length_take.
    unfold ETHMAC_TX_SLOTS. split_and!; try done; lia.
  - apply udp_service_wf.
  - apply udp_send_wf.
  - apply udp_arp_resolve_wf.
  - apply send_ping_wf.
Qed.

(** ** Lengths taken from the packet *)

(** An echo request is answered with the length its IP header claims: the
    driver never compares it with the received length or the slot size. *)
Lemma process_icmp_trusts_total_length s :
  let a := rxbuffer s in
  sizeof_eth + sizeof_icmp_frame <= rxlen s -> mem s (a + 34) = ICMP_ECHO ->
  28 <= ld16 (mem s) (a + 16) < 2 ^ 16 ->
  exists f, sent (process_icmp s) = sent s ++ [f]
    /\ tx_len f = ld16 (mem s) (a + 16) + 14.
Proof.
  cbv zeta. intros Hl He Ht.
  unfold process_icmp, sizeof_eth, sizeof_icmp_frame, off_l4 in *. const_offsets.
  destruct (Z.ltb_spec (rxlen s) 42); [lia|].
  destruct (Z.ltb_spec (ld16 (mem s) (rxbuffer s + 16)) 28); [lia|].
  rewrite He, Z.eqb_refl. eexists. split; [reflexivity|]. cbn [tx_len txlen set_mem set_txlen].
  rewrite wrap_small by (unfold in_word; lia). lia.
Qed.

(** ** Concrete runs *)

Definition demo_eth (ip mac0 : Z) : eth :=
  Eth (fun _ => 0xaa) 0 0 0 0 0 (slot_addr 2) (mac0 :: repeat 1 5) ip
    (repeat 2 6) 0x0a000002 0 0 true [] [] [].

(** A 60-byte frame whose UDP length field says 1000: the callback is given 992
    bytes, 942 of them whatever the memory after the frame holds. *)
Definition demo_short_frame : rxframe :=
  RxFrame 0 60 (repeat 1 12 ++ [8; 0; 0x45; 0; 0; 46; 0; 0; 64; 0; 64; 17; 0; 0;
    10; 0; 0; 1; 10; 0; 0; 2; 0x1f; 0x90; 0x1f; 0x90; 0x03; 0xe8; 0; 0] ++ repeat 7 18).

Example process_udp_reads_past_frame :
  up_length <$> upcalls (udp_service (arrive demo_short_frame (demo_eth 0x0a000002 5))) = [992]
  /\ (slice 18 2 ∘ up_data) <$>
       upcalls (udp_service (arrive demo_short_frame (demo_eth 0x0a000002 5))) = [[0xaa; 0xaa]].
Proof. split; vm_compute; reflexivity. Qed.

(** The same frame as an echo request of total length 4000: a 4014-byte reply, in
    a slot of 2048 bytes. *)
Definition demo_icmp_mem : memory := stb 0
  (repeat 1 12 ++ [8; 0; 0x45; 0; 0x0f; 0xa0; 0; 0; 64; 0; 64; 1; 0; 0;
    10; 0; 0; 1; 10; 0; 0; 2; 8; 0; 0; 0] ++ repeat 7 22) (fun _ => 0).

Example process_icmp_overflows_slot :
  exists f, sent (process_icmp (set_rx 0 60 0 [] (set_mem demo_icmp_mem (demo_eth 0x0a000002 5))))
            = [f] /\ ETHMAC_SLOT_SIZE < tx_len f.
Proof.
  destruct (process_icmp_trusts_total_length
    (set_rx 0 60 0 [] (set_mem demo_icmp_mem (demo_eth 0x0a000002 5)))) as (f & E & L);
    [discriminate|reflexivity|split; [discriminate|reflexivity]|].
  exists f. split; [exact E|]. rewrite L. reflexivity.
Qed.

Lemma udp_send_receive_witness :
  let s := demo_eth 0x0a000001 5 in let r := demo_eth 0x0a000002 6 in
  exists f, sent (snd (udp_send 11111 22222 5 s)) = [f]
    /\ upcalls (udp_service (arrive (wire 1 f) r))
       = [Upcall 0x0a000001 11111 22222 (slot_addr 1 + 42) 5 (repeat 0xaa 5)].
Proof.
  cbv zeta. pose proof (udp_send_receive 11111 22222 5 (demo_eth 0x0a000001 5) (demo_eth 0x0a000002 6) 1
    ltac:(unfold ETHMAC_SLOT_SIZE; lia) eq_refl eq_refl eq_refl ltac:(unfold in_word; lia)
    ltac:(unfold in_word; lia) ltac:(unfold in_word; cbn; lia) ltac:(unfold in_word; cbn; lia)
    eq_refl eq_refl) as H.
  destruct (udp_send 11111 22222 5 (demo_eth 0x0a000001 5)) as [rc s'].
  destruct H as (_ & f & E & U). exists f. split; [exact E|exact U].
Defined.

Lemma udp_send_frame_valid_witness :
  exists F, sent (snd (udp_send 11111 22222 5 (demo_eth 0x0a000001 5))) = [TxFrame 0 60 F]
    /\ slice 0 6 F = repeat 2 6.
Proof.
  pose proof (udp_send_frame_valid 11111 22222 5 (demo_eth 0x0a000001 5)
    ltac:(unfold ETHMAC_SLOT_SIZE; lia) eq_refl eq_refl eq_refl
    ltac:(intros x; unfold is_byte; cbn; lia)
    ltac:(repeat constructor; unfold is_byte; lia)
    ltac:(repeat constructor; unfold is_byte; lia)) as H.
  destruct (udp_send 11111 22222 5 (demo_eth 0x0a000001 5)) as [rc s'].
  destruct H as (F & E & D & _). exists F. split; [exact E|exact D].
Defined.

Definition demo_arp_reply : rxframe :=
  RxFrame 0 60 (repeat 1 12 ++ [8; 6; 0; 1; 8; 0; 6; 4; 0; 2; 9; 9; 9; 9; 9; 9; 10; 0; 0; 7]
    ++ repeat 0 28).

Lemma udp_arp_resolve_correct_witness :
  fst (udp_arp_resolve 3 0x0a000007
    (set_rx 0 0 0 [None; Some demo_arp_reply] (demo_eth 0x0a000001 5))) = 1.
Proof.
  apply (proj1 (udp_arp_resolve_correct 3 0x0a000007
    (set_rx 0 0 0 [None; Some demo_arp_reply] (demo_eth 0x0a000001 5))) 1%nat demo_arp_reply
    (repeat 9 6)); [reflexivity|lia| |reflexivity].
  split; [discriminate|]. split; [cbn; lia|]. repeat split.
Defined.

Lemma arp_exchange_witness :
  exists f g, sent (send_arp_request 0x0a000003 (demo_eth 0x0a000001 5)) = [f]
    /\ sent (udp_service (arrive (wire 0 f) (demo_eth 0x0a000003 6))) = [g]
    /\ fst (udp_arp_resolve 2 0x0a000003 (arrive (wire 1 g) (demo_eth 0x0a000001 5))) = 1.
Proof.
  destruct (arp_exchange (demo_eth 0x0a000001 5) (demo_eth 0x0a000003 6) 0x0a000003 0 1 1
    eq_refl eq_refl eq_refl ltac:(unfold in_word; lia) eq_refl ltac:(left; discriminate)
    ltac:(discriminate)) as (f & g & A & B & _ & C).
  exists f, g. split; [exact A|]. split; [exact B|].
  destruct (udp_arp_resolve 2 _ _). apply C.
Defined.

Lemma eth_wf_invariant_witness :
  eth_wf (snd (udp_send 1 2 3 (udp_service (udp_start (repeat 1 6) 5 (demo_eth 7 5))))).
Proof.
  apply (proj1 (proj2 (proj2 eth_wf_invariant))), (proj1 (proj2 eth_wf_invariant)),
    (proj1 eth_wf_invariant). cbn. lia.
Defined.
