(* ===== verification/DtlsIo.v ===== *)
(** * The DTLS transport shim (src/boot/dtls_io.c)

    The receive ring between the driver's callback and wolfSSL, the send
    callback, the free-running timer behind [LowResTimer], and the ethmac
    interrupt handler.  In the DTLS_RX_IRQ build the producer of the ring runs
    in the interrupt handler, between any two memory accesses of the consumer:
    [step] is that interleaving, one consumer access at a time.  The send callback
    is run with the interrupt between its copy and its send, or without it. *)

From S2P Require Import Prelude EthUdp.

Definition DTLS_RX_SLOTS := 8.
Definition DTLS_MAX_DGRAM := 1536.
Definition ETHMAC_INTERRUPT := 2.
Definition CONFIG_CLOCK_FREQUENCY := 1000000.
(** wolfio.h *)
Definition WOLFSSL_CBIO_ERR_GENERAL := -1.
Definition WOLFSSL_CBIO_ERR_WANT_READ := -2.
Definition WOLFSSL_CBIO_ERR_WANT_WRITE := -2.

(** The static variables of dtls_io.c, and the interrupt registers. *)
Record io := Io {
  rx_buf : list (list Z); rx_lens : list Z; rx_head : Z; rx_tail : Z;
  g_local_port : Z; g_peer_port : Z;
  timer_last_val : Z; timer_wrap_acc : Z;
  irq_mask : Z; isr_attached : bool; ev_enabled : bool }.

Definition set_ring b l h t s := Io b l h t (g_local_port s) (g_peer_port s)
  (timer_last_val s) (timer_wrap_acc s) (irq_mask s) (isr_attached s) (ev_enabled s).
Definition set_timer v w s := Io (rx_buf s) (rx_lens s) (rx_head s) (rx_tail s)
  (g_local_port s) (g_peer_port s) v w (irq_mask s) (isr_attached s) (ev_enabled s).

(** ** Receive ring *)

(** [data] holds the [length] bytes behind the data pointer. *)
Definition dtls_rx_cb (data : list Z) (len : Z) (s : io) : io :=
  let next := (rx_head s + 1) mod DTLS_RX_SLOTS in
  if next =? rx_tail s then s
  else
    let n := if DTLS_MAX_DGRAM <? len then DTLS_MAX_DGRAM else len in
    let h := Z.to_nat (rx_head s) in
    let row := blit 0 (take (Z.to_nat n) data) (rx_buf s !!! h) in
    set_ring (<[h := row]> (rx_buf s)) (<[h := u16 n]> (rx_lens s)) next (rx_tail s) s.

(** The result is the return value and the bytes stored at [buf]. *)
Definition dtls_recv_cb (sz : Z) (s : io) : Z * list Z * io :=
  if rx_head s =? rx_tail s then (WOLFSSL_CBIO_ERR_WANT_READ, [], s)
  else
    let t := Z.to_nat (rx_tail s) in
    let n := rx_lens s !!! t in
    let n := if sz <? n then sz else n in
    (n, take (Z.to_nat n) (rx_buf s !!! t),
     set_ring (rx_buf s) (rx_lens s) (rx_head s) ((rx_tail s + 1) mod DTLS_RX_SLOTS) s).

(** ** Timer *)

(** [v] is what [timer0_value_read] returns after the latch. *)
Definition dtls_timer_init (v : Z) (s : io) : io := set_timer v 0 s.

Definition dtls_timer_ticks (v : Z) (s : io) : Z * io :=
  let acc := if timer_last_val s <? v then u64 (timer_wrap_acc s + 0x100000000)
             else timer_wrap_acc s in
  (u64 (acc + u32 (0xFFFFFFFF - v)), set_timer v acc s).

Definition dtls_uptime_seconds (v : Z) (s : io) : Z * io :=
  let '(t, s) := dtls_timer_ticks v s in (u32 (t / CONFIG_CLOCK_FREQUENCY), s).

Definition dtls_uptime_millis (v : Z) (s : io) : Z * io :=
  let '(t, s) := dtls_timer_ticks v s in (u32 (t / (CONFIG_CLOCK_FREQUENCY / 1000)), s).

Definition LowResTimer (v : Z) (s : io) : Z * io := dtls_uptime_seconds v s.

(** ** Setup *)

Definition dtls_io_init (local_port peer_port v : Z) (s : io) (e : eth) : io * eth :=
  let s := Io (rx_buf s) (rx_lens s) 0 0 local_port peer_port (timer_last_val s)
             (timer_wrap_acc s) (irq_mask s) (isr_attached s) (ev_enabled s) in
  (dtls_timer_init v s, udp_set_callback true e).

Definition dtls_io_enable_irq (s : io) : io :=
  Io (rx_buf s) (rx_lens s) (rx_head s) (rx_tail s) (g_local_port s) (g_peer_port s)
    (timer_last_val s) (timer_wrap_acc s)
    (Z.lor (irq_mask s) (Z.shiftl 1 ETHMAC_INTERRUPT)) true true.

(** ** The shim over the driver *)

(** [udp_service] with [dtls_rx_cb] as the installed callback. *)
Definition udp_service_io (es : eth * io) : eth * io :=
  let '(e, s) := es in
  let e' := udp_service e in
  (e', foldl (fun s u => dtls_rx_cb (up_data u) (up_length u) s) s
         (drop (length (upcalls e)) (upcalls e'))).

(** A frame is pending when the next poll finds one. *)
Definition ev_pending (e : eth) : bool :=
  match rxq e with Some _ :: _ => true | _ => false end.

(** Every iteration consumes one pending frame, so the number of frames
    bounds the loop ([ethmac_rx_isr_drains]). *)
Fixpoint isr_loop (fuel : nat) (es : eth * io) : eth * io :=
  match fuel with
  | O => es
  | S f => if ev_pending (fst es) then isr_loop f (udp_service_io es) else es
  end.

Definition ethmac_rx_isr (es : eth * io) : eth * io := isr_loop (length (rxq (fst es))) es.

(** DTLS_RX_IRQ build, and the polled build. *)
Definition dtls_io_pump (rx_irq : bool) (es : eth * io) : eth * io :=
  if rx_irq then es else udp_service_io es.

(** The copy into the transmit buffer, and the rest of the callback. *)
Definition send_copy (buf : list Z) (sz : Z) (e : eth) : eth :=
  set_mem (stb (udp_get_tx_buffer e) (take (Z.to_nat sz) buf) (mem e)) e.

Definition send_transmit (sz : Z) (s : io) (e : eth) : Z * eth :=
  let '(ok, e) := udp_send (g_local_port s) (g_peer_port s) (u32 sz) e in
  if ok =? 0 then (WOLFSSL_CBIO_ERR_WANT_WRITE, e) else (sz, e).

Definition dtls_send_cb (buf : list Z) (sz : Z) (s : io) (e : eth) : Z * eth :=
  if sz <=? 0 then (WOLFSSL_CBIO_ERR_GENERAL, e)
  else if DTLS_MAX_DGRAM <? sz then (WOLFSSL_CBIO_ERR_GENERAL, e)
  else send_transmit sz s (send_copy buf sz e).

(** The same call with the interrupt taken after the copy. *)
Definition dtls_send_cb_interrupted (buf : list Z) (sz : Z) (es : eth * io) : Z * (eth * io) :=
  let '(e, s) := es in
  if sz <=? 0 then (WOLFSSL_CBIO_ERR_GENERAL, es)
  else if DTLS_MAX_DGRAM <? sz then (WOLFSSL_CBIO_ERR_GENERAL, es)
  else let '(e, s) := ethmac_rx_isr (send_copy buf sz e, s) in
       let '(rc, e) := send_transmit sz s e in (rc, (e, s)).

(** ** Interleaving of the consumer with the interrupt handler

    The consumer's position inside [dtls_recv_cb]: after the load of
    [rx_head]; inside the memcpy of [n] bytes from row [t] with [acc] copied;
    before the update of [rx_tail]. *)
Inductive pc :=
| RIdle
| RHead (h sz : Z)
| RLen (sz : Z)
| RCopy (t : nat) (n : Z) (acc : list Z)
| RAdvance (n : Z) (acc : list Z).

Inductive event :=
| EArrive (d : list Z)
| ECall (sz : Z)
| EReturn (rc : Z) (buf : list Z)
| ETau.

Inductive step : io * pc -> event -> io * pc -> Prop :=
| step_isr s p d :
    step (s, p) (EArrive d) (dtls_rx_cb d (Z.of_nat (length d)) s, p)
| step_call s sz : step (s, RIdle) (ECall sz) (s, RHead (rx_head s) sz)
| step_empty s h sz :
    h = rx_tail s -> step (s, RHead h sz) (EReturn WOLFSSL_CBIO_ERR_WANT_READ []) (s, RIdle)
| step_nonempty s h sz : h <> rx_tail s -> step (s, RHead h sz) ETau (s, RLen sz)
| step_len s sz :
    let t := Z.to_nat (rx_tail s) in
    let n := rx_lens s !!! t in
    step (s, RLen sz) ETau (s, RCopy t (if sz <? n then sz else n) [])
| step_copy s t n acc :
    Z.of_nat (length acc) < n ->
    step (s, RCopy t n acc) ETau
         (s, RCopy t n (acc ++ [at_ (rx_buf s !!! t) (length acc)]))
| step_copied s t n acc :
    n <= Z.of_nat (length acc) -> step (s, RCopy t n acc) ETau (s, RAdvance n acc)
| step_advance s n acc :
    step (s, RAdvance n acc) (EReturn n acc)
      (set_ring (rx_buf s) (rx_lens s) (rx_head s)
         ((rx_tail s + 1) mod DTLS_RX_SLOTS) s, RIdle).

Inductive steps : io * pc -> list event -> io * pc -> Prop :=
| steps_refl c : steps c [] c
| steps_snoc c1 c2 c3 tr e : steps c1 tr c2 -> step c2 e c3 -> steps c1 (tr ++ [e]) c3.

(** ** The bounded queue the ring implements *)

Definition capacity : nat := 7.

(** Abstract effect of an event: datagrams are queued, cut to 1536 bytes,
    unless seven are waiting; a successful return takes the oldest. *)
Definition q_step (q : list (list Z)) (e : event) : list (list Z) :=
  match e with
  | EArrive d => if (length q <? capacity)%nat then q ++ [take 1536 d] else q
  | EReturn rc _ => if rc <? 0 then q else tail q
  | ECall _ | ETau => q
  end.

Definition q_run (tr : list event) : list (list Z) := foldl q_step [] tr.

(** The datagrams the ring accepted, and those the consumer returned. *)
Fixpoint accepted (q : list (list Z)) (tr : list event) : list (list Z) :=
  match tr with
  | [] => []
  | e :: tr' =>
      match e with
      | EArrive d => if (length q <? capacity)%nat then [take 1536 d] else []
      | _ => []
      end ++ accepted (q_step q e) tr'
  end.

Fixpoint returned (tr : list event) : list (list Z) :=
  match tr with
  | [] => []
  | EReturn rc buf :: tr' => (if rc <? 0 then [] else [buf]) ++ returned tr'
  | _ :: tr' => returned tr'
  end.

(** The consumer always offers room for a whole datagram. *)
Definition call_fits (e : event) : Prop :=
  match e with ECall sz => DTLS_MAX_DGRAM <= sz | _ => True end.

(** ** Ring invariant *)

Definition ring_shape (s : io) : Prop :=
  length (rx_buf s) = 8%nat /\ length (rx_lens s) = 8%nat
  /\ Forall (fun row => length row = 1536%nat) (rx_buf s).

Definition slot_of (s : io) (j : nat) : nat :=
  Z.to_nat ((rx_tail s + Z.of_nat j) mod DTLS_RX_SLOTS).

Definition slot_holds (s : io) (t : nat) (d : list Z) : Prop :=
  (length d <= 1536)%nat /\ rx_lens s !!! t = Z.of_nat (length d)
  /\ take (length d) (rx_buf s !!! t) = d.

(** The ring [s] holds the queue [q]. *)
Record ring_holds (s : io) (q : list (list Z)) : Prop := {
  rh_shape : ring_shape s;
  rh_tail : 0 <= rx_tail s < 8;
  rh_len : (length q <= capacity)%nat;
  rh_head : rx_head s = (rx_tail s + Z.of_nat (length q)) mod DTLS_RX_SLOTS;
  rh_slots : forall j d, q !! j = Some d -> slot_holds s (slot_of s j) d }.

Lemma blit_0 {A} (src dst : list A) :
  (length src <= length dst)%nat -> blit 0 src dst = src ++ drop (length src) dst.
Proof. intros. unfold blit. rewrite take_0, take_ge by lia. done. Qed.

Lemma ring_full s q : ring_holds s q ->
  (rx_head s + 1) mod DTLS_RX_SLOTS = rx_tail s <-> length q = capacity.
Proof.
  intros [_ Ht Hl Hh _]. unfold capacity, DTLS_RX_SLOTS in *. rewrite Hh. split; intros; lia_mod.
Qed.

Lemma ring_empty s q : ring_holds s q -> rx_head s = rx_tail s <-> q = [].
Proof.
  intros [_ Ht Hl Hh _]. unfold capacity, DTLS_RX_SLOTS in *. rewrite Hh.
  destruct q as [|d q]; cbn [length] in *.
  - split; intros; [done|lia_mod].
  - split; intros; [lia_mod|done].
Qed.

Lemma slot_lt s j : (slot_of s j < 8)%nat.
Proof.
  unfold slot_of, DTLS_RX_SLOTS.
  pose proof (Z.mod_pos_bound (rx_tail s + Z.of_nat j) 8 ltac:(lia)). lia.
Qed.

Lemma slot_inj s j k : (j < 8)%nat -> (k < 8)%nat -> slot_of s j = slot_of s k -> j = k.
Proof. unfold slot_of, DTLS_RX_SLOTS. intros. lia_mod. Qed.

(** What the callback does to the ring is [q_step]'s queueing. *)
Lemma rx_cb_queues s q d :
  ring_holds s q ->
  let s' := dtls_rx_cb d (Z.of_nat (length d)) s in
  rx_tail s' = rx_tail s /\ ring_holds s' (q_step q (EArrive d)).
Proof.
  intros R. pose proof (ring_full s q R) as F. destruct R as [(B & L & W) Ht Hl Hh Hs].
  unfold dtls_rx_cb. cbn [q_step]. unfold capacity in *.
  destruct (Z.eqb_spec ((rx_head s + 1) mod DTLS_RX_SLOTS) (rx_tail s)) as [E|E].
  { apply F in E. destruct (Nat.ltb_spec (length q) 7); [lia|]. split; done. }
  destruct (Nat.ltb_spec (length q) 7) as [Lt|Ge];
    [|exfalso; apply E, F; lia].
  split; [done|].
  set (n := if DTLS_MAX_DGRAM <? Z.of_nat (length d) then DTLS_MAX_DGRAM else Z.of_nat (length d)).
  assert (Z.to_nat n = min 1536 (length d)) as En
    by (unfold n, DTLS_MAX_DGRAM; destruct (Z.ltb_spec 1536 (Z.of_nat (length d))); lia).
  assert (Z.of_nat (length (take 1536 d)) = n) as El
    by (rewrite length_take; unfold n, DTLS_MAX_DGRAM in *;
        destruct (Z.ltb_spec 1536 (Z.of_nat (length d))); lia).
  assert (Z.to_nat (rx_head s) = slot_of s (length q)) as Eh by (rewrite Hh; done).
  pose proof (slot_lt s (length q)) as Hlt.
  assert (length (rx_buf s !!! slot_of s (length q)) = 1536%nat) as Hrow.
  { rewrite Forall_forall in W. apply W.
    apply list_elem_of_lookup_total_2. lia. }
  constructor; cbn [set_ring rx_buf rx_lens rx_head rx_tail].
  - unfold ring_shape. cbn [set_ring rx_buf rx_lens]. rewrite !length_insert.
    split_and!; try done. apply Forall_insert; [done|]. rewrite Eh, length_blit by lia. done.
  - done.
  - rewrite length_app. cbn [length]. unfold capacity. lia.
  - rewrite length_app, Hh. cbn [length]. unfold DTLS_RX_SLOTS.
    rewrite Zplus_mod_idemp_l. f_equal. lia.
  - intros j e He. unfold slot_holds. cbn [set_ring rx_buf rx_lens].
    change (slot_of (set_ring _ _ _ _ s) j) with (slot_of s j). rewrite Eh.
    destruct (Nat.lt_ge_cases j (length q)) as [Hj|Hj].
    + rewrite lookup_app_l in He by lia.
      assert (slot_of s (length q) <> slot_of s j) as Ne
        by (intros X; apply slot_inj in X; lia).
      rewrite !list_lookup_total_insert_ne by done. apply (Hs j e He).
    + rewrite lookup_app_r in He by lia.
      destruct (j - length q)%nat as [|k] eqn:Ek; [|destruct k; done].
      injection He as <-. replace j with (length q) by lia.
      rewrite !list_lookup_total_insert_eq by lia.
      assert (take (Z.to_nat n) d = take 1536 d) as ->.
      { rewrite En. destruct (Nat.le_ge_cases 1536 (length d));
          [rewrite Nat.min_l by lia; done|]. rewrite !take_ge by lia. done. }
      rewrite El. split_and!.
      * rewrite length_take. lia.
      * apply wrap_small. unfold in_word. rewrite <- El, length_take. lia.
      * rewrite blit_0 by (rewrite length_take; lia). rewrite take_app_length. done.
Qed.

Lemma recv_dequeues s d q :
  ring_holds s (d :: q) ->
  ring_holds (set_ring (rx_buf s) (rx_lens s) (rx_head s)
                ((rx_tail s + 1) mod DTLS_RX_SLOTS) s) q.
Proof.
  intros [Sh Ht Hl Hh Hs]. unfold capacity, DTLS_RX_SLOTS in *. cbn [length] in *.
  constructor; cbn [set_ring rx_buf rx_lens rx_head rx_tail]; try done.
  - apply Z.mod_pos_bound. lia.
  - unfold capacity. lia.
  - rewrite Hh. unfold DTLS_RX_SLOTS. rewrite Zplus_mod_idemp_l. f_equal. lia.
  - intros j e He. specialize (Hs (S j) e He).
    replace (slot_of _ j) with (slot_of s (S j)); [exact Hs|].
    unfold slot_of. cbn [set_ring rx_tail]. unfold DTLS_RX_SLOTS.
    rewrite Zplus_mod_idemp_l. do 2 f_equal. lia.
Qed.

(** ** The interleaving invariant *)

Definition pc_inv (s : io) (q : list (list Z)) (p : pc) : Prop :=
  match p with
  | RIdle => True
  | RHead h sz => DTLS_MAX_DGRAM <= sz /\ (h <> rx_tail s -> q <> [])
  | RLen sz => DTLS_MAX_DGRAM <= sz /\ q <> []
  | RCopy t n acc => exists d q', q = d :: q' /\ t = slot_of s 0
      /\ n = Z.of_nat (length d) /\ acc = take (length acc) d /\ (length acc <= length d)%nat
  | RAdvance n acc => exists q', q = acc :: q' /\ n = Z.of_nat (length acc)
  end.

Record io_inv (tr : list event) (c : io * pc) : Prop := {
  ii_ring : ring_holds (fst c) (q_run tr);
  ii_pc : pc_inv (fst c) (q_run tr) (snd c);
  ii_account : accepted [] tr = returned tr ++ q_run tr }.

Lemma q_run_snoc tr e : q_run (tr ++ [e]) = q_step (q_run tr) e.
Proof. unfold q_run. rewrite foldl_app. done. Qed.

Lemma accepted_snoc q tr e :
  accepted q (tr ++ [e]) = accepted q tr ++ accepted (foldl q_step q tr) [e].
Proof.
  revert q. induction tr as [|x tr IH]; intros q; [reflexivity|]. cbn [app accepted foldl].
  rewrite IH, app_assoc. reflexivity.
Qed.

Lemma returned_snoc tr e : returned (tr ++ [e]) = returned tr ++ returned [e].
Proof.
  induction tr as [|x tr IH]; [done|]. cbn [app returned].
  destruct x; rewrite IH, ?app_assoc; done.
Qed.

(** An arrival keeps the consumer's row and position intact. *)
Lemma pc_inv_arrive s s' q d p :
  rx_tail s' = rx_tail s -> pc_inv s q p -> pc_inv s' (q_step q (EArrive d)) p.
Proof.
  intros Ht. assert (slot_of s' 0 = slot_of s 0) as Es by (unfold slot_of; rewrite Ht; done).
  cbn [q_step]. destruct (_ <? _)%nat; destruct p; cbn [pc_inv]; rewrite ?Ht, ?Es; try done.
  - intros [A B]. split; [done|]. intros H X. apply app_nil in X as [_ X]. discriminate X.
  - intros [A B]. split; [done|]. intros X. apply app_nil in X as [_ X]. discriminate X.
  - intros (e & q' & -> & H). exists e, (q' ++ [take 1536 d]). done.
  - intros (q' & -> & H). exists (q' ++ [take 1536 d]). done.
Qed.

Lemma take_snoc_at l k : (k < length l)%nat -> take k l ++ [at_ l k] = take (S k) l.
Proof.
  intros H. unfold at_. rewrite (take_S_r l k (nth k l 0)); [done|].
  destruct (lookup_lt_is_Some_2 l k H) as [x Hx]. rewrite Hx.
  f_equal. symmetry. apply nth_lookup_Some. done.
Qed.

Lemma at_take l n k : (k < n)%nat -> at_ (take n l) k = at_ l k.
Proof. intros. pose proof (at_slice 0 n l k H) as E. exact E. Qed.

(** The rows the consumer reads hold the oldest datagram. *)
Lemma slot_0 s : 0 <= rx_tail s < 8 -> slot_of s 0 = Z.to_nat (rx_tail s).
Proof. intros. unfold slot_of, DTLS_RX_SLOTS. rewrite Z.add_0_r, Z.mod_small by lia. done. Qed.

Lemma io_inv_step tr c e c' :
  call_fits e -> io_inv tr c -> step c e c' -> io_inv (tr ++ [e]) c'.
Proof.
  intros Hf [R P A] St. destruct St; cbn [fst snd] in *.
  - destruct (rx_cb_queues s (q_run tr) d R) as [Ht R'].
    constructor; rewrite ?q_run_snoc; cbn [fst snd]; [exact R'|eapply pc_inv_arrive; eauto|].
    rewrite accepted_snoc, returned_snoc, A. fold (q_run tr). cbn [accepted returned q_step].
    destruct (_ <? _)%nat; rewrite <- ?app_assoc, ?app_nil_r; done.
  - constructor; rewrite ?q_run_snoc, ?accepted_snoc, ?returned_snoc, ?app_nil_r;
      cbn [fst snd q_step pc_inv]; try done. split; [exact Hf|].
    intros H E. apply H, (ring_empty s _ R). done.
  - constructor; rewrite ?q_run_snoc, ?accepted_snoc, ?returned_snoc, ?app_nil_r; done.
  - destruct P as [P1 P2].
    constructor; rewrite ?q_run_snoc, ?accepted_snoc, ?returned_snoc, ?app_nil_r;
      cbn [fst snd q_step pc_inv]; try done. split; [done|]. apply P2. done.
  - constructor; rewrite ?q_run_snoc, ?accepted_snoc, ?returned_snoc, ?app_nil_r;
      cbn [fst snd q_step pc_inv]; try done.
    destruct P as [P1 P2]. destruct (q_run tr) as [|d q'] eqn:E; [done|].
    destruct R as [Sh Ht Hl Hh Hs]. destruct (Hs 0%nat d eq_refl) as (L & N & _).
    rewrite slot_0 in N by done. exists d, q'. unfold n, t. rewrite slot_0, N by done.
    unfold DTLS_MAX_DGRAM in P1. split_and!; try done; [|cbn; lia].
    destruct (Z.ltb_spec sz (Z.of_nat (length d))); [lia|done].
  - constructor; rewrite ?q_run_snoc, ?accepted_snoc, ?returned_snoc, ?app_nil_r;
      cbn [fst snd q_step pc_inv]; try done.
    destruct P as (d & q' & E & -> & -> & Ea & Hl). exists d, q'.
    destruct (rh_slots _ _ R 0%nat d) as (_ & _ & T); [rewrite E; done|].
    assert (at_ (rx_buf s !!! slot_of s 0) (length acc) = at_ d (length acc)) as Ed.
    { rewrite <- (at_take _ (length d)) by lia. rewrite T. done. }
    split_and!; try done; rewrite length_app; cbn [length]; [|lia].
    rewrite Ed. rewrite Ea at 1. rewrite take_snoc_at by lia. f_equal. lia.
  - constructor; rewrite ?q_run_snoc, ?accepted_snoc, ?returned_snoc, ?app_nil_r;
      cbn [fst snd q_step pc_inv]; try done.
    destruct P as (d & q' & E & -> & -> & Ea & Hl). exists q'.
    rewrite take_ge in Ea by lia. subst acc. done.
  - destruct P as (q' & E & ->).
    constructor; rewrite ?q_run_snoc; cbn [fst snd q_step pc_inv]; rewrite ?E in *;
      destruct (Z.ltb_spec (Z.of_nat (length acc)) 0); try lia; cbn [tail].
    + apply (recv_dequeues s acc q'). done.
    + rewrite accepted_snoc, returned_snoc, A. cbn [accepted returned].
      destruct (Z.ltb_spec (Z.of_nat (length acc)) 0); [lia|].
      rewrite !app_nil_r, <- app_assoc. done.
Qed.

Definition ring_init (s : io) : Prop := ring_shape s /\ rx_head s = 0 /\ rx_tail s = 0.

Lemma io_inv_init s : ring_init s -> io_inv [] (s, RIdle).
Proof.
  intros (Sh & H & T). constructor; cbn; try done.
  constructor; cbn; rewrite ?H, ?T; try done; unfold capacity; try lia.
Qed.

Lemma io_inv_steps s tr c :
  ring_init s -> Forall call_fits tr -> steps (s, RIdle) tr c -> io_inv tr c.
Proof.
  intros Hi Hf St. remember (s, RIdle) as c0. revert Hf.
  induction St as [c|c1 c2 c3 tr e St IH S1]; intros Hf; subst.
  - apply io_inv_init. done.
  - apply Forall_app in Hf as [Hf He]. inversion He; subst.
    eapply io_inv_step; eauto.
Qed.

(** C19: Under every interleaving of the interrupt-driven producer with the consumer's
    individual loads, byte copies and index update, the ring is a bounded FIFO:
    the datagrams accepted are exactly those returned, intact and in order,
    followed by those still queued; never more than seven are queued, one is
    dropped only when seven are waiting, and the consumer sees an empty ring
    exactly when nothing is queued. *)
Theorem rx_ring_refines_fifo s0 tr s p :
  ring_init s0 -> Forall call_fits tr -> steps (s0, RIdle) tr (s, p) ->
  accepted [] tr = returned tr ++ q_run tr
  /\ (length (q_run tr) <= capacity)%nat
  /\ (rx_head s = rx_tail s <-> q_run tr = []).
Proof.
  intros Hi Hf St. destruct (io_inv_steps s0 tr _ Hi Hf St) as [R P A]. cbn [fst] in R.
  split; [exact A|]. split; [apply R|apply (ring_empty s _ R)].
Qed.

(** The uninterrupted call: what [dtls_recv_cb] returns from a ring holding [q]. *)
Lemma dtls_recv_cb_spec s q sz :
  ring_holds s q -> 0 <= sz ->
  match q with
  | [] => dtls_recv_cb sz s = (WOLFSSL_CBIO_ERR_WANT_READ, [], s)
  | d :: q' => exists s', dtls_recv_cb sz s =
      (Z.min sz (Z.of_nat (length d)), take (Z.to_nat sz) d, s') /\ ring_holds s' q'
  end.
Proof.
  intros R Hsz. pose proof (ring_empty s q R) as E. unfold dtls_recv_cb.
  destruct q as [|d q'].
  - destruct (Z.eqb_spec (rx_head s) (rx_tail s)) as [H|H]; [done|].
    exfalso. apply H, E. done.
  - destruct (Z.eqb_spec (rx_head s) (rx_tail s)) as [H|H]; [apply E in H; done|].
    destruct (rh_slots _ _ R 0%nat d eq_refl) as (L & N & T).
    rewrite slot_0 in N, T by apply R. rewrite N.
    eexists. split; [|apply (recv_dequeues s d q'); done].
    assert ((if sz <? Z.of_nat (length d) then sz else Z.of_nat (length d))
            = Z.min sz (Z.of_nat (length d))) as ->
      by (destruct (Z.ltb_spec sz (Z.of_nat (length d))); lia).
    do 2 f_equal. rewrite <- T at 2. rewrite take_take. f_equal. lia.
Qed.

(** ** Timer *)

(** timer0 loaded and reloaded with 0xFFFFFFFF counts down and reloads after
    0: its value [t] ticks after the start. *)
Definition hw_value (t : Z) : Z := 0xFFFFFFFF - t mod 2 ^ 32.

(** The results of [dtls_timer_ticks] at successive times. *)
Fixpoint ticks_run (ts : list Z) (s : io) : list Z :=
  match ts with
  | [] => []
  | t :: ts' => let '(r, s') := dtls_timer_ticks (hw_value t) s in r :: ticks_run ts' s'
  end.

Fixpoint timer_run (ts : list Z) (s : io) : list Z :=
  match ts with
  | [] => []
  | t :: ts' => let '(r, s') := LowResTimer (hw_value t) s in r :: timer_run ts' s'
  end.

(** Consecutive reads less than 2^32 ticks apart, starting from time [t]. *)
Fixpoint polled (t : Z) (ts : list Z) : Prop :=
  match ts with
  | [] => True
  | t' :: ts' => t <= t' < t + 2 ^ 32 /\ t' < 2 ^ 64 /\ polled t' ts'
  end.

Definition timer_at (t : Z) (s : io) : Prop :=
  timer_last_val s = hw_value t /\ timer_wrap_acc s = 2 ^ 32 * (t / 2 ^ 32).

Lemma timer_ticks_exact t t' s :
  timer_at t s -> 0 <= t -> t <= t' < t + 2 ^ 32 -> t' < 2 ^ 64 ->
  fst (dtls_timer_ticks (hw_value t') s) = t'
  /\ timer_at t' (snd (dtls_timer_ticks (hw_value t') s)).
Proof.
  intros [L W] H0 Ht Hb. unfold dtls_timer_ticks, timer_at. rewrite L, W.
  cbn [fst snd set_timer timer_last_val timer_wrap_acc].
  change 0x100000000 with (2 ^ 32).
  set (acc := if hw_value t <? hw_value t' then _ else _).
  assert (acc = 2 ^ 32 * (t' / 2 ^ 32)) as Ea.
  { unfold acc, hw_value.
    destruct (Z.ltb_spec (0xFFFFFFFF - t mod 2 ^ 32) (0xFFFFFFFF - t' mod 2 ^ 32));
      [rewrite wrap_small by (unfold in_word; lia_mod)|]; lia_mod. }
  rewrite Ea. split; [|split; done].
  unfold hw_value. rewrite (wrap_small 32) by lia_mod.
  rewrite wrap_small by lia_mod. lia_mod.
Qed.

Lemma ticks_run_exact ts t s : timer_at t s -> 0 <= t -> polled t ts -> ticks_run ts s = ts.
Proof.
  revert t s. induction ts as [|t' ts IH]; intros t s A H0 P; [done|].
  destruct P as (Ht & Hb & P). cbn [ticks_run].
  destruct (timer_ticks_exact t t' s A H0 Ht Hb) as [E A'].
  destruct (dtls_timer_ticks (hw_value t') s) as [r s']. cbn [fst snd] in *.
  rewrite E, (IH t') by (done || lia). done.
Qed.

Lemma timer_run_ticks ts s :
  timer_run ts s = map (fun r => u32 (r / CONFIG_CLOCK_FREQUENCY)) (ticks_run ts s).
Proof.
  revert s. induction ts as [|t ts IH]; intros s; [done|]. cbn [timer_run ticks_run map].
  unfold LowResTimer, dtls_uptime_seconds. destruct (dtls_timer_ticks _ s). 
  rewrite IH. done.
Qed.

(** The 64-bit clock built from the 32-bit down-counter is exact: when the timer
    is read at least once every 2^32 ticks after [dtls_io_init], every read of
    [dtls_timer_ticks] returns the elapsed ticks and every call of
    [LowResTimer] the elapsed whole seconds. *)
Theorem timer_exact lp pp t0 ts s e :
  0 <= t0 < 2 ^ 32 -> polled t0 ts ->
  let s' := fst (dtls_io_init lp pp (hw_value t0) s e) in
  ticks_run ts s' = ts
  /\ timer_run ts s' = map (fun t => u32 (t / 1000000)) ts.
Proof.
  intros H0 P s'.
  assert (timer_at t0 s') as A.
  { split; [done|]. cbn [s' dtls_io_init dtls_timer_init fst set_timer timer_wrap_acc].
    rewrite Z.div_small by lia. done. }
  assert (ticks_run ts s' = ts) as E by (apply (ticks_run_exact ts t0); done || lia).
  split; [exact E|]. rewrite timer_run_ticks, E. done.
Qed.

(** A gap of 2^32 ticks is lost. *)
Example timer_gap_lost :
  ticks_run [5; 2 ^ 32 + 5] (dtls_timer_init (hw_value 0) (Io [] [] 0 0 0 0 0 0 0 false false))
  = [5; 5].
Proof. vm_compute. reflexivity. Qed.

(** ** The interrupt handler *)

Lemma process_frame_upcalls e : exists us, upcalls (process_frame e) = upcalls e ++ us.
Proof.
  unfold process_frame, process_arp, process_udp, process_icmp. cbv zeta.
  split_ifs; try (exists []; cbn; rewrite ?app_nil_r; reflexivity). eexists. reflexivity.
Qed.

Lemma udp_service_upcalls e : exists us, upcalls (udp_service e) = upcalls e ++ us.
Proof.
  unfold udp_service. destruct (rxq e) as [|[f|] q];
    try (exists []; cbn; rewrite ?app_nil_r; reflexivity).
  match goal with |- context [process_frame ?x] => destruct (process_frame_upcalls x) as [us E] end.
  exists us. rewrite E. done.
Qed.

Definition rx_cb_all (s : io) (us : list upcall) : io :=
  foldl (fun s u => dtls_rx_cb (up_data u) (up_length u) s) s us.

Lemma udp_service_io_spec e s : exists us,
  upcalls (udp_service e) = upcalls e ++ us
  /\ udp_service_io (e, s) = (udp_service e, rx_cb_all s us).
Proof.
  destruct (udp_service_upcalls e) as [us E]. exists us. split; [exact E|].
  unfold udp_service_io. rewrite E, drop_app_length. done.
Qed.

Lemma isr_loop_spec n e s :
  (length (rxq e) <= n)%nat ->
  exists e' us, isr_loop n (e, s) = (e', rx_cb_all s us)
    /\ upcalls e' = upcalls e ++ us /\ ev_pending e' = false
    /\ exists fs, rxq e = map Some fs ++ rxq e'.
Proof.
  revert e s. induction n as [|n IH]; intros e s Hn.
  - destruct (rxq e) as [|x q] eqn:E; [|cbn in Hn; lia].
    exists e, []. cbn. rewrite app_nil_r. unfold ev_pending. rewrite E.
    split_and!; try done. exists []. done.
  - cbn [isr_loop fst]. destruct (ev_pending e) eqn:P.
    + destruct (udp_service_io_spec e s) as (us & U & ->).
      destruct (udp_service_identity e) as (_ & _ & _ & _ & Q).
      unfold ev_pending in P. destruct (rxq e) as [|[f|] q] eqn:E; try done.
      destruct (IH (udp_service e) (rx_cb_all s us)) as (e' & us' & L & V & D & fs & F);
        [rewrite Q; cbn in *; lia|].
      exists e', (us ++ us'). split_and!.
      * rewrite L. unfold rx_cb_all. rewrite foldl_app. done.
      * rewrite V, U, app_assoc. done.
      * done.
      * exists (f :: fs). rewrite Q in F. cbn in F. cbn. rewrite F. done.
    + exists e, []. cbn. rewrite app_nil_r. split_and!; try done. exists []. done.
Qed.

(** The interrupt handler terminates with the MAC drained: it processes exactly
    the frames pending when it is entered, no event is pending when it returns,
    and the callback is run once per datagram, in arrival order. *)
Theorem ethmac_rx_isr_drains e s :
  exists e' us fs, ethmac_rx_isr (e, s) = (e', rx_cb_all s us)
    /\ upcalls e' = upcalls e ++ us /\ rxq e = map Some fs ++ rxq e'
    /\ ev_pending e' = false.
Proof.
  destruct (isr_loop_spec (length (rxq e)) e s (le_n _)) as (e' & us & A & B & C & fs & D).
  exists e', us, fs. done.
Qed.

(** ** End to end *)

(** The call in either build: the polled one, or the one whose receive interrupt
    is taken after the copy into the transmit buffer. *)
Definition send_run (rx_irq : bool) (buf : list Z) (sz : Z) (es : eth * io) : Z * (eth * io) :=
  if rx_irq then dtls_send_cb_interrupted buf sz es
  else let '(rc, e) := dtls_send_cb buf sz (snd es) (fst es) in (rc, (e, snd es)).

(** The frames pending at an interrupt lie in the receive slots. *)
Definition pending_ok (e : eth) : Prop :=
  Forall (fun o => match o with
                   | Some f => 0 <= rx_slot f < ETHMAC_RX_SLOTS
                               /\ Z.of_nat (length (rx_bytes f)) <= ETHMAC_SLOT_SIZE
                   | None => True
                   end) (rxq e).

(** [e'] is [e] after reception that sent nothing: what a sender relies on between
    its copy and its send. *)
Record undisturbed (e e' : eth) : Prop := {
  un_wf : eth_wf e';
  un_tx : txbuffer e' = txbuffer e;
  un_mem : forall x, txbuffer e <= x -> mem e' x = mem e x;
  un_my_mac : my_mac e' = my_mac e; un_my_ip : my_ip e' = my_ip e;
  un_cached_ip : cached_ip e' = cached_ip e }.

Lemma process_frame_sent e : exists fs, sent (process_frame e) = sent e ++ fs.
Proof.
  unfold process_frame, process_arp, process_udp, process_icmp. cbv zeta.
  split_ifs; try (exists []; cbn; rewrite ?app_nil_r; reflexivity); eexists; reflexivity.
Qed.

(** A frame that is not answered leaves the memory and the transmit buffer. *)
Lemma process_frame_quiet e : sent (process_frame e) = sent e ->
  mem (process_frame e) = mem e /\ txbuffer (process_frame e) = txbuffer e.
Proof.
  intros S. unfold process_frame, process_arp, process_udp, process_icmp in *. cbv zeta in *.
  revert S. split_ifs; try (intros _; split; reflexivity);
    intros S; exfalso; apply (f_equal length) in S; cbn [sent send_packet set_mem set_txlen] in S;
    rewrite length_app in S; cbn [length] in S; lia.
Qed.

Lemma udp_service_sent e : exists fs, sent (udp_service e) = sent e ++ fs.
Proof.
  unfold udp_service. destruct (rxq e) as [|[f|] q];
    try (exists []; cbn; rewrite app_nil_r; reflexivity).
  match goal with |- context [process_frame ?x] => apply (process_frame_sent x) end.
Qed.

Lemma udp_service_quiet e : eth_wf e -> pending_ok e -> sent (udp_service e) = sent e ->
  undisturbed e (udp_service e).
Proof.
  intros W P S. destruct (udp_service_identity e) as (I1 & I2 & I3 & _ & _).
  assert (mem (udp_service e) = mem e \/ exists f, 0 <= rx_slot f < ETHMAC_RX_SLOTS
    /\ Z.of_nat (length (rx_bytes f)) <= ETHMAC_SLOT_SIZE
    /\ mem (udp_service e) = stb (slot_addr (rx_slot f)) (rx_bytes f) (mem e)) as M.
  { unfold udp_service in *. destruct (rxq e) as [|[f|] q] eqn:Q; [by left| |by left].
    right. exists f. unfold pending_ok in P. rewrite Q in P. apply Forall_cons in P as [[P1 P2] _].
    destruct (process_frame_quiet _ S) as [Em _]. done. }
  split; try done.
  - apply udp_service_wf. done.
  - unfold udp_service in *. destruct (rxq e) as [|[f|] q]; [done| |done].
    destruct (process_frame_quiet _ S) as [_ Et]. done.
  - destruct W as (Wt & Wb & _). intros x Hx.
    destruct M as [->|(f & Hf & Lf & ->)]; [done|]. apply stb_out.
    unfold slot_addr, ETHMAC_SLOT_SIZE, ETHMAC_RX_SLOTS in *. lia.
Qed.

Lemma undisturbed_trans e1 e2 e3 : undisturbed e1 e2 -> undisturbed e2 e3 -> undisturbed e1 e3.
Proof.
  intros [W1 T1 M1 A1 B1 C1] [W2 T2 M2 A2 B2 C2]. split; try congruence.
  intros x Hx. rewrite M2, M1 by lia. done.
Qed.

Lemma rx_cb_all_ports us s : g_local_port (rx_cb_all s us) = g_local_port s
  /\ g_peer_port (rx_cb_all s us) = g_peer_port s.
Proof.
  revert s. induction us as [|u us IH]; intros s; [done|]. cbn [rx_cb_all foldl].
  destruct (IH (dtls_rx_cb (up_data u) (up_length u) s)) as [A B].
  unfold rx_cb_all in *. rewrite A, B. unfold dtls_rx_cb. destruct (_ =? _); done.
Qed.

(** The interrupt handler, if it answers none of the frames it takes. *)
Lemma isr_loop_quiet n e s : eth_wf e -> pending_ok e ->
  let '(e', s') := isr_loop n (e, s) in
  (exists fs, sent e' = sent e ++ fs)
  /\ (sent e' = sent e -> undisturbed e e')
  /\ g_local_port s' = g_local_port s /\ g_peer_port s' = g_peer_port s.
Proof.
  revert e s. induction n as [|n IH]; intros e s W P; cbn [isr_loop fst].
  - split; [exists []; rewrite app_nil_r; done|]. split; [|done]. intros _. split; done.
  - destruct (ev_pending e).
    2: { split; [exists []; rewrite app_nil_r; done|]. split; [|done]. intros _. split; done. }
    destruct (udp_service_io_spec e s) as (us & _ & ->).
    assert (P' : pending_ok (udp_service e)).
    { destruct (udp_service_identity e) as (_ & _ & _ & _ & Q). unfold pending_ok in *.
      rewrite Q. destruct (rxq e); [done|]. apply Forall_cons in P as [_ P]. exact P. }
    specialize (IH (udp_service e) (rx_cb_all s us) (udp_service_wf e W) P').
    destruct (isr_loop n _) as [e' s']. destruct IH as ([fs1 S1] & U & L1 & L2).
    destruct (udp_service_sent e) as [fs0 S0]. destruct (rx_cb_all_ports us s) as [G1 G2].
    split; [exists (fs0 ++ fs1); rewrite S1, S0, app_assoc; done|]. split; [|split; congruence].
    intros Eq. rewrite S1, S0, <- app_assoc in Eq.
    assert (fs0 ++ fs1 = []) as [-> ->]%app_nil by (apply (app_inv_head (sent e)); rewrite app_nil_r; done).
    rewrite !app_nil_r in *. apply (undisturbed_trans _ (udp_service e)).
    + apply udp_service_quiet; done.
    + apply U. congruence.
Qed.

(** The send after the copy, once the transmit buffer holds the record. *)
Lemma send_transmit_delivers buf sz s1 e e2 s2 q k :
  1 <= sz <= DTLS_MAX_DGRAM -> Z.of_nat (length buf) = sz ->
  eth_wf e -> mac_is_zero (cached_mac e) = false ->
  is_u16 (g_local_port s1) -> is_u16 (g_peer_port s1) ->
  is_u32 (my_ip e) -> is_u32 (cached_ip e) ->
  ldb (mem e) (udp_get_tx_buffer e) (length buf) = buf ->
  my_ip e2 = cached_ip e -> rx_callback e2 = true -> rxq e2 = [] ->
  ring_holds s2 q -> (length q < capacity)%nat ->
  let '(rc, e1') := send_transmit sz s1 e in
  rc = sz /\ exists f, sent e1' = sent e ++ [f] /\
    let '(e2', s2') := ethmac_rx_isr (arrive (wire k f) e2, s2) in
    ring_holds s2' (q ++ [buf]).
Proof.
  intros Hsz Hb (_ & _ & Hm & Hc) Hz Hlp Hpp Hi Hci Hld He2 Hcb Hq R Hl. unfold DTLS_MAX_DGRAM in *.
  unfold send_transmit. rewrite (wrap_small 32 sz) by (unfold in_word; lia).
  pose proof (udp_send_delivers (g_local_port s1) (g_peer_port s1) sz e e2 k
    ltac:(unfold ETHMAC_SLOT_SIZE; lia) Hm Hc Hz Hlp Hpp Hi Hci He2 Hcb) as D.
  destruct (udp_send _ _ sz e) as [ok e1']. destruct D as (-> & f & S & U).
  cbn [Z.eqb]. split; [done|]. exists f. split; [exact S|].
  unfold ethmac_rx_isr. cbn [fst arrive set_rx rxq]. rewrite Hq. cbn [length].
  cbn [isr_loop fst ev_pending rxq set_rx arrive].
  fold (arrive (wire k f) e2).
  destruct (udp_service_io_spec (arrive (wire k f) e2) s2) as (us & V & Eio).
  unfold arrive in Eio at 1. rewrite Hq in Eio. unfold arrive. rewrite ?Hq. rewrite Eio.
  rewrite U in V. change (upcalls (arrive (wire k f) e2)) with (upcalls e2) in V.
  apply app_inv_head in V. subst us. cbn [rx_cb_all foldl up_data up_length].
  rewrite <- Hb, Nat2Z.id, Hld.
  destruct (rx_cb_queues s2 q buf R) as [_ R']. cbn [q_step] in R'.
  destruct (Nat.ltb_spec (length q) capacity); [|lia].
  rewrite take_ge in R' by lia. exact R'.
Qed.

Lemma send_copy_buffer buf sz e : Z.of_nat (length buf) = sz ->
  ldb (mem (send_copy buf sz e)) (udp_get_tx_buffer e) (length buf) = buf.
Proof.
  intros <-. unfold send_copy. cbn [mem set_mem]. rewrite Nat2Z.id, firstn_all.
  apply ldb_stb_len. done.
Qed.

(** C30: A datagram handed to [dtls_send_cb] reaches the peer's receive ring through
    the driver, the wire and the interrupt handler unchanged, behind the datagrams
    already queued there, when two conditions hold.  The peer's ring is not full
    (less than seven datagrams wait; otherwise the datagram is dropped).  In the
    DTLS_RX_IRQ build, where the receive interrupt may be taken between the copy
    into the transmit buffer and [udp_send], the handler answers none of the
    frames it takes there (an ARP or echo request it answers goes out through the
    same buffer and the datagram is lost, [dtls_send_cb_races_with_isr]) and the
    peer's MAC address it leaves in the cache is not zero.  Interrupts inside the
    copy and inside [udp_send] are not considered. *)
Theorem dtls_datagram_end_to_end rx_irq buf sz e1 s1 e2 s2 q k :
  1 <= sz <= DTLS_MAX_DGRAM -> Z.of_nat (length buf) = sz ->
  eth_wf e1 -> pending_ok e1 ->
  let between := if rx_irq : bool then fst (ethmac_rx_isr (send_copy buf sz e1, s1)) else e1 in
  sent between = sent e1 -> mac_is_zero (cached_mac between) = false ->
  is_u16 (g_local_port s1) -> is_u16 (g_peer_port s1) ->
  is_u32 (my_ip e1) -> is_u32 (cached_ip e1) ->
  my_ip e2 = cached_ip e1 -> rx_callback e2 = true -> rxq e2 = [] ->
  ring_holds s2 q -> (length q < capacity)%nat ->
  let '(rc, (e1', _)) := send_run rx_irq buf sz (e1, s1) in
  rc = sz /\ exists f, sent e1' = sent e1 ++ [f] /\
    let '(e2', s2') := ethmac_rx_isr (arrive (wire k f) e2, s2) in
    ring_holds s2' (q ++ [buf]).
Proof.
  intros Hsz Hb W P between Hs Hz Hlp Hpp Hi Hci He2 Hcb Hq R Hl.
  unfold send_run, dtls_send_cb_interrupted, dtls_send_cb. cbn [fst snd].
  destruct (Z.leb_spec sz 0); [lia|].
  destruct (Z.ltb_spec DTLS_MAX_DGRAM sz); [unfold DTLS_MAX_DGRAM in *; lia|].
  assert (Wc : eth_wf (send_copy buf sz e1)) by exact W.
  assert (Pc : pending_ok (send_copy buf sz e1)) by exact P.
  destruct rx_irq; unfold between in *; clear between.
  - pose proof (isr_loop_quiet (length (rxq (send_copy buf sz e1))) _ s1 Wc Pc) as Q.
    unfold ethmac_rx_isr in Hs, Hz |- * at 1. cbn [fst] in Hs, Hz |- *.
    destruct (isr_loop _ (send_copy buf sz e1, s1)) as [e' s']. cbn [fst] in *.
    destruct Q as (_ & U & L1 & L2). destruct (U Hs) as [W' T M Um Ui Uc].
    pose proof (send_transmit_delivers buf sz s' e' e2 s2 q k Hsz Hb W' Hz) as D.
    destruct (send_transmit sz s' e') as [rc e1']. rewrite Hs in D. apply D; try congruence.
    + rewrite Ui. done.
    + rewrite Uc. done.
    + rewrite <- (send_copy_buffer buf sz e1 Hb) at 2.
      unfold udp_get_tx_buffer. rewrite T. apply ldb_ext. intros i Hi'. apply M.
      change (txbuffer (send_copy buf sz e1)) with (txbuffer e1). unfold off_payload. lia.
    + rewrite Uc. exact He2.
  - pose proof (send_transmit_delivers buf sz s1 (send_copy buf sz e1) e2 s2 q k Hsz Hb Wc) as D.
    destruct (send_transmit sz s1 (send_copy buf sz e1)) as [rc e1']. apply D; try done.
    apply (send_copy_buffer buf sz e1 Hb).
Qed.

(** ** The transmit buffer is shared with the interrupt handler

    The comment on [dtls_io_pump] says transmission is unaffected by the
    interrupt-driven receive path; [process_arp] and [process_icmp] run in the
    handler, write their reply through [txbuffer] and advance it. *)

Definition demo_io : io :=
  Io (repeat (repeat 0 1536) 8) (repeat 0 8) 0 0 11111 11111 0 0 0 true true.

(** An ARP request for 10.0.0.1. *)
Definition demo_arp_request : rxframe :=
  RxFrame 0 60 (repeat 255 6 ++ repeat 1 6 ++ [8; 6; 0; 1; 8; 0; 6; 4; 0; 1;
    9; 9; 9; 9; 9; 9; 10; 0; 0; 7; 0; 0; 0; 0; 0; 0; 10; 0; 0; 1] ++ repeat 0 18).

Definition demo_racing : eth := set_rx 0 0 0 [Some demo_arp_request] (demo_eth 0x0a000001 5).

(** With DTLS_RX_IRQ an ARP request answered between the copy into the transmit
    buffer and [udp_send] makes [dtls_send_cb] report success while the frame
    it sends carries the stale content of the other slot, not the record. *)
Theorem dtls_send_cb_races_with_isr :
  let buf := [1; 2; 3; 4; 5] in
  (let '(rc, e) := dtls_send_cb buf 5 demo_io (demo_eth 0x0a000001 5) in
   rc = 5 /\ slice 42 5 <$> (tx_bytes <$> sent e) = [buf])
  /\ (let '(rc, (e, _)) := dtls_send_cb_interrupted buf 5 (demo_racing, demo_io) in
      rc = 5 /\ slice 42 5 <$> (tx_bytes <$> sent e) = [repeat 0 5; repeat 0xaa 5]).
Proof. vm_compute. repeat split. Qed.

Lemma demo_io_shape : ring_shape demo_io.
Proof. repeat split. repeat constructor. Qed.

(** One datagram arrives while the consumer is between its two index loads. *)
Lemma rx_ring_refines_fifo_witness :
  exists s p, steps (demo_io, RIdle) [EArrive [1; 2]; ECall 1536; EArrive [3]; ETau] (s, p)
    /\ accepted [] [EArrive [1; 2]; ECall 1536; EArrive [3]; ETau]
       = returned [EArrive [1; 2]; ECall 1536; EArrive [3]; ETau] ++ [[1; 2]; [3]].
Proof.
  assert (exists s p, steps (demo_io, RIdle) [EArrive [1; 2]; ECall 1536; EArrive [3]; ETau] (s, p))
    as (s & p & St).
  { do 2 eexists.
    eapply (steps_snoc _ _ _ [EArrive [1; 2]; ECall 1536; EArrive [3]]);
      [eapply (steps_snoc _ _ _ [EArrive [1; 2]; ECall 1536]);
        [eapply (steps_snoc _ _ _ [EArrive [1; 2]]);
          [eapply (steps_snoc _ _ _ []); [apply steps_refl|apply step_isr]|apply step_call]
        |apply step_isr]
      |apply step_nonempty; discriminate]. }
  exists s, p. split; [exact St|].
  refine (proj1 (rx_ring_refines_fifo demo_io _ s p _ _ St)).
  - split; [apply demo_io_shape|done].
  - repeat constructor; discriminate.
Defined.

Lemma timer_exact_witness :
  ticks_run [5; 4294967295; 4294967300]
    (fst (dtls_io_init 1 2 (hw_value 3) demo_io (demo_eth 1 1))) = [5; 4294967295; 4294967300].
Proof.
  apply (timer_exact 1 2 3 [5; 4294967295; 4294967300] demo_io (demo_eth 1 1));
    [lia|cbn [polled]; lia].
Defined.

(** A UDP datagram is received between the copy and the send. *)
Definition demo_busy : eth :=
  let f := match sent (snd (dtls_send_cb [9; 9] 2 demo_io (demo_eth 0x0a000002 6))) with
           | [f] => f | _ => TxFrame 0 0 [] end in
  arrive (wire 1 f) (demo_eth 0x0a000001 5).

Lemma dtls_datagram_end_to_end_witness :
  let '(rc, (e1', _)) := send_run true [1; 2; 3] 3 (demo_busy, demo_io) in
  rc = 3 /\ length (rxq demo_busy) = 1%nat /\ rxq e1' = []
  /\ exists f, sent e1' = [f]
     /\ let '(_, s2') := ethmac_rx_isr (arrive (wire 1 f) (demo_eth 0x0a000002 6), demo_io) in
        ring_holds s2' [[1; 2; 3]].
Proof.
  assert (length (rxq demo_busy) = 1%nat) as L by (vm_compute; reflexivity).
  assert (rxq (fst (snd (send_run true [1; 2; 3] 3 (demo_busy, demo_io)))) = []) as E
    by (vm_compute; reflexivity).
  assert (pending_ok demo_busy) as P.
  { unfold pending_ok. repeat constructor; vm_compute; congruence. }
  pose proof (dtls_datagram_end_to_end true [1; 2; 3] 3 demo_busy demo_io
    (demo_eth 0x0a000002 6) demo_io [] 1 ltac:(unfold DTLS_MAX_DGRAM; lia) eq_refl
    ltac:(repeat split; vm_compute; congruence) P ltac:(vm_compute; reflexivity)
    ltac:(vm_compute; reflexivity)
    ltac:(unfold in_word; cbn; lia) ltac:(unfold in_word; cbn; lia)
    ltac:(unfold in_word; vm_compute; split; congruence)
    ltac:(unfold in_word; vm_compute; split; congruence) ltac:(vm_compute; reflexivity)
    eq_refl eq_refl) as H.
  destruct (send_run true [1; 2; 3] 3 (demo_busy, demo_io)) as [rc [e1' s1']]. cbn [fst snd] in E.
  destruct H as (-> & f & S & H).
  - constructor; [apply demo_io_shape|cbn; lia|unfold capacity; cbn; lia|reflexivity|].
    intros j d X. rewrite lookup_nil in X. discriminate.
  - unfold capacity. cbn. lia.
  - split; [reflexivity|]. split; [exact L|]. split; [exact E|].
    exists f. split; [exact S|]. exact H.
Defined.
