(* ===== verification/RtxList.v ===== *)
(** * The retransmission list of dtls13.c as linked nodes

    [ssl->dtls13Rtx.rtxRecords] is a singly linked list with a pointer to its
    last link ([rtxRecordTailPtr]); the loops of dtls13.c walk it with a pointer
    to the link that leads to the current node.  This file models the nodes in
    a store and proves that every operation is the obvious operation on a list,
    and that the tail pointer never dangles; DtlsRtx.v then works on lists. *)

From stdpp Require Import gmap.
From S2P Require Import Prelude.

(** ** Nodes and links *)

Section RtxList.
Context {A : Type}.

Record node := Node { payload : A; next : option nat }.

(** What a [Dtls13RtxRecord **] points to: the list head or a [next] field. *)
Inductive link := Head | Next (a : nat).

Record rtx := Rtx {
  heap : gmap nat node; rtxRecords : option nat; rtxRecordTailPtr : link }.

Definition set_heap (h : gmap nat node) (s : rtx) : rtx := Rtx h (rtxRecords s) (rtxRecordTailPtr s).
Definition set_tail (t : link) (s : rtx) : rtx := Rtx (heap s) (rtxRecords s) t.

(** [*l] and [*l = v]. *)
Definition read_link (l : link) (s : rtx) : option nat :=
  match l with
  | Head => rtxRecords s
  | Next a => match heap s !! a with Some n => next n | None => None end
  end.

Definition write_link (l : link) (v : option nat) (s : rtx) : rtx :=
  match l with
  | Head => Rtx (heap s) v (rtxRecordTailPtr s)
  | Next a => set_heap (alter (fun n => Node (payload n) v) a (heap s)) s
  end.

(** The list before any record: the tail pointer designates the head. *)
Definition rtx_empty : rtx := Rtx ∅ None Head.

(** XMALLOC of a record. *)
Definition rtx_alloc (x : A) (s : rtx) : nat * rtx :=
  let a := fresh (dom (heap s)) in (a, set_heap (<[a := Node x None]> (heap s)) s).
(** Dtls13FreeRtxBufferRecord. *)
Definition rtx_free (a : nat) (s : rtx) : rtx := set_heap (delete a (heap s)) s.

Definition Dtls13RtxAddRecord (r : nat) (s : rtx) : rtx :=
  let s := write_link (rtxRecordTailPtr s) (Some r) s in
  let s := set_tail (Next r) s in
  write_link (Next r) None s.

Definition Dtls13RtxRecordUnlink (prevNext : link) (r : nat) (s : rtx) : rtx :=
  let nx := read_link (Next r) s in
  let s := match nx with None => set_tail prevNext s | Some _ => s end in
  write_link prevNext nx s.

Definition Dtls13RtxMoveToEndOfList (prevNext : link) (r : nat) (s : rtx) : rtx :=
  match read_link (Next r) s with
  | None => s
  | Some _ => Dtls13RtxAddRecord r (Dtls13RtxRecordUnlink prevNext r s)
  end.

(** The walk shared by Dtls13RtxRemoveRecord, Dtls13RtxProcessingCertificate and
    Dtls13MaybeSaveClientHello: unlink and free the first record that
    satisfies [p].  [None]: out of fuel. *)
Fixpoint remove_walk (fuel : nat) (p : A -> bool) (prevNext : link) (r : option nat) (s : rtx)
    : option (option A * rtx) :=
  match fuel with
  | O => None
  | S fuel =>
      match r with
      | None => Some (None, s)
      | Some a =>
          match heap s !! a with
          | None => None
          | Some n =>
              if p (payload n)
              then Some (Some (payload n), rtx_free a (Dtls13RtxRecordUnlink prevNext a s))
              else remove_walk fuel p (Next a) (next n) s
          end
      end
  end.

(** The walk of Dtls13RtxFlushBuffered; [keep] is the session ticket test. *)
Fixpoint flush_walk (fuel : nat) (keep : A -> bool) (prevNext : link) (r : option nat) (s : rtx)
    : option rtx :=
  match fuel with
  | O => None
  | S fuel =>
      match r with
      | None => Some (set_tail prevNext s)
      | Some a =>
          match heap s !! a with
          | None => None
          | Some n =>
              if keep (payload n) then flush_walk fuel keep (Next a) (next n) s
              else let s := rtx_free a (write_link prevNext (next n) s) in
                   flush_walk fuel keep prevNext (read_link prevNext s) s
          end
      end
  end.

(** ** The list a store represents *)

(** [lseg h o l e]: following [next] from [o] visits the records [l] and ends
    with the pointer [e]. *)
Fixpoint lseg (h : gmap nat node) (o : option nat) (l : list (nat * A)) (e : option nat) : Prop :=
  match l with
  | [] => o = e
  | (a, x) :: l' => o = Some a /\ exists nx, h !! a = Some (Node x nx) /\ lseg h nx l' e
  end.

Definition last_link (d : link) (l : list (nat * A)) : link :=
  match last l with Some (a, _) => Next a | None => d end.

Record rep (s : rtx) (l : list (nat * A)) : Prop := {
  rep_seg : lseg (heap s) (rtxRecords s) l None;
  rep_nodup : NoDup l.*1;
  rep_tail : rtxRecordTailPtr s = last_link Head l }.

Lemma lseg_app h o l1 l2 e :
  lseg h o (l1 ++ l2) e <-> exists m, lseg h o l1 m /\ lseg h m l2 e.
Proof.
  revert o. induction l1 as [|[a x] l1 IH]; intros o; cbn.
  - split; [intros H; exists o; done|intros (m & -> & H); done].
  - split.
    + intros (E & nx & H & L). apply IH in L as (m & L1 & L2).
      exists m. split; [split; [done|]; exists nx; done|done].
    + intros (m & (E & nx & H & L1) & L2). split; [done|]. exists nx. split; [done|].
      apply IH. exists m. done.
Qed.

(** Changing a node outside the segment. *)
Lemma lseg_frame h h' o l e : (forall a, a ∈ l.*1 -> h' !! a = h !! a) ->
  lseg h o l e -> lseg h' o l e.
Proof.
  revert o. induction l as [|[a x] l IH]; intros o F H; [done|].
  destruct H as (E & nx & H & L). split; [done|]. exists nx.
  rewrite F by (cbn; left). split; [done|]. apply IH; [|done].
  intros b Hb. apply F. cbn. right. done.
Qed.

(** The value of the last link of a prefix is where the rest begins. *)
Lemma read_last_link s l1 m : lseg (heap s) (rtxRecords s) l1 m ->
  read_link (last_link Head l1) s = m.
Proof.
  destruct l1 as [|[a x] l1 _] using rev_ind; [done|]. intros H.
  apply lseg_app in H as (o & _ & (E & nx & H & L)).
  unfold last_link. rewrite last_snoc. cbn. rewrite H. done.
Qed.

(** Writing the last link of a prefix redirects it. *)
Lemma write_last_link s l1 m v : lseg (heap s) (rtxRecords s) l1 m -> NoDup l1.*1 ->
  let s' := write_link (last_link Head l1) v s in
  lseg (heap s') (rtxRecords s') l1 v
  /\ (forall b, b ∉ l1.*1 -> heap s' !! b = heap s !! b)
  /\ rtxRecordTailPtr s' = rtxRecordTailPtr s.
Proof.
  destruct l1 as [|[a x] l1 _] using rev_ind; [done|]. intros H N.
  rewrite fmap_app in N. apply NoDup_app in N as (N1 & N2 & _).
  apply lseg_app in H as (o & H1 & (-> & nx & H & L)).
  unfold last_link. rewrite last_snoc. cbn. split_and!; [|intros b Hb|done].
  - apply lseg_app. exists (Some a). split.
    + apply (lseg_frame (heap s)); [|done]. intros b Hb. apply lookup_alter_ne.
      intros ->. apply (N2 b Hb). cbn. left.
    + split; [done|]. exists v. rewrite lookup_alter_eq, H. done.
  - apply lookup_alter_ne. intros ->. apply Hb. rewrite fmap_app. apply elem_of_app.
    right. left.
Qed.

Lemma last_link_app d l1 l2 : last_link d (l1 ++ l2) = last_link (last_link d l1) l2.
Proof.
  unfold last_link. destruct l2 as [|y l2 _] using rev_ind; [rewrite app_nil_r; done|].
  rewrite app_assoc, !last_snoc. done.
Qed.

(** ** The operations *)

Lemma add_spec s l a x nx0 : rep s l -> heap s !! a = Some (Node x nx0) -> a ∉ l.*1 ->
  rep (Dtls13RtxAddRecord a s) (l ++ [(a, x)]).
Proof.
  intros [Sg N T] H Na. unfold Dtls13RtxAddRecord. rewrite T.
  destruct (write_last_link s l None (Some a) Sg N) as (L & F & _).
  set (s1 := write_link (last_link Head l) (Some a) s) in *.
  split; cbn.
  - apply lseg_app. exists (Some a). split.
    + apply (lseg_frame (heap s1)); [|done]. intros b Hb. apply lookup_alter_ne.
      intros ->. done.
    + split; [done|]. exists None. rewrite lookup_alter_eq. cbn. rewrite F, H by done. done.
  - rewrite fmap_app. apply NoDup_app. split; [done|]. split; [|apply NoDup_singleton].
    intros b Hb. cbn. rewrite list_elem_of_singleton. intros ->. done.
  - rewrite last_link_app. done.
Qed.

Lemma unlink_spec s l1 a x l2 : rep s (l1 ++ (a, x) :: l2) ->
  let s' := Dtls13RtxRecordUnlink (last_link Head l1) a s in
  rep s' (l1 ++ l2) /\ (forall b, b ∉ l1.*1 -> heap s' !! b = heap s !! b) /\ (a ∉ (l1 ++ l2).*1)
  /\ heap s !! a = Some (Node x (read_link (Next a) s)).
Proof.
  intros [Sg N T]. cbn zeta. unfold Dtls13RtxRecordUnlink.
  pose proof Sg as Sg'. apply lseg_app in Sg' as (m & L1 & (-> & nx & Ha & L2)).
  assert (read_link (Next a) s = nx) as -> by (cbn; rewrite Ha; done).
  pose proof N as N'. rewrite fmap_app, fmap_cons in N'. cbn [fst] in N'.
  apply NoDup_app in N' as (N1 & Nd & N2). apply NoDup_cons in N2 as [N3 N4].
  assert (forall b, b ∈ l2.*1 -> b ∉ l1.*1) as Nd2.
  { intros b Hb Hb1. apply (Nd b Hb1). right. done. }
  assert (a ∉ l1.*1) as Na by (intros Hb; apply (Nd a Hb); left).
  set (s1 := match nx with None => _ | Some _ => s end).
  assert (heap s1 = heap s /\ rtxRecords s1 = rtxRecords s) as [E1 E2]
    by (subst s1; destruct nx; done).
  assert (lseg (heap s1) (rtxRecords s1) l1 (Some a)) as L1' by (rewrite E1, E2; done).
  destruct (write_last_link s1 l1 (Some a) nx L1' N1) as (W & F & Tl).
  rewrite E1 in F. split_and!; [split| done | | done].
  - apply lseg_app. exists nx. split; [done|]. apply (lseg_frame (heap s)); [|done].
    intros b Hb. apply F. auto.
  - rewrite fmap_app. apply NoDup_app. split; [done|]. split; [|done].
    intros b Hb Hb2. apply (Nd b Hb). right. done.
  - rewrite Tl. subst s1. destruct l2 as [|[b y] l2].
    + cbn in L2. subst nx. rewrite app_nil_r. done.
    + destruct L2 as (-> & _). cbn. rewrite T, !last_link_app. done.
  - rewrite fmap_app. intros Hb. apply elem_of_app in Hb as [Hb|Hb]; done.
Qed.

Lemma free_spec s l a : rep s l -> a ∉ l.*1 -> rep (rtx_free a s) l.
Proof.
  intros [Sg N T] Na. split; [|done|done]. cbn. apply (lseg_frame (heap s)); [|done].
  intros b Hb. apply lookup_delete_ne. intros ->. done.
Qed.

Lemma alloc_spec s l x : rep s l ->
  let '(a, s') := rtx_alloc x s in
  rep s' l /\ heap s' !! a = Some (Node x None) /\ a ∉ l.*1.
Proof.
  intros [Sg N T]. unfold rtx_alloc. cbn [heap set_heap].
  set (a := fresh (dom (heap s))).
  assert (a ∉ l.*1) as Na.
  { assert (a ∉ dom (heap s)) as Fr by apply is_fresh.
    intros Hin. apply Fr. clear Fr N T. revert Sg. generalize (rtxRecords s) as o.
    induction l as [|[b y] l IH]; intros o Sg; [by apply elem_of_nil in Hin|].
    destruct Sg as (_ & nx & Hb & L). cbn in Hin. apply elem_of_cons in Hin as [->|Hin].
    - apply elem_of_dom_2 in Hb. done.
    - apply (IH Hin _ L). }
  split_and!; [split; [|done|done]|apply lookup_insert_eq|done].
  apply (lseg_frame (heap s)); [|done]. intros b Hb. apply lookup_insert_ne.
  intros ->. done.
Qed.

(** Moving a record behind the last one. *)
Lemma move_to_end_spec s l1 a x l2 : rep s (l1 ++ (a, x) :: l2) ->
  rep (Dtls13RtxMoveToEndOfList (last_link Head l1) a s) (l1 ++ l2 ++ [(a, x)]).
Proof.
  intros R. pose proof R as [Sg N T]. unfold Dtls13RtxMoveToEndOfList.
  apply lseg_app in Sg as (m & L1 & (-> & nx & Ha & L2)).
  cbn [read_link]. rewrite Ha. cbn [next]. destruct nx as [b|].
  - destruct (unlink_spec s l1 a x l2 R) as (R' & F & Na & _).
    rewrite app_assoc. eapply add_spec; [done| |done].
    rewrite F; [exact Ha|]. intros Hb. apply Na. rewrite fmap_app. apply elem_of_app. by left.
  - destruct l2 as [|[b y] l2]; [done|]. destruct L2 as (E & _). done.
Qed.

(** The first element that satisfies [p], and the list without it. *)
Fixpoint remove_first (p : A -> bool) (l : list A) : option A * list A :=
  match l with
  | [] => (None, [])
  | x :: l' => if p x then (Some x, l')
               else let '(f, r) := remove_first p l' in (f, x :: r)
  end.

Definition values (l : list (nat * A)) : list A := l.*2.

Lemma remove_walk_spec fuel p s l1 l2 :
  rep s (l1 ++ l2) -> (length l2 < fuel)%nat ->
  exists s' l', remove_walk fuel p (last_link Head l1) (match l2 with [] => None | y :: _ => Some y.1 end) s
                = Some (fst (remove_first p (values l2)), s')
    /\ rep s' l' /\ values l' = values l1 ++ snd (remove_first p (values l2))
    /\ (l' ⊆ (l1 ++ l2)).
Proof.
  revert l1 l2. induction fuel as [|fuel IH]; intros l1 l2 R L; [lia|].
  destruct l2 as [|[a x] l2]; cbn [remove_walk values fmap list_fmap remove_first snd].
  - exists s, (l1 ++ []). split; [done|]. split; [done|]. unfold values.
    rewrite !app_nil_r. done.
  - pose proof R as [Sg N T]. apply lseg_app in Sg as (m & L1 & (-> & nx & Ha & L2)).
    cbn [fst]. rewrite Ha. cbn [payload next]. destruct (p x) eqn:P.
    + destruct (unlink_spec s l1 a x l2 R) as (R' & F & Na & _).
      eexists _, (l1 ++ l2). split; [reflexivity|]. split; [apply free_spec; done|].
      split; [unfold values; rewrite fmap_app; done|].
      intros y Hy. apply elem_of_app in Hy as [Hy|Hy]; apply elem_of_app; [by left|].
      right. right. done.
    + assert (nx = match l2 with [] => None | y :: _ => Some y.1 end) as ->.
      { destruct l2 as [|[b y] l2]; [done|]. apply L2. }
      assert (l1 ++ (a, x) :: l2 = (l1 ++ [(a, x)]) ++ l2) as E by (rewrite <- app_assoc; done).
      rewrite E in *. destruct (IH _ l2 R ltac:(cbn in L; lia)) as (s' & l' & W & R' & V & Sub).
      rewrite last_link_app in W. cbn in W. fold (values l2).
      destruct (remove_first p (values l2)) as [f r] eqn:RF. cbn [fst snd] in *.
      exists s', l'. split; [exact W|]. split; [done|]. split; [|done].
      rewrite V. unfold values. rewrite fmap_app, <- app_assoc. done.
Qed.

Lemma flush_walk_spec fuel keep s l1 l2 :
  lseg (heap s) (rtxRecords s) (l1 ++ l2) None -> NoDup (l1 ++ l2).*1 -> (length l2 < fuel)%nat ->
  exists s' l',
    flush_walk fuel keep (last_link Head l1) (match l2 with [] => None | y :: _ => Some y.1 end) s
      = Some s'
    /\ rep s' l' /\ values l' = values l1 ++ List.filter keep (values l2).
Proof.
  revert s l1 l2. induction fuel as [|fuel IH]; intros s l1 l2 Sg N L; [lia|].
  destruct l2 as [|[a x] l2]; cbn [flush_walk].
  - rewrite app_nil_r in *. eexists _, l1. split; [reflexivity|]. split; [split; done|].
    done.
  - pose proof Sg as Sg'. apply lseg_app in Sg' as (m & L1 & (-> & nx & Ha & L2)).
    cbn [fst]. rewrite Ha. cbn [payload next].
    assert (nx = match l2 with [] => None | y :: _ => Some y.1 end) as Enx.
    { destruct l2 as [|[b y] l2]; [done|]. apply L2. }
    unfold values. rewrite fmap_cons. cbn [List.filter snd]. destruct (keep x) eqn:K.
    + assert (l1 ++ (a, x) :: l2 = (l1 ++ [(a, x)]) ++ l2) as E by (rewrite <- app_assoc; done).
      rewrite E in Sg, N. destruct (IH s _ l2 Sg N ltac:(cbn in L; lia)) as (s' & l' & W & R & V).
      rewrite last_link_app in W. cbn in W. rewrite Enx. exists s', l'.
      split; [exact W|]. split; [done|]. unfold values in V. rewrite V.
      rewrite fmap_app, <- app_assoc. done.
    + pose proof N as N'. rewrite fmap_app, fmap_cons in N'. cbn [fst] in N'.
      apply NoDup_app in N' as (N1 & Nd & N2). apply NoDup_cons in N2 as [N3 N4].
      destruct (write_last_link s l1 (Some a) nx L1 N1) as (W & F & _).
      set (s1 := write_link _ nx s) in *.
      assert (lseg (heap (rtx_free a s1)) (rtxRecords (rtx_free a s1)) l1 nx) as L1'.
      { apply (lseg_frame (heap s1)); [|done]. intros b Hb. apply lookup_delete_ne.
        intros ->. apply (Nd b Hb). left. }
      assert (read_link (last_link Head l1) (rtx_free a s1)
              = match l2 with [] => None | y :: _ => Some y.1 end) as ->
        by (rewrite (read_last_link _ _ _ L1'); done).
      apply IH; [| |cbn in L; lia].
      * apply lseg_app. exists nx. split; [done|]. apply (lseg_frame (heap s)); [|done].
        intros b Hb. cbn [heap rtx_free set_heap]. rewrite lookup_delete_ne.
        -- apply F. intros Hb1. apply (Nd b Hb1). right. done.
        -- intros ->. done.
      * rewrite fmap_app. apply NoDup_app. split; [done|]. split; [|done].
        intros b Hb Hb2. apply (Nd b Hb). right. done.
Qed.

(** ** Refinement *)

(** The operations dtls13.c performs on the list: queue a new record, unlink
    the first record a test selects, unlink all records a test rejects, move
    the [n]-th record behind the last. *)
Inductive rtx_op :=
| OpAdd (x : A) | OpRemove (p : A -> bool) | OpFlush (keep : A -> bool) | OpMoveToEnd (n : nat).

Definition abstract_op (op : rtx_op) (l : list A) : list A :=
  match op with
  | OpAdd x => l ++ [x]
  | OpRemove p => snd (remove_first p l)
  | OpFlush keep => List.filter keep l
  | OpMoveToEnd n => match l !! n with
                     | Some x => delete n l ++ [x]
                     | None => l
                     end
  end.

(** The [n]-th record and the link that leads to it. *)
Fixpoint nth_link (n : nat) (prevNext : link) (s : rtx) : link * option nat :=
  match n with
  | O => (prevNext, read_link prevNext s)
  | S n' => match read_link prevNext s with
            | None => (prevNext, None)
            | Some a => nth_link n' (Next a) s
            end
  end.

Definition concrete_op (fuel : nat) (op : rtx_op) (s : rtx) : option rtx :=
  match op with
  | OpAdd x => let '(a, s) := rtx_alloc x s in Some (Dtls13RtxAddRecord a s)
  | OpRemove p => match remove_walk fuel p Head (rtxRecords s) s with
                  | Some (_, s) => Some s | None => None
                  end
  | OpFlush keep => flush_walk fuel keep Head (rtxRecords s) s
  | OpMoveToEnd n => match nth_link n Head s with
                     | (_, None) => Some s
                     | (l, Some a) => Some (Dtls13RtxMoveToEndOfList l a s)
                     end
  end.

Fixpoint concrete_run (fuel : nat) (ops : list rtx_op) (s : rtx) : option rtx :=
  match ops with
  | [] => Some s
  | op :: ops => match concrete_op fuel op s with
                 | Some s => concrete_run fuel ops s
                 | None => None
                 end
  end.

Lemma first_pointer s l : rep s l ->
  rtxRecords s = match l with [] => None | y :: _ => Some y.1 end.
Proof. intros [Sg _ _]. destruct l as [|[a x] l]; [done|]. apply Sg. Qed.

Lemma nth_link_spec n s l1 l2 : rep s (l1 ++ l2) ->
  nth_link n (last_link Head l1) s
  = match l2 !! n with
    | Some y => (last_link Head (l1 ++ take n l2), Some y.1)
    | None => (last_link Head (l1 ++ l2), None)
    end.
Proof.
  revert l1 l2. induction n as [|n IH]; intros l1 l2 R; pose proof R as [Sg _ _];
    apply lseg_app in Sg as (m & L1 & L2); cbn [nth_link]; rewrite (read_last_link _ _ _ L1);
    destruct l2 as [|[a x] l2]; cbn in L2; [subst m| |subst m| ].
  - rewrite lookup_nil, app_nil_r. done.
  - destruct L2 as (-> & _). change (((a, x) :: l2) !! 0%nat) with (Some (a, x)).
    change (take 0 ((a, x) :: l2)) with (@nil (nat * A)). rewrite app_nil_r. done.
  - rewrite lookup_nil, app_nil_r. done.
  - destruct L2 as (-> & _).
    assert (l1 ++ (a, x) :: l2 = (l1 ++ [(a, x)]) ++ l2) as E by (rewrite <- app_assoc; done).
    rewrite E in R. specialize (IH _ _ R). rewrite last_link_app in IH. cbn in IH. rewrite IH.
    change (((a, x) :: l2) !! S n) with (l2 !! n). cbn [firstn].
    rewrite <- !app_assoc. destruct (l2 !! n); done.
Qed.

Lemma op_refines fuel op s l : rep s l -> (length l < fuel)%nat ->
  exists s' l', concrete_op fuel op s = Some s' /\ rep s' l'
    /\ values l' = abstract_op op (values l).
Proof.
  intros R F. destruct op as [x|p|keep|n]; cbn [concrete_op abstract_op].
  - pose proof (alloc_spec s l x R) as X. destruct (rtx_alloc x s) as [a s'].
    destruct X as (R' & Ha & Na). eexists _, (l ++ [(a, x)]). split; [reflexivity|].
    split; [eapply add_spec; done|]. unfold values. rewrite fmap_app. done.
  - destruct (remove_walk_spec fuel p s [] l R F) as (s' & l' & W & R' & V & _).
    cbn [last_link last] in W. rewrite <- (first_pointer s l R) in W.
    change (last_link Head []) with Head in W. rewrite W. eauto.
  - pose proof R as [Sg N _]. destruct (flush_walk_spec fuel keep s [] l Sg N F)
      as (s' & l' & W & R' & V).
    rewrite <- (first_pointer s l R) in W. change (last_link Head []) with Head in W.
    rewrite W. eauto.
  - pose proof (nth_link_spec n s [] l R) as W. change (last_link Head []) with Head in W.
    cbn [app] in W. rewrite W. unfold values. rewrite list_lookup_fmap.
    destruct (l !! n) as [[a x]|] eqn:El; cbn.
    + assert (l = take n l ++ (a, x) :: drop (S n) l) as E by (symmetry; apply take_drop_middle; done).
      rewrite E in R. eexists _, _. split; [reflexivity|].
      split; [apply move_to_end_spec; exact R|].
      rewrite delete_take_drop, !fmap_app, <- fmap_take, <- fmap_drop, <- app_assoc. done.
    + eauto.
Qed.

(** The records a walk from the head meets. *)
Fixpoint walk_values (fuel : nat) (r : option nat) (s : rtx) : option (list A) :=
  match fuel with
  | O => None
  | S fuel =>
      match r with
      | None => Some []
      | Some a => match heap s !! a with
                  | None => None
                  | Some n => match walk_values fuel (next n) s with
                              | Some l => Some (payload n :: l)
                              | None => None
                              end
                  end
      end
  end.

Lemma walk_values_spec fuel s o l : lseg (heap s) o l None -> (length l < fuel)%nat ->
  walk_values fuel o s = Some (values l).
Proof.
  revert o l. induction fuel as [|fuel IH]; intros o l H L; [lia|].
  destruct l as [|[a x] l]; cbn in H; [subst o; done|].
  destruct H as (-> & nx & Ha & H). cbn. rewrite Ha. cbn.
  rewrite (IH _ _ H) by (cbn in L; lia). done.
Qed.

Lemma remove_first_length p l : (length (snd (remove_first p l)) <= length l)%nat.
Proof.
  induction l as [|x l IH]; cbn; [lia|]. destruct (p x); cbn; [lia|].
  destruct (remove_first p l). cbn in *. lia.
Qed.

Lemma abstract_op_length op l : (length (abstract_op op l) <= S (length l))%nat.
Proof.
  destruct op as [x|p|keep|n]; cbn.
  - rewrite length_app. cbn. lia.
  - pose proof (remove_first_length p l). lia.
  - pose proof (List.filter_length_le keep l). lia.
  - destruct (l !! n) as [x|] eqn:E; [|lia]. rewrite length_app. cbn.
    pose proof (lookup_lt_Some _ _ _ E). rewrite length_delete by eauto. lia.
Qed.

Lemma concrete_run_spec fuel ops s l : rep s l -> (length l + length ops < fuel)%nat ->
  exists s' l', concrete_run fuel ops s = Some s' /\ rep s' l'
    /\ values l' = fold_left (fun l op => abstract_op op l) ops (values l)
    /\ (length l' < fuel)%nat.
Proof.
  revert s l. induction ops as [|op ops IH]; intros s l R F; cbn in *.
  - exists s, l. split_and!; try done. lia.
  - destruct (op_refines fuel op s l R ltac:(lia)) as (s1 & l1 & -> & R1 & V).
    destruct (IH s1 l1 R1) as (s' & l' & E & R' & V' & L').
    { pose proof (abstract_op_length op (values l)) as Le. rewrite <- V in Le.
      unfold values in Le. rewrite !length_fmap in Le. lia. }
    rewrite V in V'. eauto 10.
Qed.

(** C13: the retransmission list refines a list of records.  Whatever sequence
    of the operations of dtls13.c is applied to the empty list (queueing,
    unlinking a record found by a walk, flushing with or without the session
    tickets, moving a record to the end), every loop terminates within one step
    per record ever queued plus one, no freed or missing node is dereferenced,
    a walk from the head meets exactly the records of the abstract list in
    order, and the tail pointer designates the link of the last one. *)
Theorem rtx_list_refines fuel ops :
  (length ops < fuel)%nat ->
  exists s, concrete_run fuel ops rtx_empty = Some s
    /\ walk_values fuel (rtxRecords s) s
       = Some (fold_left (fun l op => abstract_op op l) ops [])
    /\ read_link (rtxRecordTailPtr s) s = None.
Proof.
  intros F. destruct (concrete_run_spec fuel ops rtx_empty []) as (s & l & E & R & V & L).
  - split; [done|apply NoDup_nil_2|done].
  - done.
  - exists s. split; [done|]. change (values []) with (@nil A) in V. rewrite <- V.
    split; [apply walk_values_spec; [apply R|done]|].
    rewrite (rep_tail s l R). apply read_last_link. apply R.
Qed.
End RtxList.

Lemma rtx_list_refines_witness :
  let ops := [OpAdd 1; OpAdd 2; OpAdd 3; OpRemove (Z.eqb 3); OpAdd 4;
              OpMoveToEnd 0; OpAdd 5; OpFlush Z.even; OpAdd 6]%Z in
  (length ops < 12)%nat /\
  exists s, concrete_run 12 ops rtx_empty = Some s
    /\ walk_values 12 (rtxRecords s) s = Some [2; 4; 6]%Z
    /\ read_link (rtxRecordTailPtr s) s = None.
Proof.
  cbn zeta. split; [cbn; lia|].
  exact (rtx_list_refines 12 [OpAdd 1; OpAdd 2; OpAdd 3; OpRemove (Z.eqb 3); OpAdd 4;
              OpMoveToEnd 0; OpAdd 5; OpFlush Z.even; OpAdd 6]%Z ltac:(cbn; lia)).
Defined.
