(* ===== verification/DtlsDefs.v ===== *)
(** * Constants of the DTLS component

    Error codes, content and handshake types, states and sizes from
    src/boot/wolfssl/{error-ssl.h,internal.h,ssl.h,wolfcrypt/error-crypt.h} in
    the configuration of src/boot/wolfssl/wolfcrypt/user_settings.h, shared by the DTLS files. *)

From S2P Require Import Prelude.

(** ** Error codes *)

Definition WOLFSSL_FATAL_ERROR := -1.
Definition WC_PENDING_E := -108.
Definition MEMORY_E := -125.
Definition BUFFER_E := -132.
Definition BAD_FUNC_ARG := -173.
Definition NOT_COMPILED_IN := -174.
Definition BAD_STATE_E := -192.
Definition VERIFY_MAC_ERROR := -305.
Definition PARSE_ERROR := -306.
Definition SOCKET_ERROR_E := -308.
Definition INCOMPLETE_DATA := -310.
Definition UNKNOWN_RECORD_TYPE := -311.
Definition DECRYPT_ERROR := -312.
Definition WANT_READ := -323.
Definition VERSION_ERROR := -326.
Definition WANT_WRITE := -327.
Definition BUFFER_ERROR := -328.
Definition LENGTH_ERROR := -341.
Definition SEQUENCE_ERROR := -370.
Definition OUT_OF_ORDER_E := -373.
Definition SANITY_MSG_E := -394.
Definition DTLS_CID_ERROR := -454.
Definition DTLS_TOO_MANY_FRAGMENTS_E := -455.
Definition DTLS_PARTIAL_RECORD_READ := -455.

(** ** enum ContentType *)

Definition no_type := 0.
Definition change_cipher_spec := 20.
Definition alert := 21.
Definition handshake := 22.
Definition application_data := 23.
Definition dtls12_cid := 25.
Definition ack := 26.

(** ** enum HandShakeType *)

Definition hello_request := 0.
Definition client_hello := 1.
Definition server_hello := 2.
Definition hello_verify_request := 3.
Definition session_ticket := 4.
Definition end_of_early_data := 5.
Definition hello_retry_request := 6.
Definition encrypted_extensions := 8.
Definition certificate := 11.
Definition server_key_exchange := 12.
Definition certificate_request := 13.
Definition server_hello_done := 14.
Definition certificate_verify := 15.
Definition client_key_exchange := 16.
Definition finished := 20.
Definition certificate_status := 22.
Definition key_update := 24.
Definition change_cipher_hs := 55.
Definition message_hash := 254.
Definition no_shake := 255.

(** The enumerators, in declaration order. *)
Definition HandShakeTypes : list Z :=
  [hello_request; client_hello; server_hello; hello_verify_request; session_ticket;
   end_of_early_data; hello_retry_request; encrypted_extensions; certificate;
   server_key_exchange; certificate_request; server_hello_done; certificate_verify;
   client_key_exchange; finished; certificate_status; key_update; change_cipher_hs;
   message_hash; no_shake].

(** ** Sides and states *)

Definition WOLFSSL_SERVER_END := 0.
Definition WOLFSSL_CLIENT_END := 1.

Definition ENCRYPT_SIDE_ONLY := 1.
Definition DECRYPT_SIDE_ONLY := 2.
Definition ENCRYPT_AND_DECRYPT_SIDE := 3.

Definition PEER_ORDER := 1.
Definition CUR_ORDER := 0.

(** enum states *)
Definition SERVER_HELLO_COMPLETE := 3.
Definition HANDSHAKE_DONE := 16.
Definition SERVER_FINISHED_ACKED := 17.
(** enum ConnectState *)
Definition CONNECT_BEGIN := 0.
Definition CLIENT_HELLO_SENT := 1.
Definition HELLO_AGAIN := 2.
Definition HELLO_AGAIN_REPLY := 3.
Definition FIRST_REPLY_DONE := 4.
Definition FIRST_REPLY_FOURTH := 8.
Definition WAIT_FINISHED_ACK := 11.
(** enum AcceptState *)
Definition ACCEPT_FIRST_REPLY_DONE := 4.

(** ** Sizes *)

Definition DTLS13_EPOCH_SIZE : nat := 4.
Definition DTLS13_RETRANS_RN_SIZE : nat := 3.
Definition DTLS13_EPOCH_EARLYDATA := 1.
Definition DTLS13_EPOCH_HANDSHAKE := 2.
Definition DTLS13_EPOCH_TRAFFIC0 := 3.
Definition DTLS_POOL_SZ := 20.
Definition DTLS_FRAG_POOL_SZ := 10.
Definition DTLS_HANDSHAKE_HEADER_SZ := 12.
Definition DTLS_RECORD_HEADER_SZ := 13.
Definition DTLS13_UNIFIED_HEADER_SIZE := 5.
Definition DTLS13_RN_MASK_SIZE := 16.
Definition DTLS13_MIN_CIPHERTEXT := 16.
Definition DTLS13_RN_SIZE := 16.
Definition EE_MASK := 3.
Definition WOLFSSL_DTLS_WINDOW_WORDS : nat := 2.
Definition DTLS_WORD_BITS := 32.
Definition DTLS_SEQ_BITS := 64.
Definition DTLS_MAJOR := 0xfe.
Definition DTLSv1_2_MINOR := 0xfd.
Definition DTLSv1_3_MINOR := 0xfc.
Definition DTLS_MINOR := 0xff.
Definition DTLS_BOGUS_MINOR := 0xfe.
Definition SSLv3_MAJOR := 3.
Definition TLSv1_3_MINOR := 4.
Definition DTLS_UNIFIED_HEADER_MIN_SZ := 2.
Definition DTLS_RECVD_RL_HEADER_MAX_SZ := 5.
Definition DTLS13_HDR_FLAGS_SIZE := 1.
Definition DTLS13_LEN_SIZE := 2.
Definition DTLS13_SEQ_16_LEN := 2.
Definition DTLS13_SEQ_8_LEN := 1.
Definition DTLS13_FIXED_BITS_MASK := Z.shiftl 0x111 5.
Definition DTLS13_FIXED_BITS := Z.shiftl 0x1 5.
Definition DTLS13_SEQ_LEN_BIT := Z.shiftl 0x1 3.
Definition DTLS13_LEN_BIT := Z.shiftl 0x1 2.
Definition MAX_RECORD_SIZE := 16384.
Definition MAX_COMP_EXTRA := 1024.
Definition MAX_MSG_EXTRA := 102.
Definition MEMORY_ERROR := -303.
Definition DTLS_POOL_SZ_E := -415.
Definition DTLS_TIMEOUT_MULTIPLIER := 2.

(** ** The output buffer and the send callback *)

Definition ENCRYPT_ERROR := -314.
Definition SEND_OOB_READ_E := -387.
Definition DTLS_SIZE_ERROR := -439.
Definition STATIC_BUFFER_LEN := 5.
Definition WOLFSSL_CBIO_ERR_WANT_WRITE := -2.
Definition WOLFSSL_CBIO_ERR_CONN_RST := -3.
Definition WOLFSSL_CBIO_ERR_ISR := -4.
Definition WOLFSSL_CBIO_ERR_CONN_CLOSE := -5.

(** ** Record protection *)

Definition AES_GCM_AUTH_SZ := 16.
Definition AEAD_NONCE_SZ : nat := 12.
Definition SEQ_SZ : nat := 8.
Definition MAX_TLS13_PLAIN_SZ := 2 ^ 14 + 1.
Definition MAX_TLS13_ENC_SZ := 2 ^ 14 + 256.
Definition wolfssl_cipher_null := 0.
Definition wolfssl_aes_gcm := 7.
Definition wolfssl_aes_ccm := 8.
Definition wolfssl_chacha := 9.
