(* ===== verification/DtlsEpoch.v ===== *)
(** * DTLS 1.3 epochs (src/boot/src/dtls13.c, SetKeysSide of src/boot/src/keys.c)

    The four-slot epoch table, the current encrypt and decrypt epochs (pointers
    into the table, here indices), the working key material and the cipher
    contexts provisioned from it.  The library calls that set a cipher object up
    are one parameter, [set_key]: the allocation of the object, wc_AesInit and
    wc_AesSetKey or wc_AesGcmSetKey; it takes the key and returns the code of the
    first that fails. *)

From stdpp Require Import relations.
From S2P Require Import Prelude Misc DtlsDefs.

(** ** Data *)

(** The key material fields shared by [Keys] and [Dtls13Epoch]. *)
Record KeyMaterial := {
  client_write_key : list Z; server_write_key : list Z;
  client_write_IV : list Z; server_write_IV : list Z;
  aead_enc_imp_IV : list Z; aead_dec_imp_IV : list Z;
  client_sn_key : list Z; server_sn_key : list Z }.

Record Dtls13Epoch := {
  epochNumber : Z; nextSeqNumber : Z; nextPeerSeqNumber : Z; dropCount : Z;
  window : list Z; ekeys : KeyMaterial; isValid : bool; eside : Z }.

Definition zero_keys : KeyMaterial := Build_KeyMaterial [] [] [] [] [] [] [] [].

(** XMEMSET(e, 0, sizeof *e). *)
Definition epoch_zero : Dtls13Epoch :=
  Build_Dtls13Epoch 0 0 0 0 (replicate WOLFSSL_DTLS_WINDOW_WORDS 0) zero_keys false 0.

(** What the library's cipher objects of one direction are keyed with: the
    record cipher (ssl->encrypt / ssl->decrypt) and the record number cipher
    (ssl->dtlsRecordNumberEncrypt / Decrypt). *)
Record Cipher := { c_key : option (list Z); c_sn : option (list Z) }.

Record conn := Conn {
  side : Z; handShakeDone : bool;
  keys : KeyMaterial;
  curEpoch64 : Z; curSeq : Z;
  epochs : list Dtls13Epoch;
  encryptEpoch : option nat; decryptEpoch : option nat;
  dtls13Epoch : Z; dtls13PeerEpoch : Z;
  enc_ctx : Cipher; dec_ctx : Cipher }.

Definition set_keys k s := Conn (side s) (handShakeDone s) k (curEpoch64 s) (curSeq s)
  (epochs s) (encryptEpoch s) (decryptEpoch s) (dtls13Epoch s) (dtls13PeerEpoch s)
  (enc_ctx s) (dec_ctx s).
Definition set_epochs es s := Conn (side s) (handShakeDone s) (keys s) (curEpoch64 s) (curSeq s)
  es (encryptEpoch s) (decryptEpoch s) (dtls13Epoch s) (dtls13PeerEpoch s)
  (enc_ctx s) (dec_ctx s).
Definition set_ptrs e d s := Conn (side s) (handShakeDone s) (keys s) (curEpoch64 s) (curSeq s)
  (epochs s) e d (dtls13Epoch s) (dtls13PeerEpoch s) (enc_ctx s) (dec_ctx s).
Definition set_dtls13Epoch n s := Conn (side s) (handShakeDone s) (keys s) (curEpoch64 s)
  (curSeq s) (epochs s) (encryptEpoch s) (decryptEpoch s) n (dtls13PeerEpoch s)
  (enc_ctx s) (dec_ctx s).
Definition set_ctxs ec dc s := Conn (side s) (handShakeDone s) (keys s) (curEpoch64 s)
  (curSeq s) (epochs s) (encryptEpoch s) (decryptEpoch s) (dtls13Epoch s) (dtls13PeerEpoch s)
  ec dc.
Definition set_cur n q s := Conn (side s) (handShakeDone s) (keys s) n q
  (epochs s) (encryptEpoch s) (decryptEpoch s) (dtls13Epoch s) (dtls13PeerEpoch s)
  (enc_ctx s) (dec_ctx s).

Definition e_set_seq q e := Build_Dtls13Epoch (epochNumber e) q (nextPeerSeqNumber e)
  (dropCount e) (window e) (ekeys e) (isValid e) (eside e).
Definition e_set_peer q w e := Build_Dtls13Epoch (epochNumber e) (nextSeqNumber e) q
  (dropCount e) w (ekeys e) (isValid e) (eside e).
Definition e_set_drop c e := Build_Dtls13Epoch (epochNumber e) (nextSeqNumber e)
  (nextPeerSeqNumber e) c (window e) (ekeys e) (isValid e) (eside e).
Definition e_set_keys k e := Build_Dtls13Epoch (epochNumber e) (nextSeqNumber e)
  (nextPeerSeqNumber e) (dropCount e) (window e) k (isValid e) (eside e).
Definition e_set_side sd e := Build_Dtls13Epoch (epochNumber e) (nextSeqNumber e)
  (nextPeerSeqNumber e) (dropCount e) (window e) (ekeys e) (isValid e) sd.
Definition e_init n sd e := Build_Dtls13Epoch n (nextSeqNumber e)
  (nextPeerSeqNumber e) (dropCount e) (window e) (ekeys e) true sd.

(** Slot [i] of the table. *)
Definition slot (s : conn) (i : nat) : Dtls13Epoch := nth i (epochs s) epoch_zero.
Definition set_slot (i : nat) (e : Dtls13Epoch) (s : conn) : conn :=
  set_epochs (<[i := e]> (epochs s)) s.

(** The epoch a pointer designates. *)
Definition deref (s : conn) (p : option nat) : option Dtls13Epoch :=
  match p with Some i => Some (slot s i) | None => None end.

(** ** Lookup *)

Fixpoint GetEpoch_loop (es : list Dtls13Epoch) (i : nat) (n : Z) : option nat :=
  match es with
  | [] => None
  | e :: es' => if w64Equal (epochNumber e) n && isValid e then Some i
                else GetEpoch_loop es' (S i) n
  end.

Definition Dtls13GetEpoch (s : conn) (n : Z) : option nat := GetEpoch_loop (epochs s) 0 n.

Definition Dtls13SetOlderEpochSide (n sd : Z) (s : conn) : conn :=
  set_epochs (map (fun e => if isValid e && w64LT (epochNumber e) n
                            then e_set_side (u8 sd) e else e) (epochs s)) s.

(** ** Key copies

    [side_flags] is the switch that opens [Dtls13EpochCopyKeys] and
    [Dtls13SetEpochKeys]: which write keys and which directions are copied. *)
Definition side_flags (own sd : Z) : bool * bool * bool * bool :=
  if sd =? ENCRYPT_SIDE_ONLY then
    (own =? WOLFSSL_CLIENT_END, own =? WOLFSSL_SERVER_END, true, false)
  else if sd =? DECRYPT_SIDE_ONLY then
    (own =? WOLFSSL_SERVER_END, own =? WOLFSSL_CLIENT_END, false, true)
  else if sd =? ENCRYPT_AND_DECRYPT_SIDE then (true, true, true, true)
  else (false, false, false, false).

(** The XMEMCPY calls of both functions, from [src] to [dst]. *)
Definition copy_keys (flags : bool * bool * bool * bool) (dst src : KeyMaterial)
    : KeyMaterial :=
  let '(clientWrite, serverWrite, enc, dec) := flags in
  {| client_write_key := if clientWrite then client_write_key src else client_write_key dst;
     server_write_key := if serverWrite then server_write_key src else server_write_key dst;
     client_write_IV := if clientWrite then client_write_IV src else client_write_IV dst;
     server_write_IV := if serverWrite then server_write_IV src else server_write_IV dst;
     aead_enc_imp_IV := if enc then aead_enc_imp_IV src else aead_enc_imp_IV dst;
     aead_dec_imp_IV := if dec then aead_dec_imp_IV src else aead_dec_imp_IV dst;
     client_sn_key := if clientWrite then client_sn_key src else client_sn_key dst;
     server_sn_key := if serverWrite then server_sn_key src else server_sn_key dst |}.

Definition Dtls13EpochCopyKeys (own sd : Z) (k : KeyMaterial) (e : Dtls13Epoch)
    : Dtls13Epoch :=
  e_set_keys (copy_keys (side_flags own sd) (ekeys e) k) e.

(** ** Sequence numbers *)

(** The result is the code and [seq[0], seq[1]]. *)
Definition Dtls13GetSeq (order : Z) (increment : bool) (s : conn) : Z * (Z * Z) * conn :=
  if order =? PEER_ORDER then
    (0, (w64GetHigh32 (curSeq s), w64GetLow32 (curSeq s)), s)
  else if order =? CUR_ORDER then
    match encryptEpoch s with
    | None => (BAD_STATE_E, (0, 0), s)
    | Some i =>
        let q := nextSeqNumber (slot s i) in
        let out := (w64GetHigh32 q, w64GetLow32 q) in
        if increment then
          let q' := w64Increment q in
          let s' := set_slot i (e_set_seq q' (slot s i)) s in
          if w64IsZero q' then (BAD_STATE_E, out, s') else (0, out, s')
        else (0, out, s)
    end
  else (BAD_FUNC_ARG, (0, 0), s).

(** ** Slot allocation *)

(** The loop's state is [oldest]; [oldestNumber] stays at 2^64 - 1. *)
Fixpoint NewEpochSlot_loop (s : conn) (es : list Dtls13Epoch) (i : nat) (oldest : option nat)
    : (bool * option nat) :=
  match es with
  | [] => (false, oldest)
  | e :: es' =>
      if negb (isValid e) then (true, Some i)
      else
        let oldestNumber := w64From32 (u32 (-1)) (u32 (-1)) in
        let oldest :=
          if negb (w64Equal (epochNumber e) (dtls13Epoch s))
             && negb (w64Equal (epochNumber e) (dtls13PeerEpoch s))
             && w64LT (epochNumber e) oldestNumber then Some i else oldest in
        NewEpochSlot_loop s es' (S i) oldest
  end.

Definition Dtls13NewEpochSlot (s : conn) : option nat * conn :=
  match NewEpochSlot_loop s (epochs s) 0 None with
  | (true, Some i) => (Some i, s)
  | (_, None) => (None, s)
  | (_, Some i) => (Some i, set_slot i epoch_zero s)
  end.

(** A fresh slot is initialised; an epoch known for the other direction
    becomes bidirectional (lines 2308-2317). *)
Definition fill_epoch (n sd : Z) (e : Dtls13Epoch) : Dtls13Epoch :=
  if negb (isValid e) then e_init n (u8 sd) e
  else if negb (eside e =? sd) then e_set_side ENCRYPT_AND_DECRYPT_SIDE e
  else e.

(** After the handshake a new decryption epoch retires all but the previous
    one (lines 2319-2325). *)
Definition retire_older (n : Z) (e : Dtls13Epoch) (s : conn) : conn :=
  if handShakeDone s && ((eside e =? ENCRYPT_AND_DECRYPT_SIDE)
                         || (eside e =? DECRYPT_SIDE_ONLY))
  then Dtls13SetOlderEpochSide (w64Decrement n) ENCRYPT_SIDE_ONLY s
  else s.

Definition Dtls13NewEpoch (n sd : Z) (s : conn) : Z * conn :=
  let '(p, s) := match Dtls13GetEpoch s n with
                 | Some i => (Some i, s)
                 | None => Dtls13NewEpochSlot s
                 end in
  match p with
  | None => (BAD_STATE_E, s)
  | Some i =>
      let e := fill_epoch n sd (Dtls13EpochCopyKeys (side s) sd (keys s) (slot s i)) in
      (0, retire_older n e (set_slot i e s))
  end.

(** ** Switching to an epoch's keys *)

Section Provision.
(** The library's key setup (wc_AesSetKey, wc_AesGcmSetKey): 0 or an error
    code; [key_size] is [ssl->specs.key_size], the cipher AES-GCM. *)
Context (set_key : list Z -> Z) (key_size : nat).

Definition AEAD_MAX_IMP_SZ : nat := 12.

Definition keyed (k : list Z) : option (list Z) :=
  if set_key (take key_size k) =? 0 then Some (take key_size k) else None.

Definition Dtls13InitAesCipher (k : list Z) (c : Cipher) : Z * Cipher :=
  (set_key (take key_size k), {| c_key := c_key c; c_sn := keyed k |}).

Definition Dtls13SetRecordNumberKeys (sd : Z) (s : conn) : Z * conn :=
  let enc := (sd =? ENCRYPT_SIDE_ONLY) || (sd =? ENCRYPT_AND_DECRYPT_SIDE) in
  let dec := (sd =? DECRYPT_SIDE_ONLY) || (sd =? ENCRYPT_AND_DECRYPT_SIDE) in
  let client := side s =? WOLFSSL_CLIENT_END in
  let encKey := if client then client_sn_key (keys s) else server_sn_key (keys s) in
  let decKey := if client then server_sn_key (keys s) else client_sn_key (keys s) in
  let '(ret, ec) := if enc then Dtls13InitAesCipher encKey (enc_ctx s) else (0, enc_ctx s) in
  let s := set_ctxs ec (dec_ctx s) s in
  if negb (ret =? 0) then (ret, s)
  else
    let '(ret, dc) := if dec then Dtls13InitAesCipher decKey (dec_ctx s) else (0, dec_ctx s) in
    (ret, set_ctxs (enc_ctx s) dc s).

Definition set_imp_IVs (e d : list Z) (k : KeyMaterial) : KeyMaterial :=
  {| client_write_key := client_write_key k; server_write_key := server_write_key k;
     client_write_IV := client_write_IV k; server_write_IV := server_write_IV k;
     aead_enc_imp_IV := e; aead_dec_imp_IV := d;
     client_sn_key := client_sn_key k; server_sn_key := server_sn_key k |}.

(** The AES-GCM part of [SetKeys]: the contexts are cleared, then keyed, and
    each direction's implicit IV is the write IV of that direction. *)
Definition SetKeys (enc dec : bool) (s : conn) : Z * conn :=
  let client := side s =? WOLFSSL_CLIENT_END in
  let clear (b : bool) c := if b then {| c_key := None; c_sn := c_sn c |} else c in
  let s := set_ctxs (clear enc (enc_ctx s)) (clear dec (dec_ctx s)) s in
  let k := keys s in
  let ek := if client then client_write_key k else server_write_key k in
  let eiv := if client then client_write_IV k else server_write_IV k in
  let dk := if client then server_write_key k else client_write_key k in
  let div := if client then server_write_IV k else client_write_IV k in
  let '(ret, s) :=
    if enc then
      let s1 := set_ctxs {| c_key := keyed ek; c_sn := c_sn (enc_ctx s) |} (dec_ctx s) s in
      let ret := set_key (take key_size ek) in
      if ret =? 0
      then (0, set_keys (set_imp_IVs (take AEAD_MAX_IMP_SZ eiv) (aead_dec_imp_IV k) k) s1)
      else (ret, s1)
    else (0, s) in
  if negb (ret =? 0) then (ret, s)
  else if dec then
    let s1 := set_ctxs (enc_ctx s) {| c_key := keyed dk; c_sn := c_sn (dec_ctx s) |} s in
    let ret := set_key (take key_size dk) in
    if ret =? 0
    then (0, set_keys (set_imp_IVs (aead_enc_imp_IV (keys s)) (take AEAD_MAX_IMP_SZ div)
                         (keys s)) s1)
    else (ret, s1)
  else (0, s).

Definition SetKeysSide (sd : Z) (s : conn) : Z * conn :=
  let enc := (sd =? ENCRYPT_SIDE_ONLY) || (sd =? ENCRYPT_AND_DECRYPT_SIDE) in
  let dec := (sd =? DECRYPT_SIDE_ONLY) || (sd =? ENCRYPT_AND_DECRYPT_SIDE) in
  if negb enc && negb dec then (BAD_FUNC_ARG, s)
  else let '(ret, s) := SetKeys enc dec s in
       if ret =? 0 then Dtls13SetRecordNumberKeys sd s else (ret, s).

Definition Dtls13SetEpochKeys (n sd : Z) (s : conn) : Z * conn :=
  let '(clientWrite, serverWrite, enc, dec) := side_flags (side s) sd in
  match Dtls13GetEpoch s n with
  | None => (BAD_STATE_E, s)
  | Some i =>
      let e := slot s i in
      if negb (eside e =? ENCRYPT_AND_DECRYPT_SIDE) && negb (eside e =? sd)
      then (BAD_STATE_E, s)
      else
        let s := set_ptrs (if enc then Some i else encryptEpoch s)
                          (if dec then Some i else decryptEpoch s) s in
        if w64IsZero n then (0, s)
        else
          let s := set_keys (copy_keys (clientWrite, serverWrite, enc, dec) (keys s)
                               (ekeys e)) s in
          SetKeysSide sd s
  end.

(** ** Key updates *)

(** [derive] is [DeriveTls13Keys(ssl, update_traffic_key, ENCRYPT_SIDE_ONLY, 1)]. *)
Definition Dtls13KeyUpdateAckReceived (derive : conn -> Z * conn) (s : conn) : Z * conn :=
  let '(ret, s) := derive s in
  if negb (ret =? 0) then (ret, s)
  else
    let n := w64Increment (dtls13Epoch s) in
    let s := set_dtls13Epoch n s in
    if w64IsZero n then (BAD_STATE_E, s)
    else Dtls13SetEpochKeys n ENCRYPT_SIDE_ONLY s.
End Provision.

(** ** Epoch bits *)

Definition Dtls13GetEpochBits (n : Z) : Z := Z.land (w64GetLow32 n) EE_MASK.

Fixpoint ReconstructEpoch_loop (es : list Dtls13Epoch) (bits : Z) (found : bool) (best : Z)
    : bool * Z :=
  match es with
  | [] => (found, best)
  | e :: es' =>
      if negb (isValid e) then ReconstructEpoch_loop es' bits found best
      else if negb (Dtls13GetEpochBits (epochNumber e) =? bits)
      then ReconstructEpoch_loop es' bits found best
      else if w64GT (epochNumber e) best
      then ReconstructEpoch_loop es' bits true (epochNumber e)
      else ReconstructEpoch_loop es' bits found best
  end.

Definition Dtls13ReconstructEpochNumber (bits : Z) (s : conn) : Z * Z :=
  if Dtls13GetEpochBits (dtls13PeerEpoch s) =? bits then (0, dtls13PeerEpoch s)
  else
    let '(found, best) := ReconstructEpoch_loop (epochs s) bits false 0 in
    if found then (0, best) else (SEQUENCE_ERROR, 0).

(** The state [InitSSL] sets up (internal.c): epoch 0 valid in slot 0. *)
Definition InitSSL_epochs (own : Z) : conn :=
  Conn own false zero_keys 0 0
    (<[0%nat := e_init 0 ENCRYPT_AND_DECRYPT_SIDE epoch_zero]>
       (replicate DTLS13_EPOCH_SIZE epoch_zero))
    (Some 0%nat) (Some 0%nat) 0 0 {| c_key := None; c_sn := None |}
    {| c_key := None; c_sn := None |}.

(** ** Table lemmas *)

Definition valid_at (s : conn) (i : nat) (n : Z) : Prop :=
  (i < length (epochs s))%nat /\ isValid (slot s i) = true /\ epochNumber (slot s i) = n.

Lemma slot_set_slot s i j e : (i < length (epochs s))%nat ->
  slot (set_slot i e s) j = if decide (i = j) then e else slot s j.
Proof.
  intros Hi. unfold slot, set_slot, set_epochs. cbn [epochs].
  destruct (decide (i = j)) as [<-|N].
  - apply nth_lookup_Some. apply list_lookup_insert_eq. done.
  - rewrite !nth_lookup, list_lookup_insert_ne by done. done.
Qed.

Lemma length_set_slot s i e : length (epochs (set_slot i e s)) = length (epochs s).
Proof. apply length_insert. Qed.

Lemma GetEpoch_loop_spec es i n k :
  GetEpoch_loop es i n = Some k ->
  exists j e, k = (i + j)%nat /\ es !! j = Some e /\ isValid e = true /\ epochNumber e = n.
Proof.
  revert i. induction es as [|e es IH]; intros i H; [done|]. cbn [GetEpoch_loop] in H.
  destruct (w64Equal (epochNumber e) n && isValid e) eqn:E.
  - injection H as <-. apply andb_true_iff in E as [E1 E2]. unfold w64Equal in E1.
    exists 0%nat, e. split_and!; [lia|done|done|lia].
  - destruct (IH _ H) as (j & e' & -> & L & V). exists (S j), e'. split_and!; [lia|done|apply V..].
Qed.

Lemma GetEpoch_loop_none es i n :
  GetEpoch_loop es i n = None ->
  forall j e, es !! j = Some e -> isValid e = true -> epochNumber e <> n.
Proof.
  revert i. induction es as [|e es IH]; intros i H j e' L V; [done|]. cbn [GetEpoch_loop] in H.
  destruct (w64Equal (epochNumber e) n && isValid e) eqn:E; [done|].
  destruct j as [|j]; [|apply (IH _ H j); done].
  injection L as <-. intros N. unfold w64Equal in E. rewrite V, N, Z.eqb_refl in E. done.
Qed.

Lemma slot_lookup s i e : epochs s !! i = Some e -> slot s i = e.
Proof. apply nth_lookup_Some. Qed.

Lemma lookup_slot s i : (i < length (epochs s))%nat -> epochs s !! i = Some (slot s i).
Proof.
  intros H. unfold slot. rewrite nth_lookup.
  destruct (lookup_lt_is_Some_2 _ _ H) as [e ->]. done.
Qed.

Lemma GetEpoch_sound s n i : Dtls13GetEpoch s n = Some i -> valid_at s i n.
Proof.
  intros H. apply GetEpoch_loop_spec in H as (j & e & -> & L & V & N).
  cbn. apply slot_lookup in L as E. split_and!; rewrite ?E; try done.
  apply lookup_lt_Some in L. done.
Qed.

Lemma GetEpoch_none s n : Dtls13GetEpoch s n = None -> forall i, ~ valid_at s i n.
Proof.
  intros H i (L & V & N).
  apply (GetEpoch_loop_none _ _ _ H i (slot s i)); [apply lookup_slot; done|done|done].
Qed.

(** ** The table invariant *)

Definition ptr_ok (s : conn) (p : option nat) : Prop :=
  match p with
  | Some i => (i < length (epochs s))%nat /\ isValid (slot s i) = true
  | None => True
  end.

Record epochs_wf (s : conn) : Prop := {
  ew_len : length (epochs s) = DTLS13_EPOCH_SIZE;
  ew_unique : forall i j n, valid_at s i n -> valid_at s j n -> i = j;
  ew_seq : forall i, is_u64 (nextSeqNumber (slot s i));
  ew_num : forall i, is_u64 (epochNumber (slot s i));
  ew_enc : ptr_ok s (encryptEpoch s);
  ew_dec : ptr_ok s (decryptEpoch s) }.

Lemma GetEpoch_complete s n i : epochs_wf s -> valid_at s i n -> Dtls13GetEpoch s n = Some i.
Proof.
  intros W V. destruct (Dtls13GetEpoch s n) as [j|] eqn:E.
  - f_equal. apply GetEpoch_sound in E. apply (ew_unique s W j i n); done.
  - exfalso. apply (GetEpoch_none _ _ E i V).
Qed.

(** Replacing a slot by an epoch with the same number and validity keeps the
    table; so does replacing it by a valid epoch with a number no slot has. *)
Lemma set_slot_wf s i e :
  epochs_wf s -> (i < length (epochs s))%nat ->
  is_u64 (nextSeqNumber e) -> is_u64 (epochNumber e) -> isValid e = true ->
  (isValid (slot s i) = true /\ epochNumber e = epochNumber (slot s i)
   \/ forall j, ~ valid_at s j (epochNumber e)) ->
  epochs_wf (set_slot i e s).
Proof.
  intros [L U Q N E D] Hi Hq Hn Hv Hu.
  constructor; try (intros j); rewrite ?length_set_slot; try done.
  - intros k n (A1 & A2 & A3) (B1 & B2 & B3). rewrite length_set_slot in A1, B1.
    rewrite slot_set_slot in A2, A3, B2, B3 by done.
    destruct (decide (i = j)) as [<-|Nj], (decide (i = k)) as [<-|Nk]; try done.
    + exfalso. destruct Hu as [[V X]|X]; [|apply (X k); rewrite A3; done].
      apply Nk, (U i k n); [|done]. split_and!; congruence.
    + exfalso. destruct Hu as [[V X]|X]; [|apply (X j); rewrite B3; done].
      apply Nj. symmetry. apply (U j i n); [done|]. split_and!; congruence.
    + apply (U j k n); done.
  - rewrite slot_set_slot by done. destruct (decide (i = j)); done.
  - rewrite slot_set_slot by done. destruct (decide (i = j)); done.
  - unfold ptr_ok in *. cbn [encryptEpoch set_slot set_epochs].
    destruct (encryptEpoch s) as [j|]; [|done]. rewrite length_set_slot, slot_set_slot by done.
    destruct (decide (i = j)); [|done]. split; [lia|done].
  - unfold ptr_ok in *. cbn [decryptEpoch set_slot set_epochs].
    destruct (decryptEpoch s) as [j|]; [|done]. rewrite length_set_slot, slot_set_slot by done.
    destruct (decide (i = j)); [|done]. split; [lia|done].
Qed.

(** The invariant only reads the table and the pointers. *)
Lemma epochs_wf_ext s s' :
  epochs s' = epochs s -> ptr_ok s (encryptEpoch s') -> ptr_ok s (decryptEpoch s') ->
  epochs_wf s -> epochs_wf s'.
Proof.
  intros E Pe Pd [L U Q N _ _]. unfold ptr_ok, valid_at, slot in *.
  constructor; unfold ptr_ok, valid_at, slot in *; rewrite E; done.
Qed.

Lemma older_side_slot n sd s i :
  slot (Dtls13SetOlderEpochSide n sd s) i =
    if isValid (slot s i) && w64LT (epochNumber (slot s i)) n
    then e_set_side (u8 sd) (slot s i) else slot s i.
Proof.
  unfold slot, Dtls13SetOlderEpochSide, set_epochs. cbn [epochs].
  set (f := fun e => if isValid e && w64LT (epochNumber e) n then e_set_side (u8 sd) e else e).
  change epoch_zero with (f epoch_zero) at 1. apply (map_nth f).
Qed.

Lemma older_side_wf n sd s : epochs_wf s -> epochs_wf (Dtls13SetOlderEpochSide n sd s).
Proof.
  intros [L U Q N E D].
  assert (length (epochs (Dtls13SetOlderEpochSide n sd s)) = length (epochs s)) as Ln
    by apply length_map.
  assert (forall i, isValid (slot (Dtls13SetOlderEpochSide n sd s) i) = isValid (slot s i)
    /\ epochNumber (slot (Dtls13SetOlderEpochSide n sd s) i) = epochNumber (slot s i)
    /\ nextSeqNumber (slot (Dtls13SetOlderEpochSide n sd s) i) = nextSeqNumber (slot s i)) as S.
  { intros i. rewrite older_side_slot. destruct (_ && _); done. }
  constructor.
  - rewrite Ln. done.
  - intros i j m (A1 & A2 & A3) (B1 & B2 & B3). rewrite Ln in *.
    destruct (S i) as (Si1 & Si2 & _), (S j) as (Sj1 & Sj2 & _).
    apply (U i j m); split_and!; congruence.
  - intros i. destruct (S i) as (_ & _ & ->). done.
  - intros i. destruct (S i) as (_ & -> & _). done.
  - unfold ptr_ok in *.
    change (encryptEpoch (Dtls13SetOlderEpochSide n sd s)) with (encryptEpoch s).
    destruct (encryptEpoch s) as [i|]; [|done]. rewrite Ln. destruct (S i) as (-> & _). done.
  - unfold ptr_ok in *.
    change (decryptEpoch (Dtls13SetOlderEpochSide n sd s)) with (decryptEpoch s).
    destruct (decryptEpoch s) as [i|]; [|done]. rewrite Ln. destruct (S i) as (-> & _). done.
Qed.

(** ** Slot allocation *)

(** A slot [Dtls13NewEpochSlot] may evict. *)
Definition evictable (s : conn) (e : Dtls13Epoch) : bool :=
  negb (w64Equal (epochNumber e) (dtls13Epoch s))
  && negb (w64Equal (epochNumber e) (dtls13PeerEpoch s))
  && w64LT (epochNumber e) (w64From32 (u32 (-1)) (u32 (-1))).

Lemma NewEpochSlot_loop_free s es i o k :
  NewEpochSlot_loop s es i o = (true, Some k) ->
  exists j e, k = (i + j)%nat /\ es !! j = Some e /\ isValid e = false.
Proof.
  revert i o. induction es as [|e es IH]; intros i o H; [done|].
  cbn [NewEpochSlot_loop] in H. destruct (isValid e) eqn:V; cbn [negb] in H.
  - destruct (IH _ _ H) as (j & e' & -> & L & I). exists (S j), e'. split_and!; [lia|done..].
  - injection H as <-. exists 0%nat, e. split_and!; [lia|done..].
Qed.

Lemma NewEpochSlot_loop_true s es i o p :
  NewEpochSlot_loop s es i o = (true, p) -> exists k, p = Some k.
Proof.
  revert i o. induction es as [|e es IH]; intros i o H; [done|].
  cbn [NewEpochSlot_loop] in H. destruct (isValid e); cbn [negb] in H; [eauto|].
  injection H as <-. eauto.
Qed.

(** Without a free slot the loop ends with the last evictable one. *)
Lemma NewEpochSlot_loop_evict s es i o p :
  NewEpochSlot_loop s es i o = (false, p) ->
  Forall (fun e => isValid e = true) es
  /\ (p = o /\ Forall (fun e => evictable s e = false) es
      \/ exists j e, p = Some (i + j)%nat /\ es !! j = Some e /\ evictable s e = true
         /\ Forall (fun e => evictable s e = false) (drop (S j) es)).
Proof.
  revert i o. induction es as [|e es IH]; intros i o H.
  - injection H as <-. split; [constructor|]. left. split; [done|constructor].
  - cbn [NewEpochSlot_loop] in H. destruct (isValid e) eqn:V; cbn [negb] in H; [|done].
    fold (evictable s e) in H. destruct (IH _ _ H) as [A B].
    split; [constructor; done|].
    destruct B as [[-> F]|(j & e' & -> & L & Ev & F)].
    + destruct (evictable s e) eqn:Ee.
      * right. exists 0%nat, e. split_and!; [f_equal; lia|done|done|]. exact F.
      * left. split; [done|constructor; done].
    + right. exists (S j), e'. split_and!; [f_equal; lia|done..].
Qed.

Lemma evictable_false s e : is_u64 (epochNumber e) -> evictable s e = false ->
  epochNumber e = dtls13Epoch s \/ epochNumber e = dtls13PeerEpoch s
  \/ epochNumber e = 2 ^ 64 - 1.
Proof.
  intros Hn. unfold evictable, w64Equal, w64LT.
  change (w64From32 (u32 (-1)) (u32 (-1))) with (2 ^ 64 - 1).
  destruct (Z.eqb_spec (epochNumber e) (dtls13Epoch s)); [by left|].
  destruct (Z.eqb_spec (epochNumber e) (dtls13PeerEpoch s)); [by right; left|].
  cbn [negb andb]. intros H%Z.ltb_ge. right; right. unfold in_word in Hn. lia.
Qed.

(** Four valid epochs with distinct numbers: one can be evicted. *)
Lemma some_evictable s : epochs_wf s ->
  Forall (fun e => isValid e = true) (epochs s) ->
  Forall (fun e => evictable s e = false) (epochs s) -> False.
Proof.
  intros W V E. pose proof (ew_len s W) as L. unfold DTLS13_EPOCH_SIZE in L.
  assert (forall i, (i < 4)%nat -> isValid (slot s i) = true
    /\ (epochNumber (slot s i) = dtls13Epoch s \/ epochNumber (slot s i) = dtls13PeerEpoch s
        \/ epochNumber (slot s i) = 2 ^ 64 - 1)) as H.
  { intros i Hi. pose proof (lookup_slot s i ltac:(lia)) as Li.
    pose proof (Forall_lookup_1 _ _ _ _ V Li). pose proof (Forall_lookup_1 _ _ _ _ E Li).
    split; [done|]. apply evictable_false; [apply W|done]. }
  assert (forall i j, (i < 4)%nat -> (j < 4)%nat -> i <> j ->
    epochNumber (slot s i) <> epochNumber (slot s j)) as D.
  { intros i j Hi Hj N X. apply N, (ew_unique s W i j (epochNumber (slot s i)));
      split_and!; try lia; apply H; lia. }
  pose proof (D 0 1 ltac:(lia) ltac:(lia) ltac:(lia))%nat.
  pose proof (D 0 2 ltac:(lia) ltac:(lia) ltac:(lia))%nat.
  pose proof (D 0 3 ltac:(lia) ltac:(lia) ltac:(lia))%nat.
  pose proof (D 1 2 ltac:(lia) ltac:(lia) ltac:(lia))%nat.
  pose proof (D 1 3 ltac:(lia) ltac:(lia) ltac:(lia))%nat.
  pose proof (D 2 3 ltac:(lia) ltac:(lia) ltac:(lia))%nat.
  destruct (H 0%nat ltac:(lia)) as [_ ?], (H 1%nat ltac:(lia)) as [_ ?],
    (H 2%nat ltac:(lia)) as [_ ?], (H 3%nat ltac:(lia)) as [_ ?]. lia.
Qed.

(** Every call gets a slot: a free one if there is one, else the last
    evictable one, cleared. *)
Lemma NewEpochSlot_spec s : epochs_wf s ->
  exists i, (i < DTLS13_EPOCH_SIZE)%nat
    /\ (isValid (slot s i) = false /\ Dtls13NewEpochSlot s = (Some i, s)
        \/ Forall (fun e => isValid e = true) (epochs s) /\ evictable s (slot s i) = true
           /\ Forall (fun e => evictable s e = false) (drop (S i) (epochs s))
           /\ Dtls13NewEpochSlot s = (Some i, set_slot i epoch_zero s)).
Proof.
  intros W. unfold Dtls13NewEpochSlot. pose proof (ew_len s W) as L.
  destruct (NewEpochSlot_loop s (epochs s) 0 None) as [[] p] eqn:E.
  - destruct (NewEpochSlot_loop_true _ _ _ _ _ E) as [k ->].
    apply NewEpochSlot_loop_free in E as (j & e & -> & Lk & V). cbn [Nat.add].
    exists j. split; [rewrite <- L; apply lookup_lt_Some in Lk; done|].
    apply slot_lookup in Lk. left. rewrite Lk. done.
  - apply NewEpochSlot_loop_evict in E as [A [[-> F]|(j & e & -> & Lk & Ev & F)]].
    + exfalso. apply (some_evictable s W); done.
    + cbn [Nat.add]. exists j. split; [rewrite <- L; apply lookup_lt_Some in Lk; done|].
      apply slot_lookup in Lk. right. rewrite Lk. done.
Qed.

(** Slots are equal up to their allowed direction. *)
Definition same_epoch (e e' : Dtls13Epoch) : Prop :=
  epochNumber e' = epochNumber e /\ nextSeqNumber e' = nextSeqNumber e
  /\ nextPeerSeqNumber e' = nextPeerSeqNumber e /\ window e' = window e
  /\ dropCount e' = dropCount e /\ ekeys e' = ekeys e /\ isValid e' = isValid e.

Lemma same_epoch_refl e : same_epoch e e.
Proof. repeat split. Qed.

Lemma older_side_same n sd s i : same_epoch (slot s i) (slot (Dtls13SetOlderEpochSide n sd s) i).
Proof. rewrite older_side_slot. destruct (_ && _); repeat split. Qed.

Definition is_side (sd : Z) : Prop :=
  sd = ENCRYPT_SIDE_ONLY \/ sd = DECRYPT_SIDE_ONLY \/ sd = ENCRYPT_AND_DECRYPT_SIDE.

(** The slot [Dtls13NewEpoch] works on, before the keys are copied. *)
Lemma NewEpoch_slot s n : epochs_wf s -> exists i s1,
  (i < DTLS13_EPOCH_SIZE)%nat
  /\ match Dtls13GetEpoch s n with Some i => (Some i, s) | None => Dtls13NewEpochSlot s end
     = (Some i, s1)
  /\ (s1 = s \/ s1 = set_slot i epoch_zero s)
  /\ (valid_at s i n /\ s1 = s
      \/ (forall j, ~ valid_at s j n) /\ isValid (slot s1 i) = false
         /\ (isValid (slot s i) = true -> evictable s (slot s i) = true)).
Proof.
  intros W. pose proof (ew_len s W) as L. destruct (Dtls13GetEpoch s n) as [i|] eqn:G.
  - apply GetEpoch_sound in G as V. exists i, s. split_and!; [|done|by left|by left].
    destruct V as [V _]. lia.
  - pose proof (GetEpoch_none s n G) as N.
    destruct (NewEpochSlot_spec s W) as (i & Hi & [[V E]|(A & Ev & _ & E)]); rewrite E.
    + exists i, s. split_and!; [done|done|by left|]. right. rewrite V. done.
    + exists i, (set_slot i epoch_zero s). split_and!; [done|done|by right|].
      right. rewrite slot_set_slot, decide_True by (done || lia). done.
Qed.

Lemma fill_epoch_spec n sd e : is_side sd -> (isValid e = true -> epochNumber e = n) ->
  let e' := fill_epoch n sd e in
  epochNumber e' = n /\ isValid e' = true /\ nextSeqNumber e' = nextSeqNumber e
  /\ ekeys e' = ekeys e /\ (eside e' = sd \/ eside e' = ENCRYPT_AND_DECRYPT_SIDE).
Proof.
  intros Hsd Hn. unfold fill_epoch.
  assert (u8 sd = sd) as U8 by (destruct Hsd as [->|[->| ->]]; done).
  destruct (isValid e) eqn:V; cbn [negb].
  - destruct (Z.eqb_spec (eside e) sd); cbn [negb]; split_and!; auto.
  - cbn. rewrite U8. split_and!; auto.
Qed.

Lemma retire_older_spec n e s :
  let s' := retire_older n e s in
  (epochs_wf s -> epochs_wf s') /\ (forall i, same_epoch (slot s i) (slot s' i))
  /\ (forall i, is_u64 n -> 0 < n -> epochNumber (slot s i) = n ->
        eside (slot s' i) = eside (slot s i))
  /\ side s' = side s /\ keys s' = keys s /\ dtls13Epoch s' = dtls13Epoch s
  /\ dtls13PeerEpoch s' = dtls13PeerEpoch s /\ encryptEpoch s' = encryptEpoch s
  /\ decryptEpoch s' = decryptEpoch s.
Proof.
  cbv zeta. unfold retire_older. destruct (_ && _).
  - split_and!; try done.
    + apply older_side_wf.
    + apply older_side_same.
    + intros i Hn Hp E. rewrite older_side_slot, E. unfold w64LT, w64Decrement.
      unfold in_word in Hn. rewrite wrap_small by (unfold in_word; lia).
      destruct (Z.ltb_spec n (n - 1)); [lia|]. rewrite andb_false_r. done.
  - split_and!; done.
Qed.

Lemma NewEpoch_result s n sd : epochs_wf s -> is_u64 n -> is_side sd ->
  exists i e0 s',
    (i < DTLS13_EPOCH_SIZE)%nat
    /\ Dtls13NewEpoch n sd s = (0, s')
    /\ epochs_wf s'
    /\ (valid_at s i n /\ e0 = slot s i
        \/ (forall j, ~ valid_at s j n) /\ isValid e0 = false
           /\ (isValid (slot s i) = true -> evictable s (slot s i) = true)
           /\ (e0 = slot s i \/ e0 = epoch_zero))
    /\ epochNumber (slot s' i) = n /\ isValid (slot s' i) = true
    /\ nextSeqNumber (slot s' i) = nextSeqNumber e0
    /\ ekeys (slot s' i) = copy_keys (side_flags (side s) sd) (ekeys e0) (keys s)
    /\ (forall j, j <> i -> same_epoch (slot s j) (slot s' j))
    /\ side s' = side s /\ keys s' = keys s /\ dtls13Epoch s' = dtls13Epoch s
    /\ dtls13PeerEpoch s' = dtls13PeerEpoch s /\ encryptEpoch s' = encryptEpoch s
    /\ decryptEpoch s' = decryptEpoch s
    /\ (0 < n -> eside (slot s' i) = sd \/ eside (slot s' i) = ENCRYPT_AND_DECRYPT_SIDE).
Proof.
  intros W Hn Hsd. destruct (NewEpoch_slot s n W) as (i & s1 & Hi & E & Es1 & C).
  assert (Hi' : (i < length (epochs s))%nat) by (rewrite (ew_len s W); done).
  exists i, (slot s1 i). unfold Dtls13NewEpoch. rewrite E.
  assert (side s1 = side s /\ keys s1 = keys s) as (-> & ->)
    by (destruct Es1 as [-> | ->]; done).
  set (e := fill_epoch _ _ _).
  destruct (fill_epoch_spec n sd (Dtls13EpochCopyKeys (side s) sd (keys s) (slot s1 i)) Hsd)
    as (F1 & F2 & F3 & F4 & F5).
  { destruct C as [[(_ & V & N) ->]|(_ & V & _)]; cbn; [done|rewrite V; done]. }
  fold e in F1, F2, F3, F4, F5.
  cbn [Dtls13EpochCopyKeys e_set_keys nextSeqNumber ekeys] in F3, F4.
  assert (set_slot i e s1 = set_slot i e s) as ->.
  { destruct Es1 as [-> | ->]; [done|]. unfold set_slot, set_epochs. cbn. f_equal.
    apply list_insert_insert_eq. }
  assert (is_u64 (nextSeqNumber (slot s1 i))) as Hq.
  { destruct Es1 as [-> | ->]; [apply W|]. rewrite slot_set_slot, decide_True by done.
    cbn. unfold in_word. lia. }
  assert (epochs_wf (set_slot i e s)) as W1.
  { apply set_slot_wf; try done; rewrite ?F3, ?F1; try done.
    destruct C as [[(_ & V & N) _]|(N & _)]; [left; done|right; done]. }
  destruct (retire_older_spec n e (set_slot i e s)) as (R1 & R2 & R3 & R4 & R5 & R6 & R7 & R8 & R9).
  set (s' := retire_older n e (set_slot i e s)) in *. exists s'.
  assert (slot (set_slot i e s) i = e) as Si
    by (rewrite slot_set_slot, decide_True by done; done).
  pose proof (R2 i) as Ri. rewrite Si in Ri. destruct Ri as (G1 & G2 & _ & _ & _ & G6 & G7).
  split_and!; try done; try congruence; auto.
  - destruct C as [[V ->]|(N & V & Ev)]; [left; done|right]. split_and!; [done..|].
    destruct Es1 as [-> | ->]; [by left|right]. rewrite slot_set_slot, decide_True by done. done.
  - intros j Nj. specialize (R2 j). rewrite slot_set_slot, decide_False in R2 by congruence || done.
    exact R2.
  - intros Hp. rewrite R3, Si by (rewrite ?Si; done). exact F5.
Qed.

(** ** Key installation *)

(** The write key, write IV and record number key of the end [own]. *)
Definition write_key (own : Z) (k : KeyMaterial) : list Z :=
  if own =? WOLFSSL_CLIENT_END then client_write_key k else server_write_key k.
Definition write_IV (own : Z) (k : KeyMaterial) : list Z :=
  if own =? WOLFSSL_CLIENT_END then client_write_IV k else server_write_IV k.
Definition sn_key (own : Z) (k : KeyMaterial) : list Z :=
  if own =? WOLFSSL_CLIENT_END then client_sn_key k else server_sn_key k.

Definition is_end (own : Z) : Prop := own = WOLFSSL_CLIENT_END \/ own = WOLFSSL_SERVER_END.

(** The other end. *)
Definition peer_end (own : Z) : Z := 1 - own.

(** Direction [d]'s cipher objects are keyed for the writer [w] from [k]. *)
Definition provisioned (key_size : nat) (w : Z) (k : KeyMaterial) (c : Cipher) (iv : list Z)
    : Prop :=
  c_key c = Some (take key_size (write_key w k))
  /\ c_sn c = Some (take key_size (sn_key w k))
  /\ iv = take AEAD_MAX_IMP_SZ (write_IV w k).

Section KeyInstall.
Context (set_key : list Z -> Z) (key_size : nat).
Hypothesis set_key_ok : forall k, set_key k = 0.

Lemma keyed_ok k : keyed set_key key_size k = Some (take key_size k).
Proof. unfold keyed. rewrite set_key_ok. done. Qed.

(** [SetKeysSide] keys exactly the directions it is asked for. *)
Lemma SetKeysSide_ok sd s : is_side sd -> is_end (side s) ->
  exists s', SetKeysSide set_key key_size sd s = (0, s')
    /\ (sd <> DECRYPT_SIDE_ONLY ->
        provisioned key_size (side s) (keys s) (enc_ctx s') (aead_enc_imp_IV (keys s')))
    /\ (sd <> ENCRYPT_SIDE_ONLY ->
        provisioned key_size (peer_end (side s)) (keys s) (dec_ctx s')
          (aead_dec_imp_IV (keys s')))
    /\ epochs s' = epochs s /\ encryptEpoch s' = encryptEpoch s
    /\ decryptEpoch s' = decryptEpoch s /\ side s' = side s.
Proof.
  intros Hsd He.
  exists (snd (SetKeysSide set_key key_size sd s)).
  destruct Hsd as [->|[->| ->]], He as [E|E];
    unfold SetKeysSide, SetKeys, Dtls13SetRecordNumberKeys, Dtls13InitAesCipher, provisioned,
      peer_end, write_key, write_IV, sn_key; rewrite E; cbn;
    rewrite ?set_key_ok, ?E; cbn; rewrite ?keyed_ok, ?set_key_ok, ?E; cbn;
    rewrite ?set_key_ok, ?keyed_ok, ?E; cbn; (split; [reflexivity|]); cbn;
    rewrite ?keyed_ok; split_and!; try done.
Qed.

Lemma side_flags_dirs own sd : is_side sd -> is_end own ->
  exists cw sw, side_flags own sd = (cw, sw, negb (sd =? DECRYPT_SIDE_ONLY),
                                     negb (sd =? ENCRYPT_SIDE_ONLY)).
Proof. intros [->|[->| ->]] [->| ->]; eexists _, _; reflexivity. Qed.

(** Copying for a direction and copying back preserves that direction's keys. *)
Lemma copy_keys_dir own sd k old : is_side sd -> is_end own ->
  let k' := copy_keys (side_flags own sd) old k in
  (sd <> DECRYPT_SIDE_ONLY -> write_key own k' = write_key own k
     /\ write_IV own k' = write_IV own k /\ sn_key own k' = sn_key own k)
  /\ (sd <> ENCRYPT_SIDE_ONLY -> write_key (peer_end own) k' = write_key (peer_end own) k
     /\ write_IV (peer_end own) k' = write_IV (peer_end own) k
     /\ sn_key (peer_end own) k' = sn_key (peer_end own) k).
Proof. intros [->|[->| ->]] [->| ->]; split; intros H; try done. Qed.

Lemma SetEpochKeys_ok n sd s i :
  epochs_wf s -> is_side sd -> is_end (side s) -> 0 < n -> valid_at s i n ->
  eside (slot s i) = sd \/ eside (slot s i) = ENCRYPT_AND_DECRYPT_SIDE ->
  exists s', Dtls13SetEpochKeys set_key key_size n sd s = (0, s')
    /\ (sd <> DECRYPT_SIDE_ONLY -> encryptEpoch s' = Some i
        /\ provisioned key_size (side s) (ekeys (slot s i)) (enc_ctx s')
             (aead_enc_imp_IV (keys s')))
    /\ (sd <> ENCRYPT_SIDE_ONLY -> decryptEpoch s' = Some i
        /\ provisioned key_size (peer_end (side s)) (ekeys (slot s i)) (dec_ctx s')
             (aead_dec_imp_IV (keys s')))
    /\ epochs s' = epochs s.
Proof.
  intros W Hsd He Hn V Hs. unfold Dtls13SetEpochKeys.
  rewrite (GetEpoch_complete s n i W V).
  destruct (side_flags_dirs (side s) sd Hsd He) as (cw & sw & F).
  destruct (copy_keys_dir (side s) sd (ekeys (slot s i)) (keys s) Hsd He) as [C1 C2].
  rewrite F in *.
  assert (negb (eside (slot s i) =? ENCRYPT_AND_DECRYPT_SIDE) && negb (eside (slot s i) =? sd)
          = false) as -> by (destruct Hs as [->| ->]; rewrite Z.eqb_refl, ?andb_false_r; done).
  unfold w64IsZero. destruct (Z.eqb_spec n 0); [lia|].
  match goal with |- context [SetKeysSide _ _ sd ?x] => set (s1 := x) end.
  destruct (SetKeysSide_ok sd s1 Hsd He) as (s' & E & Pe & Pd & Ep & Ee & Ed & _).
  exists s'. split; [exact E|]. unfold provisioned in *.
  change (keys s1) with (copy_keys (cw, sw, negb (sd =? DECRYPT_SIDE_ONLY),
                                    negb (sd =? ENCRYPT_SIDE_ONLY)) (keys s) (ekeys (slot s i))) in *.
  change (side s1) with (side s) in *.
  split_and!.
  - intros N. destruct (C1 N) as (K1 & K2 & K3). rewrite <- K1, <- K2, <- K3.
    split; [|apply Pe; done]. rewrite Ee. cbn.
    destruct (Z.eqb_spec sd DECRYPT_SIDE_ONLY); done.
  - intros N. destruct (C2 N) as (K1 & K2 & K3). rewrite <- K1, <- K2, <- K3.
    split; [|apply Pd; done]. rewrite Ed. cbn.
    destruct (Z.eqb_spec sd ENCRYPT_SIDE_ONLY); done.
  - rewrite Ep. done.
Qed.

(** C27: Keys saved for an epoch are the keys installed for it: after
    [Dtls13NewEpoch] (which always finds a slot) and whatever later happens to
    the working keys, [Dtls13SetEpochKeys] succeeds, designates that epoch and
    keys the record cipher, the record number cipher and the implicit IV of
    each requested direction from the key material saved for that direction. *)
Theorem epoch_keys_roundtrip n sd s k' :
  epochs_wf s -> is_side sd -> is_end (side s) -> is_u64 n -> 0 < n ->
  let '(r1, s1) := Dtls13NewEpoch n sd s in
  let '(r2, s2) := Dtls13SetEpochKeys set_key key_size n sd (set_keys k' s1) in
  r1 = 0 /\ r2 = 0
  /\ (sd <> DECRYPT_SIDE_ONLY ->
      (exists i, encryptEpoch s2 = Some i /\ valid_at s2 i n)
      /\ provisioned key_size (side s) (keys s) (enc_ctx s2) (aead_enc_imp_IV (keys s2)))
  /\ (sd <> ENCRYPT_SIDE_ONLY ->
      (exists i, decryptEpoch s2 = Some i /\ valid_at s2 i n)
      /\ provisioned key_size (peer_end (side s)) (keys s) (dec_ctx s2)
           (aead_dec_imp_IV (keys s2))).
Proof.
  intros W Hsd He Hu Hn.
  destruct (NewEpoch_result s n sd W Hu Hsd) as (i & e0 & s1 & Hi & -> & W1 & _ & N1 & V1 & _ & K1
    & _ & Sd1 & _ & _ & _ & _ & _ & Es1).
  assert (epochs_wf (set_keys k' s1)) as W1' by (apply (epochs_wf_ext s1); [done|apply W1..|done]).
  assert (valid_at (set_keys k' s1) i n) as V by (split_and!; [rewrite (ew_len _ W1'); done|done|done]).
  destruct (SetEpochKeys_ok n sd (set_keys k' s1) i W1' Hsd) as (s2 & -> & Pe & Pd & Ep);
    [cbn; rewrite Sd1; done|done|done|exact (Es1 Hn)|].
  change (slot (set_keys k' s1) i) with (slot s1 i) in *.
  change (side (set_keys k' s1)) with (side s1) in *.
  rewrite Sd1 in *. unfold provisioned in *. rewrite K1 in *.
  destruct (copy_keys_dir (side s) sd (keys s) (ekeys e0) Hsd He) as [C1 C2].
  assert (valid_at s2 i n) as V2.
  { unfold valid_at, slot in *. rewrite Ep. done. }
  split; [done|]. split; [done|]. split.
  - intros N. destruct (C1 N) as (Q1 & Q2 & Q3). rewrite <- Q1, <- Q2, <- Q3.
    destruct (Pe N) as [P1 P2]. split; [exists i; done|exact P2].
  - intros N. destruct (C2 N) as (Q1 & Q2 & Q3). rewrite <- Q1, <- Q2, <- Q3.
    destruct (Pd N) as [P1 P2]. split; [exists i; done|exact P2].
Qed.
End KeyInstall.

Lemma InitSSL_epochs_slots own i : slot (InitSSL_epochs own) (S i) = epoch_zero.
Proof. do 3 (destruct i as [|i]; [done|]). destruct i; done. Qed.

(** [InitSSL] establishes the table invariant. *)
Lemma InitSSL_epochs_wf own : epochs_wf (InitSSL_epochs own).
Proof.
  pose proof (InitSSL_epochs_slots own) as Z. constructor; try done.
  - intros i j n (_ & V & _) (_ & V' & _). destruct i, j; rewrite ?Z in *; done.
  - intros i. destruct i; rewrite ?Z; cbn; unfold in_word; lia.
  - intros i. destruct i; rewrite ?Z; cbn; unfold in_word; lia.
  - cbn. split; [lia|done].
  - cbn. split; [lia|done].
Qed.

(** ** Sequence numbers are never reused *)

Lemma SetKeysSide_frame set_key key_size sd s :
  let s' := snd (SetKeysSide set_key key_size sd s) in
  epochs s' = epochs s /\ encryptEpoch s' = encryptEpoch s
  /\ decryptEpoch s' = decryptEpoch s.
Proof.
  unfold SetKeysSide, SetKeys, Dtls13SetRecordNumberKeys, Dtls13InitAesCipher.
  destruct (sd =? ENCRYPT_SIDE_ONLY), (sd =? DECRYPT_SIDE_ONLY),
    (sd =? ENCRYPT_AND_DECRYPT_SIDE); cbn [orb negb andb]; try done; cbv zeta;
  repeat (match goal with |- context [if ?b then _ else _] => destruct b end;
          cbn [negb fst snd epochs encryptEpoch decryptEpoch set_ctxs set_keys]);
  done.
Qed.

(** [Dtls13SetEpochKeys] never touches the table; the pointers it sets
    designate the valid slot of the epoch asked for. *)
Lemma SetEpochKeys_frame set_key key_size n sd s :
  let s' := snd (Dtls13SetEpochKeys set_key key_size n sd s) in
  epochs s' = epochs s
  /\ (encryptEpoch s' = encryptEpoch s \/ exists i, encryptEpoch s' = Some i /\ valid_at s i n)
  /\ (decryptEpoch s' = decryptEpoch s \/ exists i, decryptEpoch s' = Some i /\ valid_at s i n).
Proof.
  unfold Dtls13SetEpochKeys. destruct (side_flags (side s) sd) as [[[cw sw] enc] dec].
  destruct (Dtls13GetEpoch s n) as [i|] eqn:G; [|cbn; auto].
  apply GetEpoch_sound in G. destruct (_ && _); [cbn; auto|].
  match goal with |- context [set_ptrs ?e ?d s] => set (s1 := set_ptrs e d s) end.
  assert (epochs s1 = epochs s
    /\ (encryptEpoch s1 = encryptEpoch s \/ exists i, encryptEpoch s1 = Some i /\ valid_at s i n)
    /\ (decryptEpoch s1 = decryptEpoch s \/ exists i, decryptEpoch s1 = Some i /\ valid_at s i n))
    as (A & B & C).
  { cbn. destruct enc, dec; split_and!; eauto. }
  destruct (w64IsZero n); [split_and!; done|].
  match goal with |- context [SetKeysSide _ _ sd ?x] =>
    destruct (SetKeysSide_frame set_key key_size sd x) as (E1 & E2 & E3) end.
  cbv zeta. rewrite E1, E2, E3. split_and!; done.
Qed.

Lemma SetEpochKeys_wf set_key key_size n sd s :
  epochs_wf s -> epochs_wf (snd (Dtls13SetEpochKeys set_key key_size n sd s)).
Proof.
  intros W. destruct (SetEpochKeys_frame set_key key_size n sd s) as (E & P & D).
  apply (epochs_wf_ext s); try done.
  - destruct P as [->|(i & -> & V & V' & _)]; [apply W|split; done].
  - destruct D as [->|(i & -> & V & V' & _)]; [apply W|split; done].
Qed.

Lemma GetSeq_spec s i : epochs_wf s -> encryptEpoch s = Some i ->
  let q := nextSeqNumber (slot s i) in
  exists hi lo, hi * 2 ^ 32 + lo = q
    /\ Dtls13GetSeq CUR_ORDER true s =
         (if q =? 2 ^ 64 - 1 then BAD_STATE_E else 0, (hi, lo),
          set_slot i (e_set_seq (u64 (q + 1)) (slot s i)) s).
Proof.
  intros W E q. pose proof (ew_seq s W i) as Hq. fold q in Hq.
  exists (w64GetHigh32 q), (w64GetLow32 q). split.
  { unfold w64GetHigh32, w64GetLow32. rewrite Z.shiftr_div_pow2 by lia. lia_mod. }
  unfold Dtls13GetSeq. change (CUR_ORDER =? PEER_ORDER) with false.
  change (CUR_ORDER =? CUR_ORDER) with true. rewrite E. fold q.
  unfold w64IsZero, w64Increment.
  destruct (Z.eqb_spec q (2 ^ 64 - 1)) as [->|N]; [done|].
  unfold in_word in Hq. rewrite wrap_small by (unfold in_word; lia).
  destruct (Z.eqb_spec (q + 1) 0); [lia|done].
Qed.

Lemma GetSeq_wf s i q : epochs_wf s -> encryptEpoch s = Some i ->
  epochs_wf (set_slot i (e_set_seq (u64 q) (slot s i)) s).
Proof.
  intros W E. pose proof (ew_enc s W) as P. rewrite E in P. destruct P as [L V].
  apply set_slot_wf; try done; [apply wrap_range; lia|apply W|left; done].
Qed.

(** The sequence numbers taken in epoch [n], of the (epoch, number) pairs taken. *)
Definition numbers (n : Z) (used : list (Z * Z)) : list Z :=
  omap (fun p => if fst p =? n then Some (snd p) else None) used.

(** Every 64-bit number was taken in epoch [n]. *)
Definition exhausted (n : Z) (used : list (Z * Z)) : Prop :=
  forall q, is_u64 q -> q ∈ numbers n used.

(** One action of the connection on its epochs: taking the next sequence
    number for a record, switching keys, adding an epoch that is in the table or
    in which no number was taken, or changing anything but the table and the
    pointers.  [used] collects the (epoch, sequence number) pairs taken,
    whatever code [Dtls13GetSeq] returns with them: [WriteSEQTls13] (tls13.c)
    ignores it and seals the record with the number it got. *)
Inductive epoch_step (set_key : list Z -> Z) (key_size : nat)
  : conn * list (Z * Z) -> conn * list (Z * Z) -> Prop :=
| estep_seq s s' used i rc hi lo :
    encryptEpoch s = Some i -> Dtls13GetSeq CUR_ORDER true s = (rc, (hi, lo), s') ->
    epoch_step set_key key_size (s, used)
      (s', (epochNumber (slot s i), hi * 2 ^ 32 + lo) :: used)
| estep_set s used n sd :
    epoch_step set_key key_size (s, used)
      (snd (Dtls13SetEpochKeys set_key key_size n sd s), used)
| estep_new s used n sd :
    is_u64 n -> is_side sd -> (exists i, valid_at s i n) \/ numbers n used = [] ->
    epoch_step set_key key_size (s, used) (snd (Dtls13NewEpoch n sd s), used)
| estep_other s s' used :
    epochs s' = epochs s -> encryptEpoch s' = encryptEpoch s ->
    decryptEpoch s' = decryptEpoch s -> epoch_step set_key key_size (s, used) (s', used).

Lemma numbers_cons n m q used :
  numbers n ((m, q) :: used) = if m =? n then q :: numbers n used else numbers n used.
Proof. unfold numbers. cbn. destruct (m =? n); done. Qed.

Lemma exhausted_cons n m q used : exhausted n used -> exhausted n ((m, q) :: used).
Proof.
  intros H x Hx. rewrite numbers_cons. specialize (H x Hx).
  destruct (m =? n); [apply elem_of_cons; by right|done].
Qed.

(** Until an epoch is exhausted the numbers taken in it are distinct, and while
    it is in the table they are those below its counter. *)
Definition numbers_ok (s : conn) (used : list (Z * Z)) (n : Z) : Prop :=
  exhausted n used
  \/ NoDup (numbers n used)
     /\ forall i, valid_at s i n ->
          forall q, q ∈ numbers n used <-> 0 <= q < nextSeqNumber (slot s i).

Definition nonces_ok (c : conn * list (Z * Z)) : Prop :=
  epochs_wf (fst c)
  /\ (forall i, isValid (slot (fst c) i) = false -> nextSeqNumber (slot (fst c) i) = 0)
  /\ forall n, numbers_ok (fst c) (snd c) n.

(** Only the table matters. *)
Lemma numbers_ok_ext s s' used n :
  epochs s' = epochs s -> numbers_ok s used n -> numbers_ok s' used n.
Proof. intros E. unfold numbers_ok, valid_at, slot. rewrite E. done. Qed.

Lemma nonces_ok_ext s s' used :
  epochs s' = epochs s -> epochs_wf s' -> nonces_ok (s, used) -> nonces_ok (s', used).
Proof.
  intros E W (_ & F & H). cbn [fst snd] in *. split; [done|]. cbn [fst snd]. split.
  - intros i. specialize (F i). unfold slot in *. rewrite E. done.
  - intros n. apply (numbers_ok_ext s); [done|apply H].
Qed.

(** Taking the counter's value: the last one exhausts the epoch. *)
Lemma numbers_ok_take s used i n :
  epochs_wf s -> encryptEpoch s = Some i -> numbers_ok s used n ->
  let q := nextSeqNumber (slot s i) in
  numbers_ok (set_slot i (e_set_seq (u64 (q + 1)) (slot s i)) s)
    ((epochNumber (slot s i), q) :: used) n.
Proof.
  intros W E H q. pose proof (ew_enc s W) as P. rewrite E in P. destruct P as [Li Vi].
  pose proof (ew_seq s W i) as Hq. fold q in Hq. unfold in_word in Hq.
  destruct H as [H|[N B]]; [left; apply exhausted_cons; done|]. unfold numbers_ok.
  rewrite numbers_cons. destruct (Z.eqb_spec (epochNumber (slot s i)) n) as [En|En].
  - assert (valid_at s i n) as V by (split_and!; done). specialize (B i V). fold q in B.
    destruct (Z.eq_dec q (2 ^ 64 - 1)) as [Eq|Nq]; [left|right].
    + intros x Hx. unfold in_word in Hx. rewrite numbers_cons, En, Z.eqb_refl, elem_of_cons, B. lia.
    + rewrite wrap_small by (unfold in_word; lia). split.
      * constructor; [rewrite B; lia|done].
      * intros j (Lj & Vj & Ej) x. rewrite length_set_slot in Lj.
        rewrite slot_set_slot in Vj, Ej |- * by done. destruct (decide (i = j)) as [|Nj].
        -- cbn [e_set_seq nextSeqNumber]. rewrite elem_of_cons, B. lia.
        -- destruct Nj. apply (ew_unique s W i j n); [done|split_and!; done].
  - right. split; [done|]. intros j (Lj & Vj & Ej) x. rewrite length_set_slot in Lj.
    rewrite slot_set_slot in Vj, Ej |- * by done. destruct (decide (i = j)) as [|Nj]; [done|].
    apply B. split_and!; done.
Qed.

Lemma nonces_ok_take s s' used i rc hi lo :
  nonces_ok (s, used) -> encryptEpoch s = Some i ->
  Dtls13GetSeq CUR_ORDER true s = (rc, (hi, lo), s') ->
  nonces_ok (s', (epochNumber (slot s i), hi * 2 ^ 32 + lo) :: used).
Proof.
  intros (W & F & H) E G. cbn [fst snd] in *.
  destruct (GetSeq_spec s i W E) as (hi' & lo' & Q & G'). rewrite G in G'.
  injection G' as _ <- <- ->. rewrite Q.
  pose proof (ew_enc s W) as P. rewrite E in P. destruct P as [Li Vi].
  split; [apply GetSeq_wf; done|]. cbn [fst snd]. split.
  - intros j. rewrite slot_set_slot by done. destruct (decide (i = j)) as [<-|]; [|apply F].
    cbn. congruence.
  - intros n. apply numbers_ok_take; done.
Qed.

(** A new epoch starts at number 0: its slot was free or is cleared. *)
Lemma nonces_ok_new s used n sd :
  nonces_ok (s, used) -> is_u64 n -> is_side sd ->
  (exists i, valid_at s i n) \/ numbers n used = [] ->
  nonces_ok (snd (Dtls13NewEpoch n sd s), used).
Proof.
  intros (W & F & H) Hn Hsd Fr. cbn [fst snd] in *.
  destruct (NewEpoch_result s n sd W Hn Hsd) as (i & e0 & s' & Hi & -> & W' & C & N1 & V1 & Q1
    & _ & O & _). cbn [snd].
  assert (L : length (epochs s') = length (epochs s)) by (rewrite !ew_len; done).
  split; [done|]. cbn [fst snd]. split.
  - intros j Vj. destruct (decide (j = i)) as [->|Nj]; [congruence|].
    destruct (O j Nj) as (_ & X2 & _ & _ & _ & _ & X7). rewrite X2. apply F. congruence.
  - intros m. destruct (H m) as [Ex|[N B]]; [by left|right]. split; [done|].
    intros j (Lj & Vj & Ej) q. rewrite L in Lj. destruct (decide (j = i)) as [->|Nj].
    + rewrite Q1. assert (m = n) as -> by congruence.
      destruct C as [[V0 ->]|(NV & Z & _ & Z')]; [apply B, V0|].
      assert (nextSeqNumber e0 = 0) as -> by (destruct Z' as [-> | ->]; [apply F, Z|done]).
      destruct Fr as [[k V0]|Fr]; [destruct (NV k V0)|]. rewrite Fr, elem_of_nil. lia.
    + destruct (O j Nj) as (X1 & X2 & _ & _ & _ & _ & X7). rewrite X2.
      apply B. split_and!; congruence.
Qed.

Lemma epoch_step_nonces set_key key_size c c' :
  nonces_ok c -> epoch_step set_key key_size c c' -> nonces_ok c'.
Proof.
  intros I St. destruct St as [s s' used i rc hi lo E G|s used n sd|s used n sd Hn Hsd Fr|s s' used E1 E2 E3].
  - eapply nonces_ok_take; done.
  - destruct (SetEpochKeys_frame set_key key_size n sd s) as (E & _).
    apply (nonces_ok_ext s); [done|apply SetEpochKeys_wf, I|done].
  - apply nonces_ok_new; done.
  - destruct I as [W I]. apply (nonces_ok_ext s); [done| |done].
    apply (epochs_wf_ext s); rewrite ?E2, ?E3; [done|apply W..|done].
Qed.

(** C6: In an epoch no record sequence number is used twice before all 2^64 are
    used: over any sequence of taking numbers (whatever code [Dtls13GetSeq]
    returns: the code that seals ignores it), switching keys and creating
    epochs, the numbers taken in each epoch are distinct, or every 64-bit
    number has been taken in it, after which the counter has wrapped and the
    AEAD nonces repeat.  Epochs are created only while they are in the table
    or before a number was taken in them: an epoch that was used, evicted and
    created again would start over from 0. *)
Theorem record_numbers_unique set_key key_size own s used :
  rtc (epoch_step set_key key_size) (InitSSL_epochs own, []) (s, used) ->
  epochs_wf s /\ forall n, NoDup (numbers n used) \/ exhausted n used.
Proof.
  intros R. assert (nonces_ok (InitSSL_epochs own, [])) as I.
  { split; [apply InitSSL_epochs_wf|]. cbn [fst snd]. split.
    - intros [|i] _; rewrite ?InitSSL_epochs_slots; done.
    - intros n. right. split; [constructor|]. intros i _ q. cbn [numbers].
      destruct i; rewrite ?InitSSL_epochs_slots; cbn; rewrite elem_of_nil; lia. }
  assert (nonces_ok (s, used)) as (W & _ & N).
  { remember (s, used) as c eqn:Ec. clear Ec. revert I.
    induction R as [c|c1 c2 c3 St R IH]; intros I; [done|].
    apply IH, (epoch_step_nonces _ _ _ _ I St). }
  split; [done|]. intros n. destruct (N n) as [H|[H _]]; auto.
Qed.

(** What the wrap does: the call that takes the last number returns
    BAD_STATE_E with it and leaves the counter at 0, and the next call returns 0
    (success) with the number 0 again, in the same epoch. *)
Theorem wrapped_counter_restarts s i :
  epochs_wf s -> encryptEpoch s = Some i -> nextSeqNumber (slot s i) = 2 ^ 64 - 1 ->
  exists s1 s2,
    Dtls13GetSeq CUR_ORDER true s = (BAD_STATE_E, (2 ^ 32 - 1, 2 ^ 32 - 1), s1)
    /\ Dtls13GetSeq CUR_ORDER true s1 = (0, (0, 0), s2)
    /\ encryptEpoch s1 = Some i /\ epochNumber (slot s1 i) = epochNumber (slot s i)
    /\ ekeys (slot s1 i) = ekeys (slot s i).
Proof.
  intros W E Q. pose proof (ew_enc s W) as P. rewrite E in P. destruct P as [Li Vi].
  exists (set_slot i (e_set_seq 0 (slot s i)) s).
  assert (slot (set_slot i (e_set_seq 0 (slot s i)) s) i = e_set_seq 0 (slot s i)) as S1
    by (rewrite slot_set_slot, decide_True by done; done).
  eexists. split; [|split; [|rewrite S1; done]]; unfold Dtls13GetSeq;
    change (CUR_ORDER =? PEER_ORDER) with false; change (CUR_ORDER =? CUR_ORDER) with true;
    cbn [encryptEpoch set_slot set_epochs]; rewrite E.
  - rewrite Q. reflexivity.
  - fold (set_slot i (e_set_seq 0 (slot s i)) s). rewrite S1. reflexivity.
Qed.

(** ** Creating an epoch never loses the ones in use *)

(** C37: [Dtls13NewEpoch] always finds a slot, the table invariant is preserved, and
    the epochs the connection writes with and reads from ([dtls13Epoch] and
    [dtls13PeerEpoch]) are never evicted: their numbers, sequence numbers,
    replay windows and keys are unchanged (the keys unless it is that very
    epoch whose keys are being set). *)
Theorem new_epoch_keeps_current n sd s m i :
  epochs_wf s -> is_u64 n -> is_side sd ->
  m = dtls13Epoch s \/ m = dtls13PeerEpoch s -> valid_at s i m ->
  exists s', Dtls13NewEpoch n sd s = (0, s') /\ epochs_wf s'
    /\ (exists k, valid_at s' k n)
    /\ valid_at s' i m
    /\ nextSeqNumber (slot s' i) = nextSeqNumber (slot s i)
    /\ (m <> n -> same_epoch (slot s i) (slot s' i)).
Proof.
  intros W Hn Hsd Hm V.
  destruct (NewEpoch_result s n sd W Hn Hsd) as (k & e0 & s' & Hk & E & W' & C & N1 & V1 & Q1
    & _ & O & _).
  pose proof (ew_len s W) as L. pose proof (ew_len s' W') as L'.
  exists s'. split; [exact E|]. split; [exact W'|]. split.
  { exists k. split_and!; [lia|done|done]. }
  destruct (decide (i = k)) as [->|Nk].
  - destruct C as [[V0 ->]|(NV & _ & Ev & _)].
    + assert (m = n) as -> by (destruct V as (_ & _ & <-), V0 as (_ & _ & <-); done).
      split; [split; [rewrite L'; exact Hk|done]|]. split; [done|congruence].
    + exfalso. destruct V as (_ & V & N). specialize (Ev V).
      unfold evictable, w64Equal in Ev. rewrite N in Ev.
      destruct Hm as [->| ->]; rewrite Z.eqb_refl, ?andb_false_r in Ev; done.
  - destruct (O i Nk) as (X1 & X2 & X3 & X4 & X5 & X6 & X7). destruct V as (Li & V & N).
    split; [split; [rewrite L', <- L; exact Li|split; congruence]|]. split; [done|]. intros _. repeat split; done.
Qed.

(** The comment calls the evicted epoch the oldest; [oldestNumber] is never
    updated, so it is the last evictable slot: of the epochs 2, 3, 4, 5 with 5
    in use, epoch 4 goes and epoch 2 stays. *)
Definition table_2345 : conn :=
  set_epochs ((fun n => e_init n ENCRYPT_AND_DECRYPT_SIDE epoch_zero) <$> [2; 3; 4; 5])
    (Conn WOLFSSL_CLIENT_END true zero_keys 5 0 [] (Some 3%nat) (Some 3%nat) 5 5
       {| c_key := None; c_sn := None |} {| c_key := None; c_sn := None |}).

(** The slot [Dtls13NewEpochSlot] reuses is the last evictable one, not the one
    with the smallest epoch number: creating epoch 6 in a table holding 2, 3, 4
    and 5 deletes epoch 4 and keeps the older epochs 2 and 3. *)
Theorem new_epoch_evicts_last_not_oldest :
  epochNumber <$> epochs (snd (Dtls13NewEpoch 6 ENCRYPT_SIDE_ONLY table_2345)) = [2; 3; 6; 5].
Proof. vm_compute. reflexivity. Qed.

(** ** Reconstructing the epoch from two bits *)

Lemma epoch_bits n : is_u64 n -> Dtls13GetEpochBits n = n mod 4.
Proof.
  intros Hn. unfold Dtls13GetEpochBits, w64GetLow32, EE_MASK.
  change 3 with (Z.ones 2). rewrite Z.land_ones by lia. change (2 ^ 2) with 4.
  apply (wrap_wrap_le 2 32). lia.
Qed.

Definition bits_match (bits : Z) (e : Dtls13Epoch) : Prop :=
  isValid e = true /\ Dtls13GetEpochBits (epochNumber e) = bits.

(** The maximum the loop computes over the matching epochs of [es]. *)
Definition recon_spec (bits : Z) (es : list Dtls13Epoch) (found : bool) (best : Z)
    (found' : bool) (best' : Z) : Prop :=
  best <= best'
  /\ (forall e, e ∈ es -> bits_match bits e -> epochNumber e <= best')
  /\ (best' = best /\ found' = found
      \/ found' = true /\ exists e, e ∈ es /\ bits_match bits e /\ epochNumber e = best').

Lemma recon_skip bits e es found best found' best' :
  (bits_match bits e -> epochNumber e <= best') ->
  recon_spec bits es found best found' best' ->
  recon_spec bits (e :: es) found best found' best'.
Proof.
  intros He (A & B & C). split; [done|]. split.
  - intros x Hx Mx. apply elem_of_cons in Hx as [->|Hx]; auto.
  - destruct C as [C|(C1 & x & Hx & C2)]; [by left|right]. split; [done|].
    exists x. split; [apply elem_of_cons; by right|done].
Qed.

Lemma ReconstructEpoch_loop_spec bits es found best found' best' :
  ReconstructEpoch_loop es bits found best = (found', best') ->
  recon_spec bits es found best found' best'.
Proof.
  revert found best. induction es as [|e es IH]; intros found best H.
  - injection H as <- <-. split; [lia|].
    split; [intros e He; apply elem_of_nil in He; done|auto].
  - cbn [ReconstructEpoch_loop] in H. unfold w64GT in H.
    destruct (isValid e) eqn:V; cbn [negb] in H;
      [|apply recon_skip; [intros [Mx _]; congruence|auto]].
    destruct (Z.eqb_spec (Dtls13GetEpochBits (epochNumber e)) bits) as [Eb|Eb]; cbn [negb] in H;
      [|apply recon_skip; [intros [_ Mx]; congruence|auto]].
    destruct (Z.ltb_spec best (epochNumber e)) as [Lt|Ge].
    + destruct (IH _ _ H) as (A & B & C). split; [lia|]. split.
      * intros x Hx Mx. apply elem_of_cons in Hx as [->|Hx]; [lia|apply B; done].
      * right. destruct C as [[C1 C2]|(C1 & x & Hx & C2)]; (split; [done|]).
        -- exists e. split; [apply elem_of_cons; by left|done].
        -- exists x. split; [apply elem_of_cons; by right|done].
    + specialize (IH _ _ H). apply recon_skip; [|done]. destruct IH as [A _]. lia.
Qed.

(** [Dtls13ReconstructEpochNumber] finds the epoch two header bits stand for: the
    current peer epoch if its bits match, else the largest valid epoch of the
    table with those bits; it fails with SEQUENCE_ERROR exactly when neither
    the peer epoch nor any valid nonzero epoch has them. *)
Theorem reconstruct_epoch_correct s bits :
  epochs_wf s -> is_u64 (dtls13PeerEpoch s) ->
  let '(rc, m) := Dtls13ReconstructEpochNumber bits s in
  (rc = 0 \/ rc = SEQUENCE_ERROR)
  /\ (rc = 0 -> m mod 4 = bits /\
        (m = dtls13PeerEpoch s
         \/ dtls13PeerEpoch s mod 4 <> bits /\ (exists i, valid_at s i m)
            /\ forall k i, valid_at s i k -> k mod 4 = bits -> k <= m))
  /\ (rc = SEQUENCE_ERROR -> dtls13PeerEpoch s mod 4 <> bits
        /\ forall k i, valid_at s i k -> k mod 4 = bits -> k = 0).
Proof.
  intros W Hp. unfold Dtls13ReconstructEpochNumber. rewrite epoch_bits by done.
  destruct (Z.eqb_spec (dtls13PeerEpoch s mod 4) bits) as [E|E]; [split; [by left|]; split; [auto|done]|].
  destruct (ReconstructEpoch_loop (epochs s) bits false 0) as [found best] eqn:R.
  apply ReconstructEpoch_loop_spec in R as (A & B & C).
  assert (forall k i, valid_at s i k -> k mod 4 = bits -> k <= best) as Max.
  { intros k i (L & V & N) M. rewrite <- N. apply B.
    - apply list_elem_of_lookup. exists i. apply lookup_slot. done.
    - split; [done|]. rewrite epoch_bits by apply W. rewrite N. done. }
  destruct C as [[-> ->]|(-> & e & He & (Ve & Me) & Ne)].
  - split; [by right|]. split; [done|]. intros _. split; [done|].
    intros k i V M. pose proof (Max k i V M). destruct V as (_ & _ & <-).
    pose proof (ew_num s W i) as Hk. unfold in_word in Hk. lia.
  - apply list_elem_of_lookup in He as [i Hi]. pose proof (slot_lookup s i e Hi) as Si.
    split; [by left|]. split; [|done]. intros _. split.
    + rewrite <- Ne, <- Me, epoch_bits; [done|]. rewrite <- Si. apply W.
    + right. split; [done|]. split; [|exact Max]. exists i. rewrite <- Ne.
      split_and!; rewrite ?Si; try done. apply lookup_lt_Some in Hi. done.
Qed.

(** ** Witnesses *)

Definition demo_keys : KeyMaterial :=
  Build_KeyMaterial (repeat 1 16) (repeat 2 16) (repeat 3 12) (repeat 4 12) [] []
    (repeat 5 16) (repeat 6 16).
Definition demo_conn : conn := set_keys demo_keys (InitSSL_epochs WOLFSSL_CLIENT_END).

Lemma demo_conn_wf : epochs_wf demo_conn.
Proof.
  pose proof (InitSSL_epochs_wf WOLFSSL_CLIENT_END) as W.
  apply (epochs_wf_ext (InitSSL_epochs WOLFSSL_CLIENT_END)); [done|apply W..|done].
Qed.

Lemma epoch_keys_roundtrip_witness :
  provisioned 16 WOLFSSL_CLIENT_END demo_keys
    (enc_ctx (snd (Dtls13SetEpochKeys (fun _ => 0) 16 2 ENCRYPT_AND_DECRYPT_SIDE
       (set_keys zero_keys (snd (Dtls13NewEpoch 2 ENCRYPT_AND_DECRYPT_SIDE demo_conn))))))
    (repeat 3 12).
Proof.
  pose proof (epoch_keys_roundtrip (fun _ => 0) 16 ltac:(done) 2 ENCRYPT_AND_DECRYPT_SIDE
    demo_conn zero_keys demo_conn_wf ltac:(by right; right) ltac:(by left)
    ltac:(unfold in_word; lia) ltac:(lia)) as H.
  destruct (Dtls13NewEpoch 2 ENCRYPT_AND_DECRYPT_SIDE demo_conn) as [r1 s1] eqn:E1.
  cbn [snd]. destruct (Dtls13SetEpochKeys _ _ _ _ _) as [r2 s2] eqn:E2.
  destruct H as (_ & _ & H & _). destruct (H ltac:(discriminate)) as (_ & A & B & C).
  split; [exact A|]. split; [exact B|reflexivity].
Defined.

(** Two records in epoch 0, then epoch 2 is created and switched to, and one
    record is numbered in it. *)
Definition demo_used : list (Z * Z) := [(2, 0); (0, 1); (0, 0)].

Lemma demo_run : exists s,
  rtc (epoch_step (fun _ => 0) 16) (InitSSL_epochs WOLFSSL_CLIENT_END, []) (s, demo_used).
Proof.
  set (s0 := InitSSL_epochs WOLFSSL_CLIENT_END).
  set (s1 := snd (Dtls13GetSeq CUR_ORDER true s0)).
  set (s2 := snd (Dtls13GetSeq CUR_ORDER true s1)).
  set (s4 := snd (Dtls13SetEpochKeys (fun _ => 0) 16 2 ENCRYPT_SIDE_ONLY
                    (snd (Dtls13NewEpoch 2 ENCRYPT_SIDE_ONLY s2)))).
  exists (snd (Dtls13GetSeq CUR_ORDER true s4)).
  eapply rtc_l; [apply (estep_seq _ _ s0 s1 _ 0%nat 0 0 0); vm_compute; reflexivity|].
  eapply rtc_l; [apply (estep_seq _ _ s1 s2 _ 0%nat 0 0 1); vm_compute; reflexivity|].
  eapply rtc_l; [apply (estep_new _ _ _ _ 2 ENCRYPT_SIDE_ONLY);
                 [unfold in_word; lia|by left|right; vm_compute; reflexivity]|].
  eapply rtc_l; [apply (estep_set _ _ _ _ 2 ENCRYPT_SIDE_ONLY)|]. fold s4.
  replace demo_used with ((epochNumber (slot s4 1), 0 * 2 ^ 32 + 0)
    :: [(epochNumber (slot s0 0), 0 * 2 ^ 32 + 1); (epochNumber (slot s0 0), 0 * 2 ^ 32 + 0)])
    by (vm_compute; reflexivity).
  apply rtc_once, (estep_seq _ _ s4 _ _ 1%nat 0 0 0); vm_compute; reflexivity.
Qed.

Lemma demo_not_exhausted : ~ exhausted 0 demo_used.
Proof.
  intros H. specialize (H 7 ltac:(unfold in_word; lia)).
  apply elem_of_cons in H as [H|H]; [done|]. apply list_elem_of_singleton in H. done.
Qed.

Lemma record_numbers_unique_witness :
  exists s, rtc (epoch_step (fun _ => 0) 16) (InitSSL_epochs WOLFSSL_CLIENT_END, [])
              (s, demo_used)
    /\ NoDup (numbers 0 demo_used) /\ ~ exhausted 0 demo_used.
Proof.
  destruct demo_run as [s R]. exists s. split; [exact R|]. split; [|exact demo_not_exhausted].
  destruct (record_numbers_unique _ _ _ _ _ R) as [_ H]. destruct (H 0) as [H0|H0]; [exact H0|].
  destruct (demo_not_exhausted H0).
Defined.

Lemma new_epoch_keeps_current_witness :
  exists s', Dtls13NewEpoch 3 ENCRYPT_SIDE_ONLY demo_conn = (0, s') /\ valid_at s' 0 0.
Proof.
  destruct (new_epoch_keeps_current 3 ENCRYPT_SIDE_ONLY demo_conn 0 0 demo_conn_wf
    ltac:(unfold in_word; lia) ltac:(by left) ltac:(by left) ltac:(split; [cbn; lia|done]))
    as (s' & E & _ & _ & V & _).
  exists s'. split; [exact E|exact V].
Defined.

Lemma reconstruct_epoch_correct_witness :
  Dtls13ReconstructEpochNumber 2 (snd (Dtls13NewEpoch 2 ENCRYPT_SIDE_ONLY demo_conn)) = (0, 2)
  /\ 2 mod 4 = 2.
Proof.
  split; [reflexivity|].
  destruct (NewEpoch_result demo_conn 2 ENCRYPT_SIDE_ONLY demo_conn_wf
    ltac:(unfold in_word; lia) ltac:(by left)) as (i & e0 & s' & _ & E & W & _).
  pose proof (reconstruct_epoch_correct s' 2 W ltac:(replace s' with
    (snd (Dtls13NewEpoch 2 ENCRYPT_SIDE_ONLY demo_conn)) by (rewrite E; done);
    unfold in_word; cbn; lia)) as H.
  replace s' with (snd (Dtls13NewEpoch 2 ENCRYPT_SIDE_ONLY demo_conn)) in H by (rewrite E; done).
  vm_compute (Dtls13ReconstructEpochNumber _ _) in H. apply (proj1 (proj2 H) eq_refl).
Defined.
