(* ===== verification/DtlsWindow.v ===== *)
(** * Anti-replay windows (src/boot/src/internal.c)

    The bit window of DTLS 1.3 ([Dtls13CheckWindow], [Dtls13UpdateWindow]) and
    of DTLS 1.2 ([_DtlsCheckWindow], [wolfSSL_DtlsUpdateWindow]), built with
    WOLFSSL_DTLS_WINDOW_WORDS = 2 and without WOLFSSL_DTLS_DISALLOW_FUTURE
    and WOLFSSL_MULTICAST.  Bit [k] of word [j] stands for the sequence number
    [next - 1 - (32 j + k)]. *)

From stdpp Require Import relations.
From S2P Require Import Prelude Misc DtlsDefs DtlsEpoch.

(** ** Shared: moving the window forward *)

(** Lines 18748-18759, from word [i] on. *)
Fixpoint gtseq_loop (n : nat) (i idx : nat) (diff temp : Z) (oldWindow : list Z) : list Z :=
  match n with
  | O => []
  | S n' =>
      if (i <? idx)%nat then 0 :: gtseq_loop n' (S i) idx diff temp oldWindow
      else
        let old := at_ oldWindow (i - idx) in
        let temp := Z.lor temp (u32 (Z.shiftl old diff)) in
        temp :: gtseq_loop n' (S i) idx diff
                  (if 0 <? diff then Z.shiftr old (DTLS_WORD_BITS - diff) else 0) oldWindow
  end.

Definition _DtlsUpdateWindowGTSeq (diff : Z) (window : list Z) : list Z :=
  let window :=
    if (diff =? 0) || (DTLS_SEQ_BITS <=? diff)
    then replicate WOLFSSL_DTLS_WINDOW_WORDS 0
    else gtseq_loop WOLFSSL_DTLS_WINDOW_WORDS 0 (Z.to_nat (diff / DTLS_WORD_BITS))
           (diff mod DTLS_WORD_BITS) 0 window in
  <[0%nat := Z.lor (at_ window 0) 1]> window.

(** ** DTLS 1.3 *)

(** The test of [seq] against one epoch.  [sizeof] makes DTLS_WORD_BITS
    unsigned, so the division of line 18704 is the unsigned one. *)
Definition check_window (seq : Z) (e : Dtls13Epoch) : bool :=
  let nextSeq := nextPeerSeqNumber e in
  if w64GTE seq nextSeq then true
  else
    let diff64 := w64Sub nextSeq seq in
    if w64GT diff64 (w64From32 0 DTLS_SEQ_BITS) then false
    else
      let diff := u32 (w64GetLow32 diff64 - 1) in
      let wordIndex := Z.to_nat (diff / DTLS_WORD_BITS) in
      let wordOffset := diff mod DTLS_WORD_BITS in
      if negb (Z.land (at_ (window e) wordIndex) (Z.shiftl 1 wordOffset) =? 0)
      then false else true.

Definition Dtls13CheckWindow (s : conn) : bool :=
  match deref s (decryptEpoch s) with
  | None => false
  | Some e => check_window (curSeq s) e
  end.

(** The epoch record after a record with sequence number [seq]. *)
Definition update_window (seq : Z) (e : Dtls13Epoch) : Z * Dtls13Epoch :=
  let nextSeq := nextPeerSeqNumber e in
  if w64LT seq nextSeq then
    let diff64 := w64Decrement (w64Sub nextSeq seq) in
    let diff := w64GetLow32 diff64 in
    let wordIndex := Z.to_nat (diff / DTLS_WORD_BITS) in
    let wordOffset := diff mod DTLS_WORD_BITS in
    if (WOLFSSL_DTLS_WINDOW_WORDS <=? wordIndex)%nat then (BAD_STATE_E, e)
    else (0, e_set_peer nextSeq
               (<[wordIndex := Z.lor (at_ (window e) wordIndex) (Z.shiftl 1 wordOffset)]>
                  (window e)) e)
  else
    let diff64 := w64Increment (w64Sub seq nextSeq) in
    (0, e_set_peer (w64Increment seq)
          (_DtlsUpdateWindowGTSeq (w64GetLow32 diff64) (window e)) e).

Definition Dtls13UpdateWindow (s : conn) : Z * conn :=
  match decryptEpoch s with
  | None => (BAD_STATE_E, s)
  | Some d =>
      let p := if w64Equal (curEpoch64 s) (epochNumber (slot s d)) then Some d
               else Dtls13GetEpoch s (curEpoch64 s) in
      match p with
      | None => (BAD_STATE_E, s)
      | Some i => let '(rc, e) := update_window (curSeq s) (slot s i) in (rc, set_slot i e s)
      end
  end.

(** ** DTLS 1.2 *)

(** The fields of WOLFSSL_DTLS_PEERSEQ. *)
Record peerSeq := PeerSeq {
  nextEpoch : Z; nextSeq_hi : Z; nextSeq_lo : Z; ps_window : list Z;
  prevSeq_hi : Z; prevSeq_lo : Z; prevWindow : list Z }.

(** The comparison of [_DtlsCheckWindow] against one epoch's counters. *)
Definition check_window12 (cur_hi cur_lo next_hi next_lo : Z) (window : list Z) : bool :=
  if (next_hi + 1 <? cur_hi) || (cur_hi + 1 <? next_hi) then false
  else
    let '(curLT, diff) :=
      if cur_hi =? next_hi then
        (cur_lo <? next_lo,
         if cur_lo <? next_lo then u32 (next_lo - cur_lo) else u32 (cur_lo - next_lo))
      else
        (cur_hi <? next_hi,
         if cur_hi <? next_hi then u32 (cur_lo - next_lo) else u32 (next_lo - cur_lo)) in
    if (negb (next_hi =? 0) || (DTLS_SEQ_BITS <? next_lo)) && curLT && (DTLS_SEQ_BITS <? diff)
    then false
    else if curLT then
      if diff =? 0 then false
      else
        let diff := diff - 1 in
        let idx := Z.to_nat (diff / DTLS_WORD_BITS) in
        let newDiff := diff mod DTLS_WORD_BITS in
        if (WOLFSSL_DTLS_WINDOW_WORDS <=? idx)%nat then false
        else if negb (Z.land (at_ window idx) (Z.shiftl 1 newDiff) =? 0) then false
        else true
    else true.

Definition _DtlsCheckWindow (curEpoch cur_hi cur_lo : Z) (p : peerSeq) : bool :=
  if curEpoch =? nextEpoch p then
    check_window12 cur_hi cur_lo (nextSeq_hi p) (nextSeq_lo p) (ps_window p)
  else if curEpoch =? nextEpoch p - 1 then
    check_window12 cur_hi cur_lo (prevSeq_hi p) (prevSeq_lo p) (prevWindow p)
  else false.

Definition next_after (cur_hi cur_lo : Z) : Z * Z :=
  let lo := u32 (cur_lo + 1) in (if lo =? 0 then u16 (cur_hi + 1) else cur_hi, lo).

(** The result is [next_hi], [next_lo] and the window; the C function always
    returns 1. *)
Definition wolfSSL_DtlsUpdateWindow (cur_hi cur_lo next_hi next_lo : Z) (window : list Z)
    : Z * Z * list Z :=
  let reset := let '(h, l) := next_after cur_hi cur_lo in
               (h, l, _DtlsUpdateWindowGTSeq 0 window) in
  let finish (curLT : bool) (diff : Z) :=
    if curLT then
      let diff := u32 (diff - 1) in
      let idx := Z.to_nat (diff / DTLS_WORD_BITS) in
      let diff := diff mod DTLS_WORD_BITS in
      (next_hi, next_lo,
       if (idx <? WOLFSSL_DTLS_WINDOW_WORDS)%nat
       then <[idx := Z.lor (at_ window idx) (Z.shiftl 1 diff)]> window else window)
    else let '(h, l) := next_after cur_hi cur_lo in
         (h, l, _DtlsUpdateWindowGTSeq (u32 (diff + 1)) window) in
  if cur_hi =? next_hi then
    finish (cur_lo <? next_lo)
      (if cur_lo <? next_lo then u32 (next_lo - cur_lo) else u32 (cur_lo - next_lo))
  else if next_hi + 1 <? cur_hi then reset
  else if cur_hi + 1 <? next_hi then (next_hi, next_lo, window)
  else if cur_hi <? next_hi then
    if (next_lo <? DTLS_SEQ_BITS) && (0xFFFFFFFF - DTLS_SEQ_BITS <=? cur_lo)
    then finish true (u32 (next_lo + (0xFFFFFFFF - cur_lo) + 1))
    else (next_hi, next_lo, window)
  else
    if (0xFFFFFFFF - DTLS_SEQ_BITS <=? next_lo) && (cur_lo <? DTLS_SEQ_BITS)
    then finish false (u32 (cur_lo - next_lo))
    else reset.

Definition DtlsUpdateWindow (curEpoch cur_hi cur_lo : Z) (p : peerSeq) : peerSeq :=
  if curEpoch =? nextEpoch p then
    let '(h, l, w) := wolfSSL_DtlsUpdateWindow cur_hi cur_lo (nextSeq_hi p) (nextSeq_lo p)
                        (ps_window p) in
    PeerSeq (nextEpoch p) h l w (prevSeq_hi p) (prevSeq_lo p) (prevWindow p)
  else
    let '(h, l, w) := wolfSSL_DtlsUpdateWindow cur_hi cur_lo (prevSeq_hi p) (prevSeq_lo p)
                        (prevWindow p) in
    PeerSeq (nextEpoch p) (nextSeq_hi p) (nextSeq_lo p) (ps_window p) h l w.

(** ** The window as one 64-bit word *)

Definition window_wf (w : list Z) : Prop :=
  exists w0 w1, w = [w0; w1] /\ is_u32 w0 /\ is_u32 w1.

(** Bit [d] of the window: the sequence number [next - 1 - d] was seen. *)
Definition win_bit (w : list Z) (d : Z) : bool :=
  Z.testbit (at_ w (Z.to_nat (d / 32))) (d mod 32).

Lemma land_bit w k : 0 <= k -> negb (Z.land w (Z.shiftl 1 k) =? 0) = Z.testbit w k.
Proof.
  intros Hk. rewrite Z.shiftl_1_l.
  assert (Z.land w (2 ^ k) = if Z.testbit w k then 2 ^ k else 0) as ->.
  { bitwise i. rewrite Z.pow2_bits_eqb by lia.
    destruct (Z.testbit w k) eqn:E; rewrite ?Z.bits_0, ?Z.pow2_bits_eqb by lia;
      destruct (Z.eqb_spec k i) as [->|]; rewrite ?E, ?andb_false_r, ?andb_true_r; done. }
  destruct (Z.testbit w k); [|done].
  destruct (Z.eqb_spec (2 ^ k) 0); [pose proof (Z.pow_pos_nonneg 2 k); lia|done].
Qed.

Lemma lor_bit w k i : 0 <= k -> 0 <= i ->
  Z.testbit (Z.lor w (Z.shiftl 1 k)) i = Z.testbit w i || (i =? k).
Proof.
  intros. rewrite Z.lor_spec, Z.shiftl_1_l, Z.pow2_bits_eqb by lia.
  rewrite (Z.eqb_sym i k). done.
Qed.

Lemma lor_bit_range w k : is_u32 w -> 0 <= k < 32 -> is_u32 (Z.lor w (Z.shiftl 1 k)).
Proof.
  intros. apply lor_range; [lia|done|]. rewrite Z.shiftl_1_l. unfold in_word.
  split; [apply Z.pow_nonneg; lia|apply Z.pow_lt_mono_r; lia].
Qed.

(** Marking one distance. *)
Lemma win_bit_mark w d i : window_wf w -> 0 <= d < 64 -> 0 <= i < 64 ->
  let idx := Z.to_nat (d / 32) in
  let w' := <[idx := Z.lor (at_ w idx) (Z.shiftl 1 (d mod 32))]> w in
  window_wf w' /\ win_bit w' i = win_bit w i || (i =? d).
Proof.
  intros (w0 & w1 & -> & H0 & H1) Hd Hi. cbv zeta. unfold win_bit.
  assert (0 <= d mod 32 < 32) by lia_mod. assert (0 <= i mod 32 < 32) by lia_mod.
  assert (d / 32 = 0 \/ d / 32 = 1) as [E|E] by lia_mod;
  assert (i / 32 = 0 \/ i / 32 = 1) as [F|F] by lia_mod; rewrite E, F;
    change (Z.to_nat 0) with 0%nat; change (Z.to_nat 1) with 1%nat;
    unfold at_; cbn [nth insert list_insert];
    (split; [eexists _, _; split; [reflexivity|]; split; auto using lor_bit_range|]).
  - rewrite lor_bit by lia. f_equal. apply eq_true_iff_eq. rewrite !Z.eqb_eq. lia_mod.
  - destruct (Z.eqb_spec i d); [lia_mod|]. rewrite orb_false_r. done.
  - destruct (Z.eqb_spec i d); [lia_mod|]. rewrite orb_false_r. done.
  - rewrite lor_bit by lia. f_equal. apply eq_true_iff_eq. rewrite !Z.eqb_eq. lia_mod.
Qed.

Lemma shl_bit x d j : 0 <= d -> 0 <= j < 32 ->
  Z.testbit (u32 (Z.shiftl x d)) j = (d <=? j) && Z.testbit x (j - d).
Proof.
  intros. rewrite testbit_wrap, Z.shiftl_spec by lia.
  destruct (Z.ltb_spec j 32); [|lia]. cbn [andb].
  destruct (Z.leb_spec d j); [done|]. rewrite Z.testbit_neg_r by lia. done.
Qed.

Lemma shr_bit x d j : is_u32 x -> 0 < d < 32 -> 0 <= j ->
  Z.testbit (Z.shiftr x (32 - d)) j = (j <? d) && Z.testbit x (j - d + 32).
Proof.
  intros. rewrite Z.shiftr_spec by lia. replace (j + (32 - d)) with (j - d + 32) by lia.
  destruct (Z.ltb_spec j d); [done|]. rewrite (testbit_high 32) by (unfold in_word in *; lia).
  done.
Qed.

Lemma shl_range x d : is_u32 (u32 (Z.shiftl x d)).
Proof. apply wrap_range. lia. Qed.

Lemma shr_range x d : is_u32 x -> 0 <= d -> is_u32 (Z.shiftr x d).
Proof.
  intros Hx Hd. unfold in_word in *. rewrite Z.shiftr_div_pow2 by lia.
  pose proof (Z.pow_pos_nonneg 2 d). split; [apply Z.div_pos; lia|].
  apply Z.div_lt_upper_bound; nia.
Qed.

(** The two words after moving by [32 idx + d]. *)
Lemma gtseq_loop_words w0 w1 d : is_u32 w0 -> is_u32 w1 -> 0 <= d < 32 ->
  gtseq_loop 2 0 0 d 0 [w0; w1] =
    [u32 (Z.shiftl w0 d);
     Z.lor (if 0 <? d then Z.shiftr w0 (32 - d) else 0) (u32 (Z.shiftl w1 d))]
  /\ gtseq_loop 2 0 1 d 0 [w0; w1] = [0; u32 (Z.shiftl w0 d)].
Proof. done. Qed.

Lemma window_wf_pair w0 w1 : is_u32 w0 -> is_u32 w1 -> window_wf [w0; w1].
Proof. intros. exists w0, w1. done. Qed.

Lemma lor1_range w : is_u32 w -> is_u32 (Z.lor w 1).
Proof. intros. apply lor_range; [lia|done|unfold in_word; lia]. Qed.

Lemma win_bit_pair x0 x1 i : 0 <= i < 64 ->
  win_bit [x0; x1] i = if i <? 32 then Z.testbit x0 i else Z.testbit x1 (i - 32).
Proof.
  intros. unfold win_bit, at_. destruct (Z.ltb_spec i 32).
  - rewrite Z.div_small, Z.mod_small by lia. done.
  - replace (i / 32) with 1 by lia_mod. replace (i mod 32) with (i - 32) by lia_mod. done.
Qed.

Lemma lor1_bit x j : 0 <= j -> Z.testbit (Z.lor x 1) j = (j =? 0) || Z.testbit x j.
Proof. intros. change 1 with (Z.shiftl 1 0). rewrite lor_bit by lia. apply orb_comm. Qed.

(** Case analysis of a bit equation on its integer comparisons. *)
Ltac bit_cases :=
  repeat match goal with
  | |- context [?a <? ?b] => destruct (Z.ltb_spec a b); try lia
  | |- context [?a <=? ?b] => destruct (Z.leb_spec a b); try lia
  | |- context [?a =? ?b] => destruct (Z.eqb_spec a b); try lia
  end; cbn [andb orb negb].

(** [_DtlsUpdateWindowGTSeq] is a shift of the 64-bit window by [diff] that
    marks the new first place; 0 stands for a distance that overflowed. *)
Lemma win_bit_shift w diff i : window_wf w -> 0 <= diff -> 0 <= i < 64 ->
  window_wf (_DtlsUpdateWindowGTSeq diff w)
  /\ win_bit (_DtlsUpdateWindowGTSeq diff w) i =
       (i =? 0) || (negb (diff =? 0) && (diff <=? i) && win_bit w (i - diff)).
Proof.
  intros (w0 & w1 & -> & H0 & H1) Hd Hi. unfold _DtlsUpdateWindowGTSeq, DTLS_SEQ_BITS.
  destruct ((diff =? 0) || (64 <=? diff)) eqn:O;
    [rewrite orb_true_iff, Z.eqb_eq, Z.leb_le in O
    |rewrite orb_false_iff, Z.eqb_neq, Z.leb_gt in O].
  - change (<[0%nat := _]> _) with [1; 0].
    split; [apply window_wf_pair; unfold in_word; lia|]. rewrite win_bit_pair by lia.
    destruct (Z.eqb_spec i 0) as [->|]; [reflexivity|].
    rewrite (testbit_high 1 1), Z.bits_0 by lia. bit_cases; done.
  - assert (0 <= diff mod 32 < 32) by lia_mod. unfold DTLS_WORD_BITS.
    destruct (gtseq_loop_words w0 w1 (diff mod 32) H0 H1 ltac:(lia)) as [G0 G1].
    assert (diff / 32 = 0 \/ diff / 32 = 1) as [F|F] by lia_mod; rewrite F;
      change (Z.to_nat 0) with 0%nat; change (Z.to_nat 1) with 1%nat;
      change WOLFSSL_DTLS_WINDOW_WORDS with 2%nat; rewrite ?G0, ?G1; unfold at_;
      cbn [nth insert list_insert].
    + assert (0 < diff < 32) by lia_mod. replace (diff mod 32) with diff by lia_mod.
      split; [apply window_wf_pair; [apply lor1_range, shl_range|apply lor_range; [lia| |apply shl_range]];
              destruct (0 <? diff); [apply shr_range; [done|lia]|unfold in_word; lia]|].
      rewrite !win_bit_pair by lia.
      destruct (Z.ltb_spec 0 diff); [|lia].
      rewrite lor1_bit, Z.lor_spec by lia.
      destruct (Z.ltb_spec i 32).
      * rewrite shl_bit by lia. bit_cases; rewrite ?win_bit_pair by lia; bit_cases; done.
      * rewrite shr_bit, shl_bit by (done || lia). bit_cases; rewrite ?win_bit_pair by lia;
          bit_cases; rewrite ?orb_false_r; f_equal; lia.
    + assert (32 <= diff < 64) by lia_mod.
      split; [apply window_wf_pair; [change (Z.lor 0 1) with 1; unfold in_word; lia|apply shl_range]|].
      rewrite !win_bit_pair by lia. rewrite lor1_bit, Z.bits_0 by lia.
      destruct (Z.ltb_spec i 32); [bit_cases; done|].
      rewrite shl_bit by lia. replace (diff mod 32) with (diff - 32) by lia_mod.
      bit_cases; rewrite ?win_bit_pair by lia; bit_cases; try done; f_equal; lia.
Qed.

(** ** DTLS 1.3: the window is a set *)

Definition epoch_window_wf (e : Dtls13Epoch) : Prop :=
  window_wf (window e) /\ is_u64 (nextPeerSeqNumber e).

Lemma check_window_bits e seq : epoch_window_wf e -> is_u64 seq ->
  check_window seq e =
    (nextPeerSeqNumber e <=? seq)
    || ((nextPeerSeqNumber e - seq <=? 64)
        && negb (win_bit (window e) (nextPeerSeqNumber e - seq - 1))).
Proof.
  intros [Ww Hn] Hs. unfold check_window, w64GTE, w64Sub, w64GT, w64GetLow32, DTLS_WORD_BITS.
  change (w64From32 0 DTLS_SEQ_BITS) with 64. set (n := nextPeerSeqNumber e) in *.
  destruct (Z.leb_spec n seq); [done|]. cbn [orb].
  unfold in_word in *. rewrite (wrap_small 64) by (unfold in_word; lia).
  destruct (Z.ltb_spec 64 (n - seq)), (Z.leb_spec (n - seq) 64); try lia.
  rewrite (wrap_small 32 (n - seq)), wrap_small by (unfold in_word; lia).
  rewrite land_bit by lia_mod. cbn [andb]. unfold win_bit.
  destruct (Z.testbit _ _); done.
Qed.

(** The effect of recording a sequence number the check accepted. *)
Lemma update_window_spec e seq : epoch_window_wf e -> 0 <= seq < 2 ^ 64 - 1 ->
  check_window seq e = true ->
  let '(rc, e') := update_window seq e in
  let next := nextPeerSeqNumber e in
  rc = 0 /\ epoch_window_wf e'
  /\ nextPeerSeqNumber e' = Z.max next (seq + 1)
  /\ forall d, 0 <= d < 64 -> win_bit (window e') d =
       if seq <? next then win_bit (window e) d || (d =? next - 1 - seq)
       else (d =? 0) || (negb (u32 (seq - next + 1) =? 0) && (u32 (seq - next + 1) <=? d)
                         && win_bit (window e) (d - u32 (seq - next + 1))).
Proof.
  intros Hw Hs C. rewrite check_window_bits in C by (done || unfold in_word; lia).
  destruct Hw as [Ww Hn]. set (n := nextPeerSeqNumber e) in *.
  unfold update_window, w64LT, w64Sub, w64Decrement, w64Increment, w64GetLow32, DTLS_WORD_BITS.
  fold n. unfold in_word in Hn. destruct (Z.ltb_spec seq n) as [Lt|Ge].
  - destruct (Z.leb_spec n seq); [lia|]. cbn [orb] in C.
    destruct (Z.leb_spec (n - seq) 64); [|done].
    rewrite !(wrap_small 64) by (unfold in_word; rewrite ?wrap_small; unfold in_word; lia).
    rewrite (wrap_small 32) by (unfold in_word; lia).
    destruct (Nat.leb_spec WOLFSSL_DTLS_WINDOW_WORDS (Z.to_nat ((n - seq - 1) / 32))) as [B|B];
      [unfold WOLFSSL_DTLS_WINDOW_WORDS in B; lia_mod|].
    split; [done|]. cbn [window nextPeerSeqNumber e_set_peer].
    split; [split; [apply (win_bit_mark (window e) (n - seq - 1) 0 Ww); lia|done]|].
    split; [lia|]. intros d Hd.
    replace (n - 1 - seq) with (n - seq - 1) by lia. apply win_bit_mark; [done|lia|lia].
  - rewrite (wrap_small 64 (seq - n)), (wrap_small 64 (seq + 1)) by (unfold in_word; lia).
    rewrite (wrap_small 64) by (unfold in_word; lia).
    assert (0 <= u32 (seq - n + 1)) by (apply wrap_range; lia).
    split; [done|]. cbn [window nextPeerSeqNumber e_set_peer].
    split; [split; [apply (win_bit_shift (window e) _ 0 Ww); lia|cbn [nextPeerSeqNumber e_set_peer]; unfold in_word; lia]|].
    split; [lia|]. intros d Hd. apply win_bit_shift; done.
Qed.

(** Reception of a list of records in one epoch: check, then (as the record
    decrypts) update.  The result also lists the accepted numbers. *)
Fixpoint receive (seqs : list Z) (e : Dtls13Epoch) (acc : list Z) : Dtls13Epoch * list Z :=
  match seqs with
  | [] => (e, acc)
  | q :: seqs' =>
      if check_window q e then receive seqs' (snd (update_window q e)) (q :: acc)
      else receive seqs' e acc
  end.

(** ** No replay *)

Definition remembers (e : Dtls13Epoch) (acc : list Z) : Prop :=
  epoch_window_wf e /\ NoDup acc
  /\ forall q, q ∈ acc -> 0 <= q < nextPeerSeqNumber e
       /\ (nextPeerSeqNumber e - q <= 64 ->
           win_bit (window e) (nextPeerSeqNumber e - 1 - q) = true).

Lemma remembers_accept e acc q :
  remembers e acc -> 0 <= q < 2 ^ 64 - 1 -> check_window q e = true ->
  remembers (snd (update_window q e)) (q :: acc).
Proof.
  intros (W & N & B) Hq C. pose proof (update_window_spec e q W Hq C) as U.
  rewrite check_window_bits in C by (done || unfold in_word; lia).
  destruct (update_window q e) as [rc e']. cbn [snd]. destruct U as (_ & W' & N' & U).
  set (n := nextPeerSeqNumber e) in *. split; [done|]. split.
  - constructor; [|done]. intros I. destruct (B q I) as [Lt Bit].
    destruct (Z.leb_spec n q); [lia|]. cbn [orb] in C.
    destruct (Z.leb_spec (n - q) 64); [|done].
    replace (n - q - 1) with (n - 1 - q) in C by lia. rewrite Bit in C by lia. done.
  - intros x Hx. rewrite N'. apply elem_of_cons in Hx as [->|Hx].
    + split; [lia|]. intros. rewrite U by lia. destruct (Z.ltb_spec q n).
      * destruct (Z.eqb_spec (Z.max n (q + 1) - 1 - q) (n - 1 - q)); [apply orb_true_r|lia].
      * destruct (Z.eqb_spec (Z.max n (q + 1) - 1 - q) 0); [done|lia].
    + destruct (B x Hx) as [Lt Bit]. split; [lia|]. intros. rewrite U by lia.
      destruct (Z.ltb_spec q n).
      * replace (Z.max n (q + 1) - 1 - x) with (n - 1 - x) by lia. rewrite Bit by lia. done.
      * rewrite (wrap_small 32) by (unfold in_word; lia).
        replace (Z.max n (q + 1) - 1 - x - (q - n + 1)) with (n - 1 - x) by lia.
        rewrite Bit by lia. bit_cases; done.
Qed.

Lemma receive_remembers seqs e acc : remembers e acc ->
  Forall (fun q => 0 <= q < 2 ^ 64 - 1) seqs ->
  let '(e', acc') := receive seqs e acc in remembers e' acc'.
Proof.
  revert e acc. induction seqs as [|q seqs IH]; intros e acc R F; [done|].
  inversion F; subst. cbn [receive]. destruct (check_window q e) eqn:C; apply IH; try done.
  apply remembers_accept; done.
Qed.

Definition fresh_epoch (e : Dtls13Epoch) : Prop :=
  nextPeerSeqNumber e = 0 /\ window e = [0; 0].

Lemma fresh_remembers e : fresh_epoch e -> remembers e [].
Proof.
  intros [N W]. split; [|split; [constructor|intros q H; apply elem_of_nil in H; done]].
  split; [rewrite W; apply window_wf_pair; unfold in_word; lia|rewrite N; unfold in_word; lia].
Qed.

(** C1: No record is accepted twice: whatever sequence numbers below 2^64-1 arrive in
    an epoch, in whatever order and however often, [Dtls13CheckWindow] followed
    by [Dtls13UpdateWindow] accepts each number at most once. *)
Theorem no_replay e seqs :
  fresh_epoch e -> Forall (fun q => 0 <= q < 2 ^ 64 - 1) seqs ->
  NoDup (snd (receive seqs e [])).
Proof.
  intros Fe F. pose proof (receive_remembers seqs e [] (fresh_remembers e Fe) F) as R.
  destruct (receive seqs e []) as [e' acc']. apply R.
Qed.

(** ** The window computes the set-based rule *)

(** The rule of RFC 9147, section 4.5.1: accept a record that is not a
    duplicate and not more than 64 behind the highest one accepted. *)
Definition highest (acc : list Z) : Z := foldr Z.max (-1) acc.
Definition accepts (acc : list Z) (q : Z) : bool :=
  bool_decide (q ∉ acc) && (highest acc <? q + 64).

Fixpoint receive_spec (seqs : list Z) (acc : list Z) : list Z :=
  match seqs with
  | [] => acc
  | q :: seqs' => receive_spec seqs' (if accepts acc q then q :: acc else acc)
  end.

(** The jump from the highest number accepted to [q] is one the code makes right:
    the distance is cut to 32 bits before the window is moved by it, so it has
    to be below the window size, or its low 32 bits have to be 0 (the code then
    clears the window) or at least the window size.  Every jump below 2^32 is
    such a jump. *)
Definition jump_ok (acc : list Z) (q : Z) : Prop :=
  let d := q - highest acc in d < 64 \/ u32 d = 0 \/ 64 <= u32 d.

(** Every accepted number of [seqs] is reached by such a jump. *)
Fixpoint jumps_ok (seqs : list Z) (acc : list Z) : Prop :=
  match seqs with
  | [] => True
  | q :: seqs' =>
      if accepts acc q then jump_ok acc q /\ jumps_ok seqs' (q :: acc) else jumps_ok seqs' acc
  end.

Lemma jump_ok_short acc q : 0 <= highest acc + 2 ^ 32 - q - 1 -> jump_ok acc q.
Proof.
  intros H. unfold jump_ok. destruct (Z.le_gt_cases 64 (q - highest acc)) as [L|L]; [|by left].
  right; right. rewrite wrap_small; [done|unfold in_word; lia].
Qed.

Definition represents (e : Dtls13Epoch) (acc : list Z) : Prop :=
  epoch_window_wf e /\ nextPeerSeqNumber e = highest acc + 1
  /\ forall d, 0 <= d < 64 -> 0 <= nextPeerSeqNumber e - 1 - d ->
       win_bit (window e) d = bool_decide (nextPeerSeqNumber e - 1 - d ∈ acc).

Lemma highest_ge acc q : q ∈ acc -> q <= highest acc.
Proof.
  induction acc as [|x acc IH]; intros H; [apply elem_of_nil in H; done|].
  cbn. fold (highest acc). apply elem_of_cons in H as [->|H]; [lia|]. specialize (IH H). lia.
Qed.

Lemma check_window_accepts e acc q :
  represents e acc -> is_u64 q -> check_window q e = accepts acc q.
Proof.
  intros (W & N & B) Hq. rewrite check_window_bits by done. unfold accepts, in_word in *.
  rewrite N in *. destruct (Z.leb_spec (highest acc + 1) q) as [L|L].
  - rewrite bool_decide_true by (intros I%highest_ge; lia).
    destruct (Z.ltb_spec (highest acc) (q + 64)); [done|lia].
  - cbn [orb]. destruct (Z.leb_spec (highest acc + 1 - q) 64),
      (Z.ltb_spec (highest acc) (q + 64)); try lia.
    rewrite B by lia. replace (highest acc + 1 - 1 - (highest acc + 1 - q - 1)) with q by lia.
    cbn [andb]. rewrite andb_true_r, bool_decide_not. done.
Qed.

Lemma update_represents e acc q :
  represents e acc -> 0 <= q < 2 ^ 64 - 1 -> jump_ok acc q -> check_window q e = true ->
  represents (snd (update_window q e)) (q :: acc).
Proof.
  intros (W & N & B) Hq J C. pose proof (update_window_spec e q W Hq C) as U.
  destruct (update_window q e) as [rc e']. cbn [snd]. destruct U as (_ & W' & N' & U).
  assert (0 <= nextPeerSeqNumber e) as Hn by apply W.
  set (n := nextPeerSeqNumber e) in *. split; [done|]. split.
  { rewrite N', N. cbn. fold (highest acc). lia. }
  intros d Hd Hp. rewrite N' in *. rewrite U by done.
  destruct (Z.ltb_spec q n).
  - replace (Z.max n (q + 1)) with n in * by lia. rewrite B by lia.
    destruct (Z.eqb_spec d (n - 1 - q)) as [->|Ne].
    + rewrite orb_true_r. symmetry. apply bool_decide_true.
      replace (n - 1 - (n - 1 - q)) with q by lia. apply elem_of_cons. by left.
    + rewrite orb_false_r. apply bool_decide_ext. rewrite elem_of_cons. split; [auto|].
      intros [E|E]; [lia|done].
  - replace (Z.max n (q + 1) - 1 - d) with (q - d) in * by lia.
    destruct (Z.eqb_spec d 0) as [->|N0].
    { symmetry. apply bool_decide_true. replace (q - 0) with q by lia. apply elem_of_cons. by left. }
    cbn [orb]. unfold jump_ok in J. replace (q - highest acc) with (q - n + 1) in J by lia.
    destruct (Z.lt_ge_cases (q - n + 1) 64) as [Short|Long].
    2:{ rewrite bool_decide_false by (rewrite elem_of_cons; intros [E|E%highest_ge]; lia).
        bit_cases; done. }
    rewrite (wrap_small 32) by (unfold in_word; lia).
    destruct (Z.eqb_spec (q - n + 1) 0); [lia|]. cbn [negb andb].
    destruct (Z.leb_spec (q - n + 1) d).
    + cbn [andb]. rewrite B by lia. apply bool_decide_ext. rewrite elem_of_cons.
      replace (n - 1 - (d - (q - n + 1))) with (q - d) by lia. split; [auto|].
      intros [E|E]; [lia|done].
    + symmetry. apply bool_decide_false. rewrite elem_of_cons.
      intros [E|E%highest_ge]; lia.
Qed.

(** C8: The two-word window implements the set-based rule: for records numbered
    below 2^64-1, whatever their order and duplicates, the receiver accepts a
    record if and only if it is not a duplicate of an accepted one and not more
    than 64 behind the highest one accepted, provided no accepted record jumps
    ahead of the highest by a distance of 64 or more whose low 32 bits are
    between 1 and 63 ([jumps_ok]; a jump below 2^32 never does).  The code cuts
    the distance to 32 bits, and after such a jump it deviates from the rule
    ([long_jump_marks_unseen]). *)
Theorem window_refines_set e seqs :
  fresh_epoch e -> Forall (fun q => 0 <= q < 2 ^ 64 - 1) seqs -> jumps_ok seqs [] ->
  snd (receive seqs e []) = receive_spec seqs [].
Proof.
  intros Fe F J.
  assert (represents e []) as R.
  { destruct Fe as [N W]. destruct (fresh_remembers e (conj N W)) as [We _].
    split; [done|]. rewrite N. split; [done|]. intros. lia. }
  clear Fe. revert e R J. generalize (@nil Z) as acc.
  induction seqs as [|q seqs IH]; intros acc e R J; [done|]. inversion F; subst.
  cbn [receive receive_spec jumps_ok] in *.
  rewrite <- (check_window_accepts e acc q R) in * by (unfold in_word; lia).
  destruct (check_window q e) eqn:C; [|apply IH; done].
  apply IH; [done| |apply J]. apply update_represents; [done|done|apply J|done].
Qed.

Lemma highest_in acc : 0 <= highest acc -> highest acc ∈ acc.
Proof.
  induction acc as [|x acc IH]; intros H; [cbn in H; lia|].
  cbn [highest foldr] in *. fold (highest acc) in *.
  apply elem_of_cons. destruct (Z.max_spec x (highest acc)) as [[L E]|[L E]]; rewrite E in *;
    [right; apply IH; done|by left].
Qed.

(** After any other jump the window is wrong: the highest number accepted before
    is moved by the low 32 bits of the distance only, onto a number that was
    never received; the rule accepts that number and the code rejects it. *)
Theorem long_jump_marks_unseen e acc q :
  represents e acc -> 0 < nextPeerSeqNumber e -> 0 <= q < 2 ^ 64 - 1 ->
  let d := q - highest acc in 64 <= d -> 0 < u32 d < 64 ->
  check_window q e = true /\ accepts (q :: acc) (q - u32 d) = true
  /\ check_window (q - u32 d) (snd (update_window q e)) = false.
Proof.
  intros R Hn Hq d Hd Hk. destruct (R) as (W & N & B).
  assert (check_window q e = true) as C.
  { rewrite check_window_bits by (done || unfold in_word; lia).
    destruct (Z.leb_spec (nextPeerSeqNumber e) q); [done|lia]. }
  split; [exact C|]. pose proof (highest_in acc ltac:(lia)) as I. split.
  - assert (d <> u32 d) by lia. unfold accepts. cbn [highest foldr]. fold (highest acc).
    assert (u32 d <= d) by (unfold wrap; apply Z.mod_le; lia).
    rewrite bool_decide_true by (rewrite elem_of_cons; intros [E|E%highest_ge]; lia).
    destruct (Z.ltb_spec (Z.max q (highest acc)) (q - u32 d + 64)); [done|lia].
  - pose proof (update_window_spec e q W Hq C) as U. destruct (update_window q e) as [rc e'].
    destruct U as (_ & W' & N' & U). cbn [snd].
    replace (q - nextPeerSeqNumber e + 1) with d in U by lia.
    rewrite check_window_bits by (done || unfold in_word; lia).
    replace (nextPeerSeqNumber e') with (q + 1) by lia.
    destruct (Z.leb_spec (q + 1) (q - u32 d)); [lia|]. cbn [orb].
    replace (q + 1 - (q - u32 d) - 1) with (u32 d) by lia. rewrite U by lia.
    destruct (Z.ltb_spec q (nextPeerSeqNumber e)); [lia|].
    replace (u32 d - u32 d) with 0 by lia. rewrite (B 0) by lia.
    rewrite bool_decide_true by (rewrite N; replace (highest acc + 1 - 1 - 0) with (highest acc) by lia; done).
    bit_cases; done || rewrite andb_false_r; done.
Qed.

(** ** The connection's functions *)

(** [Dtls13UpdateWindow] records the sequence number in the window of the epoch
    the record arrived in, and in no other. *)
Lemma Dtls13UpdateWindow_slot s i :
  epochs_wf s -> valid_at s i (curEpoch64 s) -> decryptEpoch s <> None ->
  let '(rc, s') := Dtls13UpdateWindow s in
  rc = fst (update_window (curSeq s) (slot s i))
  /\ slot s' i = snd (update_window (curSeq s) (slot s i))
  /\ forall j, j <> i -> slot s' j = slot s j.
Proof.
  intros W V D. unfold Dtls13UpdateWindow. pose proof (ew_dec s W) as P.
  destruct (decryptEpoch s) as [d|]; [|done]. destruct P as [Ld Vd].
  assert ((if w64Equal (curEpoch64 s) (epochNumber (slot s d)) then Some d
           else Dtls13GetEpoch s (curEpoch64 s)) = Some i) as ->.
  { unfold w64Equal. destruct (Z.eqb_spec (curEpoch64 s) (epochNumber (slot s d))) as [E|E].
    - f_equal. apply (ew_unique s W d i (curEpoch64 s)); [split_and!; done|done].
    - apply GetEpoch_complete; done. }
  destruct (update_window (curSeq s) (slot s i)) as [rc e]. split; [done|].
  destruct V as [L _]. split.
  - rewrite slot_set_slot, decide_True by done. done.
  - intros j N. rewrite slot_set_slot, decide_False by congruence || done. done.
Qed.

(** ** DTLS 1.2 *)

(** Within one high word the DTLS 1.2 replay check and update compute what the
    DTLS 1.3 ones do: the same records are accepted and, for an accepted
    record, the same next expected number and window result. *)
Theorem dtls12_window_agrees e q :
  epoch_window_wf e -> nextPeerSeqNumber e < 2 ^ 32 -> 0 <= q < 2 ^ 32 - 1 ->
  check_window12 0 q 0 (nextPeerSeqNumber e) (window e) = check_window q e
  /\ (check_window q e = true ->
      let e' := snd (update_window q e) in
      wolfSSL_DtlsUpdateWindow 0 q 0 (nextPeerSeqNumber e) (window e)
      = (0, nextPeerSeqNumber e', window e')).
Proof.
  intros W Hn Hq. pose proof (check_window_bits e q W ltac:(unfold in_word; lia)) as C.
  destruct W as [Ww Hn']. unfold in_word in Hn'. set (n := nextPeerSeqNumber e) in *. split.
  - rewrite C. unfold check_window12, DTLS_SEQ_BITS, DTLS_WORD_BITS.
    change (0 =? 0) with true. change (0 + 1 <? 0) with false. cbn [orb negb].
    destruct (Z.ltb_spec q n) as [L|L]; destruct (Z.leb_spec n q); try lia; cbn [orb andb].
    2:{ rewrite andb_false_r. cbn [andb]. done. }
    rewrite andb_true_r. rewrite wrap_small by (unfold in_word; lia).
    destruct (Z.ltb_spec 64 n); destruct (Z.ltb_spec 64 (n - q)); cbn [andb];
      destruct (Z.leb_spec (n - q) 64); try lia; try done;
      (destruct (Z.eqb_spec (n - q) 0); [lia|]);
      (destruct (Nat.leb_spec WOLFSSL_DTLS_WINDOW_WORDS (Z.to_nat ((n - q - 1) / 32))) as [B|B];
       [unfold WOLFSSL_DTLS_WINDOW_WORDS in B; lia_mod|]);
      rewrite land_bit by lia_mod; unfold win_bit; destruct (Z.testbit _ _); done.
  - intros Ca. rewrite C in Ca. unfold wolfSSL_DtlsUpdateWindow, update_window, w64LT, w64Sub,
      w64Decrement, w64Increment, w64GetLow32, next_after, DTLS_WORD_BITS. fold n.
    change (0 =? 0) with true. destruct (Z.ltb_spec q n) as [L|L].
    + destruct (Z.leb_spec n q); [lia|]. cbn [orb] in Ca.
      destruct (Z.leb_spec (n - q) 64); [|done].
      rewrite (wrap_small 64 (n - q)), (wrap_small 64 (n - q - 1)), (wrap_small 32 (n - q)),
        (wrap_small 32 (n - q - 1)) by (unfold in_word; lia).
      destruct (Nat.ltb_spec (Z.to_nat ((n - q - 1) / 32)) WOLFSSL_DTLS_WINDOW_WORDS) as [B|B];
        [|unfold WOLFSSL_DTLS_WINDOW_WORDS in B; lia_mod].
      destruct (Nat.leb_spec WOLFSSL_DTLS_WINDOW_WORDS (Z.to_nat ((n - q - 1) / 32))); [lia|].
      done.
    + rewrite (wrap_small 64 (q - n)), (wrap_small 64 (q + 1)), (wrap_small 64 (q - n + 1)),
        (wrap_small 32 (q - n)), (wrap_small 32 (q + 1)) by (unfold in_word; lia).
      destruct (Z.eqb_spec (q + 1) 0); [lia|]. done.
Qed.

(** Across a change of the high word [_DtlsCheckWindow] subtracts the wrong way
    round: with 2^32+5 expected next, the unseen record 2^32-1 (6 behind) is
    rejected, and the record 7 (2^32-2 behind, far outside the window) is
    accepted. *)
Theorem dtls12_check_swaps_difference :
  check_window12 0 (2 ^ 32 - 1) 1 5 [1; 0] = false
  /\ check_window12 0 7 1 5 [1; 0] = true.
Proof. vm_compute. done. Qed.

(** ** Witnesses *)

Definition demo_epoch : Dtls13Epoch := e_init 3 ENCRYPT_AND_DECRYPT_SIDE epoch_zero.

Lemma no_replay_witness :
  snd (receive [0; 5; 5; 3; 0; 200; 5] demo_epoch []) = [200; 3; 5; 0] /\ NoDup [200; 3; 5; 0].
Proof.
  split; [vm_compute; reflexivity|].
  apply (no_replay demo_epoch [0; 5; 5; 3; 0; 200; 5]); [done|repeat constructor; lia].
Defined.

(** Records beyond 2^32, two of them replayed, and a jump past 2^32. *)
Lemma window_refines_set_witness :
  let seqs := [70; 6; 7; 5; 7; 2 ^ 33; 2 ^ 33 - 1; 2 ^ 33; 70] in
  receive_spec seqs [] = [2 ^ 33 - 1; 2 ^ 33; 7; 70]
  /\ snd (receive seqs demo_epoch []) = receive_spec seqs [].
Proof.
  split; [vm_compute; reflexivity|].
  apply window_refines_set; [done|repeat constructor; lia|].
  repeat (cbn [jumps_ok]; match goal with |- context [accepts ?a ?q] =>
    let b := eval vm_compute in (accepts a q) in change (accepts a q) with b end; cbv iota).
  split_and!; unfold jump_ok; vm_compute; intuition discriminate.
Defined.

Lemma dtls12_window_agrees_witness :
  check_window12 0 9 0 0 [0; 0] = check_window 9 demo_epoch.
Proof.
  apply (dtls12_window_agrees demo_epoch 9); [|cbn; lia|lia].
  split; [apply window_wf_pair; unfold in_word; lia|cbn; unfold in_word; lia].
Defined.
