(* ===== verification/DtlsRecord.v ===== *)
(** * DTLS 1.3 record and handshake headers (src/boot/src/dtls13.c, internal.c)

    Writing and parsing of the plaintext record header, the unified header
    with its encrypted record number, and the handshake header.  The AES block
    encryption of the record number mask ([wc_AesEncryptDirect]) and the key
    setup are parameters; the cipher suite is an AES-GCM one, and the options
    are those of user_settings.h (no connection ids, no records that span
    datagrams). *)

From S2P Require Import Prelude Misc DtlsDefs DtlsEpoch DtlsWindow.
Open Scope c_scope.

(** ** Data *)

Record RecordLayerHeader := RLH {
  rh_type : Z; pvMajor : Z; pvMinor : Z; rh_length : list Z }.

Record Dtls13UnifiedHdrInfo := HdrInfo {
  recordLength : Z; seqLo : Z; seqHi : Z; seqHiPresent : bool; epochBits : Z }.

(** The connection as the record reader sees it: the input buffer with its
    read index, the current record header and size, and the options and
    counters the header checks use. *)
Record reader := Reader {
  rconn : conn;
  inputBuffer : list Z; inputIdx : nat;
  curRL : RecordLayerHeader; curSize : Z;
  dtls13CurRL : list Z; dtls13CurRlLength : Z;
  version_major : Z; version_minor : Z; tls1_3 : bool;
  serverState : Z; connectState : Z; acceptState : Z; downgrade : bool;
  seenUnifiedHdr : bool; sendAcks : bool;
  curEpoch : Z; curSeq_hi : Z; curSeq_lo : Z; dtls_epoch : Z;
  peer12 : peerSeq; decryptedCur : bool;
  dtls_peer_handshake_number : Z }.

Definition set_rconn c r := Reader c (inputBuffer r) (inputIdx r) (curRL r) (curSize r)
  (dtls13CurRL r) (dtls13CurRlLength r) (version_major r) (version_minor r) (tls1_3 r)
  (serverState r) (connectState r) (acceptState r) (downgrade r) (seenUnifiedHdr r) (sendAcks r) (curEpoch r)
  (curSeq_hi r) (curSeq_lo r) (dtls_epoch r) (peer12 r) (decryptedCur r)
  (dtls_peer_handshake_number r).
Definition set_input b i r := Reader (rconn r) b i (curRL r) (curSize r)
  (dtls13CurRL r) (dtls13CurRlLength r) (version_major r) (version_minor r) (tls1_3 r)
  (serverState r) (connectState r) (acceptState r) (downgrade r) (seenUnifiedHdr r) (sendAcks r) (curEpoch r)
  (curSeq_hi r) (curSeq_lo r) (dtls_epoch r) (peer12 r) (decryptedCur r)
  (dtls_peer_handshake_number r).
Definition set_curRL rh sz r := Reader (rconn r) (inputBuffer r) (inputIdx r) rh sz
  (dtls13CurRL r) (dtls13CurRlLength r) (version_major r) (version_minor r) (tls1_3 r)
  (serverState r) (connectState r) (acceptState r) (downgrade r) (seenUnifiedHdr r) (sendAcks r) (curEpoch r)
  (curSeq_hi r) (curSeq_lo r) (dtls_epoch r) (peer12 r) (decryptedCur r)
  (dtls_peer_handshake_number r).
Definition set_dtls13CurRL h n r := Reader (rconn r) (inputBuffer r) (inputIdx r) (curRL r)
  (curSize r) h n (version_major r) (version_minor r) (tls1_3 r)
  (serverState r) (connectState r) (acceptState r) (downgrade r) (seenUnifiedHdr r) (sendAcks r) (curEpoch r)
  (curSeq_hi r) (curSeq_lo r) (dtls_epoch r) (peer12 r) (decryptedCur r)
  (dtls_peer_handshake_number r).
Definition set_flags seen acks dec r := Reader (rconn r) (inputBuffer r) (inputIdx r) (curRL r)
  (curSize r) (dtls13CurRL r) (dtls13CurRlLength r) (version_major r) (version_minor r)
  (tls1_3 r) (serverState r) (connectState r) (acceptState r) (downgrade r) seen acks (curEpoch r)
  (curSeq_hi r) (curSeq_lo r) (dtls_epoch r) (peer12 r) dec
  (dtls_peer_handshake_number r).
Definition set_cur12 e h l r := Reader (rconn r) (inputBuffer r) (inputIdx r) (curRL r)
  (curSize r) (dtls13CurRL r) (dtls13CurRlLength r) (version_major r) (version_minor r)
  (tls1_3 r) (serverState r) (connectState r) (acceptState r) (downgrade r) (seenUnifiedHdr r) (sendAcks r) e
  h l (dtls_epoch r) (peer12 r) (decryptedCur r)
  (dtls_peer_handshake_number r).
Definition set_peer_hs n r := Reader (rconn r) (inputBuffer r) (inputIdx r) (curRL r)
  (curSize r) (dtls13CurRL r) (dtls13CurRlLength r) (version_major r) (version_minor r)
  (tls1_3 r) (serverState r) (connectState r) (acceptState r) (downgrade r) (seenUnifiedHdr r) (sendAcks r) (curEpoch r)
  (curSeq_hi r) (curSeq_lo r) (dtls_epoch r) (peer12 r) (decryptedCur r) n.

(** ** Small predicates *)

Definition IsAtLeastTLSv1_3 (major minor : Z) : bool :=
  ((major =? SSLv3_MAJOR) && (TLSv1_3_MINOR <=? minor))
  || ((major =? DTLS_MAJOR) && (minor <=? DTLSv1_3_MINOR)).

Definition Dtls13IsUnifiedHeader (hdrFirstByte : Z) : bool :=
  if (hdrFirstByte =? alert) || (hdrFirstByte =? handshake) || (hdrFirstByte =? ack)
  then false
  else Z.land hdrFirstByte DTLS13_FIXED_BITS_MASK =? DTLS13_FIXED_BITS.

Definition Dtls13TypeIsEncrypted (hs_type : Z) : bool :=
  negb (existsb (Z.eqb hs_type)
          [hello_request; hello_verify_request; client_hello; hello_retry_request; server_hello]).

Definition Dtls13GetRlHeaderLength (isEncrypted : bool) : Z :=
  if isEncrypted then DTLS13_UNIFIED_HEADER_SIZE else DTLS_RECORD_HEADER_SZ.

Definition Dtls13GetHeadersLength (type : Z) : Z :=
  u16 (Dtls13GetRlHeaderLength (Dtls13TypeIsEncrypted type) + DTLS_HANDSHAKE_HEADER_SZ).

Definition Dtls13MinimumRecordLength : Z :=
  Dtls13GetRlHeaderLength true + DTLS13_MIN_CIPHERTEXT.

Definition Dtls13GetUnifiedHeaderSize (input : Z) : Z :=
  let size := 1 + 1 in
  let size := if negb (Z.land input DTLS13_SEQ_LEN_BIT =? 0) then size + 1 else size in
  if negb (Z.land input DTLS13_LEN_BIT =? 0) then size + 2 else size.

(** ** Writing headers *)

Definition Dtls13RlAddPlaintextHeader (content_type length : Z) (out : list Z) (s : conn)
    : Z * list Z * conn :=
  let out := blit 0 [u8 content_type; DTLS_MAJOR; DTLSv1_2_MINOR] out in
  let '(ret, (seq0, seq1), s) := Dtls13GetSeq CUR_ORDER true s in
  if negb (ret =? 0) then (ret, out, s)
  else
    let out := blit 3 (c16toa (u16 (Z.shiftr seq0 16))) out in
    let out := blit 5 (c16toa (u16 seq0)) out in
    let out := blit 7 (c32toa seq1) out in
    (0, blit 11 (c16toa length) out, s).

(** [hs_number] is [ssl->keys.dtls_handshake_number]. *)
Definition Dtls13HandshakeAddHeaderFrag (hs_number msg_type frag_offset frag_length msg_length : Z)
    (output : list Z) : list Z :=
  let output := blit 0 [u8 msg_type] output in
  let output := blit 1 (c32to24 msg_length) output in
  let output := blit 4 (c16toa hs_number) output in
  let output := blit 6 (c32to24 frag_offset) output in
  blit 9 (c32to24 frag_length) output.

Definition Dtls13HandshakeAddHeader (hs_number msg_type length : Z) (output : list Z) : list Z :=
  let output := blit 0 [u8 msg_type] output in
  let output := blit 1 (c32to24 length) output in
  let output := blit 4 (c16toa hs_number) output in
  let output := blit 6 (c32to24 0) output in
  blit 9 (c32to24 length) output.

Definition Dtls13RlAddCiphertextHeader (length : Z) (out : list Z) (s : conn) : Z * list Z :=
  match deref s (encryptEpoch s) with
  | None => (BAD_STATE_E, out)
  | Some e =>
      let flags := DTLS13_FIXED_BITS in
      let flags := Z.lor flags (Dtls13GetEpochBits (epochNumber e)) in
      let flags := Z.lor flags DTLS13_SEQ_LEN_BIT in
      let flags := Z.lor flags DTLS13_LEN_BIT in
      let seqNumber := u16 (w64GetLow32 (nextSeqNumber e)) in
      let out := blit 0 [flags] out in
      let out := blit 1 (c16toa seqNumber) out in
      (0, blit 3 (c16toa length) out)
  end.

Section RecordNumber.
(** [aes_direct key block]: [wc_AesEncryptDirect], its code and the 16 bytes
    written. *)
Context (aes_direct : list Z -> list Z -> Z * list Z).

(** [c]: the record number cipher of the direction (AES-GCM suites). *)
Definition Dtls13GetRnMask (c : Cipher) (ciphertext : list Z) : Z * list Z :=
  match c_sn c with
  | None => (BAD_STATE_E, [])
  | Some k => aes_direct k (take 16 ciphertext)
  end.

(** The sequence number field sits one byte into the (aligned) header; the
    mask is an aligned local. *)
Definition Dtls13EncryptDecryptRecordNumber (c : Cipher) (seq ciphertext : list Z)
    (SeqLength : nat) : Z * list Z :=
  let '(ret, mask) := Dtls13GetRnMask c ciphertext in
  if negb (ret =? 0) then (ret, seq) else (0, xorbuf 1 0 seq mask SeqLength).

Definition Dtls13EncryptRecordNumber (hdr : list Z) (recordLength : Z) (s : conn) : Z * list Z :=
  if recordLength <? Dtls13MinimumRecordLength then (BUFFER_ERROR, hdr)
  else
    let has_len := negb (Z.land (at_ hdr 0) DTLS13_LEN_BIT =? 0) in
    let seqLength := if has_len then DTLS13_SEQ_16_LEN else DTLS13_SEQ_8_LEN in
    let hdrLength := 1 + seqLength in
    let hdrLength := if has_len then hdrLength + DTLS13_LEN_SIZE else hdrLength in
    let n := Z.to_nat seqLength in
    let '(ret, seq) := Dtls13EncryptDecryptRecordNumber (enc_ctx s) (slice 1 n hdr)
                         (drop (Z.to_nat hdrLength) hdr) n in
    (ret, blit 1 seq hdr).

(** ** Parsing the unified header

    [input] is the buffer from the header on, [inputSize] the bytes left in
    it; the sequence number is decrypted in place, so the buffer is a result. *)
Definition hdr_zero : Dtls13UnifiedHdrInfo := HdrInfo 0 0 0 false 0.

Definition Dtls13ParseUnifiedRecordLayer (c : Cipher) (input : list Z) (inputSize : Z)
    : Z * list Z * Dtls13UnifiedHdrInfo :=
  if inputSize <? DTLS13_HDR_FLAGS_SIZE then (BAD_FUNC_ARG, input, hdr_zero)
  else
    let flags := at_ input 0 in
    let seqLen := if negb (Z.land flags DTLS13_SEQ_LEN_BIT =? 0)
                  then DTLS13_SEQ_16_LEN else DTLS13_SEQ_8_LEN in
    let hasLength := negb (Z.land flags DTLS13_LEN_BIT =? 0) in
    let bits := Z.land flags EE_MASK in
    let idx := DTLS13_HDR_FLAGS_SIZE + seqLen in
    if inputSize <? idx then (BUFFER_ERROR, input, HdrInfo 0 0 0 false bits)
    else if hasLength && (inputSize <? idx + DTLS13_LEN_SIZE)
    then (BUFFER_ERROR, input, HdrInfo 0 0 0 false bits)
    else
      let len := if hasLength then ato16 (drop (Z.to_nat idx) input) else u16 (inputSize - idx) in
      let idx := if hasLength then idx + DTLS13_LEN_SIZE else idx in
      if len <? DTLS13_RN_MASK_SIZE then (LENGTH_ERROR, input, HdrInfo len 0 0 false bits)
      else if inputSize <? idx + DTLS13_RN_MASK_SIZE
      then (BUFFER_ERROR, input, HdrInfo len 0 0 false bits)
      else
        let n := Z.to_nat seqLen in
        let '(ret, seq) := Dtls13EncryptDecryptRecordNumber c (slice 1 n input)
                             (drop (Z.to_nat idx) input) n in
        if negb (ret =? 0) then (ret, input, HdrInfo len 0 0 false bits)
        else
          (0, blit 1 seq input,
           if seqLen =? DTLS13_SEQ_16_LEN then HdrInfo len (at_ seq 1) (at_ seq 0) true bits
           else HdrInfo len (at_ seq 0) 0 false bits).
End RecordNumber.

(** [next] is the decrypt epoch's nextPeerSeqNumber. *)
Definition ReconstructSeqNumber (hi : bool) (seqHi seqLo next : Z) : Z :=
  let seqLowBits := if hi then u16 (Z.lor (Z.shiftl seqHi 8) seqLo) else seqLo in
  let mask := if hi then 0xffff else 0xff in
  let shift := if hi then Z.shiftl 1 16 else Z.shiftl 1 8 in
  let out32 := w64GetLow32 next in
  let expectedLowBits := u16 (Z.land out32 mask) in
  let out32 := Z.lor (Z.land out32 (u32 (Z.lnot mask))) seqLowBits in
  let out := w64SetLow32 next out32 in
  if expectedLowBits <=? seqLowBits then
    if shift / 2 <? u32 (seqLowBits - expectedLowBits) then
      let '(temp, wrap) := w64Sub32 out shift false in
      if wrap then out else temp
    else out
  else
    if shift / 2 <? u32 (expectedLowBits - seqLowBits) then
      let '(temp, wrap) := w64Add32 out shift false in
      if wrap then out else temp
    else out.

Definition Dtls13ReconstructSeqNumber (s : conn) (h : Dtls13UnifiedHdrInfo) : Z :=
  match deref s (decryptEpoch s) with
  | None => 0
  | Some e => ReconstructSeqNumber (seqHiPresent h) (seqHi h) (seqLo h) (nextPeerSeqNumber e)
  end.

(** ** Reading record headers *)

Section RecordHeader.
Context (aes_direct : list Z -> list Z -> Z * list Z) (set_key : list Z -> Z) (key_size : nat).

(** Bytes left in the input buffer (an unsigned subtraction). *)
Definition bytes_left (r : reader) : Z :=
  u32 (Z.of_nat (length (inputBuffer r)) - Z.of_nat (inputIdx r)).

(** The buffer from the read index on, and the update of that part. *)
Definition input_at (r : reader) : list Z := drop (inputIdx r) (inputBuffer r).
Definition set_input_at (l : list Z) (r : reader) : reader :=
  set_input (take (inputIdx r) (inputBuffer r) ++ l) (inputIdx r) r.
Definition advance (n : nat) (r : reader) : reader :=
  set_input (inputBuffer r) (inputIdx r + n) r.

Definition set_epoch_keys (n sd : Z) : M reader Z :=
  fun r => let '(ret, c) := Dtls13SetEpochKeys set_key key_size n sd (rconn r) in
           (inr ret, set_rconn c r).

(** The assignments that end [GetDtls13RecordHeader]. *)
Definition accept_header (epochNum : Z) (hdrInfo : Dtls13UnifiedHdrInfo) (rlLen : Z)
    (r : reader) : reader :=
  let r := set_curRL (RLH application_data (version_major r) DTLSv1_2_MINOR
                        (c16toa (recordLength hdrInfo))) (recordLength hdrInfo) r in
  let r := set_rconn (set_cur epochNum (curSeq (rconn r)) (rconn r)) r in
  let r := set_rconn (set_cur epochNum (Dtls13ReconstructSeqNumber (rconn r) hdrInfo)
                        (rconn r)) r in
  let r := set_dtls13CurRL (take (Z.to_nat rlLen) (input_at r)) rlLen r in
  advance (Z.to_nat rlLen) r.

Definition GetDtls13RecordHeader : M reader unit :=
  (let! r := get in
   let readSize := s32 (bytes_left r) in
   if readSize <? DTLS_UNIFIED_HEADER_MIN_SZ then fail BUFFER_ERROR else
   let epochBits := Z.land (at_ (input_at r) 0) EE_MASK in
   let '(rc, epochNum) := Dtls13ReconstructEpochNumber epochBits (rconn r) in
   if negb (rc =? 0) then fail rc else
   if w64IsZero epochNum then fail SEQUENCE_ERROR else
   match deref (rconn r) (decryptEpoch (rconn r)) with
   | None => fail BAD_STATE_E
   | Some e =>
       let! rc := (if w64Equal (epochNumber e) epochNum then ret 0
                   else set_epoch_keys epochNum DECRYPT_SIDE_ONLY) in
       if negb (rc =? 0) then fail SEQUENCE_ERROR else
       let rlLen := Dtls13GetUnifiedHeaderSize (at_ (input_at r) 0) in
       modify (fun r => set_dtls13CurRL (dtls13CurRL r) rlLen r) ;;;
       if DTLS_RECVD_RL_HEADER_MAX_SZ <? rlLen then fail SEQUENCE_ERROR else
       if readSize <? rlLen + DTLS13_RN_MASK_SIZE then fail DTLS_PARTIAL_RECORD_READ else
       let! r := get in
       let '(rc, input, hdrInfo) :=
         Dtls13ParseUnifiedRecordLayer aes_direct (dec_ctx (rconn r)) (input_at r) (u16 readSize) in
       modify (set_input_at input) ;;;
       if negb (rc =? 0) then fail rc else
       modify (accept_header epochNum hdrInfo rlLen)
   end)%c.

(** ssl->dtls13Rtx.sendAcks = 1. *)
Definition set_sendAcks (r : reader) : reader := set_flags (seenUnifiedHdr r) true (decryptedCur r) r.

Definition lost_server_hello (r : reader) : bool :=
  (side (rconn r) =? WOLFSSL_CLIENT_END) && (serverState r <? SERVER_HELLO_COMPLETE)
  && IsAtLeastTLSv1_3 (version_major r) (version_minor r) && negb (handShakeDone (rconn r)).

Definition unified_path : M reader unit :=
  (modify (fun r => set_flags true (sendAcks r) (decryptedCur r) r) ;;;
   let! r := get in
   let discard : M reader unit :=
     (let! r := get in
      (if lost_server_hello r then modify set_sendAcks else ret tt) ;;; fail SEQUENCE_ERROR)%c in
   if tls1_3 r then
     fun r => match GetDtls13RecordHeader r with
              | (inr tt, r') => (inr tt, r')
              | (inl e, r') => if negb (e =? SEQUENCE_ERROR) && negb (e =? DTLS_CID_ERROR)
                               then (inl e, r') else discard r'
              end
   else discard)%c.

Definition GetDtlsRecordHeader : M reader unit :=
  (let! r := get in
   if Dtls13IsUnifiedHeader (at_ (input_at r) 0) then unified_path
   else if bytes_left r <? DTLS_RECORD_HEADER_SZ then fail DTLS_PARTIAL_RECORD_READ
   else
     let h := input_at r in
     let rh := RLH (at_ h 0) (at_ h 1) (at_ h 2) (rh_length (curRL r)) in
     modify (set_curRL rh (curSize r)) ;;; modify (advance 3) ;;;
     let epoch := ato16 (drop 3 h) in
     modify (fun r => set_cur12 epoch (curSeq_hi r) (curSeq_lo r) r) ;;;
     if (pvMajor rh =? DTLS_MAJOR) && (pvMinor rh =? DTLS_BOGUS_MINOR) then fail SEQUENCE_ERROR
     else
       (if IsAtLeastTLSv1_3 (version_major r) (version_minor r) then
          if negb (epoch =? 0) then fail SEQUENCE_ERROR
          else
            modify (fun r => set_rconn (set_cur 0 (curSeq (rconn r)) (rconn r)) r) ;;;
            match deref (rconn r) (decryptEpoch (rconn r)) with
            | Some e => if negb (w64IsZero (epochNumber e))
                        then set_epoch_keys 0 DECRYPT_SIDE_ONLY ;;; ret tt else ret tt
            | None => ret tt
            end
        else ret tt) ;;;
       let hi := ato16 (drop 5 h) in
       let lo := ato32 (drop 7 h) in
       modify (fun r => set_cur12 (curEpoch r) hi lo r) ;;;
       modify (fun r => set_rconn (set_cur (curEpoch64 (rconn r)) (w64From32 hi lo) (rconn r)) r) ;;;
       modify (fun r => set_curRL (curRL r) (ato16 (drop 11 h)) r) ;;;
       modify (advance 10))%c.

(** The version test of [GetRecordHeader]: [Some e] is the early return. *)
Definition version_check (r : reader) : option Z :=
  let rh := curRL r in
  if negb (pvMajor rh =? version_major r)
     || (negb (pvMinor rh =? version_minor r)
         && (negb (IsAtLeastTLSv1_3 (version_major r) (version_minor r))
             || negb (pvMinor rh =? DTLSv1_2_MINOR)))
  then
    if (side (rconn r) =? WOLFSSL_SERVER_END) && (acceptState r <? ACCEPT_FIRST_REPLY_DONE)
    then None
    else if (side (rconn r) =? WOLFSSL_CLIENT_END) && downgrade r
            && (connectState r <? FIRST_REPLY_DONE) then None
    else if rh_type rh =? handshake then None
    else if negb (handShakeDone (rconn r)) then
      if Dtls13IsUnifiedHeader (at_ (inputBuffer r) 0) then Some SEQUENCE_ERROR else None
    else if negb ((side (rconn r) =? WOLFSSL_CLIENT_END)
                  && (connectState r =? CLIENT_HELLO_SENT) && (rh_type rh =? alert)
                  && (pvMajor rh =? version_major r) && (pvMinor rh =? DTLS_MINOR))
    then Some VERSION_ERROR else None
  else None.

Definition window12_check (r : reader) : bool :=
  let rh := curRL r in
  negb (_DtlsCheckWindow (curEpoch r) (curSeq_hi r) (curSeq_lo r) (peer12 r))
  || ((rh_type rh =? application_data) && (curEpoch r =? 0))
  || ((rh_type rh =? alert) && handShakeDone (rconn r) && (curEpoch r =? 0)
      && negb (dtls_epoch r =? 0)).

Definition known_type (t : Z) : bool :=
  existsb (Z.eqb t) [handshake; change_cipher_spec; application_data; alert; ack].

(** The DTLS branch; the checks after [GetDtlsRecordHeader] in order. *)
Definition GetRecordHeader : M reader unit :=
  (GetDtlsRecordHeader ;;;
   let! r := get in
   if negb (IsAtLeastTLSv1_3 (version_major r) (version_minor r)) && window12_check r
   then fail SEQUENCE_ERROR
   else match version_check r with
   | Some e => fail e
   | None =>
       if MAX_RECORD_SIZE + MAX_COMP_EXTRA + MAX_MSG_EXTRA <? curSize r then fail LENGTH_ERROR
       else if (curSize r =? 0) && negb (rh_type (curRL r) =? application_data)
       then fail LENGTH_ERROR
       else if negb (known_type (rh_type (curRL r))) then fail UNKNOWN_RECORD_TYPE
       else modify (fun r => set_flags (seenUnifiedHdr r) (sendAcks r) false r)
   end)%c.
End RecordHeader.

(** ** The handshake header *)

Record HsHeader := HsHdr { hh_type : Z; hh_size : Z; hh_fragOffset : Z; hh_fragSz : Z }.

(** [input] is the whole message buffer, [totalSz] its size; the code, the
    updated index, the header fields and the state with the peer's handshake
    number. *)
Definition GetDtlsHandShakeHeader (input : list Z) (inOutIdx totalSz : Z) (r : reader)
    : Z * Z * HsHeader * reader :=
  let idx := Z.to_nat inOutIdx in
  let inOutIdx := u32 (inOutIdx + DTLS_HANDSHAKE_HEADER_SZ) in
  if totalSz <? inOutIdx then (BUFFER_E, inOutIdx, HsHdr 0 0 0 0, r)
  else
    let type := at_ input idx in
    let size := c24to32 (drop (idx + 1) input) in
    let r := set_peer_hs (ato16 (drop (idx + 4) input)) r in
    let fragOffset := c24to32 (drop (idx + 6) input) in
    let fragSz := c24to32 (drop (idx + 9) input) in
    let v13 := IsAtLeastTLSv1_3 (version_major r) (version_minor r) in
    let ret :=
      if negb (pvMajor (curRL r) =? version_major r)
         || (negb v13 && negb (pvMinor (curRL r) =? version_minor r))
         || (v13 && negb (pvMinor (curRL r) =? DTLSv1_2_MINOR))
      then if negb (type =? client_hello) && negb (type =? hello_verify_request)
              && negb (type =? server_hello) then VERSION_ERROR else 0
      else 0 in
    (ret, inOutIdx, HsHdr type size fragOffset fragSz, r).

(** ** Lemmas: buffers *)

Lemma blit_pre {A} n (pre src rest : list A) :
  length pre = n -> (length src <= length rest)%nat ->
  blit n src (pre ++ rest) = pre ++ src ++ drop (length src) rest.
Proof.
  intros <- L. unfold blit. rewrite take_app_length, length_app.
  rewrite (take_ge src) by lia. f_equal. f_equal.
  rewrite drop_app_ge by lia. f_equal. lia.
Qed.

Lemma blit_start {A} (src rest : list A) : (length src <= length rest)%nat ->
  blit 0 src rest = src ++ drop (length src) rest.
Proof. apply (blit_pre 0 []). done. Qed.

(** The header writers fill consecutive fields: each [blit] extends the prefix
    written so far. *)
Lemma blit_next {A} n (pre src l : list A) :
  length pre = n -> (n + length src <= length l)%nat ->
  blit n src (pre ++ drop n l) = (pre ++ src) ++ drop (n + length src) l.
Proof.
  intros E L1. rewrite blit_pre by (rewrite ?length_drop; lia).
  rewrite drop_drop, <- app_assoc. done.
Qed.

(** ** Lemmas: reconstruction of the sequence number *)

Lemma low_bits_replace k x lo : 0 <= k <= 32 -> is_u32 x -> in_word k lo ->
  Z.lor (Z.land x (u32 (Z.lnot (Z.ones k)))) lo = x - x mod 2 ^ k + lo.
Proof.
  intros Hk Hx Hl.
  assert (Z.land x (u32 (Z.lnot (Z.ones k))) = Z.shiftl (Z.shiftr x k) k) as ->.
  { bitwise i. destruct (Z.lt_ge_cases i k).
    - rewrite (Z.testbit_neg_r _ (i - k)) by lia.
      rewrite Z.lnot_spec, testbit_ones by lia.
      replace (0 <=? i) with true by lia. replace (i <? k) with true by lia. btauto.
    - rewrite Z.shiftr_spec by lia. replace (i - k + k) with i by lia.
      rewrite Z.lnot_spec, testbit_ones by lia. replace (i <? k) with false by lia.
      destruct (Z.ltb_spec i 32); [btauto|]. rewrite (testbit_high 32 x) by (unfold in_word in *; lia).
      done. }
  rewrite lor_shiftl_add by (unfold in_word in Hl; lia).
  rewrite Z.shiftr_div_pow2 by lia. pose proof (Z.div_mod x (2 ^ k)).
  assert (2 ^ k <> 0) by (apply Z.pow_nonzero; lia). lia.
Qed.

Definition seq_bits (hi : bool) : Z := if hi then 16 else 8.

(** The low bits the header carries. *)
Definition low_bits (hi : bool) (q : Z) : Z * Z :=
  if hi then (q / 2 ^ 8 mod 2 ^ 8, q mod 2 ^ 8) else (0, q mod 2 ^ 8).

Lemma lor_hi_lo h l : is_byte h -> is_byte l -> u16 (Z.lor (Z.shiftl h 8) l) = 256 * h + l.
Proof.
  intros Hh Hl. unfold is_byte in *. rewrite lor_shiftl_add by lia. lia_mod.
Qed.

Definition recon_num (M next lo : Z) : Z :=
  let e := next mod M in
  let base := next - e + lo in
  if e <=? lo then if M / 2 <? lo - e then if base <? M then base else base - M else base
  else if M / 2 <? e - lo then if 2 ^ 64 <=? base + M then base else base + M else base.

(** The candidate built from the expected number and the received low bits. *)
Lemma recon_base k next lo : k = 8 \/ k = 16 -> is_u64 next -> in_word k lo ->
  w64SetLow32 next (Z.lor (Z.land (w64GetLow32 next) (u32 (Z.lnot (Z.ones k)))) lo)
  = next - next mod 2 ^ k + lo
  /\ u16 (Z.land (w64GetLow32 next) (Z.ones k)) = next mod 2 ^ k.
Proof.
  intros Hk Hn Hl. unfold w64GetLow32. split.
  - rewrite low_bits_replace by (lia || (apply wrap_range; lia) || done).
    rewrite w64SetLow32_spec; [|done|].
    + destruct Hk as [-> | ->]; unfold in_word, wrap in *; lia_mod.
    + destruct Hk as [-> | ->]; unfold in_word, wrap in *; lia_mod.
  - rewrite <- wrap_land_ones by lia. destruct Hk as [-> | ->]; lia_mod.
Qed.

Lemma ReconstructSeqNumber_num hi h l next :
  is_byte h -> is_byte l -> is_u64 next ->
  ReconstructSeqNumber hi h l next
  = recon_num (2 ^ seq_bits hi) next (if hi then 256 * h + l else l).
Proof.
  intros Hh Hl Hn. unfold ReconstructSeqNumber, recon_num, w64Sub32, w64Add32.
  destruct hi; cbn [seq_bits].
  - rewrite lor_hi_lo by done. change 65535 with (Z.ones 16).
    destruct (recon_base 16 next (256 * h + l)) as [-> ->];
      [auto | done | unfold is_byte in *; unfold in_word; lia |].
    change (Z.shiftl 1 16) with (2 ^ 16). unfold is_byte in *.
    destruct (_ <=? _) eqn:E.
    + rewrite (wrap_small 32) by (unfold in_word; lia_mod). destruct (_ <? _); [|done].
      destruct (_ <? _) eqn:E2; [done|]. apply wrap_small. unfold in_word. lia_mod.
    + rewrite (wrap_small 32) by (unfold in_word; lia_mod). destruct (_ <? _); [|done].
      unfold in_word, wrap in *. destruct (Z.ltb_spec ((next - next mod 2 ^ 16 + (256 * h + l) + 2 ^ 16) mod 2 ^ 64) (2 ^ 16)),
        (Z.leb_spec (2 ^ 64) (next - next mod 2 ^ 16 + (256 * h + l) + 2 ^ 16)); lia_mod.
  - change 255 with (Z.ones 8).
    destruct (recon_base 8 next l) as [-> ->];
      [auto | done | unfold is_byte in *; unfold in_word; lia |].
    change (Z.shiftl 1 8) with (2 ^ 8). unfold is_byte in *.
    destruct (_ <=? _) eqn:E.
    + rewrite (wrap_small 32) by (unfold in_word; lia_mod). destruct (_ <? _); [|done].
      destruct (_ <? _) eqn:E2; [done|]. apply wrap_small. unfold in_word. lia_mod.
    + rewrite (wrap_small 32) by (unfold in_word; lia_mod). destruct (_ <? _); [|done].
      unfold in_word, wrap in *. destruct (Z.ltb_spec ((next - next mod 2 ^ 8 + l + 2 ^ 8) mod 2 ^ 64) (2 ^ 8)),
        (Z.leb_spec (2 ^ 64) (next - next mod 2 ^ 8 + l + 2 ^ 8)); lia_mod.
Qed.

Ltac solve_near a b :=
  change (2 ^ 8 / 2) with 128 in *; change (2 ^ 16 / 2) with 32768 in *;
  assert (a <= b - 2 \/ a = b - 1 \/ a = b \/ a = b + 1 \/ b + 2 <= a)
    as [?|[?|[?|[?|?]]]] by lia; subst; lia.

Lemma recon_closest M next lo q :
  M = 2 ^ 8 \/ M = 2 ^ 16 -> is_u64 next -> 0 <= lo < M -> is_u64 q -> q mod M = lo ->
  let out := recon_num M next lo in
  is_u64 out /\ out mod M = lo /\ Z.abs (out - next) <= Z.abs (q - next)
  /\ (Z.abs (q - next) < M / 2 -> out = q).
Proof.
  intros HM Hn Hlo Hq Hm. unfold recon_num, in_word in *. cbn zeta.
  assert (0 < M) as HM0 by (destruct HM as [-> | ->]; lia).
  pose proof (Z.div_mod q M ltac:(lia)) as Eq. pose proof (Z.div_mod next M ltac:(lia)) as En.
  pose proof (Z.mod_pos_bound next M HM0). rewrite Hm in Eq.
  set (e := next mod M) in *. set (b := next / M) in *. set (a := q / M) in *.
  assert (forall c, 0 <= c < 2 ^ 64 -> c = M * (c / M) + lo -> c mod M = lo) as R.
  { intros c _ Ec. rewrite Ec, Z.mul_comm, Z.add_comm, Z_mod_plus_full.
    apply Z.mod_small. lia. }
  assert (forall x, (M * x + lo) mod M = lo) as R'.
  { intros x. rewrite Z.mul_comm, Z.add_comm, Z_mod_plus_full. apply Z.mod_small. lia. }
  clear R. clearbody e b a.
  destruct HM as [-> | ->];
    destruct (Z.leb_spec e lo);
    repeat match goal with
    | |- context [?x <? ?y] => destruct (Z.ltb_spec x y)
    | |- context [?x <=? ?y] => destruct (Z.leb_spec x y)
    end;
    (split_and!; [lia | lia |
      match goal with |- ?t mod ?M = lo =>
        first [ transitivity ((M * b + lo) mod M); [f_equal; lia | apply R']
              | transitivity ((M * (b - 1) + lo) mod M); [f_equal; lia | apply R']
              | transitivity ((M * (b + 1) + lo) mod M); [f_equal; lia | apply R'] ]
      end | solve_near a b | solve_near a b]).
Qed.

Lemma low_bits_num hi q : is_u64 q ->
  let '(h, l) := low_bits hi q in
  is_byte h /\ is_byte l /\ (if hi then 256 * h + l else l) = q mod 2 ^ seq_bits hi.
Proof.
  intros Hq. unfold low_bits, is_byte. destruct hi; cbn [seq_bits]; split_and!; lia_mod.
Qed.

(** C20: The sequence number of a protected record is reconstructed as RFC 9147
    section 4.2.2 asks: for the 8- or 16-bit field of any sequence number [q],
    the result has those low bits and no 64-bit number with them is closer to
    the next expected one; so every [q] less than half the field's range away
    from the expected number is recovered exactly, near 0 and 2^64 too. *)
Theorem reconstruct_seq_closest (hi : bool) next q
    (Hn : is_u64 next) (Hq : is_u64 q) :
  let '(h, l) := low_bits hi q in
  let out := ReconstructSeqNumber hi h l next in
  is_u64 out
  /\ low_bits hi out = low_bits hi q
  /\ (forall q', is_u64 q' -> low_bits hi q' = low_bits hi q ->
        Z.abs (out - next) <= Z.abs (q' - next))
  /\ (Z.abs (q - next) < 2 ^ (seq_bits hi - 1) -> out = q).
Proof.
  assert (forall q', low_bits hi q' = low_bits hi q <->
            q' mod 2 ^ seq_bits hi = q mod 2 ^ seq_bits hi) as LB.
  { intros q'. unfold low_bits. destruct hi; cbn [seq_bits].
    - split; [intros [= E1 E2]; lia_mod | intros E; apply (f_equal2 pair); lia_mod].
    - split; [intros [= E2]; lia_mod | intros E; apply (f_equal2 pair); lia_mod]. }
  pose proof (low_bits_num hi q Hq) as L. destruct (low_bits hi q) as [h l] eqn:E.
  destruct L as (Bh & Bl & Lo). cbn zeta.
  rewrite ReconstructSeqNumber_num, Lo by done.
  assert (2 ^ seq_bits hi = 2 ^ 8 \/ 2 ^ seq_bits hi = 2 ^ 16) as HM by (destruct hi; auto).
  assert (0 <= q mod 2 ^ seq_bits hi < 2 ^ seq_bits hi) as R
    by (apply Z.mod_pos_bound; destruct hi; cbn; lia).
  destruct (recon_closest _ next _ q HM Hn R Hq eq_refl) as (U & Mo & _ & X).
  split_and!; [done | apply LB, Mo | | ].
  - intros q' U' E'. apply LB in E'. apply (recon_closest _ next _ q' HM Hn R U' E').
  - intros A. apply X.
    replace (2 ^ seq_bits hi / 2) with (2 ^ (seq_bits hi - 1)) by (destruct hi; done). done.
Qed.

Lemma reconstruct_seq_closest_witness :
  ReconstructSeqNumber false 0 3 510 = 515 /\ ReconstructSeqNumber true 255 255 65536 = 65535.
Proof.
  split.
  - apply (reconstruct_seq_closest false 510 515); vm_compute; split; congruence.
  - apply (reconstruct_seq_closest true 65536 65535); vm_compute; split; congruence.
Defined.

(** ** Lemmas: the unified header *)

(** The flag byte written: fixed bits, 16-bit sequence number, length. *)
Definition unified_flags (n : Z) : Z := 0x2c + n mod 4.

Lemma four_cases n : exists k, (k = 0 \/ k = 1 \/ k = 2 \/ k = 3) /\ n mod 4 = k.
Proof. exists (n mod 4). split; [lia_mod | done]. Qed.

Ltac by_flag_cases n :=
  unfold unified_flags; destruct (four_cases n) as (k & [->|[->|[->| ->]]] & ->); done.

Lemma flags_len n : negb (Z.land (unified_flags n) DTLS13_LEN_BIT =? 0) = true.
Proof. by_flag_cases n. Qed.
Lemma flags_seq n : negb (Z.land (unified_flags n) DTLS13_SEQ_LEN_BIT =? 0) = true.
Proof. by_flag_cases n. Qed.
Lemma flags_epoch n : Z.land (unified_flags n) EE_MASK = n mod 4.
Proof. by_flag_cases n. Qed.
Lemma flags_unified n : Dtls13IsUnifiedHeader (unified_flags n) = true.
Proof. by_flag_cases n. Qed.
Lemma flags_size n : Dtls13GetUnifiedHeaderSize (unified_flags n) = 5.
Proof. by_flag_cases n. Qed.

Lemma c16toa_pair x : exists a b, c16toa x = [a; b] /\ is_byte a /\ is_byte b.
Proof. unfold c16toa. eexists _, _. split; [reflexivity|]. split; apply u8_byte. Qed.

Lemma RlAddCiphertextHeader_ok len out s e :
  deref s (encryptEpoch s) = Some e -> is_u64 (epochNumber e) -> (5 <= length out)%nat ->
  Dtls13RlAddCiphertextHeader len out s
  = (0, [unified_flags (epochNumber e)] ++ c16toa (u16 (nextSeqNumber e)) ++ c16toa len
          ++ drop 5 out).
Proof.
  intros He Hn L. unfold Dtls13RlAddCiphertextHeader. rewrite He, epoch_bits by done.
  f_equal.
  replace (u16 (w64GetLow32 (nextSeqNumber e))) with (u16 (nextSeqNumber e))
    by (symmetry; apply wrap_wrap_le; lia).
  replace (Z.lor (Z.lor (Z.lor DTLS13_FIXED_BITS (epochNumber e mod 4)) DTLS13_SEQ_LEN_BIT)
             DTLS13_LEN_BIT) with (unified_flags (epochNumber e))
    by (unfold unified_flags; destruct (four_cases (epochNumber e)) as (k & Hk & ->);
        destruct Hk as [->|[->|[->| ->]]]; done).
  rewrite blit_start by (cbn; lia).
  rewrite (blit_next 1 [_]) by (rewrite ?length_c16toa; done || lia).
  rewrite length_c16toa. cbn [Nat.add].
  rewrite blit_next by (rewrite ?length_app, ?length_c16toa; done || lia).
  rewrite length_c16toa, <- !app_assoc. done.
Qed.

(** A protected record on the wire: the header with its masked number. *)
Definition masked (m : list Z) (n q len : Z) (ct : list Z) : list Z :=
  [unified_flags n] ++ xor_bytes 2 (c16toa (u16 q)) m ++ c16toa len ++ ct.

Section RnMask.
Context (aes_direct : list Z -> list Z -> Z * list Z).
(** wc_AesEncryptDirect on a full block succeeds and writes 16 bytes. *)
Hypothesis aes_block : forall k b, length b = 16%nat ->
  exists m, aes_direct k b = (0, m) /\ length m = 16%nat /\ bytes m.

Lemma EncryptDecrypt_ok c k a b ct m :
  c_sn c = Some k -> aes_direct k (take 16 ct) = (0, m) -> length m = 16%nat ->
  bytes m -> is_byte a -> is_byte b ->
  Dtls13EncryptDecryptRecordNumber aes_direct c [a; b] ct 2 = (0, xor_bytes 2 [a; b] m).
Proof.
  intros Hc Ha Lm Bm Ba Bb. unfold Dtls13EncryptDecryptRecordNumber, Dtls13GetRnMask.
  rewrite Hc, Ha. cbn [negb Z.eqb].
  rewrite xorbuf_xor_bytes by (try done; try (cbn; lia); repeat (apply Forall_cons_2; [done|]); apply Forall_nil_2).
  done.
Qed.

Lemma xor_pair a b m : (2 <= length m)%nat -> bytes m -> is_byte a -> is_byte b ->
  exists x y, xor_bytes 2 [a; b] m = [x; y] /\ is_byte x /\ is_byte y.
Proof.
  intros L Bm Ba Bb. destruct m as [|m0 [|m1 m]]; cbn in L; [lia|lia|].
  inversion Bm as [|?? B0 Bm1]; subst. inversion Bm1 as [|?? B1 _]; subst.
  cbn [xor_bytes]. eexists _, _. split; [reflexivity|].
  split; apply (lxor_range 8); unfold is_byte in *; unfold in_word; lia.
Qed.

Lemma EncryptRecordNumber_ok s n q len ct k :
  c_sn (enc_ctx s) = Some k -> (16 <= length ct)%nat -> len = Z.of_nat (length ct) ->
  exists m, aes_direct k (take 16 ct) = (0, m) /\ length m = 16%nat /\ bytes m
    /\ Dtls13EncryptRecordNumber aes_direct
         ([unified_flags n] ++ c16toa (u16 q) ++ c16toa len ++ ct) (5 + len) s
       = (0, masked m n q len ct).
Proof.
  intros Hk L ->. destruct (aes_block k (take 16 ct)) as (m & Em & Lm & Bm).
  { rewrite length_take. lia. }
  exists m. split_and!; try done. unfold Dtls13EncryptRecordNumber, masked.
  change Dtls13MinimumRecordLength with 21.
  replace (5 + Z.of_nat (length ct) <? 21) with false by lia.
  destruct (c16toa_pair (u16 q)) as (a & b & -> & Ba & Bb).
  destruct (c16toa_pair (Z.of_nat (length ct))) as (c & d & -> & _).
  destruct (xor_pair a b m ltac:(lia) Bm Ba Bb) as (x & y & Ex & _).
  assert (Dtls13EncryptDecryptRecordNumber aes_direct (enc_ctx s) [a; b] ct 2
          = (0, [x; y])) as ED by (rewrite <- Ex; eapply EncryptDecrypt_ok; eassumption).
  rewrite Ex. cbn [app at_ nth]. rewrite flags_len. cbv zeta.
  change (slice 1 _ _) with [a; b]. change (drop (Z.to_nat _) _) with ct.
  change (Z.to_nat DTLS13_SEQ_16_LEN) with 2%nat. rewrite ED. reflexivity.
Qed.
(** The peer parses the masked header, whatever follows the ciphertext. *)
Lemma Parse_masked c k m n q len ct post sz :
  c_sn c = Some k -> aes_direct k (take 16 ct) = (0, m) -> length m = 16%nat -> bytes m ->
  (16 <= length ct)%nat -> len = Z.of_nat (length ct) -> is_u16 len -> 21 <= sz ->
  exists a b, c16toa (u16 q) = [a; b] /\
  Dtls13ParseUnifiedRecordLayer aes_direct c (masked m n q len ct ++ post) sz
  = (0, [unified_flags n; a; b] ++ c16toa len ++ ct ++ post, HdrInfo len b a true (n mod 4)).
Proof.
  intros Hc Em Lm Bm L Hlen Ul Hsz. unfold Dtls13ParseUnifiedRecordLayer, masked.
  destruct (c16toa_pair (u16 q)) as (a & b & Eq & Ba & Bb). exists a, b. split; [done|].
  destruct (c16toa_pair len) as (l0 & l1 & El & _). rewrite Eq, El.
  destruct (xor_pair a b m ltac:(lia) Bm Ba Bb) as (x & y & Ex & Bx & By).
  assert (Dtls13EncryptDecryptRecordNumber aes_direct c [x; y] (ct ++ post) 2
          = (0, [a; b])) as ED.
  { rewrite <- (xor_bytes_invol 2 [a; b] m), Ex. eapply EncryptDecrypt_ok; try eassumption.
    rewrite take_app_le by lia. done. }
  rewrite Ex. cbn [app at_ nth]. rewrite flags_len, flags_seq, flags_epoch. cbv zeta.
  change (DTLS13_HDR_FLAGS_SIZE + DTLS13_SEQ_16_LEN) with 3.
  change DTLS13_HDR_FLAGS_SIZE with 1. change DTLS13_LEN_SIZE with 2.
  replace (sz <? 1) with false by lia. replace (sz <? 3) with false by lia.
  replace (sz <? 3 + 2) with false by lia. cbn [andb].
  change (drop (Z.to_nat 3) _) with ([l0; l1] ++ ct ++ post).
  rewrite <- El, ato16_c16toa by done.
  change DTLS13_RN_MASK_SIZE with 16. replace (len <? 16) with false by lia.
  replace (sz <? 3 + 2 + 16) with false by lia.
  change (slice 1 _ _) with [x; y]. change (drop (Z.to_nat (3 + 2)) _) with (ct ++ post).
  change (Z.to_nat DTLS13_SEQ_16_LEN) with 2%nat. rewrite ED. reflexivity.
Qed.
End RnMask.

(** ** The record header round trip *)

(** The number in a reconstructed epoch/sequence header. *)
Lemma reconstruct_exact a b q next : c16toa (u16 q) = [a; b] -> is_u64 q -> is_u64 next ->
  Z.abs (q - next) < 2 ^ 15 -> ReconstructSeqNumber true a b next = q.
Proof.
  intros Eq Uq Un A.
  assert (low_bits true q = (a, b)) as E.
  { unfold c16toa in Eq. injection Eq as <- <-. unfold low_bits.
    assert (is_u16 (u16 q)) as Hu by (apply wrap_range; lia). unfold in_word in *.
    rewrite Z.shiftr_div_pow2 by lia.
    rewrite !byte_mask by (try apply Z.div_pos; lia).
    unfold wrap. change (2 ^ 8) with 256. change (2 ^ 16) with 65536.
    apply (f_equal2 pair); lia_mod. }
  assert (0 <= a < 256 /\ 0 <= b < 256) as [Ba Bb].
  { pose proof (low_bits_num true q Uq) as L. rewrite E in L.
    destruct L as (La & Lb & _). done. }
  pose proof (low_bits_num true q Uq) as L. rewrite E in L. destruct L as (_ & _ & L).
  rewrite ReconstructSeqNumber_num by done. rewrite L.
  eapply (recon_closest (2 ^ 16) next (q mod 2 ^ 16) q); [auto|done| |done|done|exact A].
  apply Z.mod_pos_bound. done.
Qed.

Section RoundTrip.
Context (aes_direct : list Z -> list Z -> Z * list Z) (set_key : list Z -> Z) (key_size : nat).
Hypothesis aes_block : forall k b, length b = 16%nat ->
  exists m, aes_direct k b = (0, m) /\ length m = 16%nat /\ bytes m.

(** The connection [c'] in which the reader of [c] decrypts epoch [n]: [c]
    itself when that is the current epoch, otherwise after the switch. *)
Definition selects_epoch (n : Z) (c c' : conn) : Prop :=
  match deref c (decryptEpoch c) with
  | None => False
  | Some e => if w64Equal (epochNumber e) n then c' = c
              else Dtls13SetEpochKeys set_key key_size n DECRYPT_SIDE_ONLY c = (0, c')
  end.

(** A reader positioned at a masked record, followed by [post]. *)
Definition reads (r : reader) (n q len : Z) (m ct post : list Z) : Prop :=
  exists pre, inputBuffer r = pre ++ masked m n q len ct ++ post
    /\ inputIdx r = length pre /\ Z.of_nat (length (inputBuffer r)) < 2 ^ 16.

Lemma length_masked m n q len ct : length m = 16%nat ->
  length (masked m n q len ct) = (5 + length ct)%nat.
Proof.
  intros. unfold masked. rewrite !length_app, length_xor_bytes, !length_c16toa. done.
Qed.

Lemma reads_left r n q len m ct post : reads r n q len m ct post -> length m = 16%nat ->
  input_at r = masked m n q len ct ++ post
  /\ bytes_left r = 5 + Z.of_nat (length ct) + Z.of_nat (length post)
  /\ 5 + Z.of_nat (length ct) + Z.of_nat (length post) < 2 ^ 16.
Proof.
  intros (pre & Hb & Hi & Hs) Lm. unfold input_at, bytes_left. rewrite Hb in *. rewrite Hi.
  rewrite !length_app, length_masked in * by done.
  rewrite drop_app_length. split; [done|].
  rewrite wrap_small by (unfold in_word; lia). lia.
Qed.

Lemma GetDtls13RecordHeader_masked r c' d k m n q len ct post :
  reads r n q len m ct post ->
  0 < n -> is_u64 n -> is_u64 q ->
  Dtls13ReconstructEpochNumber (n mod 4) (rconn r) = (0, n) ->
  selects_epoch n (rconn r) c' ->
  deref c' (decryptEpoch c') = Some d -> is_u64 (nextPeerSeqNumber d) ->
  Z.abs (q - nextPeerSeqNumber d) < 2 ^ 15 ->
  c_sn (dec_ctx c') = Some k ->
  aes_direct k (take 16 ct) = (0, m) -> length m = 16%nat -> bytes m ->
  (16 <= length ct)%nat -> len = Z.of_nat (length ct) ->
  exists r', GetDtls13RecordHeader aes_direct set_key key_size r = (inr tt, r')
    /\ curEpoch64 (rconn r') = n /\ curSeq (rconn r') = q /\ curSize r' = len
    /\ rh_type (curRL r') = application_data
    /\ inputIdx r' = (inputIdx r + 5)%nat
    /\ take (length ct) (input_at r') = ct
    /\ dtls13CurRL r' = [unified_flags n] ++ c16toa (u16 q) ++ c16toa len
    /\ dec_ctx (rconn r') = dec_ctx c' /\ decryptEpoch (rconn r') = decryptEpoch c'
    /\ keys (rconn r') = keys c' /\ dtls13CurRlLength r' = 5
    /\ inputBuffer r' = take (inputIdx r) (inputBuffer r)
         ++ ([unified_flags n] ++ c16toa (u16 q) ++ c16toa len) ++ ct ++ post
    /\ epochs (rconn r') = epochs c'.
Proof.
  intros R Hn Un Uq Hrec Hsel Hd Ud Hq Hk Em Lm Bm L Hlen.
  destruct (reads_left _ _ _ _ _ _ _ R Lm) as (Hin & Hleft & Hsz).
  destruct R as (pre & Hb & Hi & _).
  unfold GetDtls13RecordHeader, bind, get. rewrite Hleft.
  rewrite sext_small by (change (32 - 1) with 31; lia).
  change DTLS_UNIFIED_HEADER_MIN_SZ with 2.
  replace (_ <? 2) with false by lia.
  assert (at_ (input_at r) 0 = unified_flags n) as H0 by (rewrite Hin; done).
  rewrite H0, flags_epoch, Hrec. cbn [negb Z.eqb]. unfold w64IsZero.
  replace (n =? 0) with false by lia.
  unfold selects_epoch in Hsel. destruct (deref (rconn r) _) as [e|]; [|done].
  assert (exists r1, (if w64Equal (epochNumber e) n then ret 0
            else set_epoch_keys set_key key_size n DECRYPT_SIDE_ONLY) r = (inr 0, r1)
          /\ r1 = set_rconn c' r) as (r1 & -> & E1).
  { destruct (w64Equal (epochNumber e) n).
    - exists r. split; [done|]. rewrite Hsel. destruct r; done.
    - exists (set_rconn c' r). unfold set_epoch_keys. rewrite Hsel. done. }
  subst r1. cbn [negb Z.eqb]. rewrite flags_size. unfold modify. cbv beta iota.
  change DTLS_RECVD_RL_HEADER_MAX_SZ with 5. change DTLS13_RN_MASK_SIZE with 16.
  replace (_ <? 5 + 16) with false by lia. cbn [Z.ltb Z.compare Pos.compare Pos.compare_cont].
  set (r2 := set_dtls13CurRL _ 5 _).
  change (input_at r2) with (input_at r). change (rconn r2) with c'. rewrite Hin.
  destruct (Parse_masked aes_direct (dec_ctx c') k m n q len ct post
              (u16 (5 + Z.of_nat (length ct) + Z.of_nat (length post))))
    as (a & b & Eab & EP); try done.
  { unfold in_word. lia. }
  { rewrite wrap_small by (unfold in_word; lia). lia. }
  rewrite EP. cbn [negb Z.eqb recordLength]. cbv beta iota zeta.
  set (input := [unified_flags n; a; b] ++ c16toa len ++ ct ++ post).
  eexists. split; [reflexivity|].
  assert (drop (inputIdx r) (take (inputIdx r) (inputBuffer r) ++ input) = input) as Hdrop.
  { rewrite Hb, Hi, take_app_length, drop_app_length. done. }
  split_and!; try reflexivity.
  - change (match deref c' (decryptEpoch c') with
            | None => 0
            | Some e => ReconstructSeqNumber true a b (nextPeerSeqNumber e)
            end = q).
    rewrite Hd. apply reconstruct_exact; done.
  - change (take (length ct) (drop (inputIdx r + 5)
              (take (inputIdx r) (inputBuffer r) ++ input)) = ct).
    rewrite <- drop_drop, Hdrop. unfold input.
    change (take (length ct) (ct ++ post) = ct). apply take_app_length.
  - change (take 5 (drop (inputIdx r) (take (inputIdx r) (inputBuffer r) ++ input))
            = [unified_flags n] ++ c16toa (u16 q) ++ c16toa len).
    rewrite Hdrop, Eab. done.
  - change (take (inputIdx r) (inputBuffer r) ++ input
            = take (inputIdx r) (inputBuffer r)
              ++ ([unified_flags n] ++ c16toa (u16 q) ++ c16toa len) ++ ct ++ post).
    rewrite Eab, <- !app_assoc. done.
Qed.

(** C9: Record header round trip.  What [Dtls13RlAddCiphertextHeader] and
    [Dtls13EncryptRecordNumber] put in front of at least 16 bytes of ciphertext
    in epoch [n] with sequence number [q], a peer that knows the epoch, holds
    the same record number key and expects a number less than 2^15 away parses
    with [GetDtls13RecordHeader] - after switching its decryption epoch if it
    has to - as exactly epoch [n], number [q] and the ciphertext's length; the
    ciphertext is left at the read index, and the header it keeps as additional
    data is the sender's, with the record number in the clear. *)
Theorem record_header_roundtrip s r e c' d k n q len ct post out
    (He : deref s (encryptEpoch s) = Some e)
    (Hn : epochNumber e = n) (Hq : nextSeqNumber e = q)
    (Un : is_u64 n) (Pn : 0 < n) (Uq : is_u64 q)
    (Hks : c_sn (enc_ctx s) = Some k)
    (Lo : length out = 5%nat) (L : (16 <= length ct)%nat)
    (Hlen : len = Z.of_nat (length ct)) :
  exists hdr rec m,
    Dtls13RlAddCiphertextHeader len (out ++ ct) s = (0, hdr ++ ct)
    /\ length hdr = 5%nat
    /\ Dtls13EncryptRecordNumber aes_direct (hdr ++ ct) (5 + len) s = (0, rec)
    /\ rec = masked m n q len ct
    /\ (reads r n q len m ct post ->
        Dtls13ReconstructEpochNumber (n mod 4) (rconn r) = (0, n) ->
        selects_epoch n (rconn r) c' ->
        deref c' (decryptEpoch c') = Some d -> is_u64 (nextPeerSeqNumber d) ->
        Z.abs (q - nextPeerSeqNumber d) < 2 ^ 15 ->
        c_sn (dec_ctx c') = Some k ->
        exists r', GetDtls13RecordHeader aes_direct set_key key_size r = (inr tt, r')
          /\ curEpoch64 (rconn r') = n /\ curSeq (rconn r') = q /\ curSize r' = len
          /\ inputIdx r' = (inputIdx r + 5)%nat /\ take (length ct) (input_at r') = ct
          /\ dtls13CurRL r' = hdr).
Proof.
  assert (length ct < length (out ++ ct))%nat as Lt by (rewrite length_app; lia).
  destruct (EncryptRecordNumber_ok aes_direct aes_block s n q len ct k Hks L Hlen)
    as (m & Em & Lm & Bm & EE).
  exists ([unified_flags n] ++ c16toa (u16 q) ++ c16toa len), (masked m n q len ct), m.
  split_and!; try done.
  - rewrite (RlAddCiphertextHeader_ok _ _ _ e) by (rewrite ?Hn; done || lia).
    rewrite Hn, Hq, <- Lo, drop_app_length, <- !app_assoc. done.
  - intros R H1 H2 H3 H4 H5 H6.
    destruct (GetDtls13RecordHeader_masked r c' d k m n q len ct post)
      as (r' & E & X1 & X2 & X3 & _ & X5 & X6 & X7 & _); try done.
    exists r'. split_and!; done.
Qed.
End RoundTrip.

Definition demo_aes (k b : list Z) : Z * list Z :=
  (0, map (fun x => (x + at_ k 0) mod 256) b).

Lemma demo_aes_block k b : length b = 16%nat ->
  exists m, demo_aes k b = (0, m) /\ length m = 16%nat /\ bytes m.
Proof.
  intros L. eexists. split; [reflexivity|]. rewrite length_map. split; [done|].
  apply Forall_map, Forall_true. intros. apply Z.mod_pos_bound. lia.
Qed.

(** A client that numbered one record of epoch 2, and a server that knows the
    epoch but still decrypts epoch 0. *)
Definition demo_sender : conn :=
  snd (Dtls13GetSeq CUR_ORDER true
    (snd (Dtls13SetEpochKeys (fun _ => 0) 16 2 ENCRYPT_SIDE_ONLY
      (snd (Dtls13NewEpoch 2 ENCRYPT_AND_DECRYPT_SIDE demo_conn))))).
Definition demo_receiver : conn :=
  snd (Dtls13NewEpoch 2 ENCRYPT_AND_DECRYPT_SIDE
    (set_keys demo_keys (InitSSL_epochs WOLFSSL_SERVER_END))).

Definition demo_reader (c : conn) (buf : list Z) : reader :=
  Reader c buf 0 (RLH 0 0 0 []) 0 [] 0 DTLS_MAJOR DTLSv1_3_MINOR true 0 0 0 false false false
    0 0 0 0 (PeerSeq 0 0 0 [0; 0] 0 0 [0; 0]) true 0.

Definition demo_record : list Z :=
  snd (Dtls13EncryptRecordNumber demo_aes
    (snd (Dtls13RlAddCiphertextHeader 20 (repeat 0 5 ++ repeat 7 20) demo_sender)) 25 demo_sender).

Lemma record_header_roundtrip_witness :
  exists r', GetDtls13RecordHeader demo_aes (fun _ => 0) 16
               (demo_reader demo_receiver (demo_record ++ [9; 9])) = (inr tt, r')
    /\ curEpoch64 (rconn r') = 2 /\ curSeq (rconn r') = 1 /\ curSize r' = 20.
Proof.
  destruct (record_header_roundtrip demo_aes (fun _ => 0) 16 demo_aes_block demo_sender
    (demo_reader demo_receiver (demo_record ++ [9; 9])) (slot demo_sender 1)
    (snd (Dtls13SetEpochKeys (fun _ => 0) 16 2 DECRYPT_SIDE_ONLY demo_receiver))
    (slot demo_receiver 1) (repeat 5 16) 2 1 20 (repeat 7 20) [9; 9] (repeat 0 5))
    as (hdr & rec & m & E1 & _ & E2 & E3 & H);
    try reflexivity; try (unfold in_word; lia); try (cbn; lia).
  destruct H as (r' & E & A & B & C & _);
    try (vm_compute; reflexivity); try (vm_compute; split; congruence).
  - exists []. split; [|split; [reflexivity|vm_compute; reflexivity]].
    cbn [app inputBuffer demo_reader]. unfold demo_record. rewrite E1. cbn [snd].
    change 25 with (5 + 20). rewrite E2. cbn [snd]. rewrite <- E3. reflexivity.
  - exists r'. split_and!; assumption.
Defined.
