(* ===== verification/DtlsPlain.v ===== *)
(** * Plaintext and handshake headers: the theorems

    What the writers of DtlsRecord put in front of a plaintext record and of a
    handshake fragment is what the readers of internal.c get back, and what
    the header checks refuse. *)

From S2P Require Import Prelude Misc DtlsDefs DtlsEpoch DtlsWindow DtlsRecord.

(** ** The plaintext header round trip *)

Definition plain_header (t ep hi lo len : Z) : list Z :=
  [t; DTLS_MAJOR; DTLSv1_2_MINOR] ++ c16toa ep ++ c16toa hi ++ c32toa lo ++ c16toa len.

Lemma RlAddPlaintextHeader_ok t len out payload s i :
  epochs_wf s -> encryptEpoch s = Some i -> is_byte t -> length out = 13%nat ->
  let q := nextSeqNumber (slot s i) in
  q < 2 ^ 64 - 1 ->
  Dtls13RlAddPlaintextHeader t len (out ++ payload) s
  = (0, plain_header t (q / 2 ^ 48) (q / 2 ^ 32 mod 2 ^ 16) (q mod 2 ^ 32) len ++ payload,
     set_slot i (e_set_seq (q + 1) (slot s i)) s).
Proof.
  intros W He Ht Lo q Hq. unfold Dtls13RlAddPlaintextHeader.
  destruct (GetSeq_spec s i W He) as (hi & lo & _ & _).
  unfold Dtls13GetSeq. change (CUR_ORDER =? PEER_ORDER) with false.
  change (CUR_ORDER =? CUR_ORDER) with true. rewrite He. fold q.
  pose proof (ew_seq s W i) as Uq. fold q in Uq. unfold in_word in Uq.
  unfold w64Increment, w64IsZero. rewrite wrap_small by (unfold in_word; lia).
  replace (q + 1 =? 0) with false by lia. cbn [negb Z.eqb].
  replace (u16 (Z.shiftr (w64GetHigh32 q) 16)) with (q / 2 ^ 48)
    by (unfold w64GetHigh32; rewrite !Z.shiftr_div_pow2 by lia; lia_mod).
  replace (u16 (w64GetHigh32 q)) with (q / 2 ^ 32 mod 2 ^ 16)
    by (unfold w64GetHigh32; rewrite !Z.shiftr_div_pow2 by lia; lia_mod).
  change (w64GetLow32 q) with (q mod 2 ^ 32).
  rewrite (wrap_small 8 t) by done. f_equal. f_equal. unfold plain_header.
  assert (length (out ++ payload) = (13 + length payload)%nat) as L
    by (rewrite length_app; lia).
  rewrite blit_start by (cbn [length]; lia). change (length [_; _; _]) with 3%nat.
  rewrite blit_next by (rewrite ?length_c16toa; done || lia). rewrite length_c16toa.
  rewrite blit_next by (rewrite ?length_app, ?length_c16toa; done || lia).
  rewrite length_c16toa.
  rewrite blit_next by (rewrite ?length_app, ?length_c16toa, ?length_c32toa; done || lia).
  rewrite length_c32toa.
  rewrite blit_next by (rewrite ?length_app, ?length_c16toa, ?length_c32toa; done || lia).
  rewrite length_c16toa. change (3 + 2 + 2 + 4 + 2)%nat with 13%nat.
  rewrite <- Lo, drop_app_length, <- !app_assoc. done.
Qed.

Section Plain.
Context (aes_direct : list Z -> list Z -> Z * list Z) (set_key : list Z -> Z) (key_size : nat).

(** A DTLS 1.3 reader positioned at a plaintext header. *)
Definition reads_plain (r : reader) (t ep hi lo len : Z) (rest : list Z) : Prop :=
  input_at r = plain_header t ep hi lo len ++ rest
  /\ version_major r = DTLS_MAJOR /\ version_minor r = DTLSv1_3_MINOR
  /\ Z.of_nat (length (inputBuffer r)) < 2 ^ 32 /\ (inputIdx r <= length (inputBuffer r))%nat
  /\ Dtls13IsUnifiedHeader t = false
  /\ is_u16 ep /\ is_u16 hi /\ is_u32 lo /\ is_u16 len.

Lemma reads_plain_left r t ep hi lo len rest : reads_plain r t ep hi lo len rest ->
  (bytes_left r <? DTLS_RECORD_HEADER_SZ) = false.
Proof.
  intros (Hi & _ & _ & Hl & Hx & _). unfold bytes_left.
  assert (length (input_at r) = 13 + length rest)%nat as L
    by (rewrite Hi; unfold plain_header; rewrite !length_app, !length_c16toa, length_c32toa; done).
  unfold input_at in L. rewrite length_drop in L.
  rewrite wrap_small by (unfold in_word; lia). change DTLS_RECORD_HEADER_SZ with 13. lia.
Qed.

(** The connection after the epoch checks of a plaintext record. *)
Definition plain_conn (r : reader) : conn :=
  let c := set_cur 0 (curSeq (rconn r)) (rconn r) in
  match deref (rconn r) (decryptEpoch (rconn r)) with
  | Some e => if negb (w64IsZero (epochNumber e))
              then snd (Dtls13SetEpochKeys set_key key_size 0 DECRYPT_SIDE_ONLY c) else c
  | None => c
  end.

Lemma GetDtlsRecordHeader_plain r t ep hi lo len rest :
  reads_plain r t ep hi lo len rest ->
  (ep <> 0 -> exists r', GetDtlsRecordHeader aes_direct set_key key_size r
                         = (inl SEQUENCE_ERROR, r'))
  /\ (ep = 0 -> exists r', GetDtlsRecordHeader aes_direct set_key key_size r = (inr tt, r')
       /\ curRL r' = RLH t DTLS_MAJOR DTLSv1_2_MINOR (rh_length (curRL r))
       /\ curSize r' = len
       /\ rconn r' = set_cur (curEpoch64 (plain_conn r)) (hi * 2 ^ 32 + lo) (plain_conn r)
       /\ inputBuffer r' = inputBuffer r /\ inputIdx r' = (inputIdx r + 13)%nat
       /\ version_major r' = version_major r /\ version_minor r' = version_minor r).
Proof.
  intros R. pose proof (reads_plain_left _ _ _ _ _ _ _ R) as HL.
  destruct R as (Hi & Vj & Vn & _ & _ & Hu & Ue & Uh & Ul & Un).
  assert (ato16 (drop 3 (input_at r)) = ep) as E1.
  { rewrite Hi. unfold plain_header. rewrite <- !app_assoc. apply ato16_c16toa. done. }
  assert (ato16 (drop 5 (input_at r)) = hi) as E2.
  { rewrite Hi. unfold plain_header. rewrite <- !app_assoc. apply (ato16_c16toa hi). done. }
  assert (ato32 (drop 7 (input_at r)) = lo) as E3.
  { rewrite Hi. unfold plain_header. rewrite <- !app_assoc. apply (ato32_c32toa lo). done. }
  assert (ato16 (drop 11 (input_at r)) = len) as E4.
  { rewrite Hi. unfold plain_header. rewrite <- !app_assoc. apply (ato16_c16toa len). done. }
  assert (at_ (input_at r) 0 = t /\ at_ (input_at r) 1 = DTLS_MAJOR
          /\ at_ (input_at r) 2 = DTLSv1_2_MINOR) as (A0 & A1 & A2) by (rewrite Hi; done).
  unfold GetDtlsRecordHeader, bind, get, modify, fail, ret.
  rewrite E1, E2, E3, E4, A0, A1, A2, Hu, HL, Vj, Vn. cbn [pvMajor pvMinor].
  change (_ && _) with false. change (IsAtLeastTLSv1_3 DTLS_MAJOR DTLSv1_3_MINOR) with true.
  cbv beta iota. split.
  - intros N. replace (ep =? 0) with false by lia. cbn [negb]. eexists. reflexivity.
  - intros ->. cbn [negb Z.eqb]. cbv beta iota.
    assert (w64From32 hi lo = hi * 2 ^ 32 + lo) as EQ.
    { unfold w64From32, in_word in *. rewrite wrap_small
        by (unfold in_word; rewrite Z.shiftl_mul_pow2 by lia; lia).
      apply lor_shiftl_add; lia. }
    rewrite EQ. unfold plain_conn, set_epoch_keys.
    destruct (deref (rconn r) (decryptEpoch (rconn r))) as [e|];
      [destruct (negb (w64IsZero (epochNumber e)))|].
    + match goal with
      | |- context [Dtls13SetEpochKeys set_key key_size 0 DECRYPT_SIDE_ONLY
                      (rconn (set_rconn ?c ?x))] =>
          change (rconn (set_rconn c x)) with (set_cur 0 (curSeq (rconn r)) (rconn r))
      end.
      destruct (Dtls13SetEpochKeys _ _ _ _ _) as [rc c1].
      eexists. split; [reflexivity|]. cbn -[Nat.add]. split_and!; try reflexivity; lia.
    + eexists. split; [reflexivity|]. cbn -[Nat.add]. split_and!; try reflexivity; try done; lia.
    + eexists. split; [reflexivity|]. cbn -[Nat.add]. split_and!; try reflexivity; try done; lia.
Qed.

(** C40: Plaintext records (the hello messages) round trip through the full header checks:
    the 13-byte header written by [Dtls13RlAddPlaintextHeader] with sequence
    number [q] is accepted by a DTLS 1.3 reader exactly when [q] < 2^48, with
    that type, number and length in epoch 0; from 2^48 on the number runs over
    into the epoch field and every such record is refused. *)
Theorem plaintext_header_roundtrip s i r t q out payload rest
    (W : epochs_wf s) (He : encryptEpoch s = Some i) (Ht : is_byte t)
    (Hk : known_type t = true) (Lo : length out = 13%nat)
    (Hq : nextSeqNumber (slot s i) = q) (Bq : q < 2 ^ 64 - 1)
    (Lp : 1 <= Z.of_nat (length payload) <= MAX_RECORD_SIZE + MAX_COMP_EXTRA + MAX_MSG_EXTRA) :
  exists hdr s',
    Dtls13RlAddPlaintextHeader t (Z.of_nat (length payload)) (out ++ payload) s
      = (0, hdr ++ payload, s')
    /\ length hdr = 13%nat /\ nextSeqNumber (slot s' i) = q + 1
    /\ (input_at r = hdr ++ payload ++ rest ->
        version_major r = DTLS_MAJOR -> version_minor r = DTLSv1_3_MINOR ->
        Z.of_nat (length (inputBuffer r)) < 2 ^ 32 ->
        (inputIdx r <= length (inputBuffer r))%nat ->
        exists rc r', GetRecordHeader aes_direct set_key key_size r = (rc, r')
          /\ (2 ^ 48 <= q -> rc = inl SEQUENCE_ERROR)
          /\ (q < 2 ^ 48 ->
              rc = inr tt /\ rh_type (curRL r') = t /\ curSize r' = Z.of_nat (length payload)
              /\ curSeq (rconn r') = q /\ curEpoch64 (rconn r') = curEpoch64 (plain_conn r)
              /\ inputIdx r' = (inputIdx r + 13)%nat /\ inputBuffer r' = inputBuffer r)).
Proof.
  pose proof (ew_seq s W i) as Uq. pose proof (ew_enc s W) as P. rewrite He in P.
  rewrite Hq in Uq. unfold in_word in Uq.
  exists (plain_header t (q / 2 ^ 48) (q / 2 ^ 32 mod 2 ^ 16) (q mod 2 ^ 32)
            (Z.of_nat (length payload))),
    (set_slot i (e_set_seq (q + 1) (slot s i)) s).
  split_and!.
  - rewrite (RlAddPlaintextHeader_ok _ _ _ _ _ i) by (rewrite ?Hq; done). rewrite Hq. done.
  - unfold plain_header. rewrite !length_app, !length_c16toa, length_c32toa. done.
  - rewrite slot_set_slot by apply P. rewrite decide_True by done. done.
  - intros Hi Vj Vn Lb Li.
    assert (MAX_RECORD_SIZE + MAX_COMP_EXTRA + MAX_MSG_EXTRA = 17510) as EM by done.
    rewrite EM in Lp.
    assert (Dtls13IsUnifiedHeader t = false) as Hu.
    { unfold known_type in Hk. apply existsb_exists in Hk as (x & Hx & Ex).
      apply Z.eqb_eq in Ex as ->. repeat destruct Hx as [<-|Hx]; done. }
    destruct (GetDtlsRecordHeader_plain r t (q / 2 ^ 48) (q / 2 ^ 32 mod 2 ^ 16) (q mod 2 ^ 32)
      (Z.of_nat (length payload)) (payload ++ rest)) as [Bad Good].
    { split_and!; try done; unfold in_word; lia_mod. }
    unfold GetRecordHeader, bind, get, modify.
    destruct (Z.lt_ge_cases q (2 ^ 48)) as [S|S].
    + destruct Good as (r1 & -> & RL & SZ & RC & RB & RI & V1 & V2); [lia_mod|].
      rewrite V1, V2, Vj, Vn. change (IsAtLeastTLSv1_3 DTLS_MAJOR DTLSv1_3_MINOR) with true.
      assert (version_check r1 = None) as ->.
      { unfold version_check. rewrite RL, V1, V2, Vj, Vn. done. }
      rewrite RL, SZ, EM. cbn [negb andb rh_type].
      replace (17510 <? Z.of_nat (length payload)) with false by lia.
      replace (Z.of_nat (length payload) =? 0) with false by lia. cbn [andb]. rewrite Hk.
      eexists _, _. split; [reflexivity|]. split; [lia|]. intros _.
      cbn [rh_type curRL curSize rconn set_flags inputIdx inputBuffer].
      rewrite RL, SZ, RC, RI, RB. cbn [curSeq curEpoch64 set_cur rh_type].
      split_and!; try done. lia_mod.
    + destruct Bad as (r1 & ->); [lia_mod|]. eexists _, _. split; [reflexivity|].
      split; [done|lia].
Qed.
End Plain.

Lemma plaintext_header_roundtrip_witness :
  exists r', GetRecordHeader demo_aes (fun _ => 0) 16
      (demo_reader demo_receiver
         (plain_header handshake 0 0 0 3 ++ [1; 2; 3] ++ [4])) = (inr tt, r')
    /\ rh_type (curRL r') = handshake /\ curSize r' = 3 /\ inputIdx r' = 13%nat.
Proof.
  destruct (plaintext_header_roundtrip demo_aes (fun _ => 0) 16 demo_conn 0
    (demo_reader demo_receiver (plain_header handshake 0 0 0 3 ++ [1; 2; 3] ++ [4]))
    handshake 0 (repeat 0 13) [1; 2; 3] [4] demo_conn_wf)
    as (hdr & s' & E & _ & _ & H); try reflexivity; try (split; vm_compute; congruence).
  assert (plain_header handshake 0 0 0 3 ++ [1; 2; 3] = hdr ++ [1; 2; 3]) as E2
    by (apply (f_equal (fun p => snd (fst p))) in E; exact E).
  apply app_inv_tail in E2. subst hdr.
  destruct H as (rc & r' & E' & _ & G); try reflexivity.
  { cbn. lia. }
  destruct G as (-> & A & B & _ & _ & C & _); [lia|].
  exists r'. split_and!; assumption.
Defined.

(** ** The handshake header round trip *)

(** The bytes of a handshake fragment header. *)
Definition hs_header (num t off fsz size : Z) : list Z :=
  [t] ++ c32to24 size ++ c16toa num ++ c32to24 off ++ c32to24 fsz.

Lemma HandshakeAddHeaderFrag_ok num t off fsz size out body :
  is_byte t -> length out = 12%nat ->
  Dtls13HandshakeAddHeaderFrag num t off fsz size (out ++ body)
  = hs_header num t off fsz size ++ body.
Proof.
  intros Ht Lo. unfold Dtls13HandshakeAddHeaderFrag, hs_header.
  rewrite (wrap_small 8) by done.
  assert (length (out ++ body) = (12 + length body)%nat) as L by (rewrite length_app; lia).
  rewrite blit_start by (cbn [length]; lia). change (length [t]) with 1%nat.
  rewrite blit_next by (rewrite ?length_c32to24; done || lia). rewrite length_c32to24.
  rewrite blit_next by (rewrite ?length_app, ?length_c16toa, ?length_c32to24; done || lia).
  rewrite length_c16toa.
  rewrite blit_next by (rewrite ?length_app, ?length_c16toa, ?length_c32to24; done || lia).
  rewrite length_c32to24.
  rewrite blit_next by (rewrite ?length_app, ?length_c16toa, ?length_c32to24; done || lia).
  rewrite length_c32to24. change (1 + 3 + 2 + 3 + 3)%nat with 12%nat.
  rewrite <- Lo, drop_app_length, <- !app_assoc. done.
Qed.

Lemma HandshakeAddHeader_frag num t size out :
  Dtls13HandshakeAddHeader num t size out
  = Dtls13HandshakeAddHeaderFrag num t 0 size size out.
Proof. done. Qed.

Lemma GetDtlsHandShakeHeader_parse pre num t off fsz size rest total r :
  is_u16 num -> in_word 24 size -> in_word 24 off -> in_word 24 fsz ->
  let idx := Z.of_nat (length pre) in
  idx + 12 <= total < 2 ^ 32 ->
  exists rc, GetDtlsHandShakeHeader (pre ++ hs_header num t off fsz size ++ rest) idx total r
    = (rc, idx + 12, HsHdr t size off fsz, set_peer_hs num r)
  /\ (pvMajor (curRL r) = version_major r ->
      pvMinor (curRL r) = (if IsAtLeastTLSv1_3 (version_major r) (version_minor r)
                           then DTLSv1_2_MINOR else version_minor r) -> rc = 0)
  /\ (rc = 0 \/ rc = VERSION_ERROR).
Proof.
  intros Hnum Hsz Hoff Hf idx Ht. unfold GetDtlsHandShakeHeader. subst idx.
  rewrite (wrap_small 32) by (unfold in_word; change DTLS_HANDSHAKE_HEADER_SZ with 12; lia).
  change DTLS_HANDSHAKE_HEADER_SZ with 12.
  replace (total <? Z.of_nat (length pre) + 12) with false by lia.
  rewrite Nat2Z.id.
  set (input := pre ++ hs_header num t off fsz size ++ rest).
  assert (forall k, drop (length pre + k) input
            = drop k (hs_header num t off fsz size ++ rest)) as D.
  { intros k. unfold input. rewrite <- drop_drop, drop_app_length. done. }
  assert (at_ input (length pre) = t) as ->.
  { unfold at_, input. rewrite app_nth2, Nat.sub_diag by lia. done. }
  rewrite !D, !c24to32_ato24. unfold hs_header. rewrite <- !app_assoc.
  change (drop 1 _) with (c32to24 size ++ c16toa num ++ c32to24 off ++ c32to24 fsz ++ rest).
  change (drop 4 _) with (c16toa num ++ c32to24 off ++ c32to24 fsz ++ rest).
  change (drop 6 _) with (c32to24 off ++ c32to24 fsz ++ rest).
  change (drop 9 _) with (c32to24 fsz ++ rest).
  rewrite !ato24_c32to24, ato16_c16toa by done.
  eexists. split; [reflexivity|]. cbn [curRL version_major version_minor set_peer_hs].
  split.
  - intros -> ->. rewrite Z.eqb_refl. cbn [negb orb].
    destruct (IsAtLeastTLSv1_3 _ _); cbn [negb andb orb]; [done|].
    rewrite Z.eqb_refl. done.
  - destruct (_ || _ || _); [|by left]. destruct (_ && _ && _); [by right|by left].
Qed.

(** Handshake header round trip: the 12-byte header
    [Dtls13HandshakeAddHeaderFrag] writes for message number [num], type [t],
    message size, fragment offset and fragment size (24 bits each) is read
    back field by field by [GetDtlsHandShakeHeader] when the record carries the
    negotiated version; [Dtls13HandshakeAddHeader] is the special case of one
    fragment that is the whole message. *)
Theorem handshake_header_roundtrip pre num t off fsz size out body total r
    (Hnum : is_u16 num) (Ht : is_byte t)
    (Hsz : in_word 24 size) (Hoff : in_word 24 off) (Hf : in_word 24 fsz)
    (Lo : length out = 12%nat)
    (HT : Z.of_nat (length pre) + 12 <= total < 2 ^ 32)
    (HM : pvMajor (curRL r) = version_major r)
    (Hm : pvMinor (curRL r) = (if IsAtLeastTLSv1_3 (version_major r) (version_minor r)
                               then DTLSv1_2_MINOR else version_minor r)) :
  GetDtlsHandShakeHeader
    (pre ++ Dtls13HandshakeAddHeaderFrag num t off fsz size (out ++ body))
    (Z.of_nat (length pre)) total r
  = (0, Z.of_nat (length pre) + 12, HsHdr t size off fsz, set_peer_hs num r)
  /\ Dtls13HandshakeAddHeader num t size (out ++ body)
     = Dtls13HandshakeAddHeaderFrag num t 0 size size (out ++ body).
Proof.
  split; [|apply HandshakeAddHeader_frag].
  rewrite HandshakeAddHeaderFrag_ok by done.
  destruct (GetDtlsHandShakeHeader_parse pre num t off fsz size body total r)
    as (rc & -> & R & _); try done.
  rewrite R by done. done.
Qed.

Definition demo_hs_reader : reader :=
  set_curRL (RLH handshake DTLS_MAJOR DTLSv1_2_MINOR []) 0 (demo_reader demo_receiver []).

Lemma handshake_header_roundtrip_witness :
  GetDtlsHandShakeHeader
    ([9] ++ Dtls13HandshakeAddHeaderFrag 2 client_hello 1200 300 1500 (repeat 0 12 ++ [5; 6]))
    1 20 demo_hs_reader
  = (0, 13, HsHdr client_hello 1500 1200 300, set_peer_hs 2 demo_hs_reader).
Proof.
  apply (handshake_header_roundtrip [9] 2 client_hello 1200 300 1500 (repeat 0 12) [5; 6] 20
           demo_hs_reader); try reflexivity; split; vm_compute; congruence.
Defined.

(** ** What the header checks accept *)

(** Which first bytes select the unified header parser.  The mask
    [0x111 << 5] is written in hexadecimal, so on a byte it tests bit 5 alone:
    every first byte with that bit - the RFC's 0x20-0x3f, but also 0x60-0x7f,
    0xa0-0xbf and 0xe0-0xff, whose three top bits are not 001 - is taken for a
    protected DTLS 1.3 record, and no other byte is. *)
Theorem unified_header_bit5 b (Hb : is_byte b) :
  Dtls13IsUnifiedHeader b = Z.testbit b 5
  /\ (Z.shiftr b 5 = 1 -> Dtls13IsUnifiedHeader b = true)
  /\ (forall c, In c [change_cipher_spec; alert; handshake; application_data; dtls12_cid; ack] ->
        Dtls13IsUnifiedHeader c = false)
  /\ (exists b', is_byte b' /\ Z.shiftr b' 5 <> 1 /\ Dtls13IsUnifiedHeader b' = true).
Proof.
  assert (forallb (fun x => Bool.eqb (Dtls13IsUnifiedHeader x) (Z.testbit x 5)
             && (negb (Z.shiftr x 5 =? 1) || Dtls13IsUnifiedHeader x))
            (map Z.of_nat (seq 0 256)) = true) as All by (vm_compute; reflexivity).
  rewrite forallb_forall in All. specialize (All b).
  unfold is_byte in Hb.
  apply andb_true_iff in All as [A1 A2].
  2: { apply in_map_iff. exists (Z.to_nat b). split; [lia|]. apply in_seq. lia. }
  apply eqb_prop in A1. split_and!; [done| | |].
  - intros E. rewrite E in A2. done.
  - intros c Hc. repeat destruct Hc as [<-|Hc]; done.
  - exists 0xe0. split_and!; unfold is_byte; [lia|vm_compute; congruence|done].
Qed.

Lemma unified_header_bit5_witness : Dtls13IsUnifiedHeader 0x2f = true.
Proof. apply (unified_header_bit5 0x2f); [unfold is_byte; lia | reflexivity]. Defined.

(** The record version check of DTLS 1.3.  A record that carries version
    0xfefd is never refused for its version; after the handshake any other
    non-handshake record gets VERSION_ERROR, apart from the client's tolerated
    early alert; but before the handshake is done a mismatching record that is
    not a handshake message is not refused unless the input buffer starts with
    a unified header byte - whichever record of the datagram it is. *)
Theorem version_check_cases r
    (Vj : version_major r = DTLS_MAJOR) (Vn : version_minor r = DTLSv1_3_MINOR) :
  let rh := curRL r in
  let good := (pvMajor rh =? DTLS_MAJOR)
                && ((pvMinor rh =? DTLSv1_3_MINOR) || (pvMinor rh =? DTLSv1_2_MINOR)) in
  (good = true -> version_check r = None)
  /\ (good = false -> handShakeDone (rconn r) = true -> rh_type rh <> handshake ->
      ~ (side (rconn r) = WOLFSSL_SERVER_END /\ acceptState r < ACCEPT_FIRST_REPLY_DONE) ->
      ~ (side (rconn r) = WOLFSSL_CLIENT_END /\ connectState r < FIRST_REPLY_DONE) ->
      version_check r = Some VERSION_ERROR)
  /\ (handShakeDone (rconn r) = false ->
      Dtls13IsUnifiedHeader (at_ (inputBuffer r) 0) = false -> version_check r = None).
Proof.
  cbn zeta. unfold version_check. rewrite Vj, Vn.
  change (IsAtLeastTLSv1_3 DTLS_MAJOR DTLSv1_3_MINOR) with true. cbn [negb].
  match goal with |- context [if ?a || ?b then _ else _] =>
    replace (a || b) with (negb ((pvMajor (curRL r) =? DTLS_MAJOR)
      && ((pvMinor (curRL r) =? DTLSv1_3_MINOR) || (pvMinor (curRL r) =? DTLSv1_2_MINOR))))
      by btauto
  end.
  split_and!.
  - intros ->. done.
  - intros -> -> Ht Hs Hc. cbn [negb].
    destruct (Z.eqb_spec (side (rconn r)) WOLFSSL_SERVER_END) as [E1|E1];
      destruct (Z.ltb_spec (acceptState r) ACCEPT_FIRST_REPLY_DONE); try tauto; cbn [andb];
      destruct (Z.eqb_spec (side (rconn r)) WOLFSSL_CLIENT_END) as [E2|E2];
      destruct (Z.ltb_spec (connectState r) FIRST_REPLY_DONE); try tauto;
      rewrite ?andb_false_r; cbn [andb]; try rewrite (proj2 (Z.eqb_neq _ _) Ht); try done;
      destruct (Z.eqb_spec (connectState r) CLIENT_HELLO_SENT) as [E3|]; cbn [andb negb];
      rewrite ?andb_false_r; try done;
      exfalso;
      unfold CLIENT_HELLO_SENT, FIRST_REPLY_DONE, WOLFSSL_SERVER_END, WOLFSSL_CLIENT_END in *; lia.
  - intros -> ->. cbn [negb].
    repeat match goal with |- context [if ?b then _ else _] => destruct b end; done.
Qed.

Lemma version_check_cases_witness :
  version_check (set_curRL (RLH alert 3 3 []) 2 (demo_reader demo_receiver [])) = None.
Proof.
  apply (version_check_cases (set_curRL (RLH alert 3 3 []) 2 (demo_reader demo_receiver [])));
    reflexivity.
Defined.
