(* ===== verification/DtlsMsg.v ===== *)
(** * Handshake message reassembly (src/boot/src/internal.c, DtlsMsg...)

    The reordering layer of DTLS: each incoming handshake message collects its
    fragments in a list of disjoint buckets, which are extended and merged as
    fragments arrive; a message whose bytes are all there is rebuilt with its
    header, and messages wait in a list until their turn comes. *)

From Stdlib Require Import Sorted.
From S2P Require Import Prelude Misc DtlsDefs.

(** ** Data *)

(** struct DtlsFragBucket: [sz] is the length of [buf]. *)
Record bucket := Bucket { b_offset : Z; b_buf : list Z }.

Definition b_sz (b : bucket) : Z := Z.of_nat (length (b_buf b)).
Definition b_end (b : bucket) : Z := u32 (b_offset b + b_sz b).

(** struct DtlsMsg: [m_header] are the 12 bytes in front of [fullMsg]. *)
Record DtlsMsg := Msg {
  m_header : list Z; fullMsg : list Z;
  fragBucketList : list bucket; bytesReceived : Z;
  m_epoch : Z; m_seq : Z; m_sz : Z; m_type : Z;
  fragBucketListCount : Z; ready : bool; encrypted : bool }.

Definition m_set_id t e q enc m := Msg (m_header m) (fullMsg m) (fragBucketList m)
  (bytesReceived m) e q (m_sz m) t (fragBucketListCount m) (ready m) enc.
Definition m_set_buckets l r c m := Msg (m_header m) (fullMsg m) l r (m_epoch m) (m_seq m)
  (m_sz m) (m_type m) c (ready m) (encrypted m).
Definition m_set_full h f m := Msg h f [] (bytesReceived m) (m_epoch m) (m_seq m)
  (m_sz m) (m_type m) 0 true (encrypted m).

Section Reassembly.
(** [alloc n]: whether an allocation of [n] bytes succeeds; [heap_byte]: what
    an uninitialised heap byte holds. *)
Context (alloc : Z -> bool) (heap_byte : Z).

Definition sizeof_DtlsMsg : Z := 36.
Definition sizeof_DtlsFragBucket : Z := 12.

Definition DtlsMsgNew (sz : Z) (tx : bool) : option DtlsMsg :=
  if negb (alloc sizeof_DtlsMsg) then None
  else if tx then
    if negb (alloc (sz + DTLS_HANDSHAKE_HEADER_SZ)) then None
    else Some (Msg [] (replicate (Z.to_nat (sz + DTLS_HANDSHAKE_HEADER_SZ)) heap_byte)
                 [] 0 0 0 sz no_shake 0 true false)
  else Some (Msg [] [] [] 0 0 0 sz no_shake 0 false false).

Definition DtlsMsgCreateFragBucket (offset : Z) (data : list Z) (dataSz : Z) : option bucket :=
  if alloc (sizeof_DtlsFragBucket + dataSz)
  then Some (Bucket offset (take (Z.to_nat dataSz) data)) else None.

(** XREALLOC of a bucket's buffer. *)
Definition realloc_buf (n : Z) (buf : list Z) : list Z :=
  take (Z.to_nat n) buf ++ replicate (Z.to_nat n - length buf) heap_byte.

(** XMEMCPY/XMEMMOVE of [n] bytes of [src] to [dst + at]. *)
Definition memcpy (at' : Z) (src : list Z) (n : Z) (dst : list Z) : list Z :=
  blit (Z.to_nat at') (take (Z.to_nat n) src) dst.

(** [next], when the fragment reaches it (combineNext). *)
Definition merge_next (next : option bucket) (offsetEnd : Z) : option bucket :=
  match next with
  | Some nx => if b_offset nx <=? offsetEnd then Some nx else None
  | None => None
  end.

(** The new bucket's buffer: the larger of the two buckets reallocated, then
    the copies in the order of the code.  [cur->buf] is the new buffer when
    [cur] was the one reallocated. *)
Definition combined_buf (cur : bucket) (merge : option bucket) (offset : Z) (data : list Z)
    (dataSz offsetEnd newOffset newOffsetEnd newSz : Z) : list Z :=
  let chosen_is_cur := match merge with Some nx => b_sz nx <=? b_sz cur | None => true end in
  let chosen := match merge with
                | Some nx => if chosen_is_cur then b_buf cur else b_buf nx
                | None => b_buf cur
                end in
  let buf := realloc_buf newSz chosen in
  let '(buf, newOffsetEnd) :=
    match merge with
    | Some nx => (memcpy (u32 (b_offset nx - newOffset)) (b_buf nx) (b_sz nx) buf, b_offset nx)
    | None => (buf, newOffsetEnd)
    end in
  let curbuf := if chosen_is_cur then buf else b_buf cur in
  if newOffset =? offset then
    if newOffsetEnd <=? offsetEnd
    then memcpy 0 data (min32 dataSz (u32 (newOffsetEnd - newOffset))) buf
    else
      let buf := memcpy dataSz curbuf (u32 (b_sz cur - (offsetEnd - b_offset cur))) buf in
      memcpy 0 data dataSz buf
  else
    let curOffsetEnd := b_end cur in
    let buf := if chosen_is_cur then buf else memcpy 0 (b_buf cur) (b_sz cur) buf in
    memcpy (b_sz cur) (drop (Z.to_nat (u32 (curOffsetEnd - offset))) data)
           (u32 (newOffsetEnd - curOffsetEnd)) buf.

(** [mids] are the buckets strictly between [cur] and [next].  The result is
    the new bucket, whether [next] was merged into it, and the change of
    [bytesReceived]. *)
Definition DtlsMsgCombineFragBuckets (cur : bucket) (mids : list bucket) (next : option bucket)
    (offset : Z) (data : list Z) (dataSz : Z) : option (bucket * bool * Z) :=
  let offsetEnd := u32 (offset + dataSz) in
  let newOffset := min32 (b_offset cur) offset in
  let merge := merge_next next offsetEnd in
  let newOffsetEnd := match merge with
                      | Some nx => b_end nx
                      | None => max32 (b_end cur) offsetEnd
                      end in
  let newSz := u32 (newOffsetEnd - newOffset) in
  if negb (alloc (sizeof_DtlsFragBucket + newSz)) then None
  else
    let buf := combined_buf cur merge offset data dataSz offsetEnd newOffset newOffsetEnd newSz in
    let overlapSz := foldr (fun b a => b_sz b + a) (b_sz cur) mids
                     + match merge with Some nx => b_sz nx | None => 0 end in
    Some (Bucket newOffset buf, match merge with Some _ => true | None => false end,
          u32 (newSz - overlapSz)).

(** The 12 bytes in front of [buf]. *)
Definition rebuilt_header (m : DtlsMsg) : list Z :=
  [m_type m] ++ c32to24 (m_sz m) ++ c16toa (u16 (m_seq m)) ++ c32to24 0 ++ c32to24 (m_sz m).

Definition DtlsMsgAssembleCompleteMessage (m : DtlsMsg) : DtlsMsg :=
  match fragBucketList m with
  | b :: _ => if (fragBucketListCount m =? 1) && (b_offset b =? 0) && (b_sz b =? m_sz m)
              then m_set_full (rebuilt_header m) (b_buf b) m else m
  | [] => m
  end.

(** The scan for the bucket a fragment belongs to: whether the fragment is
    already there, the buckets before the place and those from it on. *)
Fixpoint locate (fragOffset fragOffsetEnd : Z) (pre l : list bucket)
    : bool * list bucket * list bucket :=
  match l with
  | [] => (false, pre, [])
  | cur :: rest =>
      if (b_offset cur <=? fragOffset) && (fragOffsetEnd <=? b_end cur) then (true, pre, l)
      else if fragOffset <=? b_end cur then (false, pre, l)
      else locate fragOffset fragOffsetEnd (pre ++ [cur]) rest
  end.

(** The buckets after [cur] that end inside the fragment, and the others. *)
Fixpoint covered (fragOffsetEnd : Z) (l : list bucket) : list bucket * list bucket :=
  match l with
  | [] => ([], [])
  | b :: rest =>
      if b_end b <=? fragOffsetEnd
      then let '(m, r) := covered fragOffsetEnd rest in (b :: m, r)
      else ([], l)
  end.

(** Storing a fragment in the list: [inl e] is the early return. *)
Definition place_fragment (fragOffset : Z) (data : list Z) (fragSz : Z) (m : DtlsMsg)
    : Z + DtlsMsg :=
  let fragOffsetEnd := u32 (fragOffset + fragSz) in
  let count := fragBucketListCount m in
  match fragBucketList m with
  | [] =>
      match DtlsMsgCreateFragBucket fragOffset data fragSz with
      | None => inl MEMORY_ERROR
      | Some b => inr (m_set_buckets [b] fragSz (u8 (count + 1)) m)
      end
  | l =>
      match locate fragOffset fragOffsetEnd [] l with
      | (true, _, _) => inr m
      | (false, pre, []) =>
          if DTLS_FRAG_POOL_SZ <=? count then inl DTLS_TOO_MANY_FRAGMENTS_E
          else match DtlsMsgCreateFragBucket fragOffset data fragSz with
               | None => inr m
               | Some b => inr (m_set_buckets (pre ++ [b]) (u32 (bytesReceived m + fragSz))
                                  (u8 (count + 1)) m)
               end
      | (false, pre, cur :: rest) =>
          if bool_decide (pre = []) && (fragOffsetEnd <? b_offset cur) then
            if DTLS_FRAG_POOL_SZ <=? count then inl DTLS_TOO_MANY_FRAGMENTS_E
            else match DtlsMsgCreateFragBucket fragOffset data fragSz with
                 | None => inr m
                 | Some b => inr (m_set_buckets (b :: cur :: rest)
                                    (u32 (bytesReceived m + fragSz)) (u8 (count + 1)) m)
                 end
          else
            let '(mids, from_next) := covered fragOffsetEnd rest in
            match DtlsMsgCombineFragBuckets cur mids (head from_next) fragOffset data fragSz with
            | None => inr m
            | Some (b, merged, d) =>
                let tl := if merged then tail from_next else from_next in
                let gone := Z.of_nat (length mids) + (if merged then 1 else 0) in
                inr (m_set_buckets (pre ++ b :: tl) (u32 (bytesReceived m + d))
                       (u8 (count - gone)) m)
            end
      end
  end.

Definition DtlsMsgSet (m : DtlsMsg) (seq epoch : Z) (data : list Z) (type fragOffset fragSz totalLen : Z)
    (enc : bool) : Z * DtlsMsg :=
  let fragOffsetEnd := u32 (fragOffset + fragSz) in
  if negb (m_sz m =? totalLen) || (totalLen <? fragOffsetEnd) then (BAD_FUNC_ARG, m)
  else if ready m then (0, m)
  else
    let known := negb (m_type m =? no_shake) in
    if known && (negb (m_type m =? type) || negb (m_epoch m =? epoch) || negb (m_seq m =? seq))
    then (SEQUENCE_ERROR, m)
    else
      let m := if known then m_set_id (m_type m) (m_epoch m) (m_seq m) (encrypted m && enc) m
               else m_set_id type epoch seq enc m in
      match place_fragment fragOffset data fragSz m with
      | inl e => (e, m)
      | inr m => (0, if bytesReceived m =? m_sz m then DtlsMsgAssembleCompleteMessage m else m)
      end.

(** ** The list of messages waiting for their turn *)

Fixpoint DtlsMsgFind (l : list DtlsMsg) (epoch seq : Z) : option DtlsMsg :=
  match l with
  | [] => None
  | m :: rest => if (m_epoch m =? epoch) && (m_seq m =? seq) then Some m
                 else DtlsMsgFind rest epoch seq
  end.

Definition before (item m : DtlsMsg) : bool :=
  (m_epoch item <=? m_epoch m) && (m_seq item <? m_seq m).

(** The walk of [DtlsMsgInsert] after the head. *)
Fixpoint insert_after (item : DtlsMsg) (l : list DtlsMsg) : list DtlsMsg :=
  match l with
  | [] => [item]
  | cur :: rest => if before item cur then item :: cur :: rest else cur :: insert_after item rest
  end.

Definition DtlsMsgInsert (l : list DtlsMsg) (item : DtlsMsg) : list DtlsMsg :=
  match l with
  | [] => [item]
  | head :: rest => if before item head then item :: head :: rest
                    else head :: insert_after item rest
  end.

(** In-place update of the message [DtlsMsgFind] returns. *)
Fixpoint update_found (l : list DtlsMsg) (epoch seq : Z) (f : DtlsMsg -> DtlsMsg) : list DtlsMsg :=
  match l with
  | [] => []
  | m :: rest => if (m_epoch m =? epoch) && (m_seq m =? seq) then f m :: rest
                 else m :: update_found rest epoch seq f
  end.

(** [rx]: [dtls_rx_msg_list] and [dtls_rx_msg_list_sz]. *)
Definition DtlsMsgStore (epoch seq : Z) (data : list Z) (dataSz type fragOffset fragSz : Z)
    (enc : bool) (rx : list DtlsMsg * Z) : list DtlsMsg * Z :=
  let '(head, n) := rx in
  let set m := DtlsMsgSet m seq epoch data type fragOffset fragSz dataSz enc in
  match head with
  | [] =>
      match DtlsMsgNew dataSz false with
      | None => ([], n)
      | Some m => let '(rc, m) := set m in if rc <? 0 then ([], n) else ([m], n + 1)
      end
  | _ =>
      match DtlsMsgFind head epoch seq with
      | None =>
          match DtlsMsgNew dataSz false with
          | None => (head, n)
          | Some m => let '(rc, m) := set m in
                      if rc <? 0 then (head, n) else (DtlsMsgInsert head m, n + 1)
          end
      | Some _ => (update_found head epoch seq (fun m => snd (set m)), n)
      end
  end.

(** ** The retransmission pool of DTLS 1.2 flights *)

Definition DtlsMsgPoolSave (dtls_epoch dtls_handshake_number : Z) (data : list Z) (dataSz type : Z)
    (tx : list DtlsMsg * Z) : Z * (list DtlsMsg * Z) :=
  let '(l, n) := tx in
  if DTLS_POOL_SZ <? n then (DTLS_POOL_SZ_E, tx)
  else match DtlsMsgNew dataSz true with
       | None => (MEMORY_E, tx)
       | Some m =>
           let m := Msg (m_header m) (memcpy 0 data dataSz (fullMsg m)) [] (bytesReceived m)
                      dtls_epoch dtls_handshake_number (m_sz m) type (fragBucketListCount m)
                      (ready m) (encrypted m) in
           (0, (l ++ [m], n + 1))
       end.

Definition DtlsMsgPoolTimeout (dtls_timeout dtls_timeout_max : Z) : Z * Z :=
  if dtls_timeout <? dtls_timeout_max
  then (0, dtls_timeout * DTLS_TIMEOUT_MULTIPLIER) else (-1, dtls_timeout).
End Reassembly.

(** ** Correctness of the reassembly *)

Lemma length_memcpy at' src n dst : 0 <= at' <= Z.of_nat (length dst) ->
  length (memcpy at' src n dst) = length dst.
Proof. intros. apply length_blit. lia. Qed.

Section Honest.
(** The message the fragments come from; allocations succeed. *)
Context (alloc : Z -> bool) (heap_byte : Z) (M : list Z).
Hypothesis alloc_ok : forall n, alloc n = true.
Hypothesis M_small : Z.of_nat (length M) < 2 ^ 24.

#[local] Abbreviation sizeM := (Z.of_nat (length M)).

(** [agree base lo hi buf]: the bytes [lo..hi) of the message are in [buf],
    whose first byte is byte [base] of the message. *)
Definition agree (base lo hi : Z) (buf : list Z) : Prop :=
  forall i, lo <= i < hi -> buf !! Z.to_nat (i - base) = M !! Z.to_nat i.

Definition good_b (b : bucket) : Prop :=
  0 <= b_offset b /\ b_offset b + b_sz b <= sizeM
  /\ agree (b_offset b) (b_offset b) (b_offset b + b_sz b) (b_buf b).

Lemma good_end b : good_b b -> b_end b = b_offset b + b_sz b.
Proof.
  intros (H & L & _). unfold b_end. apply wrap_small. unfold in_word, b_sz in *.
 lia.
Qed.

Lemma b_sz_pos b : 0 <= b_sz b.
Proof. unfold b_sz. lia. Qed.

(** An honest fragment. *)
Definition honest (o : Z) (data : list Z) (sz : Z) : Prop :=
  0 <= o /\ 0 <= sz /\ o + sz <= sizeM /\ Z.of_nat (length data) = sz /\ agree o o (o + sz) data.

Lemma memcpy_agree base x src n dst lo hi :
  base <= lo -> base <= x -> 0 <= n <= Z.of_nat (length src) ->
  x - base + n <= Z.of_nat (length dst) ->
  agree x x (x + n) src ->
  (forall i, lo <= i < hi -> i < x \/ x + n <= i ->
     dst !! Z.to_nat (i - base) = M !! Z.to_nat i) ->
  agree base lo hi (memcpy (x - base) src n dst).
Proof.
  intros Hb Hx Hn Hl Hs Hd i Hi. unfold memcpy.
  rewrite lookup_blit by (rewrite length_take; lia).
  rewrite length_take. destruct (decide _) as [D|D].
  - rewrite lookup_take_lt by lia. rewrite <- Hs by lia. f_equal. lia.
  - apply Hd; lia.
Qed.

(** What a copy leaves alone. *)
Lemma memcpy_other at' src n dst k : 0 <= at' -> 0 <= n <= Z.of_nat (length src) ->
  at' + n <= Z.of_nat (length dst) -> (k < Z.to_nat at')%nat ->
  memcpy at' src n dst !! k = dst !! k.
Proof.
  intros. unfold memcpy. rewrite lookup_blit by (rewrite length_take; lia).
  rewrite decide_False by lia. done.
Qed.

Lemma realloc_lookup n buf k : (k < length buf)%nat -> (length buf <= Z.to_nat n)%nat ->
  realloc_buf heap_byte n buf !! k = buf !! k.
Proof.
  intros. unfold realloc_buf. rewrite lookup_app_l by (rewrite length_take; lia).
  apply lookup_take_lt. lia.
Qed.

Lemma length_realloc n buf : (length buf <= Z.to_nat n)%nat ->
  length (realloc_buf heap_byte n buf) = Z.to_nat n.
Proof.
  intros. unfold realloc_buf. rewrite length_app, length_take, length_replicate. lia.
Qed.

(** Disjoint, non-adjacent honest buckets in increasing order from [lo] on. *)
Fixpoint chain (lo : Z) (l : list bucket) : Prop :=
  match l with
  | [] => True
  | b :: r => lo <= b_offset b /\ good_b b /\ chain (b_offset b + b_sz b + 1) r
  end.

Definition total (l : list bucket) : Z := foldr (fun b a => b_sz b + a) 0 l.

Definition cov (l : list bucket) (i : Z) : Prop :=
  Exists (fun b => b_offset b <= i < b_offset b + b_sz b) l.

Lemma total_app l1 l2 : total (l1 ++ l2) = total l1 + total l2.
Proof. induction l1; cbn; [done|]. unfold total in *. lia. Qed.

Lemma total_pos l : 0 <= total l.
Proof. induction l as [|b l IH]; cbn; [lia|]. pose proof (b_sz_pos b). unfold total in IH. lia. Qed.

Lemma foldr_total c l : foldr (fun b a => b_sz b + a) c l = c + total l.
Proof. induction l; cbn; [lia|]. unfold total in *. lia. Qed.

Lemma chain_weaken lo lo' l : lo' <= lo -> chain lo l -> chain lo' l.
Proof. destruct l; cbn; [done|]. intros ? (? & ? & ?). split_and!; [lia|done|done]. Qed.

Lemma chain_app_r lo l1 l2 : 0 <= lo -> chain lo (l1 ++ l2) -> chain lo l2.
Proof.
  revert lo. induction l1 as [|b l1 IH]; intros lo Hlo H; [done|].
  destruct H as (H1 & H2 & H3). pose proof (b_sz_pos b).
  apply (chain_weaken (b_offset b + b_sz b + 1)); [lia|]. apply IH; [lia|done].
Qed.

Lemma chain_total lo l : 0 <= lo <= sizeM + 1 -> chain lo l ->
  l <> [] -> total l + lo + Z.of_nat (length l) - 1 <= sizeM.
Proof.
  revert lo. induction l as [|b l IH]; intros lo Hlo H N; [done|].
  destruct H as (H1 & (G1 & G2 & _) & H3). cbn [total foldr length]. fold (total l).
  pose proof (b_sz_pos b). destruct l as [|b' l]; [cbn; lia|].
  specialize (IH (b_offset b + b_sz b + 1) ltac:(lia) H3 ltac:(done)).
  cbn [length] in *. lia.
Qed.

Lemma chain_ge lo l1 b l2 : chain lo (l1 ++ b :: l2) -> lo <= b_offset b /\ good_b b.
Proof.
  revert lo. induction l1 as [|c l1 IH]; intros lo H; cbn in H.
  - split; apply H.
  - destruct H as (H1 & _ & H3). destruct (IH _ H3) as [H4 H5].
    pose proof (b_sz_pos c). split; [lia|done].
Qed.

(** Replacing the part of the list behind [mid], all of which ends before [o]. *)
Lemma chain_replace lo o mid l t :
  lo <= o -> chain lo (mid ++ l) -> Forall (fun b => b_offset b + b_sz b < o) mid ->
  (forall lo', lo' <= o -> lo <= lo' -> chain lo' l -> chain lo' t) ->
  chain lo (mid ++ t).
Proof.
  revert lo. induction mid as [|b mid IH]; intros lo Hlo H F R; cbn in *; [apply R; done || lia|].
  destruct H as (H1 & H2 & H3). inversion F as [|?? F1 F2]; subst. split_and!; try done.
  pose proof (b_sz_pos b). apply IH; try done; [lia|]. intros lo' ? ?. apply R; lia.
Qed.

(** ** The scan *)

Lemma locate_spec o oe pre l d pre' l' :
  o <= oe -> Forall good_b l -> locate o oe pre l = (d, pre', l') ->
  exists mid, pre' = pre ++ mid /\ l = mid ++ l'
    /\ Forall (fun b => b_offset b + b_sz b < o) mid
    /\ match l' with
       | [] => d = false
       | cur :: _ => o <= b_offset cur + b_sz cur
                     /\ (d = true <-> b_offset cur <= o /\ oe <= b_offset cur + b_sz cur)
       end.
Proof.
  intros Ho F. revert pre. induction l as [|b l IH]; intros pre H; cbn [locate] in H.
  - injection H as <- <- <-. exists []. rewrite app_nil_r. auto.
  - inversion F as [|?? G F']; subst. rewrite (good_end b G) in H.
    destruct (_ && _) eqn:C; [|destruct (o <=? _) eqn:C2].
    + injection H as <- <- <-. exists []. rewrite app_nil_r.
      do 3 (split; [done|]). split; [lia|]. split; [intros _; lia|done].
    + injection H as <- <- <-. exists []. rewrite app_nil_r.
      do 3 (split; [done|]). split; [lia|]. split; [done|lia].
    + destruct (IH F' _ H) as (mid & -> & -> & Fm & S).
      exists (b :: mid). rewrite <- app_assoc. split; [done|]. split; [done|].
      split; [constructor; [lia|done]|done].
Qed.

Lemma covered_spec oe l mids fn : Forall good_b l -> covered oe l = (mids, fn) ->
  l = mids ++ fn /\ Forall (fun b => b_offset b + b_sz b <= oe) mids
  /\ match fn with [] => True | nx :: _ => oe < b_offset nx + b_sz nx end.
Proof.
  intros F. revert mids fn. induction l as [|b l IH]; intros mids fn H; cbn [covered] in H.
  - injection H as <- <-. done.
  - inversion F as [|?? G F']; subst. rewrite (good_end b G) in H.
    destruct (_ <=? oe) eqn:C.
    + destruct (covered oe l) as [m r]. injection H as <- <-.
      destruct (IH F' m r eq_refl) as (-> & Fm & Hn). split_and!; try done.
      constructor; [lia|done].
    + injection H as <- <-. split_and!; [done|constructor|lia].
Qed.

Lemma chain_good lo l : chain lo l -> Forall good_b l.
Proof.
  revert lo. induction l as [|b l IH]; intros lo H; [constructor|].
  destruct H as (_ & G & H). constructor; [done|]. apply (IH _ H).
Qed.

(** ** Merging *)

(** The fragment can be merged into [cur] correctly: it starts inside or right
    behind it, covers its end, or ends exactly where it starts. *)
Definition mergeable (cur : bucket) (o oe : Z) : Prop :=
  b_offset cur <= o \/ b_offset cur + b_sz cur <= oe \/ oe = b_offset cur.

(** The buffer when no further bucket is reached. *)
Lemma combined_buf_alone cur o data sz :
  honest o data sz -> good_b cur ->
  let oe := o + sz in
  let ce := b_offset cur + b_sz cur in
  let no := Z.min (b_offset cur) o in
  let ne := Z.max ce oe in
  o <= ce -> ~ (b_offset cur <= o /\ oe <= ce) -> mergeable cur o oe ->
  let buf := combined_buf heap_byte cur None o data sz oe no ne (ne - no) in
  length buf = Z.to_nat (ne - no) /\ agree no no ne buf.
Proof.
  intros (Ho & Hs & HoM & Ld & Ag) G oe ce no ne Hle Hnc Hmg.
  pose proof (b_sz_pos cur) as Pc. pose proof G as (Gc1 & Gc2 & Gc3).
  unfold combined_buf. rewrite (good_end cur G). fold ce.
  set (buf0 := realloc_buf _ _ _).
  assert (length buf0 = Z.to_nat (ne - no)) as L0
    by (apply length_realloc; unfold b_sz in *; lia).
  assert (forall k, (k < length (b_buf cur))%nat -> buf0 !! k = b_buf cur !! k) as R0
    by (intros; apply realloc_lookup; unfold b_sz in *; lia).
  unfold mergeable in Hmg. fold ce in Hmg.
  destruct (Z.eqb_spec no o) as [E|E]; [destruct (Z.leb_spec ne oe) as [E2|E2]|].
  - rewrite min32_spec by (apply wrap_range || unfold in_word; lia).
    rewrite (wrap_small 32) by (unfold in_word; lia).
    split; [rewrite length_memcpy; lia|].
    replace 0 with (no - no) by lia. apply memcpy_agree; try lia.
    rewrite E. intros i Hi. apply Ag. lia.
  - assert (oe = b_offset cur) as E3 by lia.
    rewrite (wrap_small 32) by (unfold in_word; lia).
    split; [rewrite !length_memcpy; rewrite ?length_memcpy; lia|].
    replace 0 with (no - no) by lia. apply memcpy_agree; rewrite ?length_memcpy; try lia.
    { rewrite E. intros i Hi. apply Ag. lia. }
    intros i Hi Hor. replace sz with (oe - no) at 1 by lia.
    assert (agree no oe ne (memcpy (oe - no) buf0 (b_sz cur - (oe - b_offset cur)) buf0)) as A.
    { apply memcpy_agree; try (unfold b_sz in *; lia).
      intros j Hj. rewrite R0 by (unfold b_sz in *; lia). rewrite <- Gc3 by lia. f_equal. lia. }
    apply A. lia.
  - assert (no = b_offset cur) as E3 by lia.
    rewrite !(wrap_small 32) by (unfold in_word; lia).
    split; [rewrite length_memcpy; unfold b_sz in *; lia|].
    replace (b_sz cur) with (ce - no) by lia.
    apply memcpy_agree; rewrite ?length_drop; try lia.
    + intros i Hi. rewrite lookup_drop, <- Ag by lia. f_equal. lia.
    + intros i Hi Hor. rewrite R0 by (unfold b_sz in *; lia). rewrite <- Gc3 by lia. f_equal. lia.
Qed.

(** The buffer when the fragment bridges to [nx]. *)
Lemma combined_buf_bridge cur nx o data sz :
  honest o data sz -> good_b cur -> good_b nx ->
  let oe := o + sz in
  let ce := b_offset cur + b_sz cur in
  let no := Z.min (b_offset cur) o in
  let ne := b_offset nx + b_sz nx in
  o <= ce -> ce < b_offset nx -> b_offset nx <= oe < ne ->
  let buf := combined_buf heap_byte cur (Some nx) o data sz oe no ne (ne - no) in
  length buf = Z.to_nat (ne - no) /\ agree no no ne buf.
Proof.
  intros (Ho & Hs & HoM & Ld & Ag) G Gn oe ce no ne Hle Hlt Hne.
  pose proof (b_sz_pos cur) as Pc. pose proof (b_sz_pos nx) as Pn.
  pose proof G as (Gc1 & Gc2 & Gc3). pose proof Gn as (Gn1 & Gn2 & Gn3).
  unfold combined_buf. rewrite (good_end cur G). fold ce.
  rewrite (wrap_small 32 (b_offset nx - no)) by (unfold in_word; lia).
  set (chosen := if b_sz nx <=? b_sz cur then b_buf cur else b_buf nx).
  assert (Z.of_nat (length chosen) <= ne - no) as Lc
    by (unfold chosen, b_sz in *; destruct (_ <=? _); lia).
  set (buf0 := realloc_buf _ _ _).
  assert (length buf0 = Z.to_nat (ne - no)) as L0 by (apply length_realloc; lia).
  set (buf1 := memcpy _ _ _ buf0).
  assert (length buf1 = Z.to_nat (ne - no)) as L1 by (unfold buf1; rewrite length_memcpy; lia).
  assert (agree no (b_offset nx) ne buf1) as A1.
  { unfold buf1. apply memcpy_agree; try (unfold b_sz in *; lia). exact Gn3. }
  destruct (Z.eqb_spec no o) as [E|E].
  - replace (b_offset nx <=? oe) with true by lia.
    rewrite min32_spec by (unfold in_word; lia).
    split; [rewrite length_memcpy; lia|].
    replace 0 with (no - no) by lia. apply memcpy_agree; try lia.
    + rewrite E. intros i Hi. apply Ag. lia.
    + intros i Hi Hor. apply A1. lia.
  - assert (no = b_offset cur) as E3 by lia.
    rewrite !(wrap_small 32) by (unfold in_word; lia).
    set (buf2 := if b_sz nx <=? b_sz cur then buf1 else _).
    assert (length buf2 = Z.to_nat (ne - no) /\ agree no no ce buf2
            /\ agree no (b_offset nx) ne buf2) as (L2 & A2 & A3).
    { unfold buf2. destruct (b_sz nx <=? b_sz cur) eqn:Ch.
      - split_and!; [done| |done]. intros i Hi. unfold buf1.
        rewrite memcpy_other by (unfold b_sz in *; lia). unfold buf0, chosen.
        rewrite realloc_lookup by (unfold b_sz in *; lia). rewrite <- Gc3 by lia. f_equal. lia.
      - split_and!; [rewrite length_memcpy; lia| |]; replace 0 with (no - no) by lia;
          apply memcpy_agree; try (unfold b_sz in *; lia); try (intros i Hi; rewrite E3; apply Gc3; lia).
        intros i Hi _. apply A1. lia. }
    split; [rewrite length_memcpy; lia|].
    replace (b_sz cur) with (ce - no) by lia.
    apply memcpy_agree; rewrite ?length_drop; try lia.
    + intros i Hi. rewrite lookup_drop, <- Ag by lia. f_equal. lia.
    + intros i Hi [Hor|Hor]; [apply A2|apply A3]; lia.
Qed.

Lemma bucket_good no ne buf : 0 <= no <= ne -> ne <= sizeM ->
  length buf = Z.to_nat (ne - no) /\ agree no no ne buf ->
  good_b (Bucket no buf) /\ no + b_sz (Bucket no buf) = ne.
Proof.
  intros H1 H2 [L A]. assert (no + b_sz (Bucket no buf) = ne) as E
    by (unfold b_sz; cbn [b_buf]; rewrite L; lia).
  split; [|done]. unfold good_b. cbn [b_offset b_buf]. rewrite E. split_and!; (done || lia).
Qed.

Ltac same_change :=
  match goal with
  | |- Some (_, _, u32 ?a) = Some (_, _, u32 ?b) => replace a with b by lia; done
  end.

(** One merge: the new bucket is honest and covers [cur], the fragment, the
    buckets between and, when the fragment reaches it, [next]. *)
Lemma combine_spec cur mids fn o data sz :
  honest o data sz -> good_b cur -> chain (b_offset cur + b_sz cur + 1) (mids ++ fn) ->
  match fn with [] => True | nx :: _ => o + sz < b_offset nx + b_sz nx end ->
  o <= b_offset cur + b_sz cur ->
  ~ (b_offset cur <= o /\ o + sz <= b_offset cur + b_sz cur) ->
  mergeable cur o (o + sz) ->
  exists b merged,
    DtlsMsgCombineFragBuckets alloc heap_byte cur mids (head fn) o data sz
      = Some (b, merged, u32 (b_sz b - (b_sz cur + total mids
                                        + (if merged : bool then total (take 1 fn) else 0))))
    /\ good_b b /\ b_offset b = Z.min (b_offset cur) o
    /\ (if merged : bool
        then exists nx tl, fn = nx :: tl /\ b_offset nx <= o + sz < b_offset nx + b_sz nx
               /\ b_offset b + b_sz b = b_offset nx + b_sz nx
        else b_offset b + b_sz b = Z.max (b_offset cur + b_sz cur) (o + sz)
             /\ match fn with [] => True | nx :: _ => o + sz < b_offset nx end).
Proof.
  intros Hon G C Hnx Hle Hnc Hmg. pose proof Hon as (Ho & Hs & HoM & Ld & Ag).
  pose proof (b_sz_pos cur) as Pc. pose proof G as (Gc1 & Gc2 & Gc3).
  unfold DtlsMsgCombineFragBuckets. rewrite alloc_ok. cbn [negb].
  rewrite (good_end cur G).
  rewrite (wrap_small 32 (o + sz)) by (unfold in_word; lia).
  rewrite min32_spec, max32_spec by (unfold in_word; lia).
  destruct fn as [|nx tl]; [|destruct (chain_ge _ _ _ _ C) as [Nx1 Nx2];
                             pose proof Nx2 as (_ & Nx3 & _); pose proof (b_sz_pos nx);
                             cbn [head merge_next]; destruct (Z.leb_spec (b_offset nx) (o + sz))].
  - pose proof (combined_buf_alone cur o data sz Hon G Hle Hnc Hmg) as LA. cbn zeta in LA.
    apply bucket_good in LA as [GB EB]; [|lia|lia].
    cbn [head merge_next]. rewrite (wrap_small 32 (_ - _)) by (unfold in_word; lia).
    eexists (Bucket _ _), false. rewrite foldr_total. cbn [b_offset].
    split; [|split; [exact GB|split; [done|split; [exact EB|done]]]].
    same_change.
  - rewrite (good_end nx Nx2), (wrap_small 32 (_ - _)) by (unfold in_word; lia).
    pose proof (combined_buf_bridge cur nx o data sz Hon G Nx2 Hle ltac:(lia) ltac:(lia)) as LA.
    cbn zeta in LA. apply bucket_good in LA as [GB EB]; [|lia|lia].
    eexists (Bucket _ _), true. rewrite foldr_total. cbn [b_offset].
    split; [|split; [exact GB|split; [done|]]].
    + change (total (take 1 (nx :: tl))) with (b_sz nx + 0). same_change.
    + exists nx, tl. split_and!; done || lia.
  - pose proof (combined_buf_alone cur o data sz Hon G Hle Hnc Hmg) as LA. cbn zeta in LA.
    apply bucket_good in LA as [GB EB]; [|lia|lia].
    rewrite (wrap_small 32 (_ - _)) by (unfold in_word; lia).
    eexists (Bucket _ _), false. rewrite foldr_total. cbn [b_offset].
    split; [|split; [exact GB|split; [done|split; [exact EB|lia]]]].
    same_change.
Qed.

(** ** One fragment *)

(** The placements the merge handles correctly: all but a fragment that lies
    strictly between two buckets, or overlaps only the front of one. *)
Definition safe_place (o oe : Z) (l : list bucket) : bool :=
  match locate o oe [] l with
  | (true, _, _) | (_, _, []) => true
  | (false, pre, cur :: _) =>
      (bool_decide (pre = []) && (oe <? b_offset cur))
      || (b_offset cur <=? o) || (b_end cur <=? oe) || (oe =? b_offset cur)
  end.

Record assembling (m : DtlsMsg) : Prop := {
  as_chain : chain 0 (fragBucketList m);
  as_bytes : bytesReceived m = total (fragBucketList m);
  as_count : fragBucketListCount m = Z.of_nat (length (fragBucketList m));
  as_few : (length (fragBucketList m) <= 10)%nat }.

Lemma cov_app l1 l2 i : cov (l1 ++ l2) i <-> cov l1 i \/ cov l2 i.
Proof. apply Exists_app. Qed.

Lemma cov_cons b l i : cov (b :: l) i <-> b_offset b <= i < b_offset b + b_sz b \/ cov l i.
Proof. apply Exists_cons. Qed.

Lemma cov_nil i : cov [] i <-> False.
Proof. apply Exists_nil. Qed.

Lemma cov_between lo oe l r i : chain lo (l ++ r) ->
  Forall (fun b => b_offset b + b_sz b <= oe) l -> cov l i -> lo <= i < oe.
Proof.
  revert lo. induction l as [|b l IH]; intros lo C F H; [by apply Exists_nil in H|].
  inversion F as [|?? F1 F2]; subst. destruct C as (C1 & _ & C3).
  apply cov_cons in H as [H|H]; [lia|]. pose proof (b_sz_pos b).
  specialize (IH _ C3 F2 H). lia.
Qed.

(** The list after a merge. *)
Lemma merge_list lo pre cur mids fn o oe b merged :
  0 <= lo -> lo <= o <= oe ->
  chain lo (pre ++ cur :: mids ++ fn) ->
  Forall (fun b => b_offset b + b_sz b < o) pre ->
  Forall (fun b => b_offset b + b_sz b <= oe) mids ->
  o <= b_offset cur + b_sz cur -> mergeable cur o oe ->
  good_b b -> b_offset b = Z.min (b_offset cur) o ->
  (if merged : bool
   then exists nx tl, fn = nx :: tl /\ b_offset nx <= oe < b_offset nx + b_sz nx
          /\ b_offset b + b_sz b = b_offset nx + b_sz nx
   else b_offset b + b_sz b = Z.max (b_offset cur + b_sz cur) oe
        /\ match fn with [] => True | nx :: _ => oe < b_offset nx end) ->
  let l' := pre ++ b :: (if merged then tail fn else fn) in
  chain lo l'
  /\ (forall i, cov l' i <-> cov (pre ++ cur :: mids ++ fn) i \/ o <= i < oe)
  /\ total l' = total (pre ++ cur :: mids ++ fn)
                + (b_sz b - (b_sz cur + total mids + if merged then total (take 1 fn) else 0)).
Proof.
  intros Hlo Ho C Fp Fm Hle Hmg Gb Eb Hm l'.
  pose proof (chain_app_r _ _ _ Hlo C) as (C1 & Gc & C2).
  pose proof (b_sz_pos cur) as Pc. pose proof Gc as (Gc1 & _).
  pose proof (chain_app_r (b_offset cur + b_sz cur + 1) mids fn ltac:(lia) C2) as C3.
  split_and!.
  - apply (chain_replace lo o pre (cur :: mids ++ fn)); try done; [lia|].
    intros lo' L1 L2 (C1' & _ & _). split; [lia|]. split; [done|].
    destruct merged.
    + destruct Hm as (nx & tl & -> & _ & E). rewrite E. apply C3.
    + destruct Hm as [E Hn]. rewrite E. destruct fn as [|nx tl]; [done|].
      destruct C3 as (D1 & D2 & D3). split_and!; [lia|done|done].
  - intros i. unfold l'. rewrite !cov_app, !cov_cons, !cov_app.
    assert (cov mids i -> o <= i < oe) as Bm.
    { intros Hc. apply (cov_between _ _ _ _ i C2 Fm) in Hc. lia. }
    assert (cov fn i <-> (if merged then cov (take 1 fn) i else False)
                         \/ cov (if merged then tail fn else fn) i) as ->.
    { destruct merged; [|tauto]. destruct Hm as (nx & tl & -> & _). cbn [tail].
      change (take 1 (nx :: tl)) with [nx]. rewrite !cov_cons, cov_nil. tauto. }
    unfold mergeable in Hmg.
    assert (b_offset b <= i < b_offset b + b_sz b <->
      b_offset cur <= i < b_offset cur + b_sz cur \/ o <= i < oe
      \/ (if merged then cov (take 1 fn) i else False)) as ->; [|clear -Bm; tauto].
    destruct merged.
    + destruct Hm as (nx & tl & -> & Hn & E). change (take 1 (nx :: tl)) with [nx].
      pose proof (chain_ge _ mids nx tl C2) as [Hx _]. pose proof (b_sz_pos nx).
      rewrite cov_cons, cov_nil. lia.
    + destruct Hm as [E _]. lia.
  - unfold l'. rewrite !total_app. cbn [total foldr]. fold (total (mids ++ fn)).
    rewrite total_app. fold (total (if merged then tail fn else fn)).
    destruct merged; [|lia]. destruct Hm as (nx & tl & -> & _).
    change (total (take 1 (nx :: tl))) with (b_sz nx + 0).
    change (total (nx :: tl)) with (b_sz nx + total tl). cbn [tail]. lia.
Qed.

Lemma fragment_bucket o data sz : honest o data sz ->
  DtlsMsgCreateFragBucket alloc o data sz = Some (Bucket o data)
  /\ good_b (Bucket o data) /\ b_sz (Bucket o data) = sz.
Proof.
  intros (Ho & Hs & HM & L & A). unfold DtlsMsgCreateFragBucket. rewrite alloc_ok.
  rewrite take_ge by lia. split; [done|].
  assert (b_sz (Bucket o data) = sz) as E by done.
  split; [|done]. unfold good_b. rewrite E. cbn [b_offset b_buf]. split_and!; (done || lia).
Qed.

(** What an accepted fragment does to an assembling message. *)
Definition extended (m m' : DtlsMsg) (o oe : Z) : Prop :=
  assembling m'
  /\ (forall i, cov (fragBucketList m') i <-> cov (fragBucketList m) i \/ o <= i < oe)
  /\ m' = m_set_buckets (fragBucketList m') (bytesReceived m') (fragBucketListCount m') m.

Lemma m_set_buckets_same m : m_set_buckets (fragBucketList m) (bytesReceived m)
  (fragBucketListCount m) m = m.
Proof. destruct m. done. Qed.

Lemma extended_intro m l' o oe r c :
  chain 0 l' -> (length l' <= 10)%nat -> r = total l' -> c = Z.of_nat (length l') ->
  (forall i, cov l' i <-> cov (fragBucketList m) i \/ o <= i < oe) ->
  extended m (m_set_buckets l' r c m) o oe.
Proof. intros. split; [|done]. split; done. Qed.

Lemma total_bound l : chain 0 l -> 0 <= total l <= sizeM.
Proof.
  intros C. pose proof (total_pos l). destruct l as [|b l]; [cbn; lia|].
  pose proof (chain_total 0 (b :: l) ltac:(lia) C ltac:(done)). cbn [length] in *. lia.
Qed.

Lemma place_merge m pre cur rest o data sz :
  assembling m -> honest o data sz -> fragBucketList m = pre ++ cur :: rest ->
  Forall (fun b => b_offset b + b_sz b < o) pre ->
  o <= b_offset cur + b_sz cur ->
  ~ (b_offset cur <= o /\ o + sz <= b_offset cur + b_sz cur) ->
  mergeable cur o (o + sz) ->
  let '(mids, from_next) := covered (o + sz) rest in
  match DtlsMsgCombineFragBuckets alloc heap_byte cur mids (head from_next) o data sz with
  | None => False
  | Some (b, merged, d) =>
      let tl := if merged then tail from_next else from_next in
      let gone := Z.of_nat (length mids) + (if merged then 1 else 0) in
      extended m (m_set_buckets (pre ++ b :: tl) (u32 (bytesReceived m + d))
                    (u8 (fragBucketListCount m - gone)) m) o (o + sz)
  end.
Proof.
  intros [Ac Ab An Af] Hon El Fp Hle Hnc Hmg.
  destruct (covered (o + sz) rest) as [mids fn] eqn:Cv.
  rewrite El in Ac, Ab, An, Af. pose proof (chain_good _ _ Ac) as Fg.
  apply Forall_app in Fg as [_ Fg]. inversion Fg as [|?? Gc Fr]; subst.
  destruct (covered_spec _ _ _ _ Fr Cv) as (-> & Fm & Hnx).
  pose proof (chain_app_r 0 pre _ ltac:(lia) Ac) as (_ & _ & C2).
  destruct (combine_spec cur mids fn o data sz Hon Gc C2 Hnx Hle Hnc Hmg)
    as (b & merged & -> & Gb & Eb & Hm).
  destruct Hon as (Ho & Hs & HM & _ & _).
  destruct (merge_list 0 pre cur mids fn o (o + sz) b merged ltac:(lia) ltac:(lia) Ac Fp Fm
              Hle Hmg Gb Eb Hm) as (X1 & X2 & X3).
  pose proof (total_bound _ X1) as Tb.
  assert (length fn = length (if merged then tail fn else fn) + (if merged then 1 else 0))%nat
    as Lfn by (destruct merged; [destruct Hm as (nx & tl & -> & _)|]; cbn; lia).
  rewrite !length_app in *. cbn [length] in *. rewrite length_app in *.
  apply extended_intro; try done.
  - rewrite length_app. cbn [length]. lia.
  - rewrite wrap_add_r, Ab, <- X3. apply wrap_small. unfold in_word. lia.
  - rewrite An, length_app. cbn [length].
    rewrite wrap_small; [|unfold in_word]; destruct merged; lia.
  - rewrite El. exact X2.
Qed.

(** Every safely placed fragment is stored, unless the list is full. *)
Lemma place_spec m o data sz :
  assembling m -> honest o data sz ->
  safe_place o (o + sz) (fragBucketList m) = true ->
  (place_fragment alloc heap_byte o data sz m = inl DTLS_TOO_MANY_FRAGMENTS_E
   /\ length (fragBucketList m) = 10%nat)
  \/ exists m', place_fragment alloc heap_byte o data sz m = inr m' /\ extended m m' o (o + sz).
Proof.
  intros A Hon S. pose proof A as [Ac Ab An Af].
  destruct (fragment_bucket o data sz Hon) as (EC & GF & SF).
  pose proof Hon as (Ho & Hs & HM & _ & _). pose proof (total_bound _ Ac) as Tb.
  unfold place_fragment. rewrite EC.
  rewrite (wrap_small 32 (o + sz)) by (unfold in_word; lia).
  destruct (fragBucketList m) as [|b0 l0] eqn:El.
  - right. eexists. split; [done|]. cbn in Ab, An.
    apply extended_intro; rewrite ?An; [cbn; split_and!; (done || lia)|cbn; lia| |done|].
    + cbn [total foldr]. lia.
    + intros i. rewrite cov_cons, SF, El, cov_nil. cbn [b_offset]. tauto.
  - rewrite <- El in *. unfold safe_place in S.
    destruct (locate o (o + sz) [] (fragBucketList m)) as [[d pre] l'] eqn:Lo.
    destruct (locate_spec o (o + sz) [] _ _ _ _ ltac:(lia) (chain_good _ _ Ac) Lo)
      as (mid & Ep & Ell & Fp & Sp). cbn [app] in Ep. subst pre.
    destruct l' as [|cur rest]; [|destruct d].
    + subst d. change DTLS_FRAG_POOL_SZ with 10.
      destruct (Z.leb_spec 10 (fragBucketListCount m)); [left; split; [done|lia]|right].
      rewrite app_nil_r in Ell. eexists. split; [done|].
      assert (chain 0 (mid ++ [Bucket o data])) as C'.
      { apply (chain_replace 0 o mid []); [lia|rewrite app_nil_r, <- Ell; done|done|].
        intros lo' L1 L2 _. cbn [chain b_offset]. done. }
      pose proof (total_bound _ C') as Tb'. rewrite total_app, <- Ell in Tb'.
      cbn [total foldr] in Tb'. rewrite SF in Tb'.
      apply extended_intro; [done| | | |].
      * rewrite length_app, <- Ell. cbn [length]. lia.
      * rewrite total_app, <- Ell. cbn [total foldr]. rewrite SF, Ab.
        rewrite wrap_small by (unfold in_word; lia). lia.
      * rewrite length_app, <- Ell, An, wrap_small by (unfold in_word; lia). cbn [length]. lia.
      * intros i. rewrite cov_app, cov_cons, cov_nil, SF, <- Ell. cbn [b_offset]. tauto.
    + right. exists m. split; [done|]. destruct Sp as (_ & Sd).
      rewrite <- (m_set_buckets_same m) at 2. apply extended_intro; try done.
      intros i. split; [by left|]. intros [H|H]; [done|]. rewrite Ell, cov_app, cov_cons.
      right. left. lia.
    + destruct Sp as (Sle & Sd).
      assert (good_b cur) as Gc
        by (pose proof (chain_good _ _ Ac) as Fg; rewrite Ell in Fg;
            apply Forall_app in Fg as [_ Fg]; inversion Fg; done).
      rewrite (good_end cur Gc) in S.
      destruct (bool_decide (mid = []) && (o + sz <? b_offset cur)) eqn:F.
      * apply andb_true_iff in F as [F1 F2]. apply bool_decide_eq_true in F1 as ->.
        cbn [app] in Ell. pose proof Ac as Ac'. rewrite Ell in Ac'.
        pose proof Ac' as (C1 & C2 & C3).
        assert (chain 0 (Bucket o data :: cur :: rest)) as C'.
        { cbn [chain]. rewrite SF. cbn [b_offset]. split_and!; (done || lia). }
        pose proof (total_bound _ C') as T'. rewrite <- Ell in *. cbn [total foldr] in T'.
        fold (total (fragBucketList m)) in T'. rewrite SF in T'.
        change DTLS_FRAG_POOL_SZ with 10.
        destruct (Z.leb_spec 10 (fragBucketListCount m)); [left; split; [done|lia]|right].
        eexists. split; [done|]. apply extended_intro; [done|cbn [length]; lia| | |].
        -- cbn [total foldr]. fold (total (fragBucketList m)).
           rewrite SF, wrap_small by (unfold in_word; lia). lia.
        -- rewrite wrap_small by (unfold in_word; lia). cbn [length]. lia.
        -- intros i. rewrite cov_cons, SF. cbn [b_offset]. tauto.
      * pose proof (place_merge m mid cur rest o data sz A Hon Ell Fp Sle) as P.
        destruct (covered (o + sz) rest) as [mids fn].
        destruct (DtlsMsgCombineFragBuckets _ _ _ _ _ _ _ _) as [[[b merged] d]|].
        -- right. eexists. split; [reflexivity|]. apply P.
           ++ intros [H1 H2]. destruct Sd as [_ Sd]. discriminate (Sd (conj H1 H2)).
           ++ unfold mergeable. lia.
        -- exfalso. apply P.
           ++ intros [H1 H2]. destruct Sd as [_ Sd]. discriminate (Sd (conj H1 H2)).
           ++ unfold mergeable. lia.
Qed.

(** ** Whole messages *)

Lemma chain_full l : chain 0 l -> 0 < sizeM -> (forall i, 0 <= i < sizeM -> cov l i) ->
  total l = sizeM.
Proof.
  intros C P H. destruct l as [|b l]; [destruct (proj1 (cov_nil _) (H 0 ltac:(lia)))|].
  destruct C as (C1 & (G1 & G2 & _) & C3). pose proof (b_sz_pos b) as Pb.
  assert (forall i, i <= b_offset b + b_sz b -> ~ cov l i) as Later.
  { intros i Hi Hc.
    assert (chain (b_offset b + b_sz b + 1) (l ++ [])) as C4 by (rewrite app_nil_r; done).
    apply (cov_between _ sizeM _ _ i C4) in Hc; [lia|].
    apply Forall_forall. intros x Hx. apply chain_good in C3.
    rewrite Forall_forall in C3. apply (C3 x Hx). }
  assert (b_offset b = 0) as E0.
  { pose proof (H 0 ltac:(lia)) as H0. apply cov_cons in H0 as [H0|H0]; [lia|].
    exfalso. apply (Later 0); [lia|done]. }
  assert (b_sz b = sizeM) as E1.
  { destruct (Z.lt_ge_cases (b_sz b) sizeM); [|lia].
    pose proof (H (b_sz b) ltac:(lia)) as H1. apply cov_cons in H1 as [H1|H1]; [lia|].
    exfalso. apply (Later (b_sz b)); [lia|done]. }
  destruct l as [|b' l]; [cbn; lia|]. destruct C3 as (D1 & (D2 & D3 & _) & _).
  pose proof (b_sz_pos b'). lia.
Qed.

Lemma full_single l : chain 0 l -> l <> [] -> total l = sizeM ->
  exists b, l = [b] /\ b_offset b = 0 /\ b_sz b = sizeM /\ b_buf b = M.
Proof.
  intros C N T. pose proof (chain_total 0 l ltac:(lia) C N) as L.
  destruct l as [|b [|b' l]]; [done| |cbn [length] in L; lia].
  destruct C as (C1 & (G1 & G2 & G3) & _). cbn [total foldr] in T.
  exists b. assert (b_offset b = 0) as E by lia. split_and!; [done|done|lia|].
  apply list_eq. intros k. rewrite E in G3. unfold b_sz in *.
  destruct (Nat.lt_ge_cases k (length M)).
  - specialize (G3 (Z.of_nat k) ltac:(lia)). rewrite Z.sub_0_r, Nat2Z.id in G3. done.
  - rewrite !(proj2 (lookup_ge_None _ _)) by lia. done.
Qed.

(** The state of a message of type [ty] and number [num] that received exactly
    the bytes [R] of [M]. *)
Context (num ep ty : Z) (enc : bool).

Definition identified (m : DtlsMsg) : Prop := m_type m = ty /\ m_epoch m = ep /\ m_seq m = num.

Record collecting (R : Z -> Prop) (m : DtlsMsg) : Prop := {
  co_sz : m_sz m = sizeM;
  co_ready : ready m = true ->
    fullMsg m = M /\ m_header m = [ty] ++ c32to24 sizeM ++ c16toa (u16 num)
                                  ++ c32to24 0 ++ c32to24 sizeM;
  co_wait : ready m = false ->
    assembling m /\ (forall i, cov (fragBucketList m) i <-> R i)
    /\ (fragBucketList m = [] /\ m_type m = no_shake
        \/ identified m /\ total (fragBucketList m) <> sizeM) }.

(** The reception of bytes [o, o + sz) of the message. *)
Definition recv (o sz : Z) (m : DtlsMsg) : Z * DtlsMsg :=
  DtlsMsgSet alloc heap_byte m num ep (slice (Z.to_nat o) (Z.to_nat sz) M) ty o sz sizeM enc.

Lemma slice_honest o sz : 0 <= o -> 0 <= sz -> o + sz <= sizeM ->
  honest o (slice (Z.to_nat o) (Z.to_nat sz) M) sz.
Proof.
  intros. split_and!; try done.
  - rewrite length_slice by lia. lia.
  - intros i Hi. unfold slice. rewrite lookup_take_lt, lookup_drop by lia. f_equal. lia.
Qed.

Lemma place_nonempty m o data sz m' : honest o data sz ->
  place_fragment alloc heap_byte o data sz m = inr m' -> extended m m' o (o + sz) ->
  fragBucketList m' <> [].
Proof.
  intros Hon P X E. unfold place_fragment in P.
  destruct (fragment_bucket o data sz Hon) as (EC & _). rewrite EC in P.
  destruct (fragBucketList m) as [|b l] eqn:El; [injection P as <-; done|].
  destruct (locate _ _ _ _) as [[[] pre] [|cur rest]].
  - injection P as <-. congruence.
  - injection P as <-. congruence.
  - destruct (_ <=? _); [done|]. injection P as <-. cbn in E. by destruct pre.
  - destruct (_ && _); [destruct (_ <=? _); [done|]; injection P as <-; done|].
    destruct (covered _ _) as [mids fn].
    destruct (DtlsMsgCombineFragBuckets _ _ _ _ _ _ _ _) as [[[b' mg] d]|];
      injection P as <-; [cbn in E; by destruct pre|congruence].
Qed.

(** A reception on a message that is still being assembled. *)
Lemma recv_unfold R m o sz :
  collecting R m -> 0 <= o -> 0 <= sz -> o + sz <= sizeM -> ready m = false ->
  exists m1, identified m1 /\ fragBucketList m1 = fragBucketList m /\ assembling m1
    /\ m_sz m1 = sizeM /\ ready m1 = false
    /\ recv o sz m
       = match place_fragment alloc heap_byte o (slice (Z.to_nat o) (Z.to_nat sz) M) sz m1 with
         | inl e => (e, m1)
         | inr m' => (0, if bytesReceived m' =? m_sz m' then DtlsMsgAssembleCompleteMessage m'
                         else m')
         end.
Proof.
  intros [Cs Cr Cw] Ho Hs HM Er. unfold recv, DtlsMsgSet.
  rewrite (wrap_small 32 (o + sz)) by (unfold in_word; lia).
  rewrite Cs, Z.eqb_refl, Er. cbn [negb orb].
  replace (sizeM <? o + sz) with false by lia.
  destruct (Cw Er) as (A & Cov & Id).
  set (known := negb (m_type m =? no_shake)).
  assert (known && (negb (m_type m =? ty) || negb (m_epoch m =? ep) || negb (m_seq m =? num))
          = false) as ->.
  { subst known. destruct Id as [[_ ->]|[(-> & -> & ->) _]]; [done|].
    rewrite !Z.eqb_refl. apply andb_false_r. }
  set (m1 := if known then _ else _). exists m1.
  destruct A as [A1 A2 A3 A4]. subst m1 known. destruct Id as [[L T]|[(T1 & T2 & T3) N]].
  - rewrite T. change (no_shake =? no_shake) with true. cbn [negb]. split_and!; done.
  - destruct (negb _); split_and!; done.
Qed.

Lemma recv_spec R m o sz :
  collecting R m -> 0 <= o -> 0 <= sz -> o + sz <= sizeM ->
  ready m || safe_place o (o + sz) (fragBucketList m) = true ->
  let '(rc, m') := recv o sz m in
  (rc = 0 /\ collecting (fun i => R i \/ o <= i < o + sz) m')
  \/ (rc = DTLS_TOO_MANY_FRAGMENTS_E /\ collecting R m').
Proof.
  intros C Ho Hs HM S. pose proof C as [Cs Cr Cw].
  destruct (ready m) eqn:Er.
  { unfold recv, DtlsMsgSet. rewrite (wrap_small 32 (o + sz)) by (unfold in_word; lia).
    rewrite Cs, Z.eqb_refl, Er. replace (sizeM <? o + sz) with false by lia. left.
    split; [done|]. split; [done|intros _; apply Cr; done|congruence]. }
  destruct (Cw eq_refl) as (A & Cov & Id). cbn [orb] in S.
  destruct (recv_unfold R m o sz C Ho Hs HM Er) as (m1 & I1 & L1 & A1 & S1 & R1 & ->).
  rewrite <- L1 in S.
  destruct (place_spec m1 o _ sz A1 (slice_honest o sz Ho Hs HM) S)
    as [[-> F]|(m' & EP & X)].
  - right. split; [done|]. split; [done|congruence|]. intros _. rewrite L1.
    split; [done|]. split; [done|]. right. split; [done|].
    destruct Id as [[L _]|[_ N]]; [|done]. rewrite L1, L in F. done.
  - rewrite EP. pose proof (place_nonempty m1 o _ sz m' (slice_honest o sz Ho Hs HM) EP X) as N.
    left. split; [done|]. destruct X as (A' & Cov' & Em').
    assert (m_sz m' = sizeM /\ identified m' /\ ready m' = false) as (S' & I' & R')
      by (rewrite Em'; done).
    rewrite (as_bytes m' A'), S'. destruct (Z.eqb_spec (total (fragBucketList m')) sizeM) as [T|T].
    + destruct (full_single _ (as_chain m' A') N T) as (b & Lb & O & Sz & Bf).
      unfold DtlsMsgAssembleCompleteMessage.
      rewrite (as_count m' A'), Lb, O, Sz, S', !Z.eqb_refl. cbn [length Z.of_nat Z.eqb andb].
      split; [exact S'| |done]. intros _. cbn [fullMsg m_header m_set_full]. split; [done|].
      unfold rebuilt_header. destruct I' as (-> & _ & ->). rewrite S'. done.
    + split; [done|congruence|]. intros _. split; [done|]. split; [|right; done].
      intros i. rewrite Cov', L1, Cov. done.
Qed.

Lemma collecting_complete R m : collecting R m -> 0 < sizeM ->
  (forall i, 0 <= i < sizeM -> R i) -> ready m = true.
Proof.
  intros [_ _ Cw] P H. destruct (ready m); [done|]. destruct (Cw eq_refl) as (A & Cov & Id).
  pose proof (chain_full _ (as_chain m A) P (fun i Hi => proj2 (Cov i) (H i Hi))) as T.
  destruct Id as [[L _]|[_ N]]; [|done]. rewrite L in T. cbn in T. lia.
Qed.

Lemma collecting_new m : DtlsMsgNew alloc heap_byte sizeM false = Some m ->
  collecting (fun _ => False) m.
Proof.
  unfold DtlsMsgNew. rewrite alloc_ok. cbn [negb]. intros [= <-].
  split; [done|done|]. intros _. split; [|split; [intros i; apply cov_nil|by left]].
  split; cbn; (done || lia).
Qed.

(** A run of receptions. *)
Fixpoint deliver (frags : list (Z * Z)) (m : DtlsMsg) : DtlsMsg :=
  match frags with
  | [] => m
  | (o, sz) :: fs => deliver fs (snd (recv o sz m))
  end.

(** Every fragment of the run is placed safely and stored. *)
Fixpoint safe_run (frags : list (Z * Z)) (m : DtlsMsg) : bool :=
  match frags with
  | [] => true
  | (o, sz) :: fs =>
      (ready m || safe_place o (o + sz) (fragBucketList m))
      && (fst (recv o sz m) =? 0) && safe_run fs (snd (recv o sz m))
  end.

Definition in_message (f : Z * Z) : Prop := 0 <= f.1 /\ 0 <= f.2 /\ f.1 + f.2 <= sizeM.

Definition covers (frags : list (Z * Z)) : Prop :=
  forall i, 0 <= i < sizeM -> Exists (fun f => f.1 <= i < f.1 + f.2) frags.

Lemma deliver_collecting frags R m : collecting R m -> Forall in_message frags ->
  safe_run frags m = true ->
  collecting (fun i => R i \/ Exists (fun f => f.1 <= i < f.1 + f.2) frags) (deliver frags m).
Proof.
  revert R m. induction frags as [|[o sz] fs IH]; intros R m C F S.
  - destruct C as [C1 C2 C3]. split; [done|done|]. intros Er. destruct (C3 Er) as (A & Cov & Id).
    split; [done|]. split; [|done]. intros i. rewrite Cov, Exists_nil. tauto.
  - inversion F as [|?? [F1 [F2 F3]] F']; subst. cbn [fst snd] in F1, F2, F3.
    cbn [safe_run deliver] in *. apply andb_true_iff in S as [S S3].
    apply andb_true_iff in S as [S1 S2].
    pose proof (recv_spec R m o sz C F1 F2 F3 S1) as X.
    destruct (recv o sz m) as [rc m'] eqn:E. cbn [fst snd] in *.
    apply Z.eqb_eq in S2. destruct X as [[_ C']|[-> _]]; [|done].
    destruct (IH _ m' C' F' S3) as [D1 D2 D3]. split; [done|done|].
    intros Er. destruct (D3 Er) as (A & Cov & Id). split; [done|]. split; [|done].
    intros i. rewrite Cov, Exists_cons. cbn [fst snd]. tauto.
Qed.

(** C11: Reassembly is correct.  Start from a fresh message and deliver fragments
    of [M] in any order, with any overlaps and duplicates, as long as none is
    dropped for lack of buckets and each is placed inside or right behind an
    existing bucket, at either end of the list, or over a bucket's end.  Then a
    message reported ready is exactly [M] behind its reconstructed header, and
    once the fragments cover [M] it is reported ready. *)
Theorem fragments_reassemble m frags
    (New : DtlsMsgNew alloc heap_byte sizeM false = Some m)
    (In : Forall in_message frags) (Safe : safe_run frags m = true) :
  let m' := deliver frags m in
  (ready m' = true ->
     fullMsg m' = M
     /\ m_header m' = [ty] ++ c32to24 sizeM ++ c16toa (u16 num) ++ c32to24 0 ++ c32to24 sizeM)
  /\ (0 < sizeM -> covers frags -> ready m' = true).
Proof.
  pose proof (deliver_collecting frags _ m (collecting_new m New) In Safe) as C.
  split; [apply C|]. intros P H.
  apply (collecting_complete _ _ C P). intros i Hi. right. apply H. done.
Qed.

(** ** Fragments in order *)

(** Each fragment starts within what was already delivered. *)
Fixpoint in_order (e : Z) (frags : list (Z * Z)) : bool :=
  match frags with
  | [] => true
  | (o, sz) :: fs => (o <=? e) && in_order (Z.max e (o + sz)) fs
  end.

(** One bucket from 0 to [e] (or none yet). *)
Definition prefix_only (e : Z) (l : list bucket) : Prop :=
  (l = [] /\ e = 0) \/ exists b, l = [b] /\ b_offset b = 0 /\ b_sz b = e.

Lemma prefix_place e m o data sz : assembling m -> honest o data sz ->
  prefix_only e (fragBucketList m) -> o <= e ->
  safe_place o (o + sz) (fragBucketList m) = true
  /\ exists m', place_fragment alloc heap_byte o data sz m = inr m'
       /\ prefix_only (Z.max e (o + sz)) (fragBucketList m').
Proof.
  intros A Hon P Ho. pose proof Hon as (H1 & H2 & H3 & _).
  destruct (fragment_bucket o data sz Hon) as (EC & GF & SF).
  unfold safe_place, place_fragment. rewrite EC, (wrap_small 32) by (unfold in_word; lia).
  destruct P as [[-> ->]|(b & L & O & E)].
  - split; [done|]. eexists. split; [done|]. right. exists (Bucket o data).
    cbn [fragBucketList m_set_buckets b_offset]. split_and!; [done|lia|lia].
  - pose proof (as_chain m A) as C. rewrite L in C. destruct C as (_ & G & _).
    rewrite L. cbn [locate]. rewrite (good_end b G), O, E.
    destruct ((0 <=? o) && (o + sz <=? 0 + e)) eqn:In'.
    + split; [done|]. exists m. split; [done|]. right. exists b.
      split_and!; [done|done|lia].
    + replace (o <=? 0 + e) with true by lia. rewrite O. replace (0 <=? o) with true by lia.
      split; [rewrite orb_true_r; done|]. replace (o + sz <? 0) with false by lia.
      rewrite andb_false_r. cbn [covered head].
      destruct (combine_spec b [] [] o data sz Hon G I I) as (b' & merged & EC' & GB & OB & Hm);
        rewrite ?O, ?E; [lia|lia|unfold mergeable; lia|].
      cbn [head] in EC'. rewrite EC'. eexists. split; [done|]. right. exists b'.
      destruct merged; [by destruct Hm as (? & ? & ? & _)|].
      cbn [tail app fragBucketList m_set_buckets]. split_and!; [done|lia|lia].
Qed.

Lemma recv_in_order e R m o sz : collecting R m -> 0 <= o -> 0 <= sz -> o + sz <= sizeM ->
  (ready m = false -> prefix_only e (fragBucketList m)) -> o <= e ->
  (ready m || safe_place o (o + sz) (fragBucketList m) = true)
  /\ fst (recv o sz m) = 0
  /\ (ready (snd (recv o sz m)) = false ->
      prefix_only (Z.max e (o + sz)) (fragBucketList (snd (recv o sz m)))).
Proof.
  intros C Ho Hs HM P Hle. destruct (ready m) eqn:Er.
  { split; [done|]. unfold recv, DtlsMsgSet.
    rewrite (wrap_small 32 (o + sz)) by (unfold in_word; lia).
    rewrite (co_sz R m C), Z.eqb_refl, Er. replace (sizeM <? o + sz) with false by lia.
    cbn [negb orb fst snd]. rewrite Er. done. }
  destruct (recv_unfold R m o sz C Ho Hs HM Er) as (m1 & _ & L1 & A1 & S1 & R1 & ->).
  specialize (P eq_refl). rewrite <- L1 in P.
  destruct (prefix_place e m1 o _ sz A1 (slice_honest o sz Ho Hs HM) P Hle)
    as (S & m' & -> & P'). rewrite <- L1. split; [exact S|]. cbn [fst snd]. split; [done|].
  destruct (bytesReceived m' =? m_sz m'); [|done].
  unfold DtlsMsgAssembleCompleteMessage.
  destruct (fragBucketList m') as [|b l] eqn:L; rewrite ?L; try done.
  destruct (_ && _); [done|]. rewrite L. done.
Qed.

Lemma in_order_safe frags e R m : collecting R m -> Forall in_message frags ->
  (ready m = false -> prefix_only e (fragBucketList m)) -> in_order e frags = true ->
  safe_run frags m = true.
Proof.
  revert e R m. induction frags as [|[o sz] fs IH]; intros e R m C F P O; [done|].
  inversion F as [|?? [F1 [F2 F3]] F']; subst. cbn [fst snd] in F1, F2, F3.
  cbn [in_order safe_run] in *. apply andb_true_iff in O as [O1 O2].
  destruct (recv_in_order e R m o sz C F1 F2 F3 P ltac:(lia)) as (S & Z & P').
  rewrite S, Z. cbn [andb Z.eqb].
  pose proof (recv_spec R m o sz C F1 F2 F3 S) as X.
  destruct (recv o sz m) as [rc m'] eqn:E. cbn [fst snd] in *. subst rc.
  destruct X as [[_ C']|[X _]]; [|done]. apply (IH _ _ m' C' F' P' O2).
Qed.

Lemma in_order_complete m frags :
  DtlsMsgNew alloc heap_byte sizeM false = Some m -> Forall in_message frags ->
  in_order 0 frags = true -> 0 < sizeM -> covers frags ->
  ready (deliver frags m) = true /\ fullMsg (deliver frags m) = M.
Proof.
  intros New In Ord P Cov.
  pose proof (collecting_new m New) as C0.
  assert (safe_run frags m = true) as Safe.
  { apply (in_order_safe frags 0 _ m C0 In); [|done]. intros _. left.
    unfold DtlsMsgNew in New. rewrite alloc_ok in New. injection New as <-. done. }
  pose proof (deliver_collecting frags _ m C0 In Safe) as C.
  assert (ready (deliver frags m) = true) as R
    by (apply (collecting_complete _ _ C P); intros i Hi; right; apply Cov; done).
  split; [done|]. apply (co_ready _ _ C R).
Qed.

(** C24: In-order delivery always succeeds: fragments each of which starts
    within what was already delivered - the order a sender produces them in,
    with retransmitted and overlapping ones in between - are never dropped,
    and once they cover the message it is ready and equal to [M]. *)
Theorem in_order_reassembles m frags
    (New : DtlsMsgNew alloc heap_byte sizeM false = Some m)
    (In : Forall in_message frags) (Ord : in_order 0 frags = true)
    (P : 0 < sizeM) (Cov : covers frags) :
  ready (deliver frags m) = true /\ fullMsg (deliver frags m) = M.
Proof. apply in_order_complete; done. Qed.
End Honest.

(** ** What the merge does to the other placements *)

Section Gaps.
Context (alloc : Z -> bool) (heap_byte : Z) (M : list Z) (num ep ty : Z) (enc : bool).
Hypothesis alloc_ok : forall n, alloc n = true.
Hypothesis M_small : Z.of_nat (length M) < 2 ^ 24.

#[local] Abbreviation sizeM := (Z.of_nat (length M)).
#[local] Abbreviation part o sz := (slice (Z.to_nat o) (Z.to_nat sz) M).

(** The message while it is being assembled. *)
Definition partial (l : list bucket) (bytes : Z) : DtlsMsg :=
  Msg [] [] l bytes ep num sizeM ty (Z.of_nat (length l)) false enc.

Definition finish (m : DtlsMsg) : DtlsMsg :=
  if bytesReceived m =? m_sz m then DtlsMsgAssembleCompleteMessage m else m.

Lemma recv_partial l bytes o sz m' : 0 <= o -> 0 <= sz -> o + sz <= sizeM ->
  place_fragment alloc heap_byte o (part o sz) sz (partial l bytes) = inr m' ->
  snd (recv alloc heap_byte M num ep ty enc o sz (partial l bytes)) = finish m'.
Proof.
  intros Ho Hs HM P. unfold recv, DtlsMsgSet. cbn [m_sz ready m_type m_epoch m_seq encrypted partial].
  rewrite (wrap_small 32 (o + sz)) by (unfold in_word; lia).
  rewrite !Z.eqb_refl. replace (sizeM <? o + sz) with false by lia. cbn [negb orb]. rewrite andb_false_r.
  assert ((if negb (ty =? no_shake)
           then m_set_id ty ep num (enc && enc) (partial l bytes)
           else m_set_id ty ep num enc (partial l bytes)) = partial l bytes) as E
    by (rewrite andb_diag; destruct (negb _); done).
  unfold partial in *. rewrite E, P. done.
Qed.

(** The first fragment to arrive. *)
Lemma recv_first m o sz : DtlsMsgNew alloc heap_byte sizeM false = Some m ->
  0 <= o -> 0 <= sz < sizeM -> o + sz <= sizeM ->
  snd (recv alloc heap_byte M num ep ty enc o sz m) = partial [Bucket o (part o sz)] sz.
Proof.
  intros New Ho Hs HM. unfold DtlsMsgNew in New. rewrite alloc_ok in New. injection New as <-.
  unfold recv, DtlsMsgSet. cbn [m_sz ready m_type m_epoch m_seq encrypted].
  rewrite (wrap_small 32 (o + sz)) by (unfold in_word; lia).
  rewrite !Z.eqb_refl. replace (sizeM <? o + sz) with false by lia. cbn [negb orb andb].
  unfold place_fragment, DtlsMsgCreateFragBucket. rewrite alloc_ok.
  cbn [fragBucketList m_set_id fragBucketListCount m_set_buckets bytesReceived m_sz].
  destruct (Z.eqb_spec sz sizeM); [lia|]. cbn [snd]. unfold partial, m_set_buckets. cbn.
  rewrite take_ge by (rewrite length_slice; lia). done.
Qed.

Lemma part_sz o sz : 0 <= o -> 0 <= sz -> o + sz <= sizeM -> b_sz (Bucket o (part o sz)) = sz.
Proof. intros. unfold b_sz. cbn [b_buf]. rewrite length_slice by lia. lia. Qed.

Lemma part_end o sz : 0 <= o -> 0 <= sz -> o + sz <= sizeM ->
  b_end (Bucket o (part o sz)) = o + sz.
Proof.
  intros. unfold b_end. rewrite part_sz by done. cbn [b_offset].
  apply wrap_small. unfold in_word. lia.
Qed.

(** What the merge makes of a bucket that holds the end [c..) of the message and
    a fragment [o..e) in front of it, [e] before or behind [c]: the fragment,
    then the bucket's bytes from its first one on, as many as are missing to
    the end; when the fragment ends before the bucket the copy runs over the
    bucket's end into bytes of the reallocation that were never written. *)
Lemma combine_front o e c : 0 <= o < e -> o < c -> e < sizeM -> c < sizeM ->
  DtlsMsgCombineFragBuckets alloc heap_byte (Bucket c (part c (sizeM - c))) [] None
    o (part o (e - o)) (e - o)
  = Some (Bucket o (part o (e - o)
                    ++ take (Z.to_nat (sizeM - e))
                         (drop (Z.to_nat c) M ++ replicate (Z.to_nat (c - o)) heap_byte)),
          false, u32 (c - o)).
Proof.
  intros Ho Hoc He Hc. unfold DtlsMsgCombineFragBuckets. rewrite alloc_ok.
  cbn [merge_next negb foldr]. rewrite part_end, part_sz by lia. cbn [b_offset].
  replace (o + (e - o)) with e by lia. replace (c + (sizeM - c)) with sizeM by lia.
  rewrite (wrap_small 32 e), min32_spec, max32_spec by (unfold in_word; lia).
  rewrite Z.min_r, Z.max_l, (wrap_small 32 (sizeM - o)) by (unfold in_word; lia).
  replace (sizeM - o - (sizeM - c + 0)) with (c - o) by lia.
  do 4 f_equal. unfold combined_buf. rewrite part_sz by lia. cbn [b_buf b_offset].
  rewrite Z.eqb_refl. destruct (Z.leb_spec sizeM e); [lia|].
  replace (sizeM - c - (e - c)) with (sizeM - e) by lia.
  rewrite (wrap_small 32 (sizeM - e)) by (unfold in_word; lia).
  unfold realloc_buf, memcpy.
  assert (slice (Z.to_nat c) (Z.to_nat (sizeM - c)) M = drop (Z.to_nat c) M) as ->
    by (unfold slice; apply take_ge; rewrite length_drop; lia).
  rewrite (take_ge (drop _ M)) by (rewrite length_drop; lia).
  rewrite (take_ge (part o (e - o))) by (rewrite length_slice by lia; lia).
  rewrite length_drop.
  replace (Z.to_nat (sizeM - o) - (length M - Z.to_nat c))%nat with (Z.to_nat (c - o)) by lia.
  set (B := drop (Z.to_nat c) M ++ _).
  assert (length B = Z.to_nat (sizeM - o)) as LB
    by (unfold B; rewrite length_app, length_drop, length_replicate; lia).
  assert (length (part o (e - o)) = Z.to_nat (e - o)) as LP by (rewrite length_slice by lia; lia).
  assert (forall dst, length dst = Z.to_nat (sizeM - o) ->
    blit (Z.to_nat 0) (part o (e - o)) dst = part o (e - o) ++ drop (Z.to_nat (e - o)) dst) as ->.
  { intros dst Ld. unfold blit. change (take (Z.to_nat 0) dst) with (@nil Z). cbn [app].
    rewrite take_ge, LP by lia. done. }
  - f_equal. unfold blit. rewrite drop_app_length' by (rewrite length_take; lia).
    rewrite take_ge by (rewrite length_take; lia).
    rewrite (drop_ge B), app_nil_r by (rewrite length_take; lia). done.
  - rewrite length_blit; lia.
Qed.

(** A single bucket of the message's size completes it. *)
Lemma finish_full buf r c : length buf = length M ->
  let m := finish (m_set_buckets [Bucket 0 buf] r c (partial [] sizeM)) in
  r = sizeM -> c = 1 -> ready m = true /\ fullMsg m = buf.
Proof.
  intros L m -> ->. unfold m, finish, DtlsMsgAssembleCompleteMessage, b_sz.
  cbn [bytesReceived m_set_buckets m_sz partial fragBucketList fragBucketListCount b_offset b_buf].
  rewrite L, !Z.eqb_refl. done.
Qed.

(** The fragment [0..e) arrives before the bucket [c..) with [c < e]. *)
Lemma front_overlap_run m e c : DtlsMsgNew alloc heap_byte sizeM false = Some m ->
  0 < c < e -> e < sizeM ->
  let m' := deliver alloc heap_byte M num ep ty enc [(c, sizeM - c); (0, e)] m in
  ready m' = true /\ fullMsg m' = part 0 e ++ part c (sizeM - e).
Proof.
  intros New Hc He. cbn [deliver]. rewrite (recv_first m) by (done || lia).
  assert (bf : b_end (Bucket c (part c (sizeM - c))) = sizeM) by (rewrite part_end; lia).
  erewrite recv_partial; [|lia..|].
  2:{ unfold place_fragment. cbn [fragBucketList partial locate b_offset]. rewrite bf.
      rewrite (wrap_small 32 (0 + e)) by (unfold in_word; lia).
      destruct (Z.leb_spec c 0); [lia|]. destruct (Z.leb_spec 0 sizeM); [|lia]. cbn [andb].
      rewrite bool_decide_true by done. cbn [andb covered head b_offset].
      destruct (Z.ltb_spec (0 + e) c); [lia|].
      pose proof (combine_front 0 e c ltac:(lia) ltac:(lia) ltac:(lia) ltac:(lia)) as C.
      rewrite Z.sub_0_r in C. rewrite C. reflexivity. }
  cbn [app].
  assert (take (Z.to_nat (sizeM - e)) (drop (Z.to_nat c) M ++ replicate (Z.to_nat (c - 0)) heap_byte)
          = part c (sizeM - e)) as ->.
  { unfold slice. rewrite take_app_le by (rewrite length_drop; lia). done. }
  apply (finish_full (part 0 e ++ part c (sizeM - e))).
  - rewrite length_app, !length_slice by lia. lia.
  - cbn [bytesReceived partial]. rewrite wrap_add_r, wrap_small; unfold in_word; lia.
  - reflexivity.
Qed.

(** The fragment [o..e) arrives between the buckets [0..a) and [c..) and
    touches neither. *)
Lemma gap_run m a o e c : DtlsMsgNew alloc heap_byte sizeM false = Some m ->
  0 < a < o -> o < e < c -> c < sizeM ->
  deliver alloc heap_byte M num ep ty enc [(0, a); (c, sizeM - c); (o, e - o)] m
  = partial [Bucket 0 (part 0 a);
             Bucket o (part o (e - o) ++ drop (Z.to_nat c) M
                       ++ replicate (Z.to_nat (c - e)) heap_byte)] (a + (sizeM - o)).
Proof.
  intros New Ha Ho Hc. cbn [deliver]. rewrite (recv_first m) by (done || lia).
  assert (ba : b_end (Bucket 0 (part 0 a)) = a) by (rewrite part_end; lia).
  assert (bc : b_end (Bucket c (part c (sizeM - c))) = sizeM) by (rewrite part_end; lia).
  erewrite (recv_partial _ _ c); [|lia..|].
  2:{ unfold place_fragment. cbn [fragBucketList partial locate b_offset app]. rewrite ba.
      rewrite (wrap_small 32 (c + _)) by (unfold in_word; lia).
      destruct (Z.leb_spec 0 c); [|lia]. destruct (Z.leb_spec (c + (sizeM - c)) a); [lia|].
      destruct (Z.leb_spec c a); [lia|]. cbn [andb fragBucketListCount length].
      unfold DtlsMsgCreateFragBucket. rewrite alloc_ok, take_ge by (rewrite length_slice; lia).
      reflexivity. }
  unfold finish at 1. cbn [bytesReceived m_set_buckets m_sz partial app].
  rewrite (wrap_small 32 (a + _)) by (unfold in_word; lia).
  destruct (Z.eqb_spec (a + (sizeM - c)) sizeM); [lia|].
  change (m_set_buckets ?l ?r _ (partial _ _)) with (partial l r).
  erewrite (recv_partial _ _ o); [|lia..|].
  2:{ unfold place_fragment. cbn [fragBucketList partial locate b_offset app]. rewrite ba, bc.
      rewrite (wrap_small 32 (o + _)) by (unfold in_word; lia).
      destruct (Z.leb_spec 0 o); [|lia]. destruct (Z.leb_spec (o + (e - o)) a); [lia|].
      destruct (Z.leb_spec o a); [lia|]. destruct (Z.leb_spec c o); [lia|].
      destruct (Z.leb_spec o sizeM); [|lia]. cbn [andb].
      rewrite bool_decide_false by done. cbn [andb covered head].
      rewrite (combine_front o e c) by lia. reflexivity. }
  unfold finish. cbn [bytesReceived m_set_buckets m_sz partial app].
  rewrite wrap_add_r, (wrap_small 32) by (unfold in_word; lia).
  destruct (Z.eqb_spec (a + (sizeM - c) + (c - o)) sizeM); [lia|].
  unfold partial, m_set_buckets. cbn. f_equal; [|lia]. do 2 f_equal. f_equal. f_equal.
  rewrite take_app_ge by (rewrite length_drop; lia). f_equal.
  rewrite take_replicate. f_equal. rewrite length_drop. lia.
Qed.

(** The message the gap turns [M] into: the bytes [e..c) are missing, the rest is
    moved to their place and the end is what the heap held. *)
Definition gapped (e c : Z) : list Z :=
  take (Z.to_nat e) M ++ drop (Z.to_nat c) M ++ replicate (Z.to_nat (c - e)) heap_byte.

Lemma length_gapped e c : 0 <= e < c -> c < sizeM -> length (gapped e c) = length M.
Proof.
  intros. unfold gapped. rewrite !length_app, length_take, length_drop, length_replicate. lia.
Qed.

Lemma gapped_front e c o sz : 0 <= o -> 0 <= sz -> o + sz <= e -> e < c < sizeM ->
  slice (Z.to_nat o) (Z.to_nat sz) (gapped e c) = part o sz.
Proof.
  intros. unfold gapped. rewrite slice_app_l by (rewrite length_take; lia).
  unfold slice. rewrite skipn_firstn_comm, take_take, Nat.min_l by lia. done.
Qed.

Lemma gapped_back e c o : 0 <= o <= e -> e < c < sizeM ->
  part o (e - o) ++ drop (Z.to_nat c) M ++ replicate (Z.to_nat (c - e)) heap_byte
  = slice (Z.to_nat o) (Z.to_nat (sizeM - o)) (gapped e c).
Proof.
  intros. pose proof (length_gapped e c ltac:(lia) ltac:(lia)) as L.
  unfold slice at 2. rewrite take_ge by (rewrite length_drop; lia).
  unfold gapped. rewrite drop_app_le by (rewrite length_take; lia). f_equal.
  unfold slice. rewrite skipn_firstn_comm. f_equal. lia.
Qed.

(** The fragment that fills the place before the wrong bucket completes it. *)
Lemma gap_completed a o e c : 0 < a < o -> o < e < c -> c < sizeM ->
  let m' := snd (recv alloc heap_byte M num ep ty enc a (o - a)
    (partial [Bucket 0 (part 0 a);
              Bucket o (part o (e - o) ++ drop (Z.to_nat c) M
                        ++ replicate (Z.to_nat (c - e)) heap_byte)] (a + (sizeM - o)))) in
  ready m' = true /\ fullMsg m' = gapped e c.
Proof.
  intros Ha Ho Hc. cbv zeta. set (M' := gapped e c).
  assert (length M' = length M) as LM by (apply length_gapped; lia).
  rewrite gapped_back, <- (gapped_front e c 0 a) by lia. fold M'.
  set (p := partial _ _).
  pose proof (slice_honest M') as SH. rewrite LM in SH.
  destruct (fragment_bucket alloc M' alloc_ok 0 _ a (SH 0 a ltac:(lia) ltac:(lia) ltac:(lia)))
    as (_ & G0 & S0).
  destruct (fragment_bucket alloc M' alloc_ok o _ (sizeM - o)
    (SH o (sizeM - o) ltac:(lia) ltac:(lia) ltac:(lia))) as (_ & G1 & S1).
  assert (assembling M' p) as A.
  { split; cbn [p partial fragBucketList bytesReceived fragBucketListCount length]; try lia.
    - cbn [chain b_offset]. rewrite S0. split_and!; (done || lia).
    - cbn [total foldr]. rewrite S0, S1. lia. }
  destruct (place_spec alloc heap_byte M' alloc_ok ltac:(lia) p a (part a (o - a)) (o - a) A)
    as [[_ F]|(m' & P & X)].
  - rewrite <- (gapped_front e c a (o - a)) by lia. apply SH; lia.
  - cbn [p partial fragBucketList]. unfold safe_place. cbn [locate].
    rewrite (good_end M' ltac:(lia) _ G0), (good_end M' ltac:(lia) _ G1), S0. cbn [b_offset].
    destruct (Z.leb_spec 0 a); [|lia]. destruct (Z.leb_spec (a + (o - a)) (0 + a)); [lia|].
    destruct (Z.leb_spec a (0 + a)); [|lia]. cbn [andb b_offset].
    replace (0 <=? a) with true by lia. rewrite orb_true_r. done.
  - done.
  - unfold p. rewrite (recv_partial _ _ a (o - a) m' ltac:(lia) ltac:(lia) ltac:(lia) P).
    destruct X as (A' & Cov & Em).
    assert (total (fragBucketList m') = sizeM) as T.
    { rewrite <- LM. apply (chain_full M' _ (as_chain _ _ A') ltac:(lia)).
      intros i Hi. apply Cov. cbn [p partial fragBucketList].
      rewrite !cov_cons, cov_nil, S0, S1. cbn [b_offset]. lia. }
    assert (fragBucketList m' <> []) as N by (intros E; rewrite E in T; cbn in T; lia).
    destruct (full_single M' _ (as_chain _ _ A') N ltac:(lia)) as (b & Lb & O & Sz & Bf).
    unfold finish, DtlsMsgAssembleCompleteMessage.
    assert (m_sz m' = sizeM) as Es by (rewrite Em; done).
    rewrite (as_bytes _ _ A'), (as_count _ _ A'), T, Es, Lb, O, Sz, LM, !Z.eqb_refl. done.
Qed.

(** C35: Fragments that are merely reordered corrupt a message.  (1) Of a message
    [M] the parts [0..a), [c..), [o..e) and [a..o) arrive in this order, where
    [o..e) touches neither of the two before it: the message is reported complete
    although the bytes [e..c) never came; the end of [M] follows byte [e] and the
    last [c - e] bytes are whatever the heap held.  (A fragment that lies strictly
    between two buckets is merged into the later one as if it were adjacent.)
    (2) The part [c..) arrives and then [0..e) with [c < e]: the message is
    reported complete, but what follows byte [e] are the bytes from [c] on, not
    those from [e] on. *)
Theorem gap_fragment_corrupts m (New : DtlsMsgNew alloc heap_byte sizeM false = Some m) :
  (forall a o e c, 0 < a < o -> o < e < c -> c < sizeM ->
     let m' := deliver alloc heap_byte M num ep ty enc
                 [(0, a); (c, sizeM - c); (o, e - o); (a, o - a)] m in
     ready m' = true
     /\ fullMsg m' = take (Z.to_nat e) M ++ drop (Z.to_nat c) M
                     ++ replicate (Z.to_nat (c - e)) heap_byte)
  /\ (forall c e, 0 < c < e -> e < sizeM ->
     let m' := deliver alloc heap_byte M num ep ty enc [(c, sizeM - c); (0, e)] m in
     ready m' = true
     /\ fullMsg m' = take (Z.to_nat e) M
                     ++ slice (Z.to_nat c) (Z.to_nat (sizeM - e)) M).
Proof.
  split.
  - intros a o e c Ha Ho Hc.
    change [(0, a); (c, sizeM - c); (o, e - o); (a, o - a)]
      with ([(0, a); (c, sizeM - c); (o, e - o)] ++ [(a, o - a)]).
    assert (forall fs f x, deliver alloc heap_byte M num ep ty enc (fs ++ [f]) x
      = snd (recv alloc heap_byte M num ep ty enc f.1 f.2
               (deliver alloc heap_byte M num ep ty enc fs x))) as ->.
    { induction fs as [|[o' s'] fs IH]; intros [] x; cbn; [done|]. rewrite IH. done. }
    rewrite (gap_run m a o e c) by done. apply gap_completed; done.
  - intros c e Hc He. apply (front_overlap_run m e c); done.
Qed.
End Gaps.

(** ** The list of waiting messages *)

Section Store.
Context (alloc : Z -> bool) (heap_byte : Z).

(** Message numbers increase strictly, epochs weakly. *)
Definition msg_lt (a b : DtlsMsg) : Prop := m_seq a < m_seq b /\ m_epoch a <= m_epoch b.
Definition ordered (l : list DtlsMsg) : Prop := StronglySorted msg_lt l.

(** A message number and epoch that fit in the list. *)
Definition fits (epoch seq : Z) (m : DtlsMsg) : Prop :=
  (m_seq m < seq -> m_epoch m <= epoch) /\ (seq < m_seq m -> epoch <= m_epoch m)
  /\ (m_seq m = seq -> m_epoch m = epoch).

Lemma place_ids o data sz m m' : place_fragment alloc heap_byte o data sz m = inr m' ->
  m_type m' = m_type m /\ m_epoch m' = m_epoch m /\ m_seq m' = m_seq m.
Proof.
  unfold place_fragment.
  destruct (fragBucketList m); [destruct (DtlsMsgCreateFragBucket _ _ _ _); [|done]|
    destruct (locate _ _ _ _) as [[[] pre] [|cur rest]]];
    try (intros [= <-]; done).
  - destruct (_ <=? _); [done|]. destruct (DtlsMsgCreateFragBucket _ _ _ _); intros [= <-]; done.
  - destruct (_ && _).
    + destruct (_ <=? _); [done|]. destruct (DtlsMsgCreateFragBucket _ _ _ _); intros [= <-]; done.
    + destruct (covered _ _) as [mids fn].
      destruct (DtlsMsgCombineFragBuckets _ _ _ _ _ _ _ _) as [[[b' mg] d]|]; intros [= <-]; done.
Qed.

Lemma assemble_ids (b : bool) m :
  let m' := if b then DtlsMsgAssembleCompleteMessage m else m in
  m_epoch m' = m_epoch m /\ m_seq m' = m_seq m.
Proof.
  destruct b; [|done]. unfold DtlsMsgAssembleCompleteMessage.
  destruct (fragBucketList m) as [|b ?]; try done. destruct (_ && _); done.
Qed.

(** [DtlsMsgSet] never moves a message, and gives a new one its identity. *)
Lemma DtlsMsgSet_ids m seq epoch data type o sz total' enc :
  let '(rc, m') := DtlsMsgSet alloc heap_byte m seq epoch data type o sz total' enc in
  (m_seq m = seq -> m_epoch m = epoch -> m_seq m' = seq /\ m_epoch m' = epoch)
  /\ (m_type m = no_shake -> ready m = false -> 0 <= rc -> m_seq m' = seq /\ m_epoch m' = epoch).
Proof.
  unfold DtlsMsgSet. destruct (_ || _); [split; [done|]; intros _ _; unfold BAD_FUNC_ARG; lia|].
  destruct (ready m) eqn:R; [split; [done|congruence]|].
  destruct (m_type m =? no_shake) eqn:T; cbn [negb andb].
  - destruct (place_fragment _ _ _ _ _ _) as [e|m'] eqn:P; [split; intros; done|].
    apply place_ids in P as (_ & P2 & P3). cbn in P2, P3.
    destruct (assemble_ids (bytesReceived m' =? m_sz m') m') as [A2 A3].
    rewrite A2, A3, P2, P3. done.
  - apply Z.eqb_neq in T. destruct (_ || _); [split; [done|congruence]|].
    destruct (place_fragment _ _ _ _ _ _) as [e|m'] eqn:P; [split; [done|congruence]|].
    apply place_ids in P as (_ & P2 & P3). cbn in P2, P3.
    destruct (assemble_ids (bytesReceived m' =? m_sz m') m') as [A2 A3].
    rewrite A2, A3, P2, P3. split; [done|congruence].
Qed.

Lemma Find_none l epoch seq : DtlsMsgFind l epoch seq = None ->
  Forall (fits epoch seq) l -> Forall (fun m => m_seq m <> seq) l.
Proof.
  induction l as [|m l IH]; intros H F; [constructor|]. inversion F as [|?? F1 F2]; subst.
  cbn [DtlsMsgFind] in H. destruct (_ && _) eqn:E; [done|]. constructor; [|auto].
  intros N. destruct F1 as (_ & _ & F3). rewrite (F3 N), N, !Z.eqb_refl in E. done.
Qed.

Lemma Find_some l epoch seq m : DtlsMsgFind l epoch seq = Some m ->
  m ∈ l /\ m_epoch m = epoch /\ m_seq m = seq.
Proof.
  induction l as [|x l IH]; intros H; [done|]. cbn [DtlsMsgFind] in H.
  destruct (_ && _) eqn:E.
  - injection H as <-. apply andb_true_iff in E. split; [left|lia].
  - destruct (IH H) as [H1 H2]. split; [right; done|done].
Qed.

Lemma insert_after_elem item l x : x ∈ insert_after item l <-> x = item \/ x ∈ l.
Proof.
  induction l as [|m l IH]; cbn [insert_after].
  - rewrite list_elem_of_singleton, elem_of_nil. tauto.
  - destruct (before item m); rewrite !elem_of_cons, ?IH; tauto.
Qed.

Lemma Insert_insert_after l item : DtlsMsgInsert l item = insert_after item l.
Proof. destruct l; done. Qed.

Lemma insert_ordered item l : ordered l -> Forall (fits (m_epoch item) (m_seq item)) l ->
  Forall (fun m => m_seq m <> m_seq item) l -> ordered (insert_after item l).
Proof.
  unfold ordered. induction l as [|m l IH]; intros O F N; cbn [insert_after].
  - repeat constructor.
  - inversion O as [|?? O1 O2]; subst. inversion F as [|?? (F1 & F2 & _) F']; subst.
    inversion N as [|?? N1 N']; subst. unfold before.
    destruct ((m_epoch item <=? m_epoch m) && (m_seq item <? m_seq m)) eqn:B.
    + constructor; [done|]. constructor; [unfold msg_lt; lia|].
      eapply Forall_impl; [exact O2|]. unfold msg_lt. cbn. intros. lia.
    + constructor; [auto|]. apply Forall_forall. intros x Hx.
      apply insert_after_elem in Hx as [->|Hx]; [unfold msg_lt; lia|].
      rewrite Forall_forall in O2. auto.
Qed.

Lemma length_insert_after item l : length (insert_after item l) = S (length l).
Proof. induction l as [|m l IH]; cbn; [done|]. destruct (before item m); cbn; lia. Qed.

Lemma update_found_ordered epoch seq f l : ordered l ->
  (forall m, m_seq m = seq -> m_epoch m = epoch -> m_seq (f m) = seq /\ m_epoch (f m) = epoch) ->
  ordered (update_found l epoch seq f)
  /\ length (update_found l epoch seq f) = length l
  /\ (forall e q, (e, q) <> (epoch, seq) ->
       DtlsMsgFind (update_found l epoch seq f) e q = DtlsMsgFind l e q).
Proof.
  unfold ordered. intros O Hf. induction l as [|m l IH]; [done|].
  inversion O as [|?? O1 O2]; subst. destruct (IH O1) as (I1 & I2 & I3).
  cbn [update_found]. destruct ((m_epoch m =? epoch) && (m_seq m =? seq)) eqn:E.
  - apply andb_true_iff in E as [E1 E2]. apply Z.eqb_eq in E1. apply Z.eqb_eq in E2.
    destruct (Hf m E2 E1) as [F1 F2]. split_and!.
    + constructor; [done|]. eapply Forall_impl; [exact O2|]. unfold msg_lt.
      rewrite F1, F2, E1, E2. done.
    + done.
    + intros e q N. cbn [DtlsMsgFind]. rewrite F1, F2, E1, E2.
      destruct (_ && _) eqn:E; [|done]. exfalso. apply N. apply andb_true_iff in E.
      f_equal; lia.
  - split_and!.
    + constructor; [done|]. clear -O2 Hf. induction l as [|x l IH]; [done|].
      inversion O2 as [|?? H1 H2]; subst. cbn [update_found].
      destruct (_ && _) eqn:E; constructor; auto.
      apply andb_true_iff in E as [E1 E2]. destruct (Hf x ltac:(lia) ltac:(lia)).
      unfold msg_lt in *. lia.
    + cbn [length]. rewrite I2. done.
    + intros e q N. cbn [DtlsMsgFind]. rewrite I3 by done. done.
Qed.

Lemma Find_insert_after item l e q : (m_epoch item, m_seq item) <> (e, q) ->
  DtlsMsgFind (insert_after item l) e q = DtlsMsgFind l e q.
Proof.
  intros N. assert ((m_epoch item =? e) && (m_seq item =? q) = false) as E.
  { destruct (_ && _) eqn:E; [|done]. exfalso. apply N. apply andb_true_iff in E. f_equal; lia. }
  induction l as [|m l IH]; cbn [insert_after DtlsMsgFind]; [rewrite E; done|].
  destruct (before item m); cbn [DtlsMsgFind]; [rewrite E; done|]. rewrite IH. done.
Qed.

(** [DtlsMsgStore] keeps the list of waiting messages in order of their
    numbers and its counter equal to its length, whatever fragment arrives, as
    long as the fragment's epoch is consistent with its number; it adds at most
    the one message the fragment belongs to and leaves every other message of
    the list as it was. *)
Theorem store_keeps_order epoch seq data dataSz type o sz enc l n
    (O : ordered l) (N : n = Z.of_nat (length l)) (F : Forall (fits epoch seq) l) :
  let '(l', n') := DtlsMsgStore alloc heap_byte epoch seq data dataSz type o sz enc (l, n) in
  ordered l' /\ n' = Z.of_nat (length l') /\ n <= n' <= n + 1
  /\ (forall e q, (e, q) <> (epoch, seq) -> DtlsMsgFind l' e q = DtlsMsgFind l e q).
Proof.
  assert (forall m m' rc, DtlsMsgNew alloc heap_byte dataSz false = Some m ->
    DtlsMsgSet alloc heap_byte m seq epoch data type o sz dataSz enc = (rc, m') -> 0 <= rc ->
    m_seq m' = seq /\ m_epoch m' = epoch) as NewIds.
  { intros m m' rc Hn Hs Hrc. pose proof (DtlsMsgSet_ids m seq epoch data type o sz dataSz enc) as X.
    rewrite Hs in X. unfold DtlsMsgNew in Hn. destruct (negb _); [done|].
    injection Hn as <-. destruct X as [_ X]. apply X; done. }
  unfold DtlsMsgStore. destruct l as [|m0 l0].
  - destruct (DtlsMsgNew alloc heap_byte dataSz false) as [m|] eqn:Nw; [|split_and!; (done || lia)].
    destruct (DtlsMsgSet _ _ _ _ _ _ _ _ _ _ _) as [rc m'] eqn:St.
    destruct (Z.ltb_spec rc 0); [split_and!; (done || lia)|].
    destruct (NewIds m m' rc eq_refl St ltac:(lia)) as [I1 I2].
    cbn [length] in *. split_and!; try lia; [repeat constructor|].
    intros e q Ne. cbn [DtlsMsgFind]. rewrite I1, I2. destruct (_ && _) eqn:E; [|done].
    exfalso. apply Ne. apply andb_true_iff in E. f_equal; lia.
  - set (l := m0 :: l0) in *. destruct (DtlsMsgFind l epoch seq) as [x|] eqn:Fd.
    + destruct (update_found_ordered epoch seq (fun m => snd (DtlsMsgSet alloc heap_byte m seq epoch
        data type o sz dataSz enc)) l O) as (U1 & U2 & U3).
      { intros m M1 M2. pose proof (DtlsMsgSet_ids m seq epoch data type o sz dataSz enc) as X.
        destruct (DtlsMsgSet _ _ _ _ _ _ _ _ _ _ _) as [rc m'].
        destruct X as [X _]. apply X; done. }
      rewrite U2. split_and!; (done || lia).
    + destruct (DtlsMsgNew alloc heap_byte dataSz false) as [m|] eqn:Nw; [|split_and!; (done || lia)].
      destruct (DtlsMsgSet _ _ _ _ _ _ _ _ _ _ _) as [rc m'] eqn:St.
      destruct (Z.ltb_spec rc 0); [split_and!; (done || lia)|].
      destruct (NewIds m m' rc eq_refl St ltac:(lia)) as [I1 I2].
      rewrite Insert_insert_after, length_insert_after. split_and!; try lia.
      * apply insert_ordered; rewrite ?I1, ?I2; try done. apply (Find_none _ epoch); done.
      * intros e q Ne. apply Find_insert_after. rewrite I1, I2. auto.
Qed.
End Store.

(** ** Witnesses *)

Definition demo_M : list Z := [1; 2; 3; 4; 5; 6; 7; 8; 9; 10].
Definition demo_msg : DtlsMsg := Msg [] [] [] 0 0 0 10 no_shake 0 false false.

Lemma fragments_reassemble_witness :
  fullMsg (deliver (fun _ => true) 99 demo_M 1 0 certificate false
             [(8, 2); (0, 3); (2, 7)] demo_msg) = demo_M.
Proof.
  apply (fragments_reassemble (fun _ => true) 99 demo_M ltac:(done) ltac:(reflexivity) 1 0 certificate
           false demo_msg [(8, 2); (0, 3); (2, 7)]); try reflexivity.
  repeat constructor; cbn; lia.
Defined.

Lemma in_order_reassembles_witness :
  fullMsg (deliver (fun _ => true) 99 demo_M 1 0 certificate false
             [(0, 4); (0, 4); (3, 3); (6, 4)] demo_msg) = demo_M.
Proof.
  apply (in_order_reassembles (fun _ => true) 99 demo_M ltac:(done) ltac:(reflexivity) 1 0 certificate
           false demo_msg [(0, 4); (0, 4); (3, 3); (6, 4)]); try reflexivity.
  - repeat constructor; cbn; lia.
  - intros i Hi. cbn in Hi. rewrite !Exists_cons, Exists_nil. cbn [fst snd]. lia.
Defined.

(** Five fragments of two bytes, of which the fourth never arrives; and two
    fragments that overlap. *)
Lemma gap_fragment_corrupts_witness :
  fullMsg (deliver (fun _ => true) 99 demo_M 1 0 certificate false
             [(0, 2); (8, 2); (4, 2); (2, 2)] demo_msg) = [1; 2; 3; 4; 5; 6; 9; 10; 99; 99]
  /\ fullMsg (deliver (fun _ => true) 99 demo_M 1 0 certificate false
                [(3, 7); (0, 5)] demo_msg) = [1; 2; 3; 4; 5; 4; 5; 6; 7; 8].
Proof.
  destruct (gap_fragment_corrupts (fun _ => true) 99 demo_M 1 0 certificate false ltac:(done)
    ltac:(reflexivity) demo_msg ltac:(reflexivity)) as [H1 H2].
  split.
  - apply (H1 2 4 6 8); cbn; lia.
  - apply (H2 3 5); cbn; lia.
Defined.

Lemma store_keeps_order_witness :
  let rx := DtlsMsgStore (fun _ => true) 99 2 1 [7; 8] 2 certificate 0 2 true ([], 0) in
  let rx := DtlsMsgStore (fun _ => true) 99 2 3 [7; 8] 2 finished 0 2 true rx in
  ordered (fst (DtlsMsgStore (fun _ => true) 99 2 2 [1] 4 certificate_verify 0 1 true rx)).
Proof.
  cbn zeta.
  set (rx := DtlsMsgStore (fun _ => true) 99 2 3 _ _ _ _ _ _ _).
  assert (exists l, rx = (l, 2) /\ ordered l /\ Forall (fits 2 2) l /\ length l = 2%nat)
    as (l & -> & O & F & L).
  { eexists. split; [vm_compute; reflexivity|].
    split; [repeat constructor; vm_compute; congruence|].
    split; [repeat constructor; vm_compute; congruence|done]. }
  pose proof (store_keeps_order (fun _ => true) 99 2 2 [1] 4 certificate_verify 0 1 true l 2 O
                ltac:(rewrite L; reflexivity) F) as H.
  destruct (DtlsMsgStore _ _ _ _ _ _ _ _ _ _ _) as [l' n']. apply H.
Defined.
