(* ===== verification/DtlsState.v ===== *)
(** * The connection object of the DTLS 1.3 sender and handshake layer

    The fields of [WOLFSSL] that dtls13.c and the output path of internal.c
    use, grouped by the part of the protocol they belong to, and the interfaces
    of the code underneath: the cipher and hash objects ([Crypto]) and the heap
    ([Heap]). *)

From S2P Require Import Prelude Misc DtlsDefs DtlsEpoch DtlsRecord DtlsMsg.

(** ** Interfaces *)

(** The cipher objects are identified by the key they were set up with ([None]
    before a key is set); every operation returns the library's code. *)
Class Crypto := {
  set_key : list Z -> Z;                    (* wc_AesSetKey, wc_AesGcmSetKey *)
  key_size : nat;                           (* ssl->specs.key_size *)
  aes_direct : list Z -> list Z -> Z * list Z;       (* wc_AesEncryptDirect *)
  (* wc_AesGcmEncrypt_ex: key, nonce, additional data, plaintext; the result is
     the ciphertext and the tag *)
  gcm_encrypt : option (list Z) -> list Z -> list Z -> list Z -> Z * (list Z * list Z);
  (* wc_AesGcmDecrypt: key, nonce, additional data, ciphertext, tag *)
  gcm_decrypt : option (list Z) -> list Z -> list Z -> list Z -> list Z -> Z * list Z;
  hash_update : list Z -> list Z -> Z;      (* the code of wc_Sha256Update &c. *)
  update_keys : conn -> Z * conn            (* DeriveTls13Keys, update_traffic_key *)
}.

(** What the library documents of AES-GCM and of the block cipher: decryption
    inverts encryption under the same key, nonce and additional data, the
    ciphertext is as long as the plaintext and the tag has 16 bytes. *)
Class CryptoLaws `{Crypto} := {
  gcm_lengths k n a p c t : gcm_encrypt k n a p = (0, (c, t)) ->
    length c = length p /\ length t = Z.to_nat AES_GCM_AUTH_SZ;
  gcm_roundtrip k n a p c t : gcm_encrypt k n a p = (0, (c, t)) ->
    gcm_decrypt k n a c t = (0, p);
  gcm_codes k n a p : fst (gcm_encrypt k n a p) <= 0;
  aes_codes k b : fst (aes_direct k b) <= 0;
  aes_block k b : length b = 16%nat ->
    exists m, aes_direct k b = (0, m) /\ length m = 16%nat /\ bytes m
}.

Class Heap := {
  alloc : Z -> bool;                        (* whether XMALLOC n succeeds *)
  heap_byte : Z                             (* the contents of fresh memory *)
}.

(** ** Retransmission state (struct Dtls13Rtx) *)

Record Dtls13RtxRecord := RtxRec {
  rd_data : list Z; rd_epoch : Z; rd_seq : list Z; rd_rnIdx : Z; rd_type : Z }.

(** [r->length]. *)
Definition rd_length (r : Dtls13RtxRecord) : Z := Z.of_nat (length (rd_data r)).

(** [seenRecords] holds (epoch, sequence number) pairs. *)
Record Dtls13Rtx := Rtx13 {
  rtxRecords : list Dtls13RtxRecord; seenRecords : list (Z * Z);
  x_sendAcks : bool; x_retransmit : bool }.

Definition set_rtxRecords l x := Rtx13 l (seenRecords x) (x_sendAcks x) (x_retransmit x).
Definition set_seenRecords l x := Rtx13 (rtxRecords x) l (x_sendAcks x) (x_retransmit x).
Definition set_x_sendAcks b x := Rtx13 (rtxRecords x) (seenRecords x) b (x_retransmit x).
Definition set_x_retransmit b x := Rtx13 (rtxRecords x) (seenRecords x) (x_sendAcks x) b.

(** ** Options, handshake numbers, timers, key updates *)

Record options := Opts {
  o_tls13 : bool;             (* IsAtLeastTLSv1_3(ssl->version) *)
  o_serverState : Z; o_connectState : Z; o_acceptState : Z; o_handShakeState : Z;
  o_seenUnifiedHdr : bool; o_downgrade : bool; o_minDowngrade : Z;
  o_dtls13SendMoreAcks : bool; o_groupMessages : bool; o_dtlsStateful : bool;
  o_dtls13ChFrag : bool; o_encryptionOn : bool; o_mtu : Z; o_cipher : Z }.

Definition set_o_serverState st o := Opts (o_tls13 o) st (o_connectState o) (o_acceptState o)
  (o_handShakeState o) (o_seenUnifiedHdr o) (o_downgrade o) (o_minDowngrade o)
  (o_dtls13SendMoreAcks o) (o_groupMessages o) (o_dtlsStateful o) (o_dtls13ChFrag o)
  (o_encryptionOn o) (o_mtu o) (o_cipher o).

Definition set_o_connectState st o := Opts (o_tls13 o) (o_serverState o) st (o_acceptState o)
  (o_handShakeState o) (o_seenUnifiedHdr o) (o_downgrade o) (o_minDowngrade o)
  (o_dtls13SendMoreAcks o) (o_groupMessages o) (o_dtlsStateful o) (o_dtls13ChFrag o)
  (o_encryptionOn o) (o_mtu o) (o_cipher o).

(** keys.dtls_handshake_number (ours), keys.dtls_expected_peer_handshake_number
    and keys.dtls_peer_handshake_number. *)
Record hs_numbers := Nums { n_next : Z; n_expected : Z; n_peer : Z }.

Record timers := Timers { t_fast : bool; t_timeout : Z; t_max : Z; t_init : Z }.

Record key_update_state := KU {
  ku_waitAck : bool; ku_do : bool; ku_respReq : bool; ku_invalidateBefore : Z;
  ku_sendingAckOrRtx : bool }.

(** ** Output buffer and message being fragmented *)

(** [ob_pend]: the [length] bytes from [idx] on, not yet sent. *)
Record outBuffer := OutBuf {
  ob_pend : list Z; ob_idx : Z; ob_size : Z; ob_dynamic : bool; ob_connReset : bool }.

Definition ob_length (b : outBuffer) : Z := Z.of_nat (length (ob_pend b)).

Record frag_state := Frag {
  f_buffer : list Z; f_sending : bool; f_length : Z; f_offset : Z; f_type : Z }.

(** ** The connection

    [s_io]: what the send callback will return, call by call; when the list is
    exhausted the transport blocks.  [s_wire]: the bytes each successful call
    accepted, in order.  [s_transcript]: the bytes hashed into the transcript. *)
Record ssl := Ssl {
  s_conn : conn; s_opts : options; s_rtx : Dtls13Rtx; s_nums : hs_numbers;
  s_timers : timers; s_ku : key_update_state; s_out : outBuffer; s_frag : frag_state;
  s_rx : list DtlsMsg * Z; s_tx : list DtlsMsg * Z;
  s_clientHello : list Z; s_transcript : list Z;
  s_io : list Z; s_wire : list (list Z) }.

Definition set_conn v s := Ssl v (s_opts s) (s_rtx s) (s_nums s) (s_timers s) (s_ku s) (s_out s)
  (s_frag s) (s_rx s) (s_tx s) (s_clientHello s) (s_transcript s) (s_io s) (s_wire s).
Definition set_opts v s := Ssl (s_conn s) v (s_rtx s) (s_nums s) (s_timers s) (s_ku s) (s_out s)
  (s_frag s) (s_rx s) (s_tx s) (s_clientHello s) (s_transcript s) (s_io s) (s_wire s).
Definition set_rtx v s := Ssl (s_conn s) (s_opts s) v (s_nums s) (s_timers s) (s_ku s) (s_out s)
  (s_frag s) (s_rx s) (s_tx s) (s_clientHello s) (s_transcript s) (s_io s) (s_wire s).
Definition set_nums v s := Ssl (s_conn s) (s_opts s) (s_rtx s) v (s_timers s) (s_ku s) (s_out s)
  (s_frag s) (s_rx s) (s_tx s) (s_clientHello s) (s_transcript s) (s_io s) (s_wire s).
Definition set_timers v s := Ssl (s_conn s) (s_opts s) (s_rtx s) (s_nums s) v (s_ku s) (s_out s)
  (s_frag s) (s_rx s) (s_tx s) (s_clientHello s) (s_transcript s) (s_io s) (s_wire s).
Definition set_ku v s := Ssl (s_conn s) (s_opts s) (s_rtx s) (s_nums s) (s_timers s) v (s_out s)
  (s_frag s) (s_rx s) (s_tx s) (s_clientHello s) (s_transcript s) (s_io s) (s_wire s).
Definition set_out v s := Ssl (s_conn s) (s_opts s) (s_rtx s) (s_nums s) (s_timers s) (s_ku s) v
  (s_frag s) (s_rx s) (s_tx s) (s_clientHello s) (s_transcript s) (s_io s) (s_wire s).
Definition set_frag v s := Ssl (s_conn s) (s_opts s) (s_rtx s) (s_nums s) (s_timers s) (s_ku s)
  (s_out s) v (s_rx s) (s_tx s) (s_clientHello s) (s_transcript s) (s_io s) (s_wire s).
Definition set_rx v s := Ssl (s_conn s) (s_opts s) (s_rtx s) (s_nums s) (s_timers s) (s_ku s)
  (s_out s) (s_frag s) v (s_tx s) (s_clientHello s) (s_transcript s) (s_io s) (s_wire s).
Definition set_tx v s := Ssl (s_conn s) (s_opts s) (s_rtx s) (s_nums s) (s_timers s) (s_ku s)
  (s_out s) (s_frag s) (s_rx s) v (s_clientHello s) (s_transcript s) (s_io s) (s_wire s).
Definition set_clientHello v s := Ssl (s_conn s) (s_opts s) (s_rtx s) (s_nums s) (s_timers s)
  (s_ku s) (s_out s) (s_frag s) (s_rx s) (s_tx s) v (s_transcript s) (s_io s) (s_wire s).
Definition set_transcript v s := Ssl (s_conn s) (s_opts s) (s_rtx s) (s_nums s) (s_timers s)
  (s_ku s) (s_out s) (s_frag s) (s_rx s) (s_tx s) (s_clientHello s) v (s_io s) (s_wire s).
Definition set_net io wire s := Ssl (s_conn s) (s_opts s) (s_rtx s) (s_nums s) (s_timers s)
  (s_ku s) (s_out s) (s_frag s) (s_rx s) (s_tx s) (s_clientHello s) (s_transcript s) io wire.

Definition upd_rtx (f : Dtls13Rtx -> Dtls13Rtx) (s : ssl) : ssl := set_rtx (f (s_rtx s)) s.

(** ** A concrete instance for the examples

    A toy cipher: bytes are xored with a key and nonce byte, and the tag is made
    of the nonce and the sums of the additional data and the ciphertext. *)

Definition toy_xor (k n p : list Z) : list Z := map (fun x => Z.lxor x (at_ k 0 + at_ n 11)) p.

Definition toy_tag (n a c : list Z) : list Z :=
  take 14 (n ++ replicate 14 0) ++ [foldr Z.add 0 a mod 256; foldr Z.add 0 c mod 256].

Definition key_of (k : option (list Z)) : list Z := match k with Some k => k | None => [] end.

#[export] Instance toy_crypto : Crypto := {
  set_key := fun _ => 0;
  key_size := 16%nat;
  aes_direct := demo_aes;
  gcm_encrypt k n a p := (0, (toy_xor (key_of k) n p, toy_tag n a (toy_xor (key_of k) n p)));
  gcm_decrypt k n a c t :=
    if bool_decide (t = toy_tag n a c) then (0, toy_xor (key_of k) n c) else (-180, []);
  hash_update := fun _ _ => 0;
  update_keys := fun c => (0, c)
}.

#[export] Instance toy_laws : CryptoLaws.
Proof.
  split.
  - intros k n a p c t [= <- <-]. unfold toy_xor, toy_tag. rewrite length_map. split; [done|].
    rewrite length_app, length_take, length_app, length_replicate. cbn [length]. change (Z.to_nat AES_GCM_AUTH_SZ) with 16%nat. lia.
  - intros k n a p c t [= <- <-]. cbn. rewrite bool_decide_true by done. f_equal.
    unfold toy_xor. rewrite map_map. rewrite <- (map_id p) at 2. apply map_ext. intros x.
    rewrite Z.lxor_assoc, Z.lxor_nilpotent. apply Z.lxor_0_r.
  - done.
  - done.
  - exact demo_aes_block.
Qed.

#[export] Instance demo_heap : Heap := { alloc := fun _ => true; heap_byte := 0xa5 }.
