(* ===== verification/DtlsOut.v ===== *)
(** * The output buffer of the connection (src/boot/src/internal.c)

    [SendBuffered], [ShrinkOutputBuffer], [GrowOutputBuffer] and
    [CheckAvailableSize]: records are appended to a buffer that is flushed
    through the send callback, which may accept part of it or block. *)

From S2P Require Import Prelude Misc DtlsDefs DtlsEpoch DtlsMsg DtlsState.

(** ** Operations *)

Definition ShrinkOutputBuffer (b : outBuffer) : outBuffer :=
  OutBuf (ob_pend b) (ob_idx b) STATIC_BUFFER_LEN false (ob_connReset b).

(** The loop of [SendBuffered] over the outcomes of the callback: the code, the
    remaining outcomes, the buffer and what was accepted. *)
Fixpoint SendBuffered_loop (io : list Z) (b : outBuffer) (wire : list (list Z))
    : Z * list Z * outBuffer * list (list Z) :=
  match ob_pend b with
  | [] => (0, io, b, wire)
  | _ =>
      match io with
      | [] => (WANT_WRITE, [], b, wire)
      | sent :: io =>
          if sent <? 0 then
            if sent =? WOLFSSL_CBIO_ERR_WANT_WRITE then (WANT_WRITE, io, b, wire)
            else if (sent =? WOLFSSL_CBIO_ERR_CONN_RST) || (sent =? WOLFSSL_CBIO_ERR_CONN_CLOSE)
            then (SOCKET_ERROR_E, io,
                  OutBuf (ob_pend b) (ob_idx b) (ob_size b) (ob_dynamic b) true, wire)
            else if sent =? WOLFSSL_CBIO_ERR_ISR then SendBuffered_loop io b wire
            else (SOCKET_ERROR_E, io, b, wire)
          else if ob_length b <? sent then (SEND_OOB_READ_E, io, b, wire)
          else
            SendBuffered_loop io
              (OutBuf (drop (Z.to_nat sent) (ob_pend b)) (u32 (ob_idx b + sent)) (ob_size b)
                 (ob_dynamic b) (ob_connReset b))
              (wire ++ [take (Z.to_nat sent) (ob_pend b)])
      end
  end.

Definition SendBuffered (s : ssl) : Z * ssl :=
  let '(ret, io, b, wire) := SendBuffered_loop (s_io s) (s_out s) (s_wire s) in
  let s := set_net io wire s in
  if negb (ret =? 0) then (ret, set_out b s)
  else
    let b := OutBuf (ob_pend b) 0 (ob_size b) (ob_dynamic b) (ob_connReset b) in
    (0, set_out (if ob_dynamic b then ShrinkOutputBuffer b else b) s).

(** WC_SAFE_SUM_WORD32. *)
Definition safe_sum32 (a b : Z) : option Z :=
  if a <=? 2 ^ 32 - 1 - b then Some (a + b) else None.

(** [align] after the loop of [GrowOutputBuffer]: WOLFSSL_GENERAL_ALIGNMENT (4),
    doubled until it is at least DTLS_RECORD_HEADER_SZ. *)
Definition grow_align : Z := 16.

Section Grow.
Context `{Heap}.

Definition GrowOutputBuffer (size : Z) (b : outBuffer) : Z * outBuffer :=
  match safe_sum32 (ob_idx b) (ob_length b) with
  | None => (BUFFER_E, b)
  | Some n =>
      match safe_sum32 n size with
      | None => (BUFFER_E, b)
      | Some n =>
          match safe_sum32 n grow_align with
          | None => (BUFFER_E, b)
          | Some n =>
              if negb (alloc n) then (MEMORY_E, b)
              else (0, OutBuf (ob_pend b) (ob_idx b) (u32 (n - grow_align)) true (ob_connReset b))
          end
      end
  end.

Definition CheckAvailableSize (size : Z) (s : ssl) : Z * ssl :=
  if size <? 0 then (BAD_FUNC_ARG, s)
  else
    let mtu := o_mtu (s_opts s) in
    let '(ret, s) := if mtu <? u32 (size + ob_length (s_out s)) then SendBuffered s else (0, s) in
    if negb (ret =? 0) then (ret, s)
    else if (mtu <? size) && negb (o_tls13 (s_opts s)) then (DTLS_SIZE_ERROR, s)
    else
      let b := s_out s in
      if u32 (ob_size b - ob_length b - ob_idx b) <? size then
        let '(ret, b) := GrowOutputBuffer size b in
        let s := set_out b s in
        if ret <? 0 then (MEMORY_E, s) else (0, s)
      else (0, s).
End Grow.

(** Committing [data], written at [GetOutputBuffer]: [outputBuffer.length += n]. *)
Definition commit (data : list Z) (s : ssl) : ssl :=
  let b := s_out s in
  set_out (OutBuf (ob_pend b ++ data) (ob_idx b) (ob_size b) (ob_dynamic b) (ob_connReset b)) s.

(** ** Properties *)

(** The bytes handed to the transport, then those still waiting. *)
Definition stream (s : ssl) : list Z := concat (s_wire s) ++ ob_pend (s_out s).

(** What [SendBuffered] guarantees, from the buffer and wire before to those
    after. *)
Definition flushed (b : outBuffer) (wire : list (list Z)) (ret : Z) (b' : outBuffer)
    (wire' : list (list Z)) : Prop :=
  concat wire' ++ ob_pend b' = concat wire ++ ob_pend b
  /\ (ret = 0 <-> ob_pend b' = []) /\ ret <= 0
  /\ ob_dynamic b' = ob_dynamic b /\ ob_size b' = ob_size b.

(** An error return leaves the bytes where they are. *)
Lemma flushed_error b wire ret b' : ret < 0 -> ob_pend b' = ob_pend b -> ob_pend b <> [] ->
  ob_dynamic b' = ob_dynamic b -> ob_size b' = ob_size b -> flushed b wire ret b' wire.
Proof.
  intros R P N D Sz. unfold flushed. rewrite P. split_and!; try done; [|lia].
  split; [lia|done].
Qed.

Lemma SendBuffered_loop_flushed io b wire :
  let '(ret, io', b', wire') := SendBuffered_loop io b wire in flushed b wire ret b' wire'.
Proof.
  revert b wire. induction io as [|sent io IH]; intros b wire; cbn [SendBuffered_loop];
    destruct (ob_pend b) as [|x l] eqn:E;
    try (unfold flushed; rewrite E; done);
    assert (ob_pend b <> []) as Ne by (rewrite E; done);
    rewrite <- E; try (apply flushed_error; done).
  destruct (sent <? 0).
  - destruct (sent =? WOLFSSL_CBIO_ERR_WANT_WRITE); [apply flushed_error; done|].
    destruct (_ || _); [apply flushed_error; done|].
    destruct (sent =? WOLFSSL_CBIO_ERR_ISR); [apply IH|apply flushed_error; done].
  - destruct (ob_length b <? sent); [apply flushed_error; done|].
    specialize (IH (OutBuf (drop (Z.to_nat sent) (ob_pend b)) (u32 (ob_idx b + sent))
      (ob_size b) (ob_dynamic b) (ob_connReset b)) (wire ++ [take (Z.to_nat sent) (ob_pend b)])).
    destruct (SendBuffered_loop io _ _) as [[[ret io'] b'] wire'].
    destruct IH as (R & Z0 & C & D & Sz). cbn in R, D, Sz. unfold flushed.
    rewrite concat_app in R. cbn in R. rewrite app_nil_r, <- app_assoc, take_drop in R. done.
Qed.

(** The operations of this file touch the buffer and the wire only. *)
Definition net_frame (s s' : ssl) : Prop :=
  exists b io wire, s' = set_net io wire (set_out b s).

Lemma net_frame_refl s : net_frame s s.
Proof. exists (s_out s), (s_io s), (s_wire s). destruct s; done. Qed.

Lemma net_frame_trans s1 s2 s3 : net_frame s1 s2 -> net_frame s2 s3 -> net_frame s1 s3.
Proof. intros (b & io & w & ->) (b' & io' & w' & ->). exists b', io', w'. done. Qed.

#[export] Instance net_frame_preorder : PreOrder net_frame.
Proof. split; [exact net_frame_refl|exact net_frame_trans]. Qed.

Lemma net_frame_set_out b s : net_frame s (set_out b s).
Proof. exists b, (s_io s), (s_wire s). destruct s; done. Qed.

(** The pending bytes lie inside the allocated buffer. *)
Definition out_wf (b : outBuffer) : Prop :=
  0 <= ob_idx b /\ ob_idx b + ob_length b <= ob_size b < 2 ^ 32.

(** Room behind the pending bytes. *)
Definition room (b : outBuffer) : Z := ob_size b - ob_length b - ob_idx b.

Lemma SendBuffered_loop_wf io b wire : out_wf b ->
  let '(_, _, b', _) := SendBuffered_loop io b wire in out_wf b'.
Proof.
  revert b wire. induction io as [|sent io IH]; intros b wire W; cbn [SendBuffered_loop];
    destruct (ob_pend b) as [|x l] eqn:E; try done; rewrite <- E.
  destruct (Z.ltb_spec sent 0).
  - destruct (sent =? WOLFSSL_CBIO_ERR_WANT_WRITE); [done|].
    destruct (_ || _); [done|]. destruct (sent =? WOLFSSL_CBIO_ERR_ISR); [apply IH|]; done.
  - destruct (Z.ltb_spec (ob_length b) sent); [done|]. apply IH.
    unfold out_wf, ob_length in *. cbn [ob_idx ob_pend ob_size].
    rewrite length_drop, wrap_small by (unfold in_word; lia). lia.
Qed.

Lemma SendBuffered_spec s :
  let '(ret, s') := SendBuffered s in
  stream s' = stream s /\ (ret = 0 <-> ob_pend (s_out s') = []) /\ ret <= 0 /\ net_frame s s'
  /\ (out_wf (s_out s) -> STATIC_BUFFER_LEN <= ob_size (s_out s) -> out_wf (s_out s')
        /\ STATIC_BUFFER_LEN <= ob_size (s_out s')).
Proof.
  unfold SendBuffered, stream. pose proof (SendBuffered_loop_flushed (s_io s) (s_out s) (s_wire s)) as F.
  pose proof (SendBuffered_loop_wf (s_io s) (s_out s) (s_wire s)) as W.
  destruct (SendBuffered_loop _ _ _) as [[[ret io] b] wire].
  destruct F as (C & Z0 & N & D & Sz).
  destruct (Z.eqb_spec ret 0) as [->|R]; cbn [negb].
  - destruct Z0 as [Z0 _]. specialize (Z0 eq_refl). cbn [ob_dynamic].
    assert (ob_pend (if ob_dynamic b then ShrinkOutputBuffer
        (OutBuf (ob_pend b) 0 (ob_size b) (ob_dynamic b) (ob_connReset b))
      else OutBuf (ob_pend b) 0 (ob_size b) (ob_dynamic b) (ob_connReset b)) = []) as P
      by (destruct (ob_dynamic b); done).
    cbn [s_wire s_out set_out set_net]. rewrite P, <- Z0. split; [done|]. split; [done|].
    split; [done|]. split; [eexists _, io, wire; reflexivity|].
    intros Wf L. destruct (W Wf) as (I0 & I1). unfold out_wf, ob_length. rewrite P.
    destruct (ob_dynamic b); cbn; unfold STATIC_BUFFER_LEN in *; lia.
  - split; [exact C|]. split; [exact Z0|]. split; [done|].
    split; [exists b, io, wire; reflexivity|]. intros Wf L. cbn. rewrite Sz. auto.
Qed.

Section Room.
Context `{Heap}.

Lemma Grow_spec size b : out_wf b -> 0 <= size < 2 ^ 31 ->
  let '(ret, b') := GrowOutputBuffer size b in
  ob_pend b' = ob_pend b /\ (ret = 0 \/ ret < 0) /\ out_wf b'
  /\ (ret = 0 -> room b' = size) /\ (ret <> 0 -> b' = b) /\ ob_idx b' = ob_idx b.
Proof.
  intros (I & L) S. unfold GrowOutputBuffer, safe_sum32.
  assert (ob_length b = Z.of_nat (length (ob_pend b))) as E by done.
  destruct (Z.leb_spec (ob_idx b) (2 ^ 32 - 1 - ob_length b));
    [|split_and!; try done; try (right; reflexivity)].
  destruct (Z.leb_spec (ob_idx b + ob_length b) (2 ^ 32 - 1 - size));
    [|split_and!; try done; try (right; reflexivity)].
  destruct (Z.leb_spec (ob_idx b + ob_length b + size) (2 ^ 32 - 1 - grow_align)) as [F|F];
    [|split_and!; try done; try (right; reflexivity)].
  destruct (alloc _); cbn [negb]; [|split_and!; try done; try (right; reflexivity)].
  assert (u32 (ob_idx b + ob_length b + size + grow_align - grow_align)
          = ob_idx b + ob_length b + size) as ->.
  { replace (_ + grow_align - grow_align) with (ob_idx b + ob_length b + size) by lia.
    apply wrap_small. unfold in_word, grow_align in *. lia. }
  unfold out_wf, room, ob_length in *. cbn. unfold grow_align in *. repeat split; try done; try lia.
Qed.

Lemma CheckAvailableSize_spec size s : size < 2 ^ 31 -> out_wf (s_out s) ->
  STATIC_BUFFER_LEN <= ob_size (s_out s) ->
  let '(ret, s') := CheckAvailableSize size s in
  stream s' = stream s /\ net_frame s s' /\ ret <= 0 /\ out_wf (s_out s')
  /\ (ret = 0 -> 0 <= size <= room (s_out s')) /\ STATIC_BUFFER_LEN <= ob_size (s_out s').
Proof.
  intros S Wf L. unfold CheckAvailableSize. destruct (Z.ltb_spec size 0).
  { split; [done|]. split; [reflexivity|]. split; [done|]. split; [exact Wf|].
    split; [discriminate|exact L]. }
  set (first := if _ <? _ then SendBuffered s else _).
  assert (stream (snd first) = stream s /\ net_frame s (snd first) /\ fst first <= 0
    /\ out_wf (s_out (snd first)) /\ STATIC_BUFFER_LEN <= ob_size (s_out (snd first)))
    as (St & Fr & Le & Wf1 & L1).
  { subst first. pose proof (SendBuffered_spec s) as X. destruct (_ <? _).
    - destruct (SendBuffered s) as [ret s']. destruct X as (X1 & _ & X2 & X3 & X4).
      destruct (X4 Wf L). done.
    - cbn. split_and!; done. }
  destruct first as [ret s1]. cbn [fst snd] in *.
  destruct (Z.eqb_spec ret 0) as [->|N]; cbn [negb];
    [|split_and!; try done; intros; contradiction].
  destruct (_ && _); [split_and!; try done; discriminate|].
  assert (u32 (ob_size (s_out s1) - ob_length (s_out s1) - ob_idx (s_out s1)) = room (s_out s1)) as ->.
  { apply wrap_small. destruct Wf1 as (I & B). unfold in_word, room, ob_length in *. lia. }
  destruct (Z.ltb_spec (room (s_out s1)) size); [|split_and!; try done; lia].
  pose proof (Grow_spec size (s_out s1) Wf1 ltac:(lia)) as G.
  destruct (GrowOutputBuffer size (s_out s1)) as [r b]. destruct G as (P & R & Wf2 & Z0 & Same & Ix).
  assert (stream (set_out b s1) = stream s) as St'.
  { rewrite <- St. unfold stream. cbn. rewrite P. done. }
  assert (net_frame s (set_out b s1)) as Fr' by (etransitivity; [done|apply net_frame_set_out]).
  assert (STATIC_BUFFER_LEN <= ob_size b) as L2.
  { destruct R as [R|R]; [|rewrite Same by lia; done]. specialize (Z0 R).
    unfold room, ob_length in *. rewrite P, Ix in Z0. lia. }
  destruct (Z.ltb_spec r 0); split_and!; try done; try discriminate.
  intros _. cbn. rewrite Z0 by lia. lia.
Qed.

(** The output buffer neither loses, duplicates nor reorders a byte, and
    [CheckAvailableSize] keeps its promise.  Whatever the transport accepts,
    interrupts or refuses, the bytes accepted so far followed by those waiting
    are the same before and after the call, which touches nothing else of the
    connection; when it returns 0 the [size] bytes the caller is about to write
    fit behind the waiting ones. *)
Theorem check_available_size_sound size s :
  size < 2 ^ 31 -> out_wf (s_out s) -> STATIC_BUFFER_LEN <= ob_size (s_out s) ->
  let '(ret, s') := CheckAvailableSize size s in
  stream s' = stream s /\ net_frame s s' /\ ret <= 0 /\ out_wf (s_out s')
  /\ (ret = 0 -> 0 <= size <= room (s_out s')).
Proof.
  intros S W L. pose proof (CheckAvailableSize_spec size s S W L) as X.
  destruct (CheckAvailableSize size s). tauto.
Qed.
End Room.

(** A connection for the examples: 8 bytes wait and the transport takes 3, is
    interrupted, then takes 5. *)
Definition demo_opts : options :=
  Opts true 3 0 0 0 false false 0 false true true false false 1400 wolfssl_aes_gcm.

Definition demo_ssl (c : conn) (pend io : list Z) : ssl :=
  Ssl c demo_opts (Rtx13 [] [] false false) (Nums 0 0 0) (Timers false 1 64 1)
    (KU false false false 0 false) (OutBuf pend 0 (Z.of_nat (length pend) + 5) true false)
    (Frag [] false 0 0 0) ([], 0) ([], 0) [] [] io [].

Lemma check_available_size_sound_witness :
  let s := demo_ssl (InitSSL_epochs WOLFSSL_CLIENT_END) [1; 2; 3; 4; 5; 6; 7; 8] [3; -4; 5] in
  let '(ret, s') := CheckAvailableSize 1400 s in
  ret = 0 /\ s_wire s' = [[1; 2; 3]; [4; 5; 6; 7; 8]] /\ stream s' = stream s /\ net_frame s s'.
Proof.
  pose proof (check_available_size_sound 1400
    (demo_ssl (InitSSL_epochs WOLFSSL_CLIENT_END) [1; 2; 3; 4; 5; 6; 7; 8] [3; -4; 5])) as X.
  cbn zeta. destruct (CheckAvailableSize 1400 _) as [ret s'] eqn:E.
  destruct X as (St & Fr & _); [lia|unfold out_wf; vm_compute; split; [congruence|split; [congruence|reflexivity]]|vm_compute; congruence|].
  vm_compute in E. injection E as <- <-. split_and!; done.
Defined.
