(* ===== verification/DtlsProtect.v ===== *)
(** * Record protection (src/boot/src/tls13.c, src/boot/src/internal.c)

    Building a protected record - inner content type, padding to the minimum
    length, AEAD encryption with the record number in the nonce, record number
    encryption - and the way back: decryption, removal of the inner padding,
    the limits on sealed and on failed records.  AES-GCM is the [Crypto]
    interface; the ChaCha20, CCM and null cipher branches of the switches are
    not compiled in this configuration. *)

From S2P Require Import Prelude Misc DtlsDefs DtlsEpoch DtlsWindow DtlsRecord DtlsMsg DtlsState.

(** ** Nonces *)

(** The code of [Dtls13GetSeq] is ignored, as in the source. *)
Definition WriteSEQTls13 (verifyOrder : Z) (c : conn) : list Z * conn :=
  let '(_, (seq0, seq1), c) := Dtls13GetSeq verifyOrder true c in
  (c32toa seq0 ++ c32toa seq1, c).

Definition BuildTls13Nonce (iv : list Z) (order : Z) (c : conn) : list Z * conn :=
  let seq_offset := (AEAD_NONCE_SZ - SEQ_SZ)%nat in
  let '(seq, c) := WriteSEQTls13 order c in
  (take seq_offset iv ++ xorbuf 4 4 seq (drop seq_offset iv) SEQ_SZ, c).

Section Protect.
Context `{Crypto, Heap}.

(** ** Sealing *)

(** [data] are the [sz - aead_mac_size] bytes to encrypt; the result is the
    ciphertext and the tag behind it. *)
Definition EncryptTls13 (data aad : list Z) (c : conn) : Z * (list Z * list Z) * conn :=
  if negb (alloc (Z.of_nat AEAD_NONCE_SZ)) then (MEMORY_E, ([], []), c)
  else
    let '(nonce, c) := BuildTls13Nonce (aead_enc_imp_IV (keys c)) CUR_ORDER c in
    let '(ret, sealed) := gcm_encrypt (c_key (enc_ctx c)) nonce aad data in
    (ret, sealed, c).

(** [args->sz] and [args->paddingSz] after BUILD_MSG_BEGIN; also the result of
    a call with [sizeOnly]. *)
Definition BuildTls13Message_size (inSz : Z) : Z * Z :=
  let sz := Dtls13GetRlHeaderLength true + inSz + 1 + AES_GCM_AUTH_SZ in
  if sz <? Dtls13MinimumRecordLength then (Dtls13MinimumRecordLength, Dtls13MinimumRecordLength - sz)
  else (sz, 0).

(** [output]: the [outSz] bytes at the place of the record; [hashOutput],
    [sizeOnly] and [asyncOkay] are 0 in every call of dtls13.c. *)
Definition BuildTls13Message (output : list Z) (outSz : Z) (input : list Z) (type : Z) (c : conn)
    : Z * list Z * conn :=
  let headerSz := Dtls13GetRlHeaderLength true in
  let '(sz, paddingSz) := BuildTls13Message_size (Z.of_nat (length input)) in
  if outSz <? sz then (BUFFER_E, output, c)
  else
    let size := u16 (sz - headerSz) in
    let hdr := take (Z.to_nat headerSz) (snd (Dtls13RlAddCiphertextHeader size output c)) in
    let data := input ++ [u8 type] ++ replicate (Z.to_nat paddingSz) 0 in
    let '(ret, (ct, tag), c) := EncryptTls13 data hdr c in
    if negb (ret =? 0) then (ret, hdr ++ replicate (Z.to_nat size) 0, c)
    else
      let '(ret, rec) := Dtls13EncryptRecordNumber aes_direct (hdr ++ ct ++ tag) (u16 sz) c in
      (if ret =? 0 then sz else ret, rec, c).

(** CheckTLS13AEADSendLimit; [update] is [Tls13UpdateKeys]. *)
Definition AEAD_AES_LIMIT : Z := w64From32 0x016A 0x09E6.

Definition CheckTLS13AEADSendLimit (cipher : Z) (update : conn -> Z * conn) (c : conn) : Z * conn :=
  if cipher =? wolfssl_aes_gcm then
    match deref c (encryptEpoch c) with
    | None => (BAD_STATE_E, c)
    | Some e => if w64GTE (nextSeqNumber e) AEAD_AES_LIMIT then update c else (0, c)
    end
  else if cipher =? wolfssl_cipher_null then (0, c)
  else (BAD_STATE_E, c).

(** ** Opening *)

Definition SANITY_CIPHER_E := -375.

Definition SanityCheckCipherText (encryptSz : Z) : Z :=
  if encryptSz <? AES_GCM_AUTH_SZ then SANITY_CIPHER_E else 0.

(** In place: the plaintext replaces the ciphertext at the read index. *)
Definition DecryptTls13 (sz : Z) (aad : list Z) (r : reader) : Z * reader :=
  let dataSz := Z.to_nat (u16 (sz - AES_GCM_AUTH_SZ)) in
  if negb (alloc (Z.of_nat AEAD_NONCE_SZ)) then (MEMORY_E, r)
  else
    let '(nonce, c) := BuildTls13Nonce (aead_dec_imp_IV (keys (rconn r))) PEER_ORDER (rconn r) in
    let input := input_at r in
    let '(ret, plain) := gcm_decrypt (c_key (dec_ctx c)) nonce aad (take dataSz input)
                           (slice dataSz (Z.to_nat AES_GCM_AUTH_SZ) input) in
    (ret, set_input_at (blit 0 plain input) (set_rconn c r)).

Definition DoDecrypt (r : reader) : Z * reader :=
  let ret := SanityCheckCipherText (curSize r) in
  if ret <? 0 then (ret, r)
  else DecryptTls13 (curSize r) (take (Z.to_nat (dtls13CurRlLength r)) (dtls13CurRL r)) r.

(** The loop of [removeMsgInnerPadding] from [idx + n] down to [idx]. *)
Fixpoint last_nonzero (buf : list Z) (idx : nat) (n : nat) : nat :=
  match n with
  | O => idx
  | S n' => if at_ buf (idx + n) =? 0 then last_nonzero buf idx n' else (idx + n)%nat
  end.

(** The result holds the code, the reader and [padSz].  When nothing but the tag
    was received the loop does not start and the byte in front is taken. *)
Definition removeMsgInnerPadding (r : reader) : Z * reader * Z :=
  let i := u32 (Z.of_nat (inputIdx r) + curSize r - AES_GCM_AUTH_SZ) in
  if (Z.of_nat (length (inputBuffer r)) <? i) || (i =? 0) then (BUFFER_ERROR, r, 0)
  else
    let i := if Z.of_nat (inputIdx r) <? i
             then last_nonzero (inputBuffer r) (inputIdx r) (Z.to_nat (i - 1) - inputIdx r)
             else Z.to_nat (i - 1) in
    let rh := curRL r in
    let r' := set_curRL (RLH (at_ (inputBuffer r) i) (pvMajor rh) (pvMinor rh) (rh_length rh))
                (curSize r) r in
    (0, r', u32 (Z.of_nat (inputIdx r) + curSize r - Z.of_nat i)).

(** ** Failed decryptions *)

Definition DTLS_AEAD_AES_GCM_CHACHA_FAIL_LIMIT : Z := w64From32 (Z.shiftl 1 3) 0.
Definition DTLS_AEAD_AES_GCM_CHACHA_FAIL_KU_LIMIT : Z := w64From32 (Z.shiftl 1 2) 0.

(** The result also holds [dtls13DoKeyUpdate] and [dtls13InvalidateBefore]. *)
Definition Dtls13CheckAEADFailLimit (cipher : Z) (updateResponseReq : bool)
    (dku : bool * Z) (c : conn) : Z * (bool * Z) * conn :=
  let limits :=
    if (cipher =? wolfssl_aes_gcm) || (cipher =? wolfssl_chacha)
    then Some (DTLS_AEAD_AES_GCM_CHACHA_FAIL_LIMIT, DTLS_AEAD_AES_GCM_CHACHA_FAIL_KU_LIMIT)
    else None in
  if cipher =? wolfssl_cipher_null then (0, dku, c)
  else
    match limits with
    | None => (DECRYPT_ERROR, dku, c)
    | Some (hardLimit, keyUpdateLimit) =>
        match decryptEpoch c with
        | None => (BAD_STATE_E, dku, c)
        | Some i =>
            let n := w64Increment (dropCount (slot c i)) in
            let c := set_slot i (e_set_drop n (slot c i)) c in
            if w64GT n hardLimit then (DECRYPT_ERROR, dku, c)
            else if w64GT n keyUpdateLimit then
              if negb updateResponseReq
              then (0, (true, w64Increment (dtls13PeerEpoch c)), c)
              else (0, dku, c)
            else (0, dku, c)
        end
    end.
End Protect.

(** ** Nonces *)

Lemma seq_bytes q c i : encryptEpoch c = Some i -> nextSeqNumber (slot c i) = q ->
  WriteSEQTls13 CUR_ORDER c
  = (c32toa (w64GetHigh32 q) ++ c32toa (w64GetLow32 q),
     set_slot i (e_set_seq (u64 (q + 1)) (slot c i)) c).
Proof.
  intros Ei Eq. unfold WriteSEQTls13, Dtls13GetSeq.
  change (CUR_ORDER =? PEER_ORDER) with false. change (CUR_ORDER =? CUR_ORDER) with true.
  cbv iota. rewrite Ei, Eq. unfold w64Increment.
  destruct (w64IsZero (u64 (q + 1))); done.
Qed.

Lemma peer_seq_bytes c :
  WriteSEQTls13 PEER_ORDER c
  = (c32toa (w64GetHigh32 (curSeq c)) ++ c32toa (w64GetLow32 (curSeq c)), c).
Proof. done. Qed.

(** The nonce of record number [q] under [iv]. *)
Definition nonce_of (iv : list Z) (q : Z) : list Z :=
  take 4 iv ++ xorbuf 4 4 (c32toa (w64GetHigh32 q) ++ c32toa (w64GetLow32 q)) (drop 4 iv) SEQ_SZ.

Lemma BuildNonce_cur iv q c i : encryptEpoch c = Some i -> nextSeqNumber (slot c i) = q ->
  BuildTls13Nonce iv CUR_ORDER c
  = (nonce_of iv q, set_slot i (e_set_seq (u64 (q + 1)) (slot c i)) c).
Proof. intros Ei Eq. unfold BuildTls13Nonce. rewrite (seq_bytes q c i Ei Eq). done. Qed.

Lemma BuildNonce_peer iv c : BuildTls13Nonce iv PEER_ORDER c = (nonce_of iv (curSeq c), c).
Proof. unfold BuildTls13Nonce. rewrite peer_seq_bytes. done. Qed.

(** ** The inner padding *)

Lemma last_nonzero_spec buf idx k n : (k <= n)%nat -> at_ buf (idx + k) <> 0 ->
  (forall j, (k < j <= n)%nat -> at_ buf (idx + j) = 0) ->
  last_nonzero buf idx n = (idx + k)%nat.
Proof.
  induction n as [|n IH]; intros L N Z0; cbn [last_nonzero].
  - replace k with 0%nat by lia. lia.
  - destruct (decide (k = S n)) as [->|D].
    + destruct (Z.eqb_spec (at_ buf (idx + S n)) 0); [done|lia].
    + rewrite Z0 by lia. cbn. apply IH; [lia|done|]. intros j Hj. apply Z0. lia.
Qed.

Lemma at_app_behind l1 l2 k : at_ (l1 ++ l2) (length l1 + k) = at_ l2 k.
Proof. unfold at_. rewrite app_nth2_plus. done. Qed.

(** A buffer that holds content, type and zeros in front of the tag. *)
Lemma removeMsgInnerPadding_ok r pre input t pad tag post :
  inputBuffer r = pre ++ (input ++ [t] ++ replicate pad 0) ++ tag ++ post ->
  inputIdx r = length pre -> length tag = 16%nat -> t <> 0 ->
  curSize r = Z.of_nat (length input) + 1 + Z.of_nat pad + 16 ->
  Z.of_nat (length (inputBuffer r)) < 2 ^ 16 ->
  exists r', removeMsgInnerPadding r = (0, r', 1 + Z.of_nat pad + 16)
    /\ rh_type (curRL r') = t /\ inputBuffer r' = inputBuffer r /\ inputIdx r' = inputIdx r
    /\ curSize r' = curSize r /\ rconn r' = rconn r.
Proof.
  intros Hb Hi Lt Nt Hs Sz. unfold removeMsgInnerPadding. rewrite Hs.
  change AES_GCM_AUTH_SZ with 16.
  assert (Z.of_nat (length (inputBuffer r))
          = Z.of_nat (inputIdx r) + Z.of_nat (length input) + 1 + Z.of_nat pad + 16
            + Z.of_nat (length post)) as Len.
  { rewrite Hb, Hi, !length_app, length_replicate. cbn [length]. lia. }
  rewrite wrap_small by (unfold in_word; lia).
  replace (Z.of_nat (inputIdx r) + _ - 16)
    with (Z.of_nat (inputIdx r + (length input + pad)) + 1) by lia.
  destruct (Z.ltb_spec (Z.of_nat (length (inputBuffer r)))
              (Z.of_nat (inputIdx r + (length input + pad)) + 1)); [lia|].
  destruct (Z.eqb_spec (Z.of_nat (inputIdx r + (length input + pad)) + 1) 0); [lia|]. cbn [orb].
  destruct (Z.ltb_spec (Z.of_nat (inputIdx r)) (Z.of_nat (inputIdx r + (length input + pad)) + 1));
    [|lia].
  replace (Z.to_nat (_ + 1 - 1) - inputIdx r)%nat with (length input + pad)%nat by lia.
  rewrite (last_nonzero_spec _ _ (length input)); [|lia| |].
  - assert (at_ (inputBuffer r) (inputIdx r + length input) = t) as Et.
    { rewrite Hb, Hi, at_app_behind, <- !app_assoc.
      replace (length input) with (length input + 0)%nat by lia. rewrite at_app_behind. done. }
    rewrite Et, wrap_small by (unfold in_word; lia). eexists. split.
    { f_equal. lia. }
    done.
  - rewrite Hb, Hi, at_app_behind, <- !app_assoc.
    replace (length input) with (length input + 0)%nat by lia. rewrite at_app_behind. done.
  - intros j Hj. rewrite Hb, Hi, at_app_behind, <- !app_assoc.
    replace j with (length input + (1 + (j - length input - 1)))%nat by lia.
    rewrite !at_app_behind. change ([t] ++ ?x) with (t :: x). cbn [Nat.add].
    change (at_ (t :: ?l) (S ?k)) with (at_ l k). unfold at_. rewrite app_nth1.
    + rewrite nth_lookup, lookup_replicate_2 by lia. done.
    + rewrite length_replicate. lia.
Qed.

(** ** The record round trip *)

Section Seal.
Context `{CryptoLaws, Heap}.

Lemma message_size inSz : 0 <= inSz ->
  let '(sz, pad) := BuildTls13Message_size inSz in
  sz = 5 + inSz + 1 + pad + 16 /\ 0 <= pad /\ 21 <= sz /\ sz <= Z.max 21 (22 + inSz).
Proof.
  intros Hn. unfold BuildTls13Message_size. change (Dtls13GetRlHeaderLength true) with 5.
  change Dtls13MinimumRecordLength with 21. change AES_GCM_AUTH_SZ with 16.
  destruct (Z.ltb_spec (5 + inSz + 1 + 16) 21); lia.
Qed.

(** What was sealed: the ciphertext and tag of the inner plaintext under the
    nonce of number [q] and the header of epoch [n] as additional data. *)
Definition sealed (c : conn) (n q size : Z) (data ct tag : list Z) : Prop :=
  gcm_encrypt (c_key (enc_ctx c)) (nonce_of (aead_enc_imp_IV (keys c)) q)
    ([unified_flags n] ++ c16toa (u16 q) ++ c16toa size) data = (0, (ct, tag)).

Definition inner (input : list Z) (t pad : Z) : list Z :=
  input ++ [t] ++ replicate (Z.to_nat pad) 0.

Lemma BuildTls13Message_spec output outSz input t c i k n q :
  encryptEpoch c = Some i -> epochNumber (slot c i) = n -> nextSeqNumber (slot c i) = q ->
  is_u64 n -> c_sn (enc_ctx c) = Some k -> alloc (Z.of_nat AEAD_NONCE_SZ) = true ->
  0 < t < 256 -> (5 <= length output)%nat -> Z.of_nat (length input) <= MAX_RECORD_SIZE ->
  let '(sz, pad) := BuildTls13Message_size (Z.of_nat (length input)) in
  sz <= outSz ->
  exists ret rec,
    BuildTls13Message output outSz input t c
    = (ret, rec, set_slot i (e_set_seq (u64 (q + 1)) (slot c i)) c)
    /\ (ret < 0
        \/ exists ct tag m, ret = sz /\ sealed c n q (sz - 5) (inner input t pad) ct tag
            /\ rec = masked m n q (sz - 5) (ct ++ tag)
            /\ aes_direct k (take 16 (ct ++ tag)) = (0, m) /\ length m = 16%nat /\ bytes m
            /\ length rec = Z.to_nat sz).
Proof.
  intros Ei En Eq Un Ek Al Ht Lo Li. pose proof (message_size (Z.of_nat (length input)) ltac:(lia)) as Ms.
  unfold BuildTls13Message. destruct (BuildTls13Message_size _) as [sz pad].
  destruct Ms as (Esz & Hp & Hmin & Hmax). unfold MAX_RECORD_SIZE in Li. intros Ho.
  destruct (Z.ltb_spec outSz sz); [lia|].
  change (Dtls13GetRlHeaderLength true) with 5.
  rewrite (RlAddCiphertextHeader_ok _ _ _ (slot c i)); [|rewrite Ei; done|rewrite En; done|done].
  rewrite En, Eq, (wrap_small 8 t), (wrap_small 16 (sz - 5)) by (unfold in_word; lia).
  cbn [snd]. set (hdr := [unified_flags n] ++ c16toa (u16 q) ++ c16toa (sz - 5)).
  assert (take (Z.to_nat 5) ([unified_flags n] ++ c16toa (u16 q) ++ c16toa (sz - 5) ++ drop 5 output)
          = hdr) as ->.
  { unfold hdr. destruct (c16toa_pair (u16 q)) as (a & b & -> & _).
    destruct (c16toa_pair (sz - 5)) as (x & y & -> & _). done. }
  fold (inner input t pad). unfold EncryptTls13. rewrite Al. cbn [negb].
  rewrite (BuildNonce_cur _ q c i Ei Eq). set (c1 := set_slot i _ c).
  change (enc_ctx c1) with (enc_ctx c).
  pose proof (gcm_codes (c_key (enc_ctx c)) (nonce_of (aead_enc_imp_IV (keys c)) q) hdr
                (inner input t pad)) as Cd.
  destruct (gcm_encrypt _ _ hdr _) as [ret [ct tag]] eqn:Eg. cbn [fst] in Cd.
  destruct (Z.eqb_spec ret 0) as [->|N]; cbn [negb].
  2: { eexists _, _. split; [reflexivity|]. left. lia. }
  destruct (gcm_lengths _ _ _ _ _ _ Eg) as (Lc & Lt).
  assert (Z.of_nat (length (ct ++ tag)) = sz - 5) as Lct.
  { rewrite length_app, Lc, Lt. unfold inner. rewrite !length_app, length_replicate.
    change (Z.to_nat AES_GCM_AUTH_SZ) with 16%nat. cbn [length]. lia. }
  rewrite (wrap_small 16 sz) by (unfold in_word; lia).
  destruct (EncryptRecordNumber_ok aes_direct aes_block c1 n q (sz - 5) (ct ++ tag) k Ek
              ltac:(lia) ltac:(lia)) as (m & Em & Lm & Bm & EE).
  replace (5 + (sz - 5)) with sz in EE by lia.
  unfold hdr. rewrite <- !app_assoc. rewrite EE. cbn [Z.eqb].
  exists sz, (masked m n q (sz - 5) (ct ++ tag)). split; [reflexivity|]. right.
  exists ct, tag, m. split; [done|]. split; [exact Eg|]. split; [done|]. split; [done|].
  split; [done|]. split; [done|]. rewrite (length_masked m) by done. lia.
Qed.
(** A reader positioned at [rec], followed by [post]. *)
Definition holds (r : reader) (rec post : list Z) : Prop :=
  exists pre, inputBuffer r = pre ++ rec ++ post /\ inputIdx r = length pre
    /\ Z.of_nat (length (inputBuffer r)) < 2 ^ 16.

(** The peer's connection [c'] can open records number [q] of epoch [n] sealed
    by [c]: it selects the epoch, expects a number near [q] and has the same
    keys and IV. *)
Record can_open (c c' : conn) (cp : conn) (n q : Z) (k : list Z) : Prop := {
  co_epoch : Dtls13ReconstructEpochNumber (n mod 4) c' = (0, n);
  co_selects : selects_epoch set_key key_size n c' cp;
  co_next : exists d, deref cp (decryptEpoch cp) = Some d /\ is_u64 (nextPeerSeqNumber d)
              /\ Z.abs (q - nextPeerSeqNumber d) < 2 ^ 15;
  co_sn : c_sn (dec_ctx cp) = Some k;
  co_key : c_key (dec_ctx cp) = c_key (enc_ctx c);
  co_iv : aead_dec_imp_IV (keys cp) = aead_enc_imp_IV (keys c) }.

(** Reading the header, decrypting and removing the padding. *)
Definition opens (r : reader) (n q t : Z) (input post : list Z) : Prop :=
  exists r1 r2 r3 pad,
    GetDtls13RecordHeader aes_direct set_key key_size r = (inr tt, r1)
    /\ DoDecrypt r1 = (0, r2) /\ removeMsgInnerPadding r2 = (0, r3, pad)
    /\ curEpoch64 (rconn r3) = n /\ curSeq (rconn r3) = q
    /\ rh_type (curRL r3) = t /\ take (length input) (input_at r3) = input
    /\ curSize r3 - pad = Z.of_nat (length input)
    /\ drop (Z.to_nat (curSize r3)) (input_at r3) = post.

Lemma length_unified n q size : length ([unified_flags n] ++ c16toa (u16 q) ++ c16toa size) = 5%nat.
Proof. rewrite !length_app, !length_c16toa. done. Qed.

Lemma DoDecrypt_sealed c n q size data ct tag post r :
  sealed c n q size data ct tag -> size = Z.of_nat (length (ct ++ tag)) -> size < 2 ^ 16 ->
  alloc (Z.of_nat AEAD_NONCE_SZ) = true ->
  curSize r = size -> curSeq (rconn r) = q -> input_at r = (ct ++ tag) ++ post ->
  c_key (dec_ctx (rconn r)) = c_key (enc_ctx c) ->
  aead_dec_imp_IV (keys (rconn r)) = aead_enc_imp_IV (keys c) ->
  dtls13CurRlLength r = 5 ->
  dtls13CurRL r = [unified_flags n] ++ c16toa (u16 q) ++ c16toa size ->
  DoDecrypt r = (0, set_input_at (data ++ tag ++ post) (set_rconn (rconn r) r)).
Proof.
  intros Sl Esz Us Al Cs Cq At Ck Civ Rl RL. unfold sealed in Sl.
  destruct (gcm_lengths _ _ _ _ _ _ Sl) as (Lc & Lt).
  change (Z.to_nat AES_GCM_AUTH_SZ) with 16%nat in Lt. rewrite length_app in Esz.
  unfold DoDecrypt, SanityCheckCipherText. rewrite Cs. change AES_GCM_AUTH_SZ with 16.
  destruct (Z.ltb_spec size 16); [lia|]. cbn [Z.ltb Z.compare]. unfold DecryptTls13. rewrite Al.
  cbn [negb]. rewrite BuildNonce_peer, Cq, At, Civ, Ck, Rl, RL.
  change AES_GCM_AUTH_SZ with 16. rewrite (wrap_small 16 (size - 16)) by (unfold in_word; lia).
  replace (Z.to_nat (size - 16)) with (length ct) by lia.
  rewrite <- app_assoc, take_app_length. unfold slice. rewrite drop_app_length.
  change (Z.to_nat 16) with 16%nat. rewrite <- Lt at 1. rewrite take_app_length.
  change (Z.to_nat 5) with 5%nat. rewrite <- (length_unified n q size) at 1. rewrite firstn_all.
  rewrite (gcm_roundtrip _ _ _ _ _ _ Sl). f_equal. f_equal.
  rewrite blit_start by (rewrite length_app; lia). rewrite <- Lc, drop_app_length. done.
Qed.

(** Reading the header leaves the reader at the ciphertext. *)
Lemma header_read c c' cp r n q k ct m post size :
  holds r (masked m n q size ct) post -> rconn r = c' -> can_open c c' cp n q k ->
  0 < n -> is_u64 n -> is_u64 q -> size = Z.of_nat (length ct) -> 16 <= size ->
  aes_direct k (take 16 ct) = (0, m) -> length m = 16%nat -> bytes m ->
  exists r1 pre, GetDtls13RecordHeader aes_direct set_key key_size r = (inr tt, r1)
    /\ inputBuffer r1 = pre ++ ct ++ post /\ inputIdx r1 = length pre
    /\ Z.of_nat (length (inputBuffer r1)) < 2 ^ 16
    /\ curEpoch64 (rconn r1) = n /\ curSeq (rconn r1) = q /\ curSize r1 = size
    /\ dtls13CurRlLength r1 = 5
    /\ dtls13CurRL r1 = [unified_flags n] ++ c16toa (u16 q) ++ c16toa size
    /\ c_key (dec_ctx (rconn r1)) = c_key (enc_ctx c)
    /\ aead_dec_imp_IV (keys (rconn r1)) = aead_enc_imp_IV (keys c).
Proof.
  intros (pre & Hb & Hi & Hs) Ec [Ce Cs (d & Hd & Ud & Nr) Csn Ck Civ] Pn Un Uq Esz Gsz Em Lm Bm.
  rewrite <- Ec in Ce, Cs.
  destruct (GetDtls13RecordHeader_masked aes_direct set_key key_size r cp d k m n q size ct post)
    as (r1 & E1 & X1 & X2 & X3 & X4 & X5 & X6 & X7 & X8 & X9 & X10 & X11 & X12 & X13);
    try done; [exists pre; done|lia|].
  set (hdr := [unified_flags n] ++ c16toa (u16 q) ++ c16toa size) in *.
  assert (length hdr = 5%nat) as Lh by apply length_unified.
  assert (take (inputIdx r) (inputBuffer r) = pre) as Tp by (rewrite Hb, Hi, take_app_length; done).
  rewrite Tp, (app_assoc pre hdr) in X12.
  exists r1, (pre ++ hdr). split; [done|]. split; [done|].
  split; [rewrite X5, Hi, length_app; lia|].
  split; [rewrite X12, Hb in *; rewrite !length_app, ?length_masked in *; done || lia|].
  rewrite X8, X10. done.
Qed.

Lemma opens_sealed c c' cp r n q k t input pad ct tag m post size :
  holds r (masked m n q size (ct ++ tag)) post -> rconn r = c' -> can_open c c' cp n q k ->
  0 < n -> is_u64 n -> is_u64 q -> alloc (Z.of_nat AEAD_NONCE_SZ) = true -> t <> 0 ->
  sealed c n q size (inner input t pad) ct tag -> 0 <= pad ->
  size = Z.of_nat (length (ct ++ tag)) ->
  aes_direct k (take 16 (ct ++ tag)) = (0, m) -> length m = 16%nat -> bytes m ->
  opens r n q t input post.
Proof.
  intros Hr Ec Co Pn Un Uq Al Nt Sl Pp Esz Em Lm Bm.
  pose proof Sl as Sl'. unfold sealed in Sl'. destruct (gcm_lengths _ _ _ _ _ _ Sl') as (Lc & Lt).
  change (Z.to_nat AES_GCM_AUTH_SZ) with 16%nat in Lt.
  assert (length ct = (length input + 1 + Z.to_nat pad)%nat) as Lct
    by (rewrite Lc; unfold inner; rewrite !length_app, length_replicate; cbn [length]; lia).
  rewrite length_app in Esz.
  destruct (header_read c c' cp r n q k (ct ++ tag) m post size)
    as (r1 & pre & E1 & B1 & I1 & S1 & X1 & X2 & X3 & Rl & RL & Xk & Xiv); try done;
    [rewrite length_app; lia|lia|].
  assert (input_at r1 = (ct ++ tag) ++ post) as At
    by (unfold input_at; rewrite B1, I1; apply drop_app_length).
  assert (DoDecrypt r1 = (0, set_input_at (inner input t pad ++ tag ++ post)
            (set_rconn (rconn r1) r1))) as E2.
  { apply (DoDecrypt_sealed c n q size _ ct); try assumption; [rewrite length_app; lia|].
    rewrite B1, !length_app in S1. lia. }
  set (r2 := set_input_at _ _) in E2.
  assert (inputBuffer r2 = pre ++ inner input t pad ++ tag ++ post) as B2.
  { change (take (inputIdx r1) (inputBuffer r1) ++ inner input t pad ++ tag ++ post
            = pre ++ inner input t pad ++ tag ++ post).
    rewrite B1, I1, take_app_length. done. }
  destruct (removeMsgInnerPadding_ok r2 pre input t (Z.to_nat pad) tag post B2)
    as (r3 & E3 & Y1 & Y2 & Y3 & Y4 & Y5); try done;
    [change (curSize r2) with (curSize r1); lia| |].
  { rewrite B2, B1 in *. unfold inner. rewrite !length_app, length_replicate in *.
    cbn [length] in *. lia. }
  exists r1, r2, r3, (1 + Z.of_nat (Z.to_nat pad) + 16). split; [done|]. split; [done|].
  split; [done|]. rewrite Y5, Y4. split; [exact X1|]. split; [exact X2|]. split; [done|].
  unfold input_at. rewrite Y2, Y3, B2. change (inputIdx r2) with (inputIdx r1).
  change (curSize r2) with (curSize r1). rewrite I1, drop_app_length, X3.
  split; [unfold inner; rewrite <- !app_assoc; apply take_app_length|]. split; [lia|].
  rewrite app_assoc. replace (Z.to_nat size) with (length (inner input t pad ++ tag))
    by (rewrite length_app, Lt, <- Lc; lia).
  apply drop_app_length.
Qed.

(** C5: record protection round trip.  In an encrypted epoch a call of
    [BuildTls13Message] uses up exactly one sequence number and either fails
    with the cipher's error or produces a record of the announced size, such
    that a peer with the same keys that expects a number less than 2^15 away -
    whatever precedes or follows the record in its datagram, and switching its
    decryption epoch if it has to - reads the header, authenticates and
    decrypts the record, strips the padding, and finds the same epoch, sequence
    number, content type and content. *)
Theorem record_protection_roundtrip output outSz input t c i k n q c' cp r post
    (Ei : encryptEpoch c = Some i) (En : epochNumber (slot c i) = n)
    (Eq : nextSeqNumber (slot c i) = q) (Un : is_u64 n) (Pn : 0 < n) (Uq : is_u64 q)
    (Ek : c_sn (enc_ctx c) = Some k) (Al : alloc (Z.of_nat AEAD_NONCE_SZ) = true)
    (Ht : 0 < t < 256) (Lo : (5 <= length output)%nat)
    (Li : Z.of_nat (length input) <= MAX_RECORD_SIZE)
    (Ho : fst (BuildTls13Message_size (Z.of_nat (length input))) <= outSz)
    (Hc : rconn r = c') (Co : can_open c c' cp n q k) :
  exists ret rec,
    BuildTls13Message output outSz input t c
    = (ret, rec, set_slot i (e_set_seq (u64 (q + 1)) (slot c i)) c)
    /\ (ret < 0
        \/ ret = fst (BuildTls13Message_size (Z.of_nat (length input)))
           /\ length rec = Z.to_nat ret
           /\ (holds r rec post -> opens r n q t input post)).
Proof.
  pose proof (BuildTls13Message_spec output outSz input t c i k n q Ei En Eq Un Ek Al Ht Lo Li) as B.
  pose proof (message_size (Z.of_nat (length input)) ltac:(lia)) as Ms.
  destruct (BuildTls13Message_size _) as [sz pad]. cbn [fst] in *.
  destruct (B Ho) as (ret & rec & E & R). exists ret, rec. split; [exact E|].
  destruct R as [R|(ct & tag & m & -> & Sl & -> & Em & Lm & Bm & Lr)]; [by left|right].
  split; [done|]. split; [done|]. intros Hr.
  assert (sz - 5 = Z.of_nat (length (ct ++ tag))) as Esz by (rewrite length_masked in Lr by done; lia).
  apply (opens_sealed c c' cp r n q k t input pad ct tag m post (sz - 5)); try done; lia.
Qed.
End Seal.

(** ** Nonces are never shared *)

Lemma c32toa_inj a b : is_u32 a -> is_u32 b -> c32toa a = c32toa b -> a = b.
Proof. intros Ha Hb E. rewrite <- (ato32_c32toa a []), <- (ato32_c32toa b []), E by done. done. Qed.

Lemma seq8_bytes q : length (c32toa (w64GetHigh32 q) ++ c32toa (w64GetLow32 q)) = 8%nat
  /\ bytes (c32toa (w64GetHigh32 q) ++ c32toa (w64GetLow32 q)).
Proof.
  split; [done|]. apply Forall_app; split; unfold c32toa; repeat constructor; apply u8_byte.
Qed.

Lemma nonce_of_inj iv q q' : length iv = AEAD_NONCE_SZ -> bytes iv -> is_u64 q -> is_u64 q' ->
  nonce_of iv q = nonce_of iv q' -> q = q'.
Proof.
  intros L B Uq Uq' E. unfold nonce_of in E. apply app_inv_head in E.
  destruct (seq8_bytes q) as (L1 & B1). destruct (seq8_bytes q') as (L2 & B2).
  assert (bytes (drop 4 iv)) as Bd by (apply Forall_drop; done).
  assert (length (drop 4 iv) = 8%nat) as Ld by (rewrite length_drop, L; done).
  rewrite !xorbuf_xor_bytes in E by (done || unfold SEQ_SZ; lia).
  apply (f_equal (fun l => xor_bytes SEQ_SZ l (drop 4 iv))) in E.
  rewrite !xor_bytes_invol in E.
  apply app_inj_1 in E as [E1 E2]; [|done].
  apply c32toa_inj in E1; [|apply wrap_range; lia..]. apply c32toa_inj in E2; [|apply wrap_range; lia..].
  unfold w64GetHigh32, w64GetLow32 in *. rewrite !Z.shiftr_div_pow2 in E1 by lia.
  unfold in_word in *. lia_mod.
Qed.

(** C29: nonces agree exactly when record numbers do.  For one IV the nonce the
    sender builds for its next record is the nonce the receiver builds for the
    record it reconstructed if and only if the two sequence numbers are equal;
    with the uniqueness of record numbers, no nonce of a key is ever used for two
    records. *)
Theorem nonce_agrees_iff iv c i c' :
  length iv = AEAD_NONCE_SZ -> bytes iv -> encryptEpoch c = Some i ->
  is_u64 (nextSeqNumber (slot c i)) -> is_u64 (curSeq c') ->
  fst (BuildTls13Nonce iv CUR_ORDER c) = fst (BuildTls13Nonce iv PEER_ORDER c')
  <-> nextSeqNumber (slot c i) = curSeq c'.
Proof.
  intros L B Ei U U'. rewrite (BuildNonce_cur iv _ c i Ei eq_refl), BuildNonce_peer. cbn [fst].
  split; [apply nonce_of_inj; done|intros ->; done].
Qed.

(** ** Limits *)

(** The limits actually enforced.  With AES-GCM a key update is requested
    before sealing exactly when the next sequence number has reached
    0x16A000009E6, about 2^40.5: the two 16-bit halves of 2^24.5 were passed as
    32-bit words.  A failed decryption is counted in the epoch, asks for a key
    update (unless one is under way) from 2^34 + 1 failures on, and is a fatal
    error from 2^35 + 1 on. *)
Theorem aead_limits_enforced update c i resp dku :
  let q := nextSeqNumber (slot c i) in
  let d := dropCount (slot c i) + 1 in
  encryptEpoch c = Some i -> decryptEpoch c = Some i -> 0 < d < 2 ^ 64 ->
  CheckTLS13AEADSendLimit wolfssl_aes_gcm update c
    = (if 0x16A000009E6 <=? q then update c else (0, c))
  /\ 2 ^ 40 < 0x16A000009E6
  /\ Dtls13CheckAEADFailLimit wolfssl_aes_gcm resp dku c
     = (if 2 ^ 35 <? d then DECRYPT_ERROR else 0,
        if (2 ^ 34 <? d) && (d <=? 2 ^ 35) && negb resp
        then (true, u64 (dtls13PeerEpoch c + 1)) else dku,
        set_slot i (e_set_drop d (slot c i)) c).
Proof.
  intros q d Ee Ed Hd. unfold CheckTLS13AEADSendLimit, Dtls13CheckAEADFailLimit.
  cbn [Z.eqb Pos.eqb wolfssl_aes_gcm wolfssl_chacha wolfssl_cipher_null orb].
  rewrite Ee, Ed. cbn [deref]. change AEAD_AES_LIMIT with 0x16A000009E6.
  change DTLS_AEAD_AES_GCM_CHACHA_FAIL_LIMIT with (2 ^ 35).
  change DTLS_AEAD_AES_GCM_CHACHA_FAIL_KU_LIMIT with (2 ^ 34).
  split; [done|]. split; [lia|]. unfold w64Increment, w64GT. fold d.
  rewrite (wrap_small 64 d) by (unfold in_word; lia).
  change (dtls13PeerEpoch (set_slot i (e_set_drop d (slot c i)) c)) with (dtls13PeerEpoch c).
  destruct (Z.ltb_spec (2 ^ 35) d), (Z.ltb_spec (2 ^ 34) d), (Z.leb_spec d (2 ^ 35)), resp;
    try lia; done.
Qed.

(** ** Examples *)

Definition demo_output : list Z := replicate 60 0.

(** Epoch 2, with IVs in the key material. *)
Definition demo_iv_keys : KeyMaterial :=
  Build_KeyMaterial (repeat 3 16) (repeat 4 16) (repeat 1 12) (repeat 2 12) [] []
    (repeat 5 16) (repeat 6 16).

Definition demo_end (own : Z) (sd : Z) : conn :=
  snd (Dtls13SetEpochKeys set_key key_size 2 sd
    (snd (Dtls13NewEpoch 2 ENCRYPT_AND_DECRYPT_SIDE (set_keys demo_iv_keys (InitSSL_epochs own))))).

Definition demo_client : conn := demo_end WOLFSSL_CLIENT_END ENCRYPT_SIDE_ONLY.
Definition demo_server : conn :=
  snd (Dtls13NewEpoch 2 ENCRYPT_AND_DECRYPT_SIDE
    (set_keys demo_iv_keys (InitSSL_epochs WOLFSSL_SERVER_END))).

Definition demo_sealed : list Z :=
  Eval vm_compute in snd (fst (BuildTls13Message demo_output 60 [10; 20; 30] handshake demo_client)).

Lemma demo_can_open : can_open demo_client demo_server (demo_end WOLFSSL_SERVER_END DECRYPT_SIDE_ONLY)
  2 0 (repeat 5 16).
Proof.
  split; [vm_compute; reflexivity|vm_compute; reflexivity| |vm_compute; reflexivity
         |vm_compute; reflexivity|vm_compute; reflexivity].
  eexists. split; [vm_compute; reflexivity|]. split; [|vm_compute; reflexivity].
  vm_compute. split; congruence.
Qed.

Lemma record_protection_roundtrip_witness :
  opens (demo_reader demo_server (demo_sealed ++ [9; 9])) 2 0 handshake [10; 20; 30] [9; 9].
Proof.
  destruct (record_protection_roundtrip demo_output 60 [10; 20; 30] handshake demo_client 1
    (repeat 5 16) 2 0 demo_server (demo_end WOLFSSL_SERVER_END DECRYPT_SIDE_ONLY)
    (demo_reader demo_server (demo_sealed ++ [9; 9])) [9; 9])
    as (ret & rec & E & H);
    [vm_compute; reflexivity|vm_compute; reflexivity|vm_compute; reflexivity
    |unfold in_word; lia|lia|unfold in_word; lia|vm_compute; reflexivity|reflexivity|done
    |vm_compute; lia|vm_compute; congruence|vm_compute; congruence|reflexivity
    |apply demo_can_open|].
  assert (fst (BuildTls13Message demo_output 60 [10; 20; 30] handshake demo_client)
          = (25, demo_sealed)) as V by (vm_compute; reflexivity).
  rewrite E in V. cbn [fst] in V. injection V as -> ->.
  destruct H as [H|(_ & _ & H)]; [lia|]. apply H.
  exists []. cbn [app inputBuffer inputIdx demo_reader length].
  split; [reflexivity|]. split; [reflexivity|vm_compute; reflexivity].
Defined.

Lemma nonce_agrees_iff_witness :
  fst (BuildTls13Nonce (repeat 1 12) CUR_ORDER demo_client)
  = fst (BuildTls13Nonce (repeat 1 12) PEER_ORDER (set_cur 2 0 demo_server)).
Proof.
  apply (nonce_agrees_iff (repeat 1 12) demo_client 1 (set_cur 2 0 demo_server));
    try reflexivity; try (vm_compute; split; congruence).
  repeat constructor; lia.
Defined.

Lemma aead_limits_enforced_witness :
  fst (CheckTLS13AEADSendLimit wolfssl_aes_gcm (fun c => (1, c))
        (set_slot 1 (e_set_seq 23726566 (slot demo_client 1)) (set_ptrs (Some 1%nat) (Some 1%nat) demo_client))) = 0.
Proof.
  destruct (aead_limits_enforced (fun c => (1, c))
    (set_slot 1 (e_set_seq 23726566 (slot demo_client 1)) (set_ptrs (Some 1%nat) (Some 1%nat) demo_client))
    1 false (false, 0)) as (E & _); [reflexivity|reflexivity|vm_compute; split; congruence|].
  rewrite E. reflexivity.
Defined.
