(* ===== verification/DtlsRtx.v ===== *)
(** * Acknowledgements and the retransmission buffer (src/boot/src/dtls13.c)

    The numbers of the records received are kept sorted in [seenRecords] until
    an ACK message lists them; the messages sent are kept in [rtxRecords] until
    an ACK names a record that carried them.  Lists stand for the linked lists
    (RtxList.v proves that the pointer code implements them). *)

From Stdlib Require Import Sorted.
From S2P Require Import Prelude Misc RtxList DtlsDefs DtlsEpoch DtlsMsg DtlsState.

(** ** Retransmission records *)

Definition sizeof_Dtls13RtxRecord : Z := 56.
Definition sizeof_Dtls13RecordNumber : Z := 24.

Section Rtx.
Context `{Crypto, Heap}.

Definition Dtls13RtxNewRecord (data : list Z) (length handshakeType seq : Z) (s : ssl)
    : option Dtls13RtxRecord :=
  match deref (s_conn s) (encryptEpoch (s_conn s)) with
  | None => None
  | Some e =>
      if negb (alloc sizeof_Dtls13RtxRecord) then None
      else if negb (alloc length) then None
      else Some (RtxRec (take (Z.to_nat length) data) (epochNumber e)
                   (seq :: replicate (DTLS13_RETRANS_RN_SIZE - 1) heap_byte) 1 (u8 handshakeType))
  end.

(** Dtls13RtxAddRecord on the list. *)
Definition add_record (r : Dtls13RtxRecord) (s : ssl) : ssl :=
  upd_rtx (fun x => set_rtxRecords (rtxRecords x ++ [r]) x) s.

Definition Dtls13RtxFlushBuffered (keepNewSessionTicket : bool) (s : ssl) : ssl :=
  upd_rtx (fun x => set_rtxRecords
             (List.filter (fun r => keepNewSessionTicket && (rd_type r =? session_ticket))
                (rtxRecords x)) x) s.

Definition DtlsMsgPoolReset (s : ssl) : ssl :=
  let s := match fst (s_tx s) with [] => s | _ => set_tx ([], 0) s end in
  Dtls13RtxFlushBuffered true s.

(** The record is sent again with number [seq]: the ring of the numbers it is
    known by (in Dtls13RtxSendBuffered). *)
Definition track_seq (seq : Z) (r : Dtls13RtxRecord) : Dtls13RtxRecord :=
  let rnIdx := if Z.of_nat DTLS13_RETRANS_RN_SIZE <=? rd_rnIdx r then 0 else rd_rnIdx r in
  RtxRec (rd_data r) (rd_epoch r) (<[Z.to_nat rnIdx := seq]> (rd_seq r)) (u8 (rnIdx + 1))
    (rd_type r).

Definition Dtls13RtxIsTrackedByRn (epoch seq : Z) (r : Dtls13RtxRecord) : bool :=
  if negb (w64Equal (rd_epoch r) epoch) then false
  else existsb (fun q => w64Equal q seq) (take (Z.to_nat (rd_rnIdx r)) (rd_seq r)).

Definition Dtls13RtxRemoveRecord (epoch seq : Z) (s : ssl) : ssl :=
  upd_rtx (fun x => set_rtxRecords
             (snd (remove_first (Dtls13RtxIsTrackedByRn epoch seq) (rtxRecords x))) x) s.

Definition Dtls13RtxHasKeyUpdateBuffered (s : ssl) : bool :=
  existsb (fun r => rd_type r =? key_update) (rtxRecords (s_rtx s)).

(** The saved ClientHello moves out of the list. *)
Definition Dtls13MaybeSaveClientHello (s : ssl) : ssl :=
  let o := s_opts s in
  if (side (s_conn s) =? WOLFSSL_CLIENT_END) && (CLIENT_HELLO_SENT <=? o_connectState o)
     && (o_connectState o <=? HELLO_AGAIN_REPLY) && o_downgrade o
     && (DTLSv1_2_MINOR <=? o_minDowngrade o)
  then
    match remove_first (fun r => rd_type r =? client_hello) (rtxRecords (s_rtx s)) with
    | (Some r, l) => set_clientHello (rd_data r) (upd_rtx (set_rtxRecords l) s)
    | (None, _) => s
    end
  else s.

Definition Dtls13RtxRecordMatchesReqCtx (ctx : list Z) (ctxLen : Z) (r : Dtls13RtxRecord) : bool :=
  if negb (rd_type r =? certificate_request) then false
  else if rd_length r <=? ctxLen + 1 then false
  else bool_decide (take (Z.to_nat ctxLen) ctx = slice 1 (Z.to_nat ctxLen) (rd_data r)).

Definition Dtls13RtxProcessingCertificate (input : list Z) (s : ssl) : Z * ssl :=
  let inputSize := Z.of_nat (length input) in
  if inputSize <=? 1 then (BAD_FUNC_ARG, s)
  else
    let ctxLength := at_ input 0 in
    if inputSize <? ctxLength + 1 then (BAD_FUNC_ARG, s)
    else
      (0, upd_rtx (fun x => set_rtxRecords
             (snd (remove_first (Dtls13RtxRecordMatchesReqCtx (drop 1 input) ctxLength)
                     (rtxRecords x))) x) s).

Definition wolfSSL_dtls13_has_pending_msg (s : ssl) : bool :=
  match rtxRecords (s_rtx s) with [] => false | _ => true end.

(** ** The numbers to acknowledge *)

(** [None]: already in the list. *)
Fixpoint insert_ack (epoch seq : Z) (l : list (Z * Z)) : option (list (Z * Z)) :=
  match l with
  | [] => Some [(epoch, seq)]
  | (e, q) :: l' =>
      if w64Equal e epoch && w64Equal q seq then None
      else if w64LT epoch e || (w64Equal epoch e && w64LT seq q) then Some ((epoch, seq) :: l)
      else match insert_ack epoch seq l' with
           | Some l' => Some ((e, q) :: l')
           | None => None
           end
  end.

Definition Dtls13RtxAddAck (epoch seq : Z) (s : ssl) : Z * ssl :=
  match insert_ack epoch seq (seenRecords (s_rtx s)) with
  | None => (0, s)
  | Some l => if negb (alloc sizeof_Dtls13RecordNumber) then (MEMORY_E, s)
              else (0, upd_rtx (set_seenRecords l) s)
  end.

Definition Dtls13RtxFlushAcks (s : ssl) : ssl := upd_rtx (set_seenRecords []) s.

Definition Dtls13RtxRemoveCurAck (s : ssl) : ssl :=
  let p x := w64Equal (fst x) (curEpoch64 (s_conn s)) && w64Equal (snd x) (curSeq (s_conn s)) in
  upd_rtx (fun x => set_seenRecords (snd (remove_first p (seenRecords x))) x) s.

(** [type]: [ssl->curRL.type]. *)
Definition Dtls13RecordRecvd (type : Z) (s : ssl) : Z * ssl :=
  if negb (type =? handshake) then (0, s)
  else
    let s := if negb (o_dtls13SendMoreAcks (s_opts s))
             then let t := s_timers s in set_timers (Timers true (t_timeout t) (t_max t) (t_init t)) s
             else s in
    Dtls13RtxAddAck (curEpoch64 (s_conn s)) (curSeq (s_conn s)) s.

(** ** Received messages *)

Definition Dtls13RtxMsgNeedsAck (s : ssl) (hs : Z) : bool :=
  if (side (s_conn s) =? WOLFSSL_SERVER_END) && (hs =? finished) then true
  else (hs =? session_ticket) || (hs =? key_update).

Definition Dtls13MsgWasProcessed (hs : Z) (s : ssl) : ssl :=
  let n := s_nums s in
  let s := if o_dtlsStateful (s_opts s)
           then set_nums (Nums (n_next n) (u16 (n_expected n + 1)) (n_peer n)) s else s in
  upd_rtx (set_x_sendAcks (Dtls13RtxMsgNeedsAck s hs)) s.

Definition Dtls13DetectDisruption (fragOffset : Z) (s : ssl) : bool :=
  let n := s_nums s in
  if n_peer n <? n_expected n then false
  else if n_expected n <? n_peer n then true
  else if fragOffset =? 0 then false
  else
    match fst (s_rx s) with
    | [] => true
    | m :: _ => match last (fragBucketList m) with
                | Some b => negb (b_end b =? fragOffset)
                | None => false
                end
    end.

Definition Dtls13RtxMsgRecvd (hs fragOffset : Z) (s : ssl) : Z * ssl :=
  let n := s_nums s in
  let o := s_opts s in
  let s :=
    if negb (handShakeDone (s_conn s)) && (n_expected n <=? n_peer n) then
      let s := if hs =? server_hello then Dtls13MaybeSaveClientHello s else s in
      if (SERVER_HELLO_COMPLETE <=? o_serverState o) || o_seenUnifiedHdr o
      then DtlsMsgPoolReset s else s
    else s in
  let s :=
    if n_peer n <? n_expected n then
      let s := upd_rtx (set_x_retransmit true) s in
      match seenRecords (s_rtx s) with [] => s | _ => upd_rtx (set_x_sendAcks true) s end
    else s in
  let s :=
    if (n_peer n =? n_expected n) && handShakeDone (s_conn s) && (hs =? certificate_request)
    then Dtls13RtxRemoveCurAck s else s in
  let s :=
    if o_dtls13SendMoreAcks o && Dtls13DetectDisruption fragOffset s
    then upd_rtx (set_x_sendAcks true) s else s in
  (0, s).

(** ** ACK messages *)

Definition Dtls13GetAckListLength (l : list (Z * Z)) : Z :=
  u16 (DTLS13_RN_SIZE * Z.of_nat (length l)).

(** The message written at [ackMessage]: the length field and the list. *)
Definition ack_message (l : list (Z * Z)) : list Z :=
  c16toa (Dtls13GetAckListLength l) ++ flat_map (fun rn => c64toa (fst rn) ++ c64toa (snd rn)) l.

Definition DoDtls13KeyUpdateAck (s : ssl) : Z * ssl :=
  if negb (Dtls13RtxHasKeyUpdateBuffered s) then
    let k := s_ku s in
    let s := set_ku (KU false (ku_do k) (ku_respReq k) (ku_invalidateBefore k)
                       (ku_sendingAckOrRtx k)) s in
    let '(ret, c) := Dtls13KeyUpdateAckReceived set_key key_size update_keys (s_conn s) in
    (ret, set_conn c s)
  else (0, s).

(** The loop of [DoDtls13Ack] over the record numbers of the list. *)
Fixpoint remove_acked (n : nat) (l : list Z) (s : ssl) : ssl :=
  match n with
  | O => s
  | S n => remove_acked n (drop (Z.to_nat DTLS13_RN_SIZE) l)
             (Dtls13RtxRemoveRecord (ato64 l) (ato64 (drop 8 l)) s)
  end.

(** The result holds the code, the processed size and the connection. *)
Definition DoDtls13Ack (input : list Z) (s : ssl) : Z * Z * ssl :=
  let inputSize := Z.of_nat (length input) in
  if inputSize <? 2 then (BUFFER_ERROR, 0, s)
  else
    let len := ato16 input in
    if inputSize <? 2 + len then (BUFFER_ERROR, 0, s)
    else if negb (len mod DTLS13_RN_SIZE =? 0) then (PARSE_ERROR, 0, s)
    else
      let s := remove_acked (Z.to_nat (len / DTLS13_RN_SIZE)) (drop 2 input) s in
      let s :=
        if (side (s_conn s) =? WOLFSSL_CLIENT_END)
           && (o_connectState (s_opts s) =? WAIT_FINISHED_ACK)
           && negb (wolfSSL_dtls13_has_pending_msg s)
        then set_opts (set_o_serverState SERVER_FINISHED_ACKED (s_opts s)) s else s in
      let '(ret, s) := if ku_waitAck (s_ku s) then DoDtls13KeyUpdateAck s else (0, s) in
      if negb (ret =? 0) then (ret, 0, s)
      else
        (0, len + 2,
         if wolfSSL_dtls13_has_pending_msg s then upd_rtx (set_x_retransmit true) s else s).
End Rtx.

(** ** The acknowledgement list is a sorted set *)

Definition rn_lt (a b : Z * Z) : Prop := a.1 < b.1 \/ a.1 = b.1 /\ a.2 < b.2.

#[export] Instance rn_lt_trans : Transitive rn_lt.
Proof. intros [] [] []. unfold rn_lt. cbn. lia. Qed.

Lemma insert_ack_spec e q l : StronglySorted rn_lt l ->
  match insert_ack e q l with
  | None => (e, q) ∈ l
  | Some l' => StronglySorted rn_lt l' /\ (forall x, x ∈ l' <-> x = (e, q) \/ x ∈ l)
  end.
Proof.
  induction l as [|[e' q'] l IH]; intros S; cbn [insert_ack].
  - split; [repeat constructor|]. intros x. rewrite elem_of_cons. done.
  - apply StronglySorted_inv in S as [S F]. unfold w64Equal, w64LT.
    destruct ((e' =? e) && (q' =? q)) eqn:Eq.
    { assert (e' = e /\ q' = q) as [-> ->] by lia. left. }
    destruct ((e <? e') || (e =? e') && (q <? q')) eqn:Lt.
    + assert (rn_lt (e, q) (e', q')) as L by (unfold rn_lt; cbn; lia). split.
      * constructor; [constructor; done|]. constructor; [done|].
        eapply Forall_impl; [exact F|]. intros x Hx. etransitivity; done.
      * intros x. rewrite !elem_of_cons. tauto.
    + assert (rn_lt (e', q') (e, q)) as L by (unfold rn_lt; cbn; lia). specialize (IH S).
      destruct (insert_ack e q l) as [l'|]; [|right; done]. destruct IH as [S' M]. split.
      * constructor; [done|]. apply Forall_forall. intros x [->|Hx]%M; [done|].
        rewrite Forall_forall in F. auto.
      * intros x. rewrite !elem_of_cons, M. tauto.
Qed.

(** ** The ring of record numbers of a retransmitted message *)

Section Ring.
Context `{Crypto, Heap}.

(** A message first sent as number [q1] and retransmitted as [qs]. *)
Definition resent (qs : list Z) (r : Dtls13RtxRecord) : Dtls13RtxRecord :=
  fold_left (fun r q => track_seq q r) qs r.

(** [all] are the numbers used so far, 3 [m] + [j] + 1 of them. *)
Record ring_ok (m j : nat) (all : list Z) (r : Dtls13RtxRecord) : Prop := {
  ring_all : length all = (3 * m + j + 1)%nat;
  ring_j : (j < 3)%nat;
  ring_len : length (rd_seq r) = DTLS13_RETRANS_RN_SIZE;
  ring_idx : rd_rnIdx r = Z.of_nat j + 1;
  ring_seq : take (j + 1) (rd_seq r) = drop (3 * m) all }.

Lemma ring_step m j all q r : ring_ok m j all r ->
  exists m' j', ring_ok m' j' (all ++ [q]) (track_seq q r).
Proof.
  intros [La J Ln Ix Sq]. unfold DTLS13_RETRANS_RN_SIZE in Ln.
  assert (length (all ++ [q]) = S (length all)) as La' by (rewrite length_app; cbn; lia).
  destruct (rd_seq r) as [|a [|b [|c [|? ?]]]] eqn:Es; try done.
  destruct (decide (j = 2)%nat) as [->|N].
  - exists (S m), 0%nat. unfold track_seq. rewrite Es, Ix. split; cbn [rd_seq rd_rnIdx]; try done.
    + lia.
    + lia.
    + replace (3 * S m)%nat with (length all) by lia. rewrite drop_app_length. done.
  - exists m, (S j). unfold track_seq. rewrite Es, Ix.
    assert (j = 0 \/ j = 1)%nat as [-> | ->] by lia; split; cbn [rd_seq rd_rnIdx];
      try done; try lia; rewrite drop_app_le, <- Sq by lia; done.
Qed.

Lemma resent_ring qs m j all r : ring_ok m j all r ->
  exists m' j', ring_ok m' j' (all ++ qs) (resent qs r).
Proof.
  revert m j all r. induction qs as [|q qs IH]; intros m j all r R; cbn.
  - rewrite app_nil_r. eauto.
  - destruct (ring_step m j all q r R) as (m' & j' & R').
    destruct (IH _ _ _ _ R') as (m2 & j2 & R2). rewrite <- app_assoc in R2. eauto.
Qed.

Lemma resent_epoch qs r : rd_epoch (resent qs r) = rd_epoch r.
Proof. revert r. induction qs as [|q qs IH]; intros r; cbn; [done|]. rewrite IH. done. Qed.

(** What the ring of a message first sent as [q1] and then again as [qs] holds
    where the code looks for an acknowledged number: the last transmissions. *)
Lemma resent_tracked data len hs q1 qs s r e q :
  Dtls13RtxNewRecord data len hs q1 s = Some r ->
  Dtls13RtxIsTrackedByRn e q (resent qs r) = true
  <-> rd_epoch r = e /\ q ∈ drop (3 * (length qs / 3)) (q1 :: qs).
Proof.
  intros N. assert (ring_ok 0 0 [q1] r) as R0.
  { unfold Dtls13RtxNewRecord in N. destruct (deref _ _); [|done].
    destruct (alloc _); [|done]. destruct (alloc len); [|done]. injection N as <-.
    split; cbn; lia || done. }
  destruct (resent_ring qs 0 0 [q1] r R0) as (m & j & [La J Ln Ix Sq]).
  cbn [app length] in *. assert (length qs / 3 = m)%nat as ->
    by (symmetry; apply (Nat.div_unique _ 3 m j); lia).
  rewrite <- Sq. unfold Dtls13RtxIsTrackedByRn. rewrite Ix, resent_epoch.
  replace (Z.to_nat (Z.of_nat j + 1)) with (j + 1)%nat by lia. unfold w64Equal.
  destruct (Z.eqb_spec (rd_epoch r) e) as [E|E]; cbn [negb]; [|split; [done|tauto]].
  rewrite existsb_exists. split.
  - intros (x & Hx & Ex). apply list_elem_of_In in Hx. apply Z.eqb_eq in Ex as ->. done.
  - intros (_ & Hx). exists q. split; [apply list_elem_of_In; done|lia].
Qed.

(** Which acknowledgements a retransmitted message recognises.  A message
    first sent as number [q1] of the epoch in use and then again as [qs] is
    dropped by an acknowledgement of its epoch and of one of the last
    1 + (|qs| mod 3) numbers only: every third retransmission restarts the ring,
    and the two older transmissions it still holds are no longer recognised. *)
Theorem retransmission_ring data len hs q1 qs s r e q :
  Dtls13RtxNewRecord data len hs q1 s = Some r ->
  Dtls13RtxIsTrackedByRn e q (resent qs r) = true
  <-> rd_epoch r = e /\ q ∈ drop (3 * (length qs / 3)) (q1 :: qs).
Proof. apply resent_tracked. Qed.

(** ** What an acknowledgement is about

    A message in the retransmission buffer, with the history of its sending:
    the epoch it was sent in, the number of the record that carried it first
    and the numbers of the records that carried it again. *)
Record SentMsg := {
  sm_rec : Dtls13RtxRecord; sm_epoch : Z; sm_first : Z; sm_again : list Z }.

(** The record of the buffer is the one [Dtls13RtxNewRecord] made when the
    message was sent, updated by each retransmission. *)
Definition sent_ok (m : SentMsg) : Prop :=
  exists data len hs s e r,
    deref (s_conn s) (encryptEpoch (s_conn s)) = Some e /\ epochNumber e = sm_epoch m
    /\ Dtls13RtxNewRecord data len hs (sm_first m) s = Some r
    /\ sm_rec m = resent (sm_again m) r.

(** The record numbers that carried the message, oldest first. *)
Definition transmissions (m : SentMsg) : list (Z * Z) :=
  pair (sm_epoch m) <$> sm_first m :: sm_again m.

(** Those an acknowledgement is accepted for: all of them up to the second
    retransmission; after that the ones since the last retransmission whose
    index is a multiple of three. *)
Definition answerable (m : SentMsg) : list (Z * Z) :=
  drop (3 * (length (sm_again m) / 3)) (transmissions m).

(** A listed number is one of those. *)
Definition answered (l : list (Z * Z)) (m : SentMsg) : bool :=
  existsb (fun rn => bool_decide (rn ∈ answerable m)) l.

Lemma tracked_answerable m e q : sent_ok m ->
  Dtls13RtxIsTrackedByRn e q (sm_rec m) = bool_decide ((e, q) ∈ answerable m).
Proof.
  intros (data & len & hs & s & ep & r & De & Ee & N & Er). apply eq_true_iff_eq.
  rewrite bool_decide_eq_true, Er, (resent_tracked data len hs (sm_first m) (sm_again m) s r e q N).
  assert (rd_epoch r = sm_epoch m) as ->.
  { unfold Dtls13RtxNewRecord in N. rewrite De in N. destruct (alloc _); [|done].
    destruct (alloc len); [|done]. injection N as <-. exact Ee. }
  unfold answerable, transmissions. rewrite <- fmap_drop, list_elem_of_fmap. split.
  - intros [<- Hq]. exists q. done.
  - intros (x & [= -> ->] & Hx). done.
Qed.
End Ring.

Section Acks.
Context `{Crypto, Heap}.

(** The records of one receive run, recorded in order. *)
Fixpoint add_acks (rns : list (Z * Z)) (s : ssl) : Z * ssl :=
  match rns with
  | [] => (0, s)
  | (e, q) :: rns => let '(ret, s) := Dtls13RtxAddAck e q s in
                     if negb (ret =? 0) then (ret, s) else add_acks rns s
  end.

(** C33: the acknowledgement list is exactly the set of the records received, in
    order.  Whatever the order in which record numbers arrive and however often
    they are repeated, the list stays strictly sorted by epoch and sequence
    number, and its members are those it had and those added; the only failure
    is an exhausted heap, which leaves the numbers recorded so far. *)
Theorem ack_list_is_received_set rns s :
  StronglySorted rn_lt (seenRecords (s_rtx s)) ->
  let '(ret, s') := add_acks rns s in
  StronglySorted rn_lt (seenRecords (s_rtx s'))
  /\ (ret = 0 /\ (forall x, x ∈ seenRecords (s_rtx s') <-> x ∈ seenRecords (s_rtx s) \/ x ∈ rns)
      \/ ret = MEMORY_E /\ alloc sizeof_Dtls13RecordNumber = false).
Proof.
  revert s. induction rns as [|[e q] rns IH]; intros s S; cbn [add_acks].
  - split; [done|]. left. split; [done|]. intros x. rewrite elem_of_nil. tauto.
  - unfold Dtls13RtxAddAck. pose proof (insert_ack_spec e q _ S) as I.
    destruct (insert_ack e q _) as [l|]; cbn [negb Z.eqb].
    + destruct (alloc _) eqn:Al; cbn [negb Z.eqb MEMORY_E].
      * destruct I as [S' M]. specialize (IH (upd_rtx (set_seenRecords l) s) S').
        destruct (add_acks rns _) as [ret s']. destruct IH as [S'' [[-> M']|Er]];
          (split; [done|]); [left|right; done].
        split; [done|]. intros x. rewrite M'. cbn [upd_rtx s_rtx set_rtx seenRecords set_seenRecords].
        rewrite M, elem_of_cons. tauto.
      * split; [done|]. right. done.
    + specialize (IH s S). destruct (add_acks rns s) as [ret s'].
      destruct IH as [S'' [[-> M']|Er]]; (split; [done|]); [left|right; done].
      split; [done|]. intros x. rewrite M', elem_of_cons. split; [tauto|].
      intros [?|[->|?]]; auto.
Qed.

(** ** Acknowledging *)

Lemma remove_first_filter {A} (p : A -> bool) l : (length (List.filter p l) <= 1)%nat ->
  snd (remove_first p l) = List.filter (fun x => negb (p x)) l.
Proof.
  induction l as [|x l IH]; cbn; [done|]. destruct (p x) eqn:E; cbn; intros L.
  - assert (List.filter p l = []) as N by (destruct (List.filter p l); cbn in *; [done|lia]).
    clear IH L. induction l as [|y l IH]; cbn in *; [done|].
    destruct (p y); [done|]. cbn. rewrite <- IH by done. done.
  - destruct (remove_first p l) as [f r]. cbn in *. rewrite IH by done. done.
Qed.

Lemma filter_length_mono {A} (p q : A -> bool) l :
  (length (List.filter p (List.filter q l)) <= length (List.filter p l))%nat.
Proof.
  induction l as [|x l IH]; cbn; [lia|]. destruct (q x), (p x) eqn:E; cbn; rewrite ?E; cbn; lia.
Qed.

Lemma filter_all {A} (l : list A) : List.filter (fun _ => true) l = l.
Proof. induction l as [|x l IH]; cbn; [|rewrite IH]; done. Qed.

Lemma filter_filter {A} (p q : A -> bool) l :
  List.filter p (List.filter q l) = List.filter (fun x => q x && p x) l.
Proof.
  induction l as [|x l IH]; cbn; [done|]. destruct (q x), (p x) eqn:E; cbn; rewrite ?E, IH; done.
Qed.

Definition ack_entries (l : list (Z * Z)) : list Z :=
  flat_map (fun rn => c64toa rn.1 ++ c64toa rn.2) l.

(** The messages left after all the numbers of [l] are acknowledged. *)
Definition unanswered (l : list (Z * Z)) (ms : list SentMsg) : list SentMsg :=
  List.filter (fun m => negb (answered l m)) ms.

Lemma remove_first_fmap {A B} (f : A -> B) (p : B -> bool) (q : A -> bool) l :
  Forall (fun x => p (f x) = q x) l ->
  snd (remove_first p (f <$> l)) = f <$> snd (remove_first q l).
Proof.
  induction 1 as [|x l E F IH]; [done|]. rewrite fmap_cons. cbn [remove_first]. rewrite E.
  destruct (q x); [done|]. destruct (remove_first p (f <$> l)), (remove_first q l).
  cbn [snd] in *. rewrite IH. done.
Qed.

Lemma answerable_sent m x : x ∈ answerable m -> x ∈ transmissions m.
Proof. intros I. apply (subseteq_drop (3 * (length (sm_again m) / 3))). exact I. Qed.

Lemma transmissions_cons m ms :
  concat (transmissions <$> m :: ms) = transmissions m ++ concat (transmissions <$> ms).
Proof. reflexivity. Qed.

(** No number carried two messages: at most one message is acknowledged by a
    number. *)
Lemma one_answerable rn ms : NoDup (concat (transmissions <$> ms)) ->
  (length (List.filter (fun m => bool_decide (rn ∈ answerable m)) ms) <= 1)%nat.
Proof.
  induction ms as [|m ms IH]; [cbn; lia|]. rewrite transmissions_cons.
  intros (_ & D & N)%NoDup_app. specialize (IH N). cbn [List.filter].
  destruct (bool_decide_reflect (rn ∈ answerable m)) as [I|I]; [|done].
  assert (List.filter (fun m => bool_decide (rn ∈ answerable m)) ms = []) as ->; [|cbn; lia].
  clear IH N. induction ms as [|m' ms IH]; [done|]. rewrite transmissions_cons in D.
  cbn [List.filter].
  rewrite bool_decide_false.
  - apply IH. intros x Hx Hx'. apply (D x Hx). apply elem_of_app. by right.
  - intros I'. apply (D rn (answerable_sent _ _ I)). apply elem_of_app. left.
    apply answerable_sent. done.
Qed.

Lemma transmissions_filter p ms x :
  x ∈ concat (transmissions <$> List.filter p ms) -> x ∈ concat (transmissions <$> ms).
Proof.
  induction ms as [|m ms IH]; [done|]. cbn [List.filter].
  destruct (p m); rewrite !transmissions_cons, ?elem_of_app; intuition.
Qed.

Lemma NoDup_transmissions_filter p ms : NoDup (concat (transmissions <$> ms)) ->
  NoDup (concat (transmissions <$> List.filter p ms)).
Proof.
  induction ms as [|m ms IH]; [done|]. rewrite transmissions_cons. intros (Nm & D & N)%NoDup_app.
  cbn [List.filter]. destruct (p m); [|auto]. rewrite transmissions_cons. apply NoDup_app. split_and!; [done| |auto].
  intros x Hx Hx'. apply (D x Hx), (transmissions_filter p), Hx'.
Qed.

Lemma Forall_list_filter {A} (P : A -> Prop) p l : Forall P l -> Forall P (List.filter p l).
Proof. induction 1 as [|x l Px F IH]; cbn; [constructor|]. destruct (p x); auto. Qed.

(** One number of the list. *)
Lemma remove_record_spec e q s ms :
  Forall sent_ok ms -> NoDup (concat (transmissions <$> ms)) ->
  rtxRecords (s_rtx s) = sm_rec <$> ms ->
  Dtls13RtxRemoveRecord e q s
  = upd_rtx (set_rtxRecords (sm_rec <$> unanswered [(e, q)] ms)) s.
Proof.
  intros S N E. unfold Dtls13RtxRemoveRecord, upd_rtx. f_equal. rewrite E. f_equal.
  rewrite (remove_first_fmap sm_rec _ (fun m => bool_decide ((e, q) ∈ answerable m))).
  - rewrite remove_first_filter by (apply one_answerable; done). f_equal.
    apply List.filter_ext. intros m. unfold answered. cbn. rewrite orb_false_r. done.
  - eapply Forall_impl; [exact S|]. intros m Sm. apply tracked_answerable. done.
Qed.

Lemma remove_acked_spec l post s ms :
  Forall (fun rn => is_u64 rn.1 /\ is_u64 rn.2) l ->
  Forall sent_ok ms -> NoDup (concat (transmissions <$> ms)) ->
  rtxRecords (s_rtx s) = sm_rec <$> ms ->
  remove_acked (length l) (ack_entries l ++ post) s
  = upd_rtx (set_rtxRecords (sm_rec <$> unanswered l ms)) s.
Proof.
  revert s ms. induction l as [|[e q] l IH]; intros s ms F S N E; cbn [length remove_acked].
  - unfold upd_rtx, unanswered. cbn [answered existsb negb]. rewrite filter_all, <- E.
    destruct s as [? ? []]; done.
  - apply Forall_cons in F as [[Ue Uq] F]. cbn [fst snd] in *.
    unfold ack_entries. cbn [flat_map fst snd]. rewrite <- !app_assoc.
    fold (ack_entries l). set (R := ack_entries l ++ post).
    assert (drop 8 (c64toa e ++ c64toa q ++ R) = c64toa q ++ R) as ->
      by (apply drop_app_length'; rewrite length_c64toa; done).
    assert (drop (Z.to_nat DTLS13_RN_SIZE) (c64toa e ++ c64toa q ++ R) = R) as ->
      by (rewrite app_assoc; apply drop_app_length'; rewrite length_app, !length_c64toa; done).
    rewrite !ato64_c64toa by done. unfold R.
    rewrite (remove_record_spec e q s ms S N E), (IH _ (unanswered [(e, q)] ms)); [|done| | |done].
    + assert (unanswered l (unanswered [(e, q)] ms) = unanswered ((e, q) :: l) ms) as ->; [|done].
      unfold unanswered. rewrite filter_filter. apply List.filter_ext. intros m.
      unfold answered. cbn. rewrite orb_false_r, negb_orb. done.
    + apply Forall_list_filter. done.
    + apply NoDup_transmissions_filter. done.
Qed.

Lemma length_ack_entries l : length (ack_entries l) = (16 * length l)%nat.
Proof.
  induction l as [|x l IH]; [done|]. unfold ack_entries in *. cbn [flat_map length].
  rewrite !length_app, !length_c64toa, IH. lia.
Qed.

(** Whether the handshake of a client that waits for the acknowledgement of its
    last flight is complete. *)
Definition flight_acked (s s' : ssl) : bool :=
  (side (s_conn s) =? WOLFSSL_CLIENT_END) && (o_connectState (s_opts s) =? WAIT_FINISHED_ACK)
  && negb (wolfSSL_dtls13_has_pending_msg s').

(** Whether an acknowledgement that leaves the records [rs] completes the key
    update the connection waits for. *)
Definition update_acked (s : ssl) (rs : list Dtls13RtxRecord) : bool :=
  ku_waitAck (s_ku s) && negb (existsb (fun r => rd_type r =? key_update) rs).

(** The code such a completed key update returns. *)
Definition update_code (s : ssl) : Z :=
  fst (Dtls13KeyUpdateAckReceived set_key key_size update_keys (s_conn s)).

(** [DoDtls13Ack] after the numbers are removed. *)
Lemma key_update_ack_result s :
  let '(ret, s') := if ku_waitAck (s_ku s) then DoDtls13KeyUpdateAck s else (0, s) in
  ret = (if update_acked s (rtxRecords (s_rtx s)) then update_code s else 0)
  /\ s_rtx s' = s_rtx s /\ s_opts s' = s_opts s.
Proof.
  unfold DoDtls13KeyUpdateAck, Dtls13RtxHasKeyUpdateBuffered, update_acked, update_code.
  destruct (ku_waitAck (s_ku s)); cbn [andb]; [|done].
  destruct (existsb _ _); cbn [negb]; [done|]. cbn [s_conn set_ku].
  destruct (Dtls13KeyUpdateAckReceived _ _ _ _) as [ret c]. done.
Qed.


(** An ACK list of 4096 numbers acknowledges nothing.  The length field is
    the 16-bit truncation of 16 times the number of entries, so 4096 recorded
    numbers are announced as an empty list: the peer accepts the message and
    keeps every record in its buffer. *)
Theorem ack_length_truncated l s :
  length l = 4096%nat -> ku_waitAck (s_ku s) = false ->
  let '(ret, processed, s') := DoDtls13Ack (ack_message l) s in
  ret = 0 /\ processed = 2 /\ rtxRecords (s_rtx s') = rtxRecords (s_rtx s).
Proof.
  intros L K. unfold DoDtls13Ack, ack_message, Dtls13GetAckListLength. rewrite L.
  change (u16 (DTLS13_RN_SIZE * Z.of_nat 4096)) with 0.
  rewrite ato16_c16toa by (unfold in_word; lia). rewrite length_app, length_c16toa.
  destruct (Z.ltb_spec (Z.of_nat (2 + length (flat_map (fun rn => c64toa rn.1 ++ c64toa rn.2) l))) 2);
    [lia|].
  destruct (Z.ltb_spec (Z.of_nat (2 + length (flat_map (fun rn => c64toa rn.1 ++ c64toa rn.2) l)))
              (2 + 0)); [lia|].
  change (Z.to_nat (0 / DTLS13_RN_SIZE)) with 0%nat. change (0 mod DTLS13_RN_SIZE) with 0. cbn [negb Z.eqb remove_acked].
  destruct (_ && _); cbn [s_ku set_opts]; rewrite K; cbn [negb Z.eqb];
    destruct (wolfSSL_dtls13_has_pending_msg _); done.
Qed.
End Acks.

(** ** Examples *)

Definition demo_record_of (q t : Z) : Dtls13RtxRecord := RtxRec [1; 2; 3] 2 [q; 0; 0] 1 t.

(** Three messages of a client's last flight in the buffer. *)
Definition demo_rtx_ssl : ssl :=
  set_opts (Opts true 3 WAIT_FINISHED_ACK 0 0 true false 0 false true true false true 1400
              wolfssl_aes_gcm)
    (upd_rtx (set_rtxRecords [demo_record_of 7 certificate; demo_record_of 8 certificate_verify;
                              demo_record_of 9 finished])
       (Ssl (InitSSL_epochs WOLFSSL_CLIENT_END)
          (Opts true 3 0 0 0 false false 0 false true true false false 1400 wolfssl_aes_gcm)
          (Rtx13 [] [] false false) (Nums 0 0 0) (Timers false 1 64 1) (KU false false false 0 false)
          (OutBuf [] 0 5 false false) (Frag [] false 0 0 0) ([], 0) ([], 0) [] [] [] [])).

Lemma ack_list_is_received_set_witness :
  let '(ret, s') := add_acks [(2, 8); (2, 7); (2, 8); (0, 1)] demo_rtx_ssl in
  ret = 0 /\ seenRecords (s_rtx s') = [(0, 1); (2, 7); (2, 8)]
  /\ StronglySorted rn_lt (seenRecords (s_rtx s')).
Proof.
  pose proof (ack_list_is_received_set [(2, 8); (2, 7); (2, 8); (0, 1)] demo_rtx_ssl) as X.
  destruct (add_acks _ _) as [ret s'] eqn:E. destruct X as (S & _); [constructor|].
  vm_compute in E. injection E as <- <-. split; [reflexivity|]. split; [reflexivity|exact S].
Defined.

(** A message sent in epoch 2 as [q] and sent again as [again]. *)
Definition demo_sent (q : Z) (again : list Z) (t : Z) : SentMsg :=
  {| sm_rec := resent again (RtxRec [1; 2; 3] 2 (q :: replicate 2 heap_byte) 1 t);
     sm_epoch := 2; sm_first := q; sm_again := again |}.

Lemma demo_sent_ok q again t : u8 t = t -> sent_ok (demo_sent q again t).
Proof.
  intros Ht. set (e := e_init 2 ENCRYPT_AND_DECRYPT_SIDE epoch_zero).
  exists [1; 2; 3], 3, t, (set_conn (set_epochs [e] (InitSSL_epochs WOLFSSL_CLIENT_END)) demo_rtx_ssl).
  exists e, (RtxRec [1; 2; 3] 2 (q :: replicate 2 heap_byte) 1 t).
  split_and!; [reflexivity|reflexivity| |reflexivity].
  unfold Dtls13RtxNewRecord. rewrite Ht. reflexivity.
Qed.

(** The certificate was sent four times: its first number is forgotten. *)
Definition demo_flight : list SentMsg :=
  [demo_sent 7 [10; 13; 16] certificate; demo_sent 8 [11; 14] certificate_verify;
   demo_sent 9 [12; 15] finished].


Lemma ack_length_truncated_witness :
  rtxRecords (s_rtx (snd (DoDtls13Ack (ack_message (replicate 4096 (2, 7))) demo_rtx_ssl)))
  = rtxRecords (s_rtx demo_rtx_ssl).
Proof.
  pose proof (ack_length_truncated (replicate 4096 (2, 7)) demo_rtx_ssl) as X.
  destruct (DoDtls13Ack _ _) as [[ret processed] s'].
  destruct X as (_ & _ & E); [apply length_replicate|reflexivity|exact E].
Defined.

Lemma retransmission_ring_witness :
  match Dtls13RtxNewRecord [1; 2; 3] 3 finished 10 demo_rtx_ssl with
  | None => False
  | Some r => Dtls13RtxIsTrackedByRn 0 12 (resent [11; 12] r) = true
              /\ Dtls13RtxIsTrackedByRn 0 12 (resent [11; 12; 13] r) = false
  end.
Proof.
  destruct (Dtls13RtxNewRecord [1; 2; 3] 3 finished 10 demo_rtx_ssl) as [r|] eqn:E; [|discriminate].
  pose proof (retransmission_ring [1; 2; 3] 3 finished 10 [11; 12] demo_rtx_ssl r 0 12 E) as [_ A].
  pose proof (retransmission_ring [1; 2; 3] 3 finished 10 [11; 12; 13] demo_rtx_ssl r 0 12 E) as [B _].
  split.
  - apply A. split; [injection E as <-; reflexivity|right; right; left].
  - destruct (Dtls13RtxIsTrackedByRn 0 12 (resent [11; 12; 13] r)); [|reflexivity].
    destruct (B eq_refl) as [_ In]. apply elem_of_cons in In as [In|In]; [discriminate|].
    apply elem_of_nil in In. done.
Defined.
