(* ===== verification/DtlsSend.v ===== *)
(** * Sending handshake messages, acknowledgements and retransmissions
      (src/boot/src/dtls13.c)

    A handshake message goes out as one record or, when it does not fit the
    MTU, as a sequence of fragments that may be suspended by a blocked transport
    and continued later; every record is remembered for retransmission until it
    is acknowledged. *)

From S2P Require Import Prelude Misc RtxList DtlsDefs DtlsEpoch DtlsRecord DtlsPlain DtlsMsg.
From S2P Require Import DtlsState DtlsOut DtlsProtect DtlsRtx.

(** ** Transcript *)

Section Send.
Context `{Crypto, Heap}.

Definition HashRaw (data : list Z) (s : ssl) : Z * ssl :=
  let ret := hash_update (s_transcript s) data in
  if negb (ret =? 0) then (ret, s) else (0, set_transcript (s_transcript s ++ data) s).

(** Message type and length, then the body; the DTLS fields are skipped. *)
Definition Dtls13HashHandshake (input : list Z) (length : Z) (s : ssl) : Z * ssl :=
  if length <? DTLS_HANDSHAKE_HEADER_SZ then (BAD_FUNC_ARG, s)
  else
    let '(ret, s) := HashRaw (take 4 input) s in
    if negb (ret =? 0) then (ret, s)
    else HashRaw (slice 12 (Z.to_nat (length - 12)) input) s.

(** ** One record *)

(** [in_buffer]: FragIsInOutputBuffer(ssl, output). *)
Definition Dtls13SendFragFromBuffer (in_buffer : bool) (output : list Z) (length : Z) (s : ssl)
    : Z * ssl :=
  if in_buffer then (BAD_FUNC_ARG, s)
  else
    let '(ret, s) := CheckAvailableSize length s in
    if negb (ret =? 0) then (ret, s)
    else SendBuffered (commit (take (Z.to_nat length) output) s).

Definition Dtls13SendNow (handshakeType : Z) (s : ssl) : bool :=
  if negb (o_groupMessages (s_opts s)) || f_sending (s_frag s) then true
  else
    existsb (Z.eqb handshakeType)
      [client_hello; hello_retry_request; finished; session_ticket; session_ticket; key_update]
    || (handshakeType =? certificate_request) && (o_handShakeState (s_opts s) =? HANDSHAKE_DONE).

(** The part that builds the record: the code, the record and the state.
    [output] are the bytes at the place of the record, the message behind the
    space for its header. *)
Definition build_record (output : list Z) (output_size length : Z) (handshakeType : Z)
    (hashOutput : bool) (s : ssl) : Z * list Z * ssl :=
  let isProtected := Dtls13TypeIsEncrypted handshakeType in
  let recordHeaderLength := Dtls13GetRlHeaderLength isProtected in
  let recordLength := length - recordHeaderLength in
  if negb isProtected then
    let '(ret, out, c) := Dtls13RlAddPlaintextHeader handshake recordLength output (s_conn s) in
    (ret, take (Z.to_nat length) out, set_conn c s)
  else
    let msg := slice (Z.to_nat recordHeaderLength) (Z.to_nat recordLength) output in
    let '(ret, s) := if hashOutput then Dtls13HashHandshake msg recordLength s else (0, s) in
    if negb (ret =? 0) then (ret, [], s)
    else
      let '(sendLength, rec, c) := BuildTls13Message output output_size msg handshake (s_conn s) in
      let s := set_conn c s in
      if sendLength <? 0 then (sendLength, [], s)
      else (0, take (Z.to_nat (u16 sendLength)) rec, s).

Definition Dtls13SendFragment (in_buffer : bool) (output : list Z) (output_size length : Z)
    (handshakeType : Z) (hashOutput sendImmediately : bool) (s : ssl) : Z * ssl :=
  if output_size <? length then (BUFFER_ERROR, s)
  else if length <=? Dtls13GetRlHeaderLength (Dtls13TypeIsEncrypted handshakeType)
  then (BUFFER_ERROR, s)
  else
    let '(ret, rec, s) := build_record output output_size length handshakeType hashOutput s in
    if negb (ret =? 0) then (ret, s)
    else if negb in_buffer
    then Dtls13SendFragFromBuffer in_buffer rec (Z.of_nat (Datatypes.length rec)) s
    else
      let s := commit rec s in
      if sendImmediately then SendBuffered s else (0, s).

Definition Dtls13SendOneFragmentRtx (in_buffer : bool) (handshakeType outputSize : Z)
    (message : list Z) (length : Z) (hashOutput : bool) (s : ssl) : Z * ssl :=
  let recordHeaderLength := Dtls13GetRlHeaderLength (Dtls13TypeIsEncrypted handshakeType) in
  let '(track, rtxRecord) :=
    if negb (handshakeType =? hello_retry_request) then
      let seq := match deref (s_conn s) (encryptEpoch (s_conn s)) with
                 | Some e => nextSeqNumber e
                 | None => 0
                 end in
      (true, Dtls13RtxNewRecord (drop (Z.to_nat recordHeaderLength) message)
               (u16 (length - recordHeaderLength)) handshakeType seq s)
    else (false, None) in
  match track, rtxRecord with
  | true, None => (MEMORY_E, s)
  | _, _ =>
      let '(ret, s) := Dtls13SendFragment in_buffer message outputSize (u16 length) handshakeType
                         hashOutput (Dtls13SendNow handshakeType s) s in
      match rtxRecord with
      | Some r => if (ret =? 0) || (ret =? WANT_WRITE) then (ret, add_record r s) else (ret, s)
      | None => (ret, s)
      end
  end.

(** ** Fragmentation *)

Definition IsEncryptionOn_send (s : ssl) : bool :=
  o_encryptionOn (s_opts s) && bool_decide (c_key (enc_ctx (s_conn s)) <> None).

(** The AEAD case: the output is never padded further. *)
Definition ModifyForMTU (buffSz outputSz mtuSz : Z) : Z :=
  let recordExtra := outputSz - buffSz in
  if (0 <? recordExtra) && (mtuSz <? outputSz) then mtuSz - recordExtra else buffSz.

Definition wolfSSL_GetMaxFragSize (maxFragment : Z) (s : ssl) : Z :=
  let maxFragment := if MAX_RECORD_SIZE <? maxFragment then MAX_RECORD_SIZE else maxFragment in
  let outputSz := if IsEncryptionOn_send s
                  then fst (BuildTls13Message_size (maxFragment + DTLS_HANDSHAKE_HEADER_SZ))
                  else maxFragment + DTLS_RECORD_HEADER_SZ + DTLS_HANDSHAKE_HEADER_SZ in
  ModifyForMTU maxFragment outputSz (o_mtu (s_opts s)).

Definition Dtls13FreeFragmentsBuffer (s : ssl) : ssl :=
  set_frag (Frag [] false 0 0 (f_type (s_frag s))) s.

(** The fragment written at [GetOutputBuffer]: header space, handshake header,
    and the bytes of the message from [f_offset] on. *)
Definition fragment_at (rlHeaderLength fragLength recordLength : Z) (s : ssl) : list Z :=
  let f := s_frag s in
  let fresh := replicate (Z.to_nat (recordLength + MAX_MSG_EXTRA)) heap_byte in
  take (Z.to_nat rlHeaderLength) fresh
  ++ blit 12 (slice (Z.to_nat (f_offset f)) (Z.to_nat fragLength) (f_buffer f))
       (Dtls13HandshakeAddHeaderFrag (n_next (s_nums s)) (f_type f) (f_offset f) fragLength
          (f_length f) (drop (Z.to_nat rlHeaderLength) fresh)).

Definition advance_offset (n : Z) (s : ssl) : ssl :=
  let f := s_frag s in
  set_frag (Frag (f_buffer f) (f_sending f) (f_length f) (f_offset f + n) (f_type f)) s.

(** The loop of [Dtls13SendFragmentedInternal].  [None]: out of fuel, or a
    negative size reaches [XMEMCPY]. *)
Fixpoint SendFragments (fuel : nat) (rlHeaderLength maxFragment remainingSize : Z) (s : ssl)
    : option (Z * ssl) :=
  if remainingSize <=? 0 then Some (0, Dtls13FreeFragmentsBuffer s)
  else
    match fuel with
    | O => None
    | S fuel =>
        let room := maxFragment - rlHeaderLength - DTLS_HANDSHAKE_HEADER_SZ in
        let fragLength := if remainingSize <? room then remainingSize else room in
        let recordLength := if remainingSize <? room
                            then fragLength + rlHeaderLength + DTLS_HANDSHAKE_HEADER_SZ
                            else maxFragment in
        if fragLength <? 0 then None
        else
          let '(ret, s) := CheckAvailableSize (recordLength + MAX_MSG_EXTRA) s in
          if negb (ret =? 0) then Some (ret, Dtls13FreeFragmentsBuffer s)
          else
            let '(ret, s) :=
              Dtls13SendOneFragmentRtx true (f_type (s_frag s))
                (u16 (u16 recordLength + MAX_MSG_EXTRA))
                (fragment_at rlHeaderLength fragLength recordLength s) recordLength false s in
            if ret =? WANT_WRITE then Some (ret, advance_offset fragLength s)
            else if negb (ret =? 0) then Some (ret, Dtls13FreeFragmentsBuffer s)
            else SendFragments fuel rlHeaderLength maxFragment (remainingSize - fragLength)
                   (advance_offset fragLength s)
    end.

Definition Dtls13SendFragmentedInternal (fuel : nat) (s : ssl) : option (Z * ssl) :=
  let f := s_frag s in
  SendFragments fuel (Dtls13GetRlHeaderLength (Dtls13TypeIsEncrypted (f_type f)))
    (wolfSSL_GetMaxFragSize MAX_RECORD_SIZE s) (f_length f - f_offset f) s.

Definition Dtls13SendFragmented (fuel : nat) (message : list Z) (length handshake_type : Z)
    (hash_output : bool) (s : ssl) : option (Z * ssl) :=
  if f_sending (s_frag s) then Some (BAD_STATE_E, s)
  else
    let rlHeaderLength := Dtls13GetRlHeaderLength (Dtls13TypeIsEncrypted handshake_type) in
    if length <? rlHeaderLength then Some (INCOMPLETE_DATA, s)
    else
      let '(ret, s) :=
        if hash_output
        then Dtls13HashHandshake (drop (Z.to_nat rlHeaderLength) message)
               (u16 (length - rlHeaderLength)) s
        else (0, s) in
      if negb (ret =? 0) then Some (ret, s)
      else
        let messageSize := length - rlHeaderLength - DTLS_HANDSHAKE_HEADER_SZ in
        if negb (alloc messageSize) then Some (MEMORY_E, s)
        else
          let buffer := slice (Z.to_nat (rlHeaderLength + DTLS_HANDSHAKE_HEADER_SZ))
                          (Z.to_nat messageSize) message in
          Dtls13SendFragmentedInternal fuel
            (set_frag (Frag buffer true messageSize (f_offset (s_frag s)) handshake_type) s).

Definition next_handshake_number (s : ssl) : ssl :=
  let n := s_nums s in set_nums (Nums (u16 (n_next n + 1)) (n_expected n) (n_peer n)) s.

Definition Dtls13FragmentsContinue (fuel : nat) (s : ssl) : option (Z * ssl) :=
  match Dtls13SendFragmentedInternal fuel s with
  | Some (ret, s) => Some (ret, if ret =? 0 then next_handshake_number s else s)
  | None => None
  end.

(** The handshake header of a whole message behind the space of the record
    header. *)
Definition Dtls13AddHeaders (output : list Z) (length hsType : Z) (s : ssl) : list Z :=
  let handshakeOffset := Z.to_nat (Dtls13GetRlHeaderLength (Dtls13TypeIsEncrypted hsType)) in
  take handshakeOffset output
  ++ Dtls13HandshakeAddHeader (n_next (s_nums s)) hsType length (drop handshakeOffset output).

Definition Dtls13HandshakeSend (fuel : nat) (in_buffer : bool) (message : list Z)
    (outputSize length handshakeType : Z) (hashOutput : bool) (s : ssl) : option (Z * ssl) :=
  match deref (s_conn s) (encryptEpoch (s_conn s)) with
  | None => Some (BAD_STATE_E, s)
  | Some e =>
      let s := if negb (handShakeDone (s_conn s))
                  && existsb (Z.eqb handshakeType) [certificate; finished; server_hello; client_hello]
               then Dtls13RtxFlushAcks s else s in
      let '(ret, s) :=
        if negb (w64Equal (epochNumber e) (dtls13Epoch (s_conn s))) then
          let '(ret, c) := Dtls13SetEpochKeys set_key key_size (dtls13Epoch (s_conn s))
                             ENCRYPT_SIDE_ONLY (s_conn s) in
          (ret, set_conn c s)
        else (0, s) in
      if negb (ret =? 0) then Some (ret, s)
      else
        let maxFrag := wolfSSL_GetMaxFragSize MAX_RECORD_SIZE s in
        let k := s_ku s in
        let s := if handshakeType =? key_update
                 then set_ku (KU true (ku_do k) (ku_respReq k) (ku_invalidateBefore k)
                                (ku_sendingAckOrRtx k)) s
                 else s in
        if length <? maxFrag then
          let '(ret, s) := Dtls13SendOneFragmentRtx in_buffer handshakeType outputSize message
                             length hashOutput s in
          Some (ret, if (ret =? 0) || (ret =? WANT_WRITE) then next_handshake_number s else s)
        else
          match Dtls13SendFragmented fuel message length handshakeType hashOutput s with
          | Some (ret, s) => Some (ret, if ret =? 0 then next_handshake_number s else s)
          | None => None
          end
  end.
(** ** Acknowledgements *)

(** The result holds the code, the message written behind the header space and
    the announced length. *)
Definition Dtls13WriteAckMessage (l : list (Z * Z)) (s : ssl) : Z * list Z * Z * ssl :=
  match deref (s_conn s) (encryptEpoch (s_conn s)) with
  | None => (BAD_STATE_E, [], 0, s)
  | Some e =>
      let plain := w64IsZero (epochNumber e) in
      let headerLength := if plain then DTLS_RECORD_HEADER_SZ else Dtls13GetRlHeaderLength true in
      let msgSz := Dtls13GetAckListLength l in
      let sendSz := (if plain then 0 else MAX_MSG_EXTRA) + headerLength + 2 + msgSz in
      let '(ret, s) := CheckAvailableSize sendSz s in
      if negb (ret =? 0) then (ret, [], 0, s) else (0, ack_message l, msgSz + 2, s)
  end.

(** The epoch an ACK is sent in. *)
Definition select_ack_epoch (s : ssl) : Z * ssl :=
  let c := s_conn s in
  let set n := let '(ret, c) := Dtls13SetEpochKeys set_key key_size n ENCRYPT_SIDE_ONLY c in
               (ret, set_conn c s) in
  if (side c =? WOLFSSL_SERVER_END) && negb (handShakeDone c)
     && w64GTE (dtls13Epoch c) (w64From32 0 DTLS13_EPOCH_TRAFFIC0)
  then set (w64From32 0 DTLS13_EPOCH_HANDSHAKE)
  else
    match deref c (encryptEpoch c) with
    | Some e => if negb (w64Equal (dtls13Epoch c) (epochNumber e)) then set (dtls13Epoch c) else (0, s)
    | None => (0, s)
    end.

Definition SendDtls13Ack (s : ssl) : Z * ssl :=
  match encryptEpoch (s_conn s) with
  | None => (BAD_STATE_E, s)
  | Some _ =>
      let '(ret, s) := select_ack_epoch s in
      if negb (ret =? 0) then (ret, s)
      else
        let '(ret, msg, len, s) := Dtls13WriteAckMessage (seenRecords (s_rtx s)) s in
        if negb (ret =? 0) then (ret, s)
        else
          let plain := match deref (s_conn s) (encryptEpoch (s_conn s)) with
                       | Some e => w64IsZero (epochNumber e)
                       | None => false
                       end in
          let b := s_out s in
          let '(ret, rec, s) :=
            if plain then
              let '(ret, out, c) := Dtls13RlAddPlaintextHeader ack (u16 len)
                (replicate (Z.to_nat DTLS_RECORD_HEADER_SZ) heap_byte ++ msg) (s_conn s) in
              (ret, take (Z.to_nat (len + DTLS_RECORD_HEADER_SZ)) out, set_conn c s)
            else
              let output := replicate (Z.to_nat (Dtls13GetRlHeaderLength true)) heap_byte ++ msg in
              let '(ret, rec, c) := BuildTls13Message output (u32 (ob_size b - ob_idx b - ob_length b))
                (take (Z.to_nat len) msg) ack (s_conn s) in
              (if ret <? 0 then ret else 0, rec, set_conn c s) in
          if negb (ret =? 0) then (ret, s)
          else SendBuffered (Dtls13RtxFlushAcks (commit rec s))
  end.

(** ** Retransmission *)

(** One record of [Dtls13RtxSendBuffered]: the code and, unless the walk is left
    before that, the record with its new number. *)
Definition resend_record (isLast : bool) (r : Dtls13RtxRecord) (s : ssl)
    : Z * option Dtls13RtxRecord * ssl :=
  let protected := negb (w64IsZero (rd_epoch r)) in
  let headerLength := Dtls13GetRlHeaderLength protected in
  let sendSz := rd_length r + headerLength + (if protected then MAX_MSG_EXTRA else 0) in
  let '(ret, s) := CheckAvailableSize sendSz s in
  if negb (ret =? 0) then (ret, None, s)
  else
    let output := replicate (Z.to_nat headerLength) heap_byte ++ rd_data r
                  ++ replicate (Z.to_nat (sendSz - headerLength - rd_length r)) heap_byte in
    let current := match deref (s_conn s) (encryptEpoch (s_conn s)) with
                   | Some e => w64Equal (epochNumber e) (rd_epoch r)
                   | None => false
                   end in
    let '(ret, s) :=
      if negb current then
        let '(ret, c) := Dtls13SetEpochKeys set_key key_size (rd_epoch r) ENCRYPT_SIDE_ONLY
                           (s_conn s) in (ret, set_conn c s)
      else (0, s) in
    if negb (ret =? 0) then (ret, None, s)
    else
      let seq := match deref (s_conn s) (encryptEpoch (s_conn s)) with
                 | Some e => nextSeqNumber e
                 | None => 0
                 end in
      let '(ret, s) := Dtls13SendFragment true output (u16 sendSz) (u16 (rd_length r + headerLength))
                         (rd_type r) false (isLast || negb (o_groupMessages (s_opts s))) s in
      if negb (ret =? 0) && negb (ret =? WANT_WRITE) then (ret, None, s)
      else (ret, Some (track_seq seq r), s).

(** The walk; the records before the current one are [pre].  A record that
    blocked moves to the end of the list. *)
Fixpoint RtxSendBuffered_loop (pre l : list Dtls13RtxRecord) (s : ssl) : Z * ssl :=
  match l with
  | [] => (0, s)
  | r :: rest =>
      let isLast := match rest with [] => true | _ => false end in
      let '(ret, r', s) := resend_record isLast r s in
      match r' with
      | None => (ret, s)
      | Some r' =>
          if ret =? WANT_WRITE then (ret, upd_rtx (set_rtxRecords (pre ++ rest ++ [r'])) s)
          else RtxSendBuffered_loop (pre ++ [r']) rest
                 (upd_rtx (set_rtxRecords (pre ++ r' :: rest)) s)
      end
  end.

Definition Dtls13RtxSendBuffered (s : ssl) : Z * ssl :=
  RtxSendBuffered_loop [] (rtxRecords (s_rtx s)) s.

(** ** Timers and scheduled work *)

Definition set_fast (b : bool) (s : ssl) : ssl :=
  let t := s_timers s in set_timers (Timers b (t_timeout t) (t_max t) (t_init t)) s.

Definition Dtls13RtxTimeout (s : ssl) : Z * ssl :=
  let o := s_opts s in
  let '(ret, s) :=
    match seenRecords (s_rtx s) with
    | [] => (0, s)
    | _ => if (SERVER_HELLO_COMPLETE <=? o_serverState o) || o_seenUnifiedHdr o
           then SendDtls13Ack (set_fast false (upd_rtx (set_x_sendAcks false) s))
           else (0, s)
    end in
  if negb (ret =? 0) then (ret, s)
  else if t_fast (s_timers s) then (0, set_fast false s)
  else
    let t := s_timers s in
    let '(ret, timeout) := DtlsMsgPoolTimeout (t_timeout t) (t_max t) in
    let s := set_timers (Timers (t_fast t) timeout (t_max t) (t_init t)) s in
    if negb (ret =? 0) then (WOLFSSL_FATAL_ERROR, s) else Dtls13RtxSendBuffered s.

(** [Tls13UpdateKeys] (tls13.c) sends a KeyUpdate message. *)
Definition Dtls13DoScheduledWork (Tls13UpdateKeys : ssl -> Z * ssl) (s : ssl) : Z * ssl :=
  let set_sending b s := let k := s_ku s in
    set_ku (KU (ku_waitAck k) (ku_do k) (ku_respReq k) (ku_invalidateBefore k) b) s in
  let s := set_sending true s in
  let sendAcks := x_sendAcks (s_rtx s) in
  let s := if sendAcks then upd_rtx (set_x_sendAcks false) s else s in
  let '(ret, s) := if sendAcks then SendDtls13Ack s else (0, s) in
  if negb (ret =? 0) then (ret, s)
  else
    let '(ret, s) := if x_retransmit (s_rtx s)
                     then Dtls13RtxSendBuffered (upd_rtx (set_x_retransmit false) s)
                     else (0, s) in
    if negb (ret =? 0) then (ret, s)
    else
      let s := set_sending false s in
      let k := s_ku s in
      if ku_do k then
        let s := set_ku (KU (ku_waitAck k) false (ku_respReq k) (ku_invalidateBefore k)
                           (ku_sendingAckOrRtx k)) s in
        Tls13UpdateKeys s
      else (0, s).
End Send.

(** ** What sending changes *)

(** Sending touches the keys in use, the transcript, the output buffer and the
    wire, and nothing else of the connection. *)
Record send_frame (s s' : ssl) : Prop := {
  sf_opts : s_opts s' = s_opts s; sf_rtx : s_rtx s' = s_rtx s; sf_nums : s_nums s' = s_nums s;
  sf_timers : s_timers s' = s_timers s; sf_ku : s_ku s' = s_ku s; sf_frag : s_frag s' = s_frag s;
  sf_rx : s_rx s' = s_rx s; sf_tx : s_tx s' = s_tx s; sf_ch : s_clientHello s' = s_clientHello s }.

#[export] Instance send_frame_preorder : PreOrder send_frame.
Proof.
  split; [intros s; split; done|]. intros s1 s2 s3 [] []. split; etransitivity; eassumption.
Qed.

Lemma net_send_frame s s' : net_frame s s' -> send_frame s s'.
Proof. intros (b & io & w & ->). split; done. Qed.

Lemma set_conn_frame c s : send_frame s (set_conn c s).
Proof. split; done. Qed.

Lemma commit_frame d s : send_frame s (commit d s).
Proof. split; done. Qed.

(** A buffer in good order, with [n] bytes free. *)
Definition out_ready (n : Z) (s : ssl) : Prop :=
  out_wf (s_out s) /\ STATIC_BUFFER_LEN <= ob_size (s_out s) /\ n <= room (s_out s).

Lemma SendBuffered_frame s : out_ready 0 s ->
  let '(ret, s') := SendBuffered s in
  send_frame s s' /\ out_ready 0 s' /\ ret <= 0 /\ (ret = 0 -> ob_pend (s_out s') = [])
  /\ s_conn s' = s_conn s.
Proof.
  intros (W & L & R). pose proof (SendBuffered_spec s) as X. destruct (SendBuffered s) as [ret s'].
  destruct X as (_ & Z0 & Le & Fr & Wf). destruct (Wf W L) as [W' L'].
  split; [apply net_send_frame; done|]. split; [split; [done|]; split; [done|]|].
  - destruct W' as (I & B). unfold room. lia.
  - split; [done|]. split; [apply Z0|]. destruct Fr as (b & io & w & ->). done.
Qed.

Lemma commit_ready d s n : out_ready n s -> Z.of_nat (length d) <= n -> out_ready 0 (commit d s).
Proof.
  intros ((I & B) & L & R) Hd. unfold out_ready, out_wf, room, ob_length, commit in *. cbn.
  rewrite length_app. lia.
Qed.

Section Frames.
Context `{CryptoLaws, Heap}.

Lemma EncryptRecordNumber_code hdr n c : fst (Dtls13EncryptRecordNumber aes_direct hdr n c) <= 0.
Proof.
  unfold Dtls13EncryptRecordNumber. destruct (_ <? _); [done|].
  unfold Dtls13EncryptDecryptRecordNumber, Dtls13GetRnMask.
  destruct (c_sn (enc_ctx c)) as [k|]; [|done].
  match goal with |- context [aes_direct k ?b] =>
    pose proof (aes_codes k b); destruct (aes_direct k b) as [r m] end.
  cbn [fst] in *. destruct (Z.eqb_spec r 0) as [->|]; cbn [negb fst]; lia.
Qed.

(** The code is a size that fits, or an error. *)
Lemma BuildTls13Message_code output osz msg t c :
  fst (fst (BuildTls13Message output osz msg t c)) <= Z.max 0 osz.
Proof.
  unfold BuildTls13Message. destruct (BuildTls13Message_size _) as [sz pad].
  destruct (Z.ltb_spec osz sz); [unfold BUFFER_E; cbn [fst]; lia|].
  unfold EncryptTls13. destruct (alloc _); cbn [negb]; [|change (MEMORY_E <= Z.max 0 osz); unfold MEMORY_E; lia].
  destruct (BuildTls13Nonce _ _ _) as [nonce c1].
  match goal with |- context [gcm_encrypt ?k ?n ?a ?p] =>
    pose proof (gcm_codes k n a p) as G; destruct (gcm_encrypt k n a p) as [r [ct tag]] end.
  cbn [fst] in G. destruct (Z.eqb_spec r 0); cbn [negb]; [|cbn [fst]; lia].
  match goal with |- context [Dtls13EncryptRecordNumber aes_direct ?h ?n ?c] =>
    pose proof (EncryptRecordNumber_code h n c) as E2;
    destruct (Dtls13EncryptRecordNumber aes_direct h n c) as [r2 rec2] end.
  cbn [fst] in *. destruct (r2 =? 0); lia.
Qed.

Lemma HashRaw_frame d s : send_frame s (snd (HashRaw d s)) /\ s_out (snd (HashRaw d s)) = s_out s.
Proof. unfold HashRaw. destruct (_ =? 0); split; done. Qed.

Lemma HashHandshake_frame d n s :
  send_frame s (snd (Dtls13HashHandshake d n s)) /\ s_out (snd (Dtls13HashHandshake d n s)) = s_out s.
Proof.
  unfold Dtls13HashHandshake. destruct (_ <? _); [split; done|].
  pose proof (HashRaw_frame (take 4 d) s) as [F1 O1]. destruct (HashRaw (take 4 d) s) as [ret s1].
  cbn [snd] in *. destruct (ret =? 0); cbn [negb snd]; [|done].
  pose proof (HashRaw_frame (slice 12 (Z.to_nat (n - 12)) d) s1) as [F2 O2].
  split; [etransitivity; done|congruence].
Qed.

(** A record that is built fits the space announced for it. *)
Lemma build_record_spec output osz len t h s : len <= osz ->
  let '(ret, rec, s') := build_record output osz len t h s in
  send_frame s s' /\ s_out s' = s_out s /\ (ret = 0 -> Z.of_nat (length rec) <= Z.max 0 osz).
Proof.
  intros Lo. unfold build_record. destruct (Dtls13TypeIsEncrypted t); cbn [negb].
  - set (msg := slice _ _ output). set (rl := len - _).
    assert (send_frame s (snd (if h then Dtls13HashHandshake msg rl s else (0, s)))
      /\ s_out (snd (if h then Dtls13HashHandshake msg rl s else (0, s))) = s_out s) as [F1 O1]
      by (destruct h; [apply HashHandshake_frame|split; done]).
    destruct (if h then _ else _) as [ret s1]. cbn [snd] in *.
    destruct (ret =? 0); cbn [negb]; [|split; [done|split; [done|cbn; lia]]].
    destruct (BuildTls13Message output osz msg handshake (s_conn s1)) as [[n rec] c] eqn:B.
    pose proof (BuildTls13Message_code output osz msg handshake (s_conn s1)) as Hn.
    rewrite B in Hn. cbn [fst] in Hn.
    destruct (Z.ltb_spec n 0).
    + split; [etransitivity; [done|apply set_conn_frame]|]. split; [done|]. cbn. lia.
    + split; [etransitivity; [done|apply set_conn_frame]|]. split; [done|]. intros _.
      rewrite length_take. unfold wrap. pose proof (Z.mod_pos_bound n (2 ^ 16) ltac:(lia)).
      pose proof (Z.mod_le n (2 ^ 16) ltac:(lia) ltac:(lia)). lia.
  - destruct (Dtls13RlAddPlaintextHeader _ _ _ _) as [[ret out] c].
    split; [apply set_conn_frame|]. split; [done|]. intros _. rewrite length_take. lia.
Qed.
Lemma SendFragment_spec output osz len t h now s : 0 <= osz -> out_ready osz s ->
  let '(ret, s') := Dtls13SendFragment true output osz len t h now s in
  send_frame s s' /\ out_ready 0 s' /\ (now = true -> ret = 0 -> ob_pend (s_out s') = []).
Proof.
  intros Ho R. assert (out_ready 0 s) as R0 by (destruct R as (W & L & R); split_and!; try done; lia).
  unfold Dtls13SendFragment. destruct (Z.ltb_spec osz len); [split; [done|split; done]|].
  destruct (_ <=? _); [split; [done|split; done]|].
  pose proof (build_record_spec output osz len t h s ltac:(lia)) as B.
  destruct (build_record _ _ _ _ _ _) as [[ret rec] s1]. destruct B as (F1 & O1 & Lr).
  assert (out_ready osz s1) as R1 by (unfold out_ready; rewrite O1; done).
  destruct (Z.eqb_spec ret 0) as [->|N]; cbn [negb].
  - specialize (Lr eq_refl). assert (out_ready 0 (commit rec s1)) as R2
      by (apply (commit_ready _ _ osz); [done|lia]).
    assert (send_frame s (commit rec s1)) as F2 by (etransitivity; [done|apply commit_frame]).
    destruct now; [|split; [done|split; done]].
    pose proof (SendBuffered_frame _ R2) as X. destruct (SendBuffered _) as [ret s2].
    destruct X as (F3 & R3 & _ & P & _). split; [etransitivity; done|]. split; [done|]. auto.
  - split; [done|]. split; [|intros; done]. destruct R1 as (W & L & R1). split_and!; try done. lia.
Qed.

(** The record a handshake record of [len] bytes is remembered by. *)
Definition remembered (t : Z) (message : list Z) (len : Z) (r : Dtls13RtxRecord) : Prop :=
  let hdr := Dtls13GetRlHeaderLength (Dtls13TypeIsEncrypted t) in
  rd_data r = take (Z.to_nat (u16 (len - hdr))) (drop (Z.to_nat hdr) message) /\ rd_type r = u8 t.

(** As [send_frame], but records are queued. *)
Definition send_queue (s s' : ssl) (recs : list Dtls13RtxRecord) : Prop :=
  send_frame s (set_rtx (s_rtx s) s')
  /\ s_rtx s' = set_rtxRecords (rtxRecords (s_rtx s) ++ recs) (s_rtx s).

Lemma send_queue_nil s s' : send_frame s s' -> send_queue s s' [].
Proof.
  intros F. split; [destruct F; split; done|]. rewrite (sf_rtx s s' F), app_nil_r.
  destruct (s_rtx s); done.
Qed.

Lemma send_queue_trans s1 s2 s3 l1 l2 : send_queue s1 s2 l1 -> send_queue s2 s3 l2 ->
  send_queue s1 s3 (l1 ++ l2).
Proof.
  intros [[] R1] [[] R2]. split.
  - split; cbn in *; congruence.
  - rewrite R2, R1. cbn. rewrite app_assoc. done.
Qed.

Lemma SendOneFragment_spec t osz message len h s : 0 <= osz -> out_ready osz s ->
  t <> hello_retry_request -> f_sending (s_frag s) = true ->
  let '(ret, s') := Dtls13SendOneFragmentRtx true t osz message len h s in
  out_ready 0 s' /\ (ret = 0 -> ob_pend (s_out s') = [])
  /\ exists recs, send_queue s s' recs
     /\ ((ret = 0 \/ ret = WANT_WRITE) /\ (exists r, recs = [r] /\ remembered t message len r)
         \/ ret <> 0 /\ ret <> WANT_WRITE /\ recs = []).
Proof.
  intros Ho R Nt Fs. assert (out_ready 0 s) as R0 by (destruct R as (W & L & R); split_and!; try done; lia).
  unfold Dtls13SendOneFragmentRtx. destruct (Z.eqb_spec t hello_retry_request) as [|_]; [done|].
  cbn [negb]. set (q := match deref _ _ with Some e => _ | None => _ end).
  destruct (Dtls13RtxNewRecord _ _ t q s) as [r|] eqn:Er.
  - assert (Dtls13SendNow t s = true) as -> by (unfold Dtls13SendNow; rewrite Fs, orb_true_r; done).
    assert (remembered t message len r) as Rm.
    { unfold Dtls13RtxNewRecord in Er. destruct (deref _ _); [|done].
      destruct (alloc _); [|done]. destruct (alloc _); [|done]. injection Er as <-. split; done. }
    pose proof (SendFragment_spec message osz (u16 len) t h true s Ho R) as X.
    destruct (Dtls13SendFragment _ _ _ _ _ _ _ _) as [ret s1]. destruct X as (F1 & R1 & P).
    specialize (P eq_refl). destruct ((ret =? 0) || (ret =? WANT_WRITE)) eqn:Ok.
    + split; [done|]. split; [done|]. exists [r]. split.
      * pose proof (send_queue_nil _ _ F1) as [Fq Rq]. split; [done|].
        cbn. rewrite (sf_rtx _ _ F1). done.
      * left. split; [lia|]. exists r. done.
    + split; [done|]. split; [done|]. exists []. split; [apply send_queue_nil; done|].
      right. split; [lia|]. split; [lia|done].
  - split; [done|]. split; [done|]. exists []. split; [apply send_queue_nil; done|]. right. done.
Qed.

Lemma CheckAvailable_frame size s : size < 2 ^ 31 -> out_ready 0 s ->
  let '(ret, s') := CheckAvailableSize size s in
  send_frame s s' /\ out_ready 0 s' /\ (ret = 0 -> 0 <= size /\ out_ready size s')
  /\ s_conn s' = s_conn s.
Proof.
  intros S (W & L & R). pose proof (CheckAvailableSize_spec size s S W L) as X.
  destruct (CheckAvailableSize size s) as [ret s']. destruct X as (_ & Fr & _ & W' & Ok & L').
  split; [apply net_send_frame; done|]. split.
  { split; [done|]. split; [done|]. destruct W' as (I & B). unfold room, ob_length in *. lia. }
  split; [|destruct Fr as (b & io & w & ->); done].
  intros Z0. specialize (Ok Z0). split; [lia|]. split; [done|]. split; [done|lia].
Qed.

(** ** The fragments of a message *)

(** The handshake header and bytes of the fragment [f] of message [M]. *)
Definition fragment_bytes (num t : Z) (M : list Z) (f : Z * Z) : list Z :=
  hs_header num t f.1 f.2 (Z.of_nat (length M))
  ++ slice (Z.to_nat f.1) (Z.to_nat f.2) M.

(** Non-empty fragments, one behind the other from [o] to [e]. *)
Fixpoint consecutive (o : Z) (frags : list (Z * Z)) (e : Z) : Prop :=
  match frags with
  | [] => o = e
  | (o', n) :: fs => o' = o /\ 0 < n /\ consecutive (o + n) fs e
  end.

Lemma consecutive_app o l1 m l2 e : consecutive o l1 m -> consecutive m l2 e ->
  consecutive o (l1 ++ l2) e.
Proof.
  revert o. induction l1 as [|[o' n] l1 IH]; intros o; cbn; [intros ->; done|].
  intros (-> & Hn & C) C2. split; [done|]. split; [done|]. apply IH; done.
Qed.

(** What is being sent: fragment state of message [M], number [num]. *)
Record sending (M : list Z) (num t : Z) (s : ssl) : Prop := {
  sd_buffer : f_buffer (s_frag s) = M; sd_on : f_sending (s_frag s) = true;
  sd_length : f_length (s_frag s) = Z.of_nat (length M); sd_type : f_type (s_frag s) = t;
  sd_num : n_next (s_nums s) = num; sd_offset : 0 <= f_offset (s_frag s) <= Z.of_nat (length M) }.

Lemma fragment_at_ok M num t s rl fl rec : sending M num t s -> is_byte t ->
  0 <= rl -> 0 < fl -> f_offset (s_frag s) + fl <= Z.of_nat (length M) -> rec = rl + 12 + fl ->
  exists pre post, fragment_at rl fl rec s
    = pre ++ fragment_bytes num t M (f_offset (s_frag s), fl) ++ post
    /\ length pre = Z.to_nat rl.
Proof.
  intros [B On Ln Ty Nm Of] Ht Hrl Hfl Hof Hrec. unfold fragment_at. rewrite B, Ln, Ty, Nm.
  set (fresh := replicate _ _). set (data := slice _ _ M).
  assert (length fresh = Z.to_nat (rec + MAX_MSG_EXTRA)) as Lf by (unfold fresh; apply length_replicate).
  change MAX_MSG_EXTRA with 102 in Lf.
  assert (length data = Z.to_nat fl) as Ld by (unfold data; rewrite length_slice; lia).
  assert (exists out body, drop (Z.to_nat rl) fresh = out ++ body /\ length out = 12%nat
    /\ length body = (length fresh - Z.to_nat rl - 12)%nat) as (out & body & E & Lo & Lb).
  { exists (take 12 (drop (Z.to_nat rl) fresh)), (drop 12 (drop (Z.to_nat rl) fresh)).
    rewrite take_drop, length_take, !length_drop. split; [done|]. lia. }
  rewrite E, HandshakeAddHeaderFrag_ok by done.
  exists (take (Z.to_nat rl) fresh), (drop (Z.to_nat fl) body). split.
  - f_equal. unfold fragment_bytes. cbn [fst snd]. fold data. rewrite <- app_assoc.
    rewrite blit_pre by (reflexivity || lia). rewrite Ld. done.
  - rewrite length_take. lia.
Qed.
(** With nothing waiting there is nothing that could block. *)
Lemma CheckAvailable_empty size s : ob_pend (s_out s) = [] ->
  fst (CheckAvailableSize size s) <> WANT_WRITE.
Proof.
  intros P. unfold CheckAvailableSize. destruct (size <? 0); [done|].
  assert (SendBuffered s = (0, snd (SendBuffered s))) as E.
  { unfold SendBuffered. destruct (s_io s); cbn [SendBuffered_loop]; rewrite P; done. }
  rewrite E. set (s1 := if _ <? _ then _ else _).
  assert (exists s2, s1 = (0, s2)) as (s2 & ->) by (unfold s1; destruct (_ <? _); eauto).
  cbn [negb Z.eqb]. destruct (_ && _); [done|]. destruct (_ <? size); [|done].
  destruct (GrowOutputBuffer _ _) as [ret b]. destruct (ret <? 0); done.
Qed.

(** Records were queued; the handshake number and options are the same. *)
Definition queued (s s' : ssl) (recs : list Dtls13RtxRecord) : Prop :=
  s_rtx s' = set_rtxRecords (rtxRecords (s_rtx s) ++ recs) (s_rtx s)
  /\ s_nums s' = s_nums s /\ s_opts s' = s_opts s.

Lemma queued_nil s s' : s_rtx s' = s_rtx s -> s_nums s' = s_nums s -> s_opts s' = s_opts s ->
  queued s s' [].
Proof. intros E ? ?. split; [|done]. rewrite E, app_nil_r. destruct (s_rtx s); done. Qed.

Lemma queued_trans s1 s2 s3 l1 l2 : queued s1 s2 l1 -> queued s2 s3 l2 -> queued s1 s3 (l1 ++ l2).
Proof.
  intros (R1 & N1 & O1) (R2 & N2 & O2). split; [|split; congruence].
  rewrite R2, R1. cbn. rewrite app_assoc. done.
Qed.

Lemma send_queue_queued s s' recs : send_queue s s' recs -> queued s s' recs.
Proof. intros [[] R]. split; [done|]. cbn in *. done. Qed.

(** The remembered records are the fragments. *)
Definition carries (num t : Z) (M : list Z) (recs : list Dtls13RtxRecord) (frags : list (Z * Z)) : Prop :=
  Forall2 (fun r f => rd_data r = fragment_bytes num t M f /\ rd_type r = t) recs frags.

(** What became of a message being sent from offset [o]. *)
Definition outcome (M : list Z) (num t o : Z) (s : ssl) (ret : Z) (s' : ssl) (frags : list (Z * Z))
    : Prop :=
  exists e recs, queued s s' recs /\ carries num t M recs frags
  /\ consecutive o frags e /\ out_ready 0 s'
  /\ (ret = 0 /\ e = Z.of_nat (length M) /\ f_sending (s_frag s') = false /\ ob_pend (s_out s') = []
      \/ ret = WANT_WRITE /\ sending M num t s' /\ f_offset (s_frag s') = e
      \/ ret <> 0 /\ f_sending (s_frag s') = false
         /\ (ob_pend (s_out s) = [] -> ret <> WANT_WRITE)).

Lemma sending_advance M num t s s' n : sending M num t s -> s_frag s' = s_frag s ->
  s_nums s' = s_nums s -> 0 <= n -> f_offset (s_frag s) + n <= Z.of_nat (length M) ->
  sending M num t (advance_offset n s').
Proof.
  intros [] Fr Nm Hn Hb. unfold advance_offset. split; cbn; rewrite ?Fr, ?Nm; done || lia.
Qed.

(** One fragment: the state before the offset moves on. *)
Lemma send_one M num t s rl fl rec :
  sending M num t s -> out_ready (rec + MAX_MSG_EXTRA) s -> is_byte t -> t <> hello_retry_request ->
  rl = Dtls13GetRlHeaderLength (Dtls13TypeIsEncrypted t) -> 0 < fl ->
  f_offset (s_frag s) + fl <= Z.of_nat (length M) -> rec = rl + 12 + fl -> rec <= MAX_RECORD_SIZE ->
  let '(ret, s') := Dtls13SendOneFragmentRtx true t (u16 (u16 rec + MAX_MSG_EXTRA))
                      (fragment_at rl fl rec s) rec false s in
  out_ready 0 s' /\ (ret = 0 -> ob_pend (s_out s') = []) /\ s_frag s' = s_frag s
  /\ exists recs, queued s s' recs
     /\ ((ret = 0 \/ ret = WANT_WRITE) /\ carries num t M recs [(f_offset (s_frag s), fl)]
         \/ ret <> 0 /\ ret <> WANT_WRITE /\ recs = []).
Proof.
  intros S R Ht Nt Erl Hfl Hof Hrec Hmax. pose proof S as [B On _ Ty _ Of].
  assert (0 <= rl <= 13) as Hrl by (subst rl; destruct (Dtls13TypeIsEncrypted t); done).
  unfold MAX_RECORD_SIZE, MAX_MSG_EXTRA in *.
  rewrite (wrap_small 16 rec), (wrap_small 16 (rec + 102)) by (unfold in_word; lia).
  pose proof (SendOneFragment_spec t (rec + 102) (fragment_at rl fl rec s) rec false s
                ltac:(lia) R Nt On) as X.
  destruct (Dtls13SendOneFragmentRtx _ _ _ _ _ _ _) as [ret s'].
  destruct X as (R' & P & recs & Q & C). split; [done|]. split; [done|].
  split; [destruct Q as [[] _]; done|]. exists recs. split; [apply send_queue_queued; done|].
  destruct C as [(Ok & r & -> & Rd & Rt)|C]; [left|right; done]. split; [done|].
  constructor; [|constructor]. rewrite <- Erl in Rd.
  destruct (fragment_at_ok M num t s rl fl rec S Ht ltac:(lia) Hfl Hof Hrec)
    as (pre & post & E & Lp).
  rewrite Rd, Rt, (wrap_small 8) by done. split; [|done].
  rewrite wrap_small by (unfold in_word; lia). rewrite E, <- Lp, drop_app_length.
  replace (Z.to_nat (rec - rl)) with (length (fragment_bytes num t M (f_offset (s_frag s), fl))).
  - apply take_app_length.
  - unfold fragment_bytes. cbn [fst snd]. rewrite length_app, length_slice by lia.
    change (length (hs_header _ _ _ _ _)) with 12%nat. lia.
Qed.
Lemma outcome_cons M num t s s1 s2 recs1 o n ret s' frags :
  queued s s1 recs1 -> carries num t M recs1 [(o, n)] -> 0 < n ->
  queued s1 s2 [] -> ob_pend (s_out s2) = [] ->
  outcome M num t (o + n) s2 ret s' frags -> outcome M num t o s ret s' ((o, n) :: frags).
Proof.
  intros Q1 C1 Hn Q2 P (e & recs & Q & C & Co & R & Cs). exists e, (recs1 ++ recs).
  split; [eapply queued_trans; [exact Q1|]; apply (queued_trans _ s2 _ []); done|].
  split; [change ((o, n) :: frags) with ([(o, n)] ++ frags); apply Forall2_app; done|].
  split; [done|]. split; [done|]. destruct Cs as [Cs|[Cs|(N & F & W)]]; auto.
  right. right. auto.
Qed.

Lemma outcome_done M num t s : sending M num t s -> f_offset (s_frag s) = Z.of_nat (length M) ->
  ob_pend (s_out s) = [] -> out_ready 0 s ->
  outcome M num t (f_offset (s_frag s)) s 0 (Dtls13FreeFragmentsBuffer s) [].
Proof.
  intros S E P R. exists (Z.of_nat (length M)), []. split; [apply queued_nil; done|].
  split; [constructor|]. split; [done|]. split; [done|]. left. done.
Qed.

Lemma outcome_failed M num t o s ret s' : queued s s' [] -> out_ready 0 s' -> ret <> 0 ->
  (ob_pend (s_out s) = [] -> ret <> WANT_WRITE) ->
  outcome M num t o s ret (Dtls13FreeFragmentsBuffer s') [].
Proof.
  intros Q R N W. exists o, []. split; [exact Q|]. split; [constructor|]. split; [done|].
  split; [done|]. right. right. done.
Qed.

Lemma outcome_blocked M num t s s' recs n : queued s s' recs ->
  carries num t M recs [(f_offset (s_frag s), n)] -> 0 < n -> out_ready 0 s' ->
  sending M num t s' -> f_offset (s_frag s') = f_offset (s_frag s) + n ->
  outcome M num t (f_offset (s_frag s)) s WANT_WRITE s' [(f_offset (s_frag s), n)].
Proof.
  intros Q C Hn R S E. exists (f_offset (s_frag s) + n), recs. split; [exact Q|]. split; [done|].
  split; [cbn; done|]. split; [done|]. right. left. done.
Qed.

(** Making room for a fragment changes nothing but the buffer. *)
Lemma make_room M num t s n : sending M num t s -> out_ready 0 s -> n < 2 ^ 31 ->
  let '(ret, s') := CheckAvailableSize n s in
  queued s s' [] /\ out_ready 0 s' /\ sending M num t s' /\ s_frag s' = s_frag s
  /\ (ret = 0 -> out_ready n s') /\ (ob_pend (s_out s) = [] -> ret <> WANT_WRITE).
Proof.
  intros S R Hn. pose proof (CheckAvailable_frame n s Hn R) as X.
  pose proof (CheckAvailable_empty n s) as Em. destruct (CheckAvailableSize n s) as [ret s1].
  destruct X as (F & R1 & Rdy & _). split; [apply queued_nil; apply F|]. split; [done|].
  destruct F as [_ _ En _ _ Ef _ _ _]. split; [destruct S; split; rewrite ?Ef, ?En; done|].
  split; [done|]. split; [intros Z0; apply Rdy; done|exact Em].
Qed.

(** One more fragment in a sequence that goes on. *)
Lemma sending_next M num t s s1 s2 recs fl : sending M num t s -> queued s s1 [] ->
  queued s1 s2 recs -> s_frag s2 = s_frag s -> 0 <= fl ->
  f_offset (s_frag s) + fl <= Z.of_nat (length M) ->
  sending M num t (advance_offset fl s2) /\ queued s s2 recs
  /\ f_offset (s_frag (advance_offset fl s2)) = f_offset (s_frag s) + fl.
Proof.
  intros S Q1 Q2 Ef Hp Hb. split; [|split].
  - apply (sending_advance M num t s); try done.
    destruct Q1 as (_ & ? & _), Q2 as (_ & ? & _). congruence.
  - apply (queued_trans _ s1 _ []); done.
  - unfold advance_offset. cbn. rewrite Ef. done.
Qed.

Lemma SendFragments_spec fuel rl mx M num t s :
  sending M num t s -> out_ready 0 s -> is_byte t -> t <> hello_retry_request ->
  rl = Dtls13GetRlHeaderLength (Dtls13TypeIsEncrypted t) -> rl + 12 < mx <= MAX_RECORD_SIZE ->
  Z.of_nat (length M) - f_offset (s_frag s) <= Z.of_nat fuel ->
  (f_offset (s_frag s) < Z.of_nat (length M) \/ ob_pend (s_out s) = []) ->
  exists ret s' frags,
    SendFragments fuel rl mx (Z.of_nat (length M) - f_offset (s_frag s)) s = Some (ret, s')
    /\ outcome M num t (f_offset (s_frag s)) s ret s' frags.
Proof.
  revert s. induction fuel as [|fuel IH]; intros s S R Ht Nt Erl Hmx Hf Hne;
    pose proof (sd_offset M num t s S) as Of; cbn [SendFragments];
    destruct (Z.leb_spec (Z.of_nat (length M) - f_offset (s_frag s)) 0) as [Hle|Hgt]; try lia.
  1,2: eexists _, _, []; split; [reflexivity|]; apply outcome_done; try done; try lia;
    destruct Hne; [lia|done].
  set (rem := Z.of_nat (length M) - f_offset (s_frag s)) in *.
  change DTLS_HANDSHAKE_HEADER_SZ with 12. set (fl := if rem <? mx - rl - 12 then rem else _).
  set (rec := if rem <? mx - rl - 12 then fl + rl + 12 else mx).
  assert (0 < fl <= rem /\ rec = rl + 12 + fl /\ rec <= mx) as (Hfl & Hrec & Hmax)
    by (subst fl rec; destruct (Z.ltb_spec rem (mx - rl - 12)); lia).
  destruct (Z.ltb_spec fl 0); [lia|].
  pose proof (make_room M num t s (rec + MAX_MSG_EXTRA) S R
    ltac:(unfold MAX_RECORD_SIZE, MAX_MSG_EXTRA in *; lia)) as X.
  destruct (CheckAvailableSize _ s) as [ret s1]. destruct X as (Q1 & R1 & S1 & Ef & Rdy & Em).
  destruct (Z.eqb_spec ret 0) as [->|N]; cbn [negb].
  2: { eexists _, _, []. split; [reflexivity|]. apply outcome_failed; done. }
  pose proof (send_one M num t s1 rl fl rec S1 (Rdy eq_refl) Ht Nt Erl ltac:(lia)
                ltac:(rewrite Ef; lia) Hrec ltac:(lia)) as X. rewrite (sd_type M num t s1 S1).
  destruct (Dtls13SendOneFragmentRtx _ _ _ _ _ _ _) as [ret s2].
  destruct X as (R2 & P2 & Ef2 & recs & Q2 & C2). rewrite Ef in *.
  destruct (sending_next M num t s s1 s2 recs fl S Q1 Q2 Ef2 ltac:(lia) ltac:(lia)) as (S2 & Q & Eo).
  destruct C2 as [([->| ->] & C2)|(N0 & Nw & ->)].
  - change (0 =? WANT_WRITE) with false. cbn [Z.eqb negb].
    destruct (IH (advance_offset fl s2) S2 R2 Ht Nt Erl Hmx ltac:(lia) (or_intror (P2 eq_refl)))
      as (ret & s' & frags & E & O).
    rewrite Eo in E, O. exists ret, s', ((f_offset (s_frag s), fl) :: frags).
    replace (rem - fl) with (Z.of_nat (length M) - (f_offset (s_frag s) + fl)) by lia.
    split; [exact E|]. apply (outcome_cons M num t s s2 (advance_offset fl s2) recs);
      [done|done|lia|apply queued_nil; done|exact (P2 eq_refl)|done].
  - change (WANT_WRITE =? WANT_WRITE) with true. cbn [negb].
    eexists _, _, [(f_offset (s_frag s), fl)]. split; [reflexivity|].
    apply (outcome_blocked M num t s _ recs); try done; lia.
  - destruct (Z.eqb_spec ret WANT_WRITE); [done|]. destruct (Z.eqb_spec ret 0); [done|]. cbn [negb].
    eexists _, _, []. split; [reflexivity|]. apply outcome_failed; done.
Qed.
End Frames.

(** ** The acknowledgement message *)

Section AckRoom.
Context `{Heap}.

Lemma CheckAvailable_room size s : out_ready 0 s -> 0 <= size <= room (s_out s) ->
  size + ob_length (s_out s) <= o_mtu (s_opts s) < 2 ^ 32 -> CheckAvailableSize size s = (0, s).
Proof.
  intros ((I & B) & _ & _) Hs Hm. unfold CheckAvailableSize, room in *.
  assert (0 <= ob_length (s_out s)) by (unfold ob_length; lia).
  destruct (Z.ltb_spec size 0); [lia|].
  rewrite (wrap_small 32 (size + _)) by (unfold in_word; lia).
  destruct (Z.ltb_spec (o_mtu (s_opts s)) (size + ob_length (s_out s))); [lia|]. cbn [negb Z.eqb].
  destruct (Z.ltb_spec (o_mtu (s_opts s)) size); [lia|]. cbn [andb].
  rewrite wrap_small by (unfold in_word; lia). destruct (Z.ltb_spec (ob_size (s_out s) - ob_length (s_out s) - ob_idx (s_out s)) size); [lia|done].
Qed.

(** The bytes [Dtls13WriteAckMessage] writes.  With at most 4095 recorded
    numbers everything it writes behind the header fits the space it asked for.
    With 4096 the space is computed from the truncated length 0 while all the
    numbers are still written: whatever the buffer was before, one that is
    smaller than 64 kB and has room for an empty list is not enlarged, and 65538
    bytes are written into it. *)
Theorem ack_write_bounds l s e :
  out_ready 0 s -> deref (s_conn s) (encryptEpoch (s_conn s)) = Some e ->
  let header := if w64IsZero (epochNumber e) then 13 else 5 in
  let '(ret, msg, len, s') := Dtls13WriteAckMessage l s in
  (ret = 0 -> Z.of_nat (length l) <= 4095 ->
     len = Z.of_nat (length msg) /\ header + len <= room (s_out s'))
  /\ (length l = 4096%nat -> 117 + ob_length (s_out s) <= o_mtu (s_opts s) < 2 ^ 32 ->
      117 <= room (s_out s) < 65538 ->
      ret = 0 /\ len = 2 /\ Z.of_nat (length msg) = 65538 /\ s' = s).
Proof.
  intros R E header. unfold Dtls13WriteAckMessage. rewrite E. fold header.
  change DTLS_RECORD_HEADER_SZ with 13. change (Dtls13GetRlHeaderLength true) with 5.
  change MAX_MSG_EXTRA with 102. fold header.
  set (sz := _ + header + 2 + _).
  assert (Z.of_nat (length (ack_message l)) = 2 + 16 * Z.of_nat (length l)) as Ll.
  { unfold ack_message. fold (ack_entries l). rewrite length_app, length_c16toa, length_ack_entries. lia. }
  assert (0 <= Dtls13GetAckListLength l < 65536) as Ha.
  { unfold Dtls13GetAckListLength, wrap. apply Z.mod_pos_bound. lia. }
  assert (Z.of_nat (length l) <= 4095 -> Dtls13GetAckListLength l = 16 * Z.of_nat (length l)) as Hs.
  { intros. apply wrap_small. unfold in_word, DTLS13_RN_SIZE. lia. }
  assert (header = 13 \/ header = 5) as Hh by (unfold header; destruct (w64IsZero _); auto).
  assert (header + 2 + Dtls13GetAckListLength l <= sz <= 102 + header + 2 + Dtls13GetAckListLength l) as Hz
    by (unfold sz; destruct (w64IsZero _); lia).
  pose proof (CheckAvailable_frame sz s ltac:(lia) R) as X. pose proof (CheckAvailable_room sz s) as Y.
  destruct (CheckAvailableSize sz s) as [ret s']. destruct X as (_ & _ & Rdy & _).
  assert (length l = 4096%nat -> sz <= 117) as H4.
  { intros L. assert (Dtls13GetAckListLength l = 0) by (unfold Dtls13GetAckListLength; rewrite L; done).
    lia. }
  destruct (Z.eqb_spec ret 0) as [->|N]; cbn [negb]; split; try done.
  - intros _ Hn. destruct (Rdy eq_refl) as (_ & _ & _ & Hr). rewrite Hs in * by done. lia.
  - intros L Hm Hr. specialize (Y R ltac:(lia) ltac:(lia)). injection Y as <-.
    unfold Dtls13GetAckListLength. rewrite Ll, L. done.
  - intros L Hm Hr. specialize (Y R ltac:(lia) ltac:(lia)). congruence.
Qed.
End AckRoom.

Lemma ack_write_bounds_witness :
  let s := set_out (OutBuf [] 0 1500 true false) (demo_ssl demo_client [] []) in
  let '(_, msg, _, s') := Dtls13WriteAckMessage (replicate 4096 (0, 7)) s in
  Z.of_nat (length msg) = 65538.
Proof.
  cbn zeta. set (s := set_out _ _).
  destruct (deref (s_conn s) (encryptEpoch (s_conn s))) as [e|] eqn:E; [|done].
  pose proof (ack_write_bounds (replicate 4096 (0, 7)) s e) as X.
  destruct (Dtls13WriteAckMessage _ s) as [[[ret msg] len] s'].
  destruct X as [_ X]; [|exact E|].
  - split; [|split]; vm_compute; try congruence. split; [congruence|split; [congruence|reflexivity]].
  - apply X; [apply length_replicate|split; vm_compute; congruence|split; vm_compute; congruence].
Defined.
