(* ===== verification/DtlsFlight.v ===== *)
(** * Resuming a flight after a blocked transport
      (src/boot/src/tls13.c, src/boot/src/dtls13.c)

    A non-blocking client calls wolfSSL_connect again and again; each call first
    flushes what is waiting, then continues the message being fragmented, and
    advances the connect state when that message is out. *)

From S2P Require Import Prelude Misc RtxList DtlsDefs DtlsEpoch DtlsRecord DtlsPlain DtlsMsg.
From S2P Require Import DtlsState DtlsOut DtlsProtect DtlsRtx DtlsSend.

Section Resume.
Context `{Crypto, Heap}.

Definition advance_connectState (s : ssl) : ssl :=
  set_opts (set_o_connectState (o_connectState (s_opts s) + 1) (s_opts s)) s.

(** The start of [wolfSSL_connect_TLSv13], up to the switch on the connect
    state; the code is what [ssl->error] holds.  [idle]: no message of the
    DTLS 1.2 style is half built ([fragOffset == 0 && !buildingMsg]);
    [RetrySendAlert] sends a pending alert. *)
Definition connect_resume (RetrySendAlert : ssl -> Z * ssl) (fuel : nat) (idle : bool) (s : ssl)
    : option (Z * ssl) :=
  let st := o_connectState (s_opts s) in
  let advanceState :=
    ((st =? CONNECT_BEGIN) || (st =? HELLO_AGAIN)
     || (FIRST_REPLY_DONE <=? st) && (st <=? FIRST_REPLY_FOURTH))
    && negb (f_sending (s_frag s)) && negb (ku_sendingAckOrRtx (s_ku s)) in
  let '(ret, s) :=
    if 0 <? ob_length (s_out s) then
      let '(ret, s) := SendBuffered s in
      if negb (ret =? 0) then (ret, s)
      else
        let s :=
          if idle && advanceState then
            if o_tls13 (s_opts s) && (st =? FIRST_REPLY_FOURTH)
            then set_opts (set_o_connectState WAIT_FINISHED_ACK (s_opts s)) s
            else advance_connectState s
          else s in
        let k := s_ku s in
        (0, set_ku (KU (ku_waitAck k) (ku_do k) (ku_respReq k) (ku_invalidateBefore k) false) s)
    else (0, s) in
  if negb (ret =? 0) then Some (ret, s)
  else
    let '(ret, s) := RetrySendAlert s in
    if negb (ret =? 0) then Some (ret, s)
    else if f_sending (s_frag s) then
      match Dtls13FragmentsContinue fuel s with
      | Some (ret, s) => Some (ret, if ret =? 0 then advance_connectState s else s)
      | None => None
      end
    else Some (0, s).

(** Calls of the application, each with what the transport does during it, until
    one is not stopped by the transport. *)
Fixpoint connect_calls (fuel : nat) (ios : list (list Z)) (s : ssl) : option (Z * ssl) :=
  match ios with
  | [] => Some (WANT_WRITE, s)
  | io :: ios =>
      match connect_resume (fun s => (0, s)) fuel true (set_net io (s_wire s) s) with
      | Some (ret, s) => if ret =? WANT_WRITE then connect_calls fuel ios s else Some (ret, s)
      | None => None
      end
  end.
End Resume.

Section Arrival.
Context `{CryptoLaws, Heap}.

Lemma GetMaxFragSize_bounds s : 60 <= o_mtu (s_opts s) ->
  26 <= wolfSSL_GetMaxFragSize MAX_RECORD_SIZE s <= MAX_RECORD_SIZE.
Proof.
  intros Hm. unfold wolfSSL_GetMaxFragSize. rewrite Z.ltb_irrefl. set (n := fst (BuildTls13Message_size _)).
  assert (n = MAX_RECORD_SIZE + 34) as -> by (vm_compute; done).
  change DTLS_RECORD_HEADER_SZ with 13. change DTLS_HANDSHAKE_HEADER_SZ with 12.
  unfold ModifyForMTU, MAX_RECORD_SIZE. destruct (IsEncryptionOn_send s).
  - destruct (Z.ltb_spec 0 (16384 + 34 - 16384)); [|lia].
    destruct (Z.ltb_spec (o_mtu (s_opts s)) (16384 + 34)); cbn [andb]; lia.
  - destruct (Z.ltb_spec 0 (16384 + 13 + 12 - 16384)); [|lia].
    destruct (Z.ltb_spec (o_mtu (s_opts s)) (16384 + 13 + 12)); cbn [andb]; lia.
Qed.

(** [Dtls13SendFragmentedInternal] in a state with a message to send. *)
Lemma SendFragmentedInternal_spec fuel M num t s :
  sending M num t s -> out_ready 0 s -> is_byte t -> t <> hello_retry_request ->
  60 <= o_mtu (s_opts s) -> Z.of_nat (length M) <= Z.of_nat fuel ->
  (f_offset (s_frag s) < Z.of_nat (length M) \/ ob_pend (s_out s) = []) ->
  exists ret s' frags, Dtls13SendFragmentedInternal fuel s = Some (ret, s')
    /\ outcome M num t (f_offset (s_frag s)) s ret s' frags.
Proof.
  intros S R Ht Nt Hm Hf Hne. unfold Dtls13SendFragmentedInternal.
  pose proof (GetMaxFragSize_bounds s Hm) as Hx. pose proof S as [_ _ -> -> _ Of].
  assert (Dtls13GetRlHeaderLength (Dtls13TypeIsEncrypted t) <= 13) as Hl
    by (destruct (Dtls13TypeIsEncrypted t); done).
  eapply SendFragments_spec; try done; lia.
Qed.

(** What one or more calls did to a message that is being sent. *)
Definition progress (M : list Z) (num t : Z) (s : ssl) (ret : Z) (s' : ssl)
    (frags : list (Z * Z)) : Prop :=
  exists e recs, rtxRecords (s_rtx s') = rtxRecords (s_rtx s) ++ recs
  /\ carries num t M recs frags /\ consecutive (f_offset (s_frag s)) frags e
  /\ (ret = 0 -> e = Z.of_nat (length M) /\ f_sending (s_frag s') = false
        /\ ob_pend (s_out s') = [] /\ n_next (s_nums s') = u16 (num + 1)
        /\ o_connectState (s_opts s') = o_connectState (s_opts s) + 1)
  /\ (ret = WANT_WRITE -> sending M num t s' /\ f_offset (s_frag s') = e /\ out_ready 0 s'
        /\ s_opts s' = s_opts s).

Lemma progress_none M num t s ret s' : s_frag s' = s_frag s -> s_nums s' = s_nums s ->
  s_rtx s' = s_rtx s -> s_opts s' = s_opts s -> out_ready 0 s' -> sending M num t s -> ret <> 0 ->
  progress M num t s ret s' [].
Proof.
  intros Ef En Er Eo R S N. exists (f_offset (s_frag s)), []. rewrite Er, app_nil_r.
  split; [done|]. split; [constructor|]. split; [done|]. split; [done|]. intros _.
  split; [destruct S; split; rewrite ?Ef, ?En; done|]. rewrite Ef. done.
Qed.

(** The continuation after the flush. *)
Lemma continue_progress fuel M num t s :
  sending M num t s -> out_ready 0 s -> is_byte t -> t <> hello_retry_request ->
  60 <= o_mtu (s_opts s) -> Z.of_nat (length M) <= Z.of_nat fuel -> ob_pend (s_out s) = [] ->
  exists ret s' frags,
    match Dtls13FragmentsContinue fuel s with
    | Some (ret, s) => Some (ret, if ret =? 0 then advance_connectState s else s)
    | None => None
    end = Some (ret, s') /\ progress M num t s ret s' frags.
Proof.
  intros S R Ht Nt Hm Hf P.
  destruct (SendFragmentedInternal_spec fuel M num t s S R Ht Nt Hm Hf (or_intror P))
    as (ret & s1 & frags & E & e & recs & (Q1 & Q2 & Q3) & C & Co & R1 & Cs).
  unfold Dtls13FragmentsContinue. rewrite E. eexists ret, _, frags. split; [reflexivity|].
  exists e, recs. destruct Cs as [(-> & He & Hs & Hp)|[(-> & S1 & Eo)|(N & Hs & W)]].
  - unfold advance_connectState, next_handshake_number. cbn. rewrite Q1, Q2, Q3. split; [done|]. split; [done|]. split; [done|].
    split; [|discriminate]. intros _. split; [done|]. split; [done|]. split; [done|].
    rewrite (sd_num M num t s S). done.
  - change (WANT_WRITE =? 0) with false. cbn match. rewrite Q1. split; [done|]. split; [done|]. split; [done|].
    split; [discriminate|]. intros _. done.
  - destruct (Z.eqb_spec ret 0); [done|]. rewrite Q1. split; [done|]. split; [done|]. split; [done|].
    split; [intros; done|]. intros Ew. destruct (W P Ew).
Qed.

Lemma connect_resume_progress fuel M num t s :
  sending M num t s -> out_ready 0 s -> is_byte t -> t <> hello_retry_request ->
  60 <= o_mtu (s_opts s) -> Z.of_nat (length M) <= Z.of_nat fuel ->
  exists ret s' frags, connect_resume (fun s => (0, s)) fuel true s = Some (ret, s')
    /\ progress M num t s ret s' frags.
Proof.
  intros S R Ht Nt Hm Hf. unfold connect_resume. rewrite (sd_on M num t s S). cbn [negb].
  rewrite andb_false_r, !andb_false_l. cbn [andb].
  destruct (Z.ltb_spec 0 (ob_length (s_out s))) as [Hl|Hl].
  - pose proof (SendBuffered_frame s R) as X. destruct (SendBuffered s) as [ret s1].
    destruct X as ([Eo Er En _ _ Ef _ _ _] & R1 & _ & P & _).
    destruct (Z.eqb_spec ret 0) as [->|N]; cbn [negb Z.eqb].
    + cbn [s_frag set_ku]. rewrite Ef, (sd_on M num t s S).
      set (s2 := set_ku _ s1).
      destruct (continue_progress fuel M num t s2) as (ret & s' & frags & E & e & recs & Pr);
        try done; try (subst s2; cbn; rewrite ?Eo; auto; done).
      { subst s2. destruct S; split; cbn; rewrite ?Ef, ?En; done. }
      exists ret, s', frags. split; [exact E|]. exists e, recs. subst s2. cbn in Pr.
      rewrite Er, Ef, Eo in Pr. exact Pr.
    + destruct (Z.eqb_spec ret 0); [done|]. eexists _, _, []. split; [reflexivity|].
      apply progress_none; done.
  - cbn [negb Z.eqb]. rewrite (sd_on M num t s S). apply continue_progress; try done.
    unfold ob_length in Hl. destruct (ob_pend (s_out s)); [done|cbn in Hl; lia].
Qed.

Lemma progress_trans M num t s1 s2 s2' ret s3 f1 f2 :
  progress M num t s1 WANT_WRITE s2 f1 -> s_frag s2' = s_frag s2 -> s_rtx s2' = s_rtx s2 ->
  s_opts s2' = s_opts s2 ->
  progress M num t s2' ret s3 f2 -> progress M num t s1 ret s3 (f1 ++ f2).
Proof.
  intros (e1 & r1 & Q1 & C1 & Co1 & _ & W1) Ef Er Eo (e2 & r2 & Q2 & C2 & Co2 & Z2 & W2).
  destruct (W1 eq_refl) as (S & E & R & O). rewrite Ef in Co2. rewrite Eo, O in Z2, W2.
  exists e2, (r1 ++ r2). rewrite Q2, Er, Q1, app_assoc. split; [done|].
  split; [apply Forall2_app; done|]. split; [|done].
  apply (consecutive_app _ _ e1); [done|]. rewrite <- E. done.
Qed.

Lemma connect_calls_progress fuel ios M num t s :
  sending M num t s -> out_ready 0 s -> is_byte t -> t <> hello_retry_request ->
  60 <= o_mtu (s_opts s) -> Z.of_nat (length M) <= Z.of_nat fuel ->
  exists ret s' frags, connect_calls fuel ios s = Some (ret, s')
    /\ progress M num t s ret s' frags.
Proof.
  revert s. induction ios as [|io ios IH]; intros s S R Ht Nt Hm Hf; cbn [connect_calls].
  - eexists _, _, []. split; [reflexivity|]. apply progress_none; done.
  - assert (sending M num t (set_net io (s_wire s) s)) as S0 by (destruct S; split; done).
    destruct (connect_resume_progress fuel M num t (set_net io (s_wire s) s) S0 R Ht Nt Hm Hf)
      as (ret & s1 & f1 & E & Pr). rewrite E.
    destruct (Z.eqb_spec ret WANT_WRITE) as [->|N]; [|exists ret, s1, f1; done].
    pose proof Pr as (e1 & r1 & _ & _ & _ & _ & W). destruct (W eq_refl) as (S1 & _ & R1 & O1).
    destruct (IH s1 S1 R1 Ht Nt) as (ret & s' & f2 & E2 & P2); [rewrite O1; done|done|].
    exists ret, s', (f1 ++ f2). split; [exact E2|].
    pose proof (progress_trans M num t _ s1 s1 ret s' f1 f2 Pr eq_refl eq_refl eq_refl P2) as PT.
    exact PT.
Qed.

(** ** What the peer makes of it *)

Lemma consecutive_in_order (M : list Z) o frags e : consecutive o frags e -> 0 <= o ->
  e <= Z.of_nat (length M) ->
  o <= e /\ in_order o frags = true /\ Forall (in_message M) frags.
Proof.
  revert o. induction frags as [|[o' n] fs IH]; intros o; cbn [consecutive in_order].
  - intros -> Ho He. split; [lia|]. split; [done|constructor].
  - intros (-> & Hn & C) Ho He. destruct (IH (o + n) C ltac:(lia) He) as (L & I & F).
    rewrite Z.max_r, I by lia. split; [lia|]. split; [lia|]. constructor; [|done].
    unfold in_message. cbn [fst snd]. lia.
Qed.

Lemma consecutive_covers o frags e : consecutive o frags e ->
  forall i, o <= i < e -> Exists (fun f => f.1 <= i < f.1 + f.2) frags.
Proof.
  revert o. induction frags as [|[o' n] fs IH]; intros o; cbn [consecutive].
  - intros -> i Hi. lia.
  - intros (-> & Hn & C) i Hi. destruct (Z.lt_ge_cases i (o + n)).
    + left. cbn [fst snd]. lia.
    + right. apply (IH (o + n)); [done|lia].
Qed.

(** C7: A message too large for one record arrives however often the transport
    blocks.  [s] is sending [M] from its start; the application calls
    wolfSSL_connect again after every WANT_WRITE, the transport doing whatever
    it likes during each call ([ios]).  The calls return; the records they queue
    for (re)transmission are the handshake header and bytes of non-empty
    fragments, each one starting where the one before ended.  If the calls end
    with success the connect state and the handshake number advanced by exactly
    one, nothing is left waiting, and a peer that is handed the fragments in
    the order sent has [M] reassembled; if the transport still blocks the state
    remembers where to go on. *)
Theorem fragmented_message_arrives fuel ios M num t s ep enc m :
  sending M num t s -> f_offset (s_frag s) = 0 -> out_ready 0 s ->
  is_byte t -> t <> hello_retry_request -> 60 <= o_mtu (s_opts s) ->
  0 < Z.of_nat (length M) < 2 ^ 24 -> Z.of_nat (length M) <= Z.of_nat fuel -> (forall n, alloc n = true) ->
  DtlsMsgNew alloc heap_byte (Z.of_nat (length M)) false = Some m ->
  exists ret s' frags e recs,
    connect_calls fuel ios s = Some (ret, s')
    /\ rtxRecords (s_rtx s') = rtxRecords (s_rtx s) ++ recs
    /\ Forall2 (fun r f => rd_data r = fragment_bytes num t M f /\ rd_type r = t) recs frags
    /\ consecutive 0 frags e
    /\ (ret = WANT_WRITE -> sending M num t s' /\ f_offset (s_frag s') = e)
    /\ (ret = 0 ->
          let peer := deliver alloc heap_byte M num ep t enc frags m in
          ready peer = true /\ fullMsg peer = M /\ ob_pend (s_out s') = []
          /\ n_next (s_nums s') = u16 (num + 1)
          /\ o_connectState (s_opts s') = o_connectState (s_opts s) + 1).
Proof.
  intros S E0 R Ht Nt Hm Hz Hf Al New.
  destruct (connect_calls_progress fuel ios M num t s S R Ht Nt Hm ltac:(lia))
    as (ret & s' & frags & E & e & recs & Q & C & Co & Ok & W). rewrite E0 in Co.
  exists ret, s', frags, e, recs. split; [done|]. split; [done|]. split; [done|]. split; [done|].
  split; [intros Ew; destruct (W Ew) as (S' & Eo & _); done|].
  intros Ez. destruct (Ok Ez) as (-> & _ & P & Nn & St).
  destruct (consecutive_in_order M 0 frags _ Co ltac:(lia) ltac:(lia))
    as (_ & I & F).
  pose proof (in_order_complete alloc heap_byte M Al ltac:(lia) num ep t enc m frags New F I
    ltac:(lia) (consecutive_covers 0 frags _ Co)) as X. cbn zeta. tauto.
Qed.
End Arrival.

(** ** Witnesses *)

(** A client with keys that sends a 100-byte certificate over an MTU of 80; the
    transport blocks during the first two calls. *)
Definition demo_cert : list Z := map Z.of_nat (seq 1 100).

Definition demo_sending : ssl :=
  let s := demo_ssl demo_client [] [] in
  set_out (OutBuf [] 0 STATIC_BUFFER_LEN false false)
    (set_frag (Frag demo_cert true 100 0 certificate)
       (set_opts (Opts true 3 FIRST_REPLY_DONE 0 0 false false 0 false true true false true 80
                    wolfssl_aes_gcm) s)).

Definition demo_calls : list (list Z) := [[-2]; [50; -2]; [13; 63; -2]; [63; 47]].

Lemma demo_sending_ok : sending demo_cert 0 certificate demo_sending.
Proof. split; vm_compute; done. Qed.

Lemma demo_calls_result :
  match connect_calls 100 demo_calls demo_sending with
  | Some (r, s) => r = 0 /\ length (rtxRecords (s_rtx s)) = 4%nat
      /\ o_connectState (s_opts s) = FIRST_REPLY_DONE + 1
  | None => False
  end.
Proof. vm_compute. split; [|split]; reflexivity. Qed.

Lemma fragmented_message_arrives_witness :
  exists s' frags recs, connect_calls 100 demo_calls demo_sending = Some (0, s')
  /\ rtxRecords (s_rtx s') = recs /\ length recs = 4%nat
  /\ o_connectState (s_opts s') = FIRST_REPLY_DONE + 1
  /\ fullMsg (deliver (fun _ => true) 0xa5 demo_cert 0 2 certificate true frags
                (Msg [] [] [] 0 0 0 100 no_shake 0 false false)) = demo_cert.
Proof.
  destruct (fragmented_message_arrives 100 demo_calls demo_cert 0 certificate demo_sending 2 true
              (Msg [] [] [] 0 0 0 100 no_shake 0 false false) demo_sending_ok eq_refl
              ltac:(vm_compute; repeat split; congruence) ltac:(done) ltac:(done)
              ltac:(vm_compute; congruence) ltac:(done) ltac:(vm_compute; congruence)
              ltac:(done) eq_refl)
    as (ret & s' & frags & e & recs & E & Q & C & Co & W & Ok).
  pose proof demo_calls_result as D.
  rewrite E in D. destruct D as (-> & Lr & St).
  destruct (Ok eq_refl) as (_ & Fm & _).
  exists s', frags, recs. rewrite Q in Lr. split; [done|]. split; [exact Q|]. split; [exact Lr|].
  split; [exact St|exact Fm].
Defined.

(** ** A blocked flush before the first fragment *)

Section Blocked.
Context `{CryptoLaws, Heap}.

Lemma SendBuffered_blocked s : s_io s = [] -> ob_pend (s_out s) <> [] ->
  SendBuffered s = (WANT_WRITE, s).
Proof.
  intros I P. unfold SendBuffered. rewrite I. cbn [SendBuffered_loop].
  destruct (ob_pend (s_out s)) eqn:E; [done|].
  change (WANT_WRITE =? 0) with false. cbn [negb]. rewrite <- I. destruct s; done.
Qed.

Lemma SendBuffered_flushed s : s_io s = [ob_length (s_out s)] -> ob_pend (s_out s) <> [] ->
  exists s', SendBuffered s = (0, s') /\ ob_pend (s_out s') = [] /\ net_frame s s'
  /\ s_wire s' = s_wire s ++ [ob_pend (s_out s)].
Proof.
  intros I P. pose proof (SendBuffered_spec s) as X. destruct (SendBuffered s) as [ret s'] eqn:E.
  destruct X as (_ & Z0 & _ & Fr & _). unfold SendBuffered in E. rewrite I in E.
  cbn [SendBuffered_loop] in E. destruct (ob_pend (s_out s)) as [|x l] eqn:Ep; [done|].
  rewrite <- Ep in *. destruct (Z.ltb_spec (ob_length (s_out s)) 0); [unfold ob_length in *; lia|].
  rewrite Z.ltb_irrefl in E. cbn [ob_pend] in E.
  assert (Z.to_nat (ob_length (s_out s)) = length (ob_pend (s_out s))) as En
    by (unfold ob_length; lia).
  rewrite En, drop_all, firstn_all in E. cbn [Z.eqb negb ob_pend] in E. injection E as <- <-.
  eexists. split; [reflexivity|]. split; [apply Z0; done|]. split; [exact Fr|done].
Qed.

Lemma GetMaxFragSize_mtu s : 60 <= o_mtu (s_opts s) <= MAX_RECORD_SIZE ->
  wolfSSL_GetMaxFragSize MAX_RECORD_SIZE s
  = o_mtu (s_opts s) - (if IsEncryptionOn_send s then 34 else 25).
Proof.
  intros Hm. unfold wolfSSL_GetMaxFragSize. rewrite Z.ltb_irrefl. set (n := fst (BuildTls13Message_size _)).
  assert (n = MAX_RECORD_SIZE + 34) as -> by (vm_compute; done).
  change DTLS_RECORD_HEADER_SZ with 13. change DTLS_HANDSHAKE_HEADER_SZ with 12.
  unfold ModifyForMTU, MAX_RECORD_SIZE in *. destruct (IsEncryptionOn_send s);
    repeat match goal with |- context [?a <? ?b] => destruct (Z.ltb_spec a b); [|lia] end;
    cbn [andb]; lia.
Qed.

Lemma SendFragmented_blocked fuel M num t s :
  let rl := Dtls13GetRlHeaderLength (Dtls13TypeIsEncrypted t) in
  sending M num t s -> s_io s = [] -> ob_pend (s_out s) <> [] ->
  60 <= o_mtu (s_opts s) <= MAX_RECORD_SIZE -> ob_length (s_out s) < 2 ^ 31 ->
  wolfSSL_GetMaxFragSize MAX_RECORD_SIZE s - rl - 12 <= Z.of_nat (length M) - f_offset (s_frag s) ->
  Dtls13SendFragmentedInternal (S fuel) s = Some (WANT_WRITE, Dtls13FreeFragmentsBuffer s).
Proof.
  intros rl S I P Hm Hl Hlen. pose proof (GetMaxFragSize_mtu s Hm) as Em. unfold MAX_RECORD_SIZE in Hm.
  assert (0 <= rl <= 13) as Hrl by (unfold rl; destruct (Dtls13TypeIsEncrypted t); done).
  unfold Dtls13SendFragmentedInternal. pose proof S as [_ _ -> -> _ _]. fold rl.
  set (mx := wolfSSL_GetMaxFragSize MAX_RECORD_SIZE s) in *.
  assert (26 <= mx /\ o_mtu (s_opts s) - 34 <= mx <= o_mtu (s_opts s)) as Hx
    by (rewrite Em; destruct (IsEncryptionOn_send s); lia). clear Em.
  assert (0 <= ob_length (s_out s)) as Hp by (unfold ob_length; lia).
  cbn [SendFragments]. change DTLS_HANDSHAKE_HEADER_SZ with 12.
  destruct (Z.leb_spec (Z.of_nat (length M) - f_offset (s_frag s)) 0); [lia|].
  destruct (Z.ltb_spec (Z.of_nat (length M) - f_offset (s_frag s)) (mx - rl - 12)); [lia|].
  destruct (Z.ltb_spec (mx - rl - 12) 0); [lia|].
  unfold CheckAvailableSize at 1. change MAX_MSG_EXTRA with 102.
  destruct (Z.ltb_spec (mx + 102) 0); [lia|]. rewrite wrap_small by (unfold in_word; lia).
  destruct (Z.ltb_spec (o_mtu (s_opts s)) (mx + 102 + ob_length (s_out s))); [|lia].
  rewrite SendBuffered_blocked by done. done.
Qed.

(** C39: A transport that blocks while an earlier message waits makes the client
    skip a fragmented message.  When a message needs fragments, some bytes wait
    in the output buffer (a message grouped before it) and the transport takes
    nothing, [Dtls13SendFragmentedInternal] returns WANT_WRITE - which tells the
    application to try again - but has thrown the message away: nothing of it
    is queued and no message is marked as being sent.  When the application does
    call wolfSSL_connect again and the transport takes what was waiting, the
    connect state advances to the next message with nothing of this one ever
    sent and its handshake number not used. *)
Theorem blocked_flush_drops_message fuel M num t s :
  let rl := Dtls13GetRlHeaderLength (Dtls13TypeIsEncrypted t) in
  sending M num t s -> out_ready 0 s -> s_io s = [] -> ob_pend (s_out s) <> [] ->
  60 <= o_mtu (s_opts s) <= MAX_RECORD_SIZE -> ob_length (s_out s) < 2 ^ 31 ->
  wolfSSL_GetMaxFragSize MAX_RECORD_SIZE s - rl - 12 <= Z.of_nat (length M) - f_offset (s_frag s) ->
  FIRST_REPLY_DONE <= o_connectState (s_opts s) < FIRST_REPLY_FOURTH ->
  ku_sendingAckOrRtx (s_ku s) = false ->
  exists s1 s2,
    Dtls13SendFragmentedInternal (S fuel) s = Some (WANT_WRITE, s1)
    /\ f_sending (s_frag s1) = false /\ s_rtx s1 = s_rtx s /\ s_out s1 = s_out s
    /\ connect_resume (fun s => (0, s)) fuel true (set_net [ob_length (s_out s1)] (s_wire s1) s1)
       = Some (0, s2)
    /\ o_connectState (s_opts s2) = o_connectState (s_opts s) + 1
    /\ s_rtx s2 = s_rtx s /\ n_next (s_nums s2) = num
    /\ s_wire s2 = s_wire s ++ [ob_pend (s_out s)] /\ ob_pend (s_out s2) = [].
Proof.
  intros rl S R I P Hm Hl Hlen St Ku. exists (Dtls13FreeFragmentsBuffer s).
  set (s0 := set_net _ _ _).
  destruct (SendBuffered_flushed s0 eq_refl P) as (s2 & E2 & P2 & Fr & W2).
  destruct (net_send_frame _ _ Fr) as [Eo Er En _ Ek Ef _ _ _].
  eexists. split; [|split; [done|split; [done|split; [done|split]]]].
  - apply (SendFragmented_blocked fuel M num t); done.
  - unfold connect_resume. change (ob_length (s_out s0)) with (ob_length (s_out s)).
    assert (0 < ob_length (s_out s)) as Hp.
    { unfold ob_length. destruct (ob_pend (s_out s)); [done|cbn [length]; lia]. }
    destruct (Z.ltb_spec 0 (ob_length (s_out s))); [|lia]. rewrite E2. cbn [negb Z.eqb].
    change (f_sending (s_frag s0)) with false. change (ku_sendingAckOrRtx (s_ku s0)) with (ku_sendingAckOrRtx (s_ku s)).
    change (s_opts s0) with (s_opts s). rewrite Ku. cbn [negb].
    destruct (Z.leb_spec FIRST_REPLY_DONE (o_connectState (s_opts s))); [|lia].
    destruct (Z.leb_spec (o_connectState (s_opts s)) FIRST_REPLY_FOURTH); [|lia].
    destruct (Z.eqb_spec (o_connectState (s_opts s)) FIRST_REPLY_FOURTH); [lia|].
    cbn [andb]. rewrite !orb_true_r, andb_false_r. cbn [andb s_frag set_ku].
    change (s_frag (advance_connectState s2)) with (s_frag s2). rewrite Ef. reflexivity.
  - unfold advance_connectState. cbn. rewrite Eo, Er, En. split_and!; try done. apply S.
Qed.
End Blocked.

Definition demo_blocked : ssl :=
  set_out (OutBuf [1; 2; 3] 0 STATIC_BUFFER_LEN false false) demo_sending.

Lemma blocked_flush_drops_message_witness :
  exists s1 s2,
    Dtls13SendFragmentedInternal 100 demo_blocked = Some (WANT_WRITE, s1)
    /\ connect_resume (fun s => (0, s)) 99 true (set_net [3] (s_wire s1) s1) = Some (0, s2)
    /\ o_connectState (s_opts s2) = 5 /\ rtxRecords (s_rtx s2) = [] /\ s_wire s2 = [[1; 2; 3]].
Proof.
  destruct (blocked_flush_drops_message 99 demo_cert 0 certificate demo_blocked
              ltac:(split; vm_compute; done) ltac:(vm_compute; repeat split; congruence) eq_refl
              ltac:(done) ltac:(vm_compute; split; congruence) ltac:(vm_compute; congruence)
              ltac:(vm_compute; congruence) ltac:(vm_compute; split; congruence) eq_refl)
    as (s1 & s2 & A & _ & _ & B & C & D & E & _ & F & _).
  exists s1, s2. rewrite B in C. rewrite D, E, F. split; [exact A|]. split; [exact C|].
  vm_compute. done.
Defined.
