(* ===== verification/DtlsHandshake.v ===== *)
(** * Receiving handshake messages
      (src/boot/src/dtls13.c, src/boot/src/internal.c)

    What happens to a handshake record between the record layer and the handler
    of the message: the checks on type, encryption, epoch and position, the
    suppression of retransmissions, the storing of fragments and of messages
    that came too early, and the delivery in the order of the message numbers. *)

From stdpp Require Import countable.
From S2P Require Import Prelude Misc RtxList DtlsDefs DtlsEpoch DtlsRecord DtlsPlain DtlsMsg.
From S2P Require Import DtlsState DtlsOut DtlsProtect DtlsRtx.

(** ** Checks on the type of a message *)

(** [switch] on the type: is it one of these cases? *)
Definition one_of (type : Z) (cases : list Z) : bool := existsb (Z.eqb type) cases.

(** HAVE_SECURE_RENEGOTIATION is not defined. *)
Definition IsSCR : bool := false.

Definition MsgCheckEncryption (type : Z) (encrypted : bool) (s : ssl) : Z :=
  if o_tls13 (s_opts s) then
    if one_of type [client_hello; server_hello; hello_verify_request; hello_retry_request;
                    change_cipher_hs]
    then if encrypted then OUT_OF_ORDER_E else 0
    else if one_of type [hello_request; session_ticket; end_of_early_data; encrypted_extensions;
                         certificate; server_key_exchange; certificate_request; server_hello_done;
                         certificate_verify; client_key_exchange; finished; certificate_status;
                         key_update]
    then if negb encrypted then OUT_OF_ORDER_E else 0
    else SANITY_MSG_E
  else
    if type =? client_hello
    then if (IsSCR || handShakeDone (s_conn s)) && negb encrypted then OUT_OF_ORDER_E else 0
    else if one_of type [server_hello; hello_verify_request; hello_retry_request; certificate;
                         server_key_exchange; certificate_request; server_hello_done;
                         certificate_verify; client_key_exchange; certificate_status;
                         session_ticket; change_cipher_hs]
    then if IsSCR then (if negb encrypted then OUT_OF_ORDER_E else 0)
         else if encrypted then OUT_OF_ORDER_E else 0
    else if one_of type [hello_request; finished]
    then if negb encrypted then OUT_OF_ORDER_E else 0
    else SANITY_MSG_E.

(** The record the message is in: the reader, the padding at its end and the
    index its plaintext started at. *)
Record cur_record := CurRec { cr_reader : reader; cr_padSz : Z; cr_startIdx : nat }.

(** IsEncryptionOn(ssl, 0). *)
Definition IsEncryptionOn_recv (r : reader) (s : ssl) : bool :=
  if negb (o_tls13 (s_opts s)) && (curEpoch r =? 0) then false
  else if o_tls13 (s_opts s) && w64IsZero (curEpoch64 (s_conn s)) then false
  else o_encryptionOn (s_opts s) && bool_decide (c_key (dec_ctx (s_conn s)) <> None).

Definition isLastMsg (cr : cur_record) (msgSz : Z) (s : ssl) : bool :=
  let r := cr_reader cr in
  let extra := if IsEncryptionOn_recv r s then cr_padSz cr else 0 in
  u32 (u32 (Z.of_nat (inputIdx r) - Z.of_nat (cr_startIdx cr)) + msgSz + extra) =? curSize r.

Definition MsgCheckBoundary (cr : cur_record) (type : Z) (version_negotiated : bool) (msgSz : Z)
    (s : ssl) : Z :=
  let last_only := if isLastMsg cr msgSz s then 0 else OUT_OF_ORDER_E in
  if version_negotiated then
    if o_tls13 (s_opts s) then
      if one_of type [hello_request; client_hello; server_hello; hello_verify_request;
                      hello_retry_request; finished; end_of_early_data] then last_only
      else if one_of type [session_ticket; encrypted_extensions; certificate; server_key_exchange;
                           certificate_request; certificate_verify; client_key_exchange;
                           certificate_status; key_update; change_cipher_hs] then 0
      else SANITY_MSG_E
    else
      if one_of type [hello_request; client_hello; hello_verify_request] then last_only
      else if one_of type [server_hello; session_ticket; end_of_early_data; certificate;
                           server_key_exchange; certificate_request; server_hello_done;
                           certificate_verify; client_key_exchange; finished; certificate_status;
                           change_cipher_hs] then 0
      else SANITY_MSG_E
  else
    if one_of type [hello_request; client_hello; hello_verify_request] then last_only
    else if one_of type [server_hello; session_ticket; end_of_early_data; hello_retry_request;
                         encrypted_extensions; certificate; server_key_exchange;
                         certificate_request; server_hello_done; certificate_verify;
                         client_key_exchange; finished; certificate_status; key_update;
                         change_cipher_hs] then 0
    else SANITY_MSG_E.

Definition Dtls13CheckEpoch (type : Z) (s : ssl) : Z :=
  let c := s_conn s in
  let cur := curEpoch64 c in
  let hsEpoch := w64From32 0 DTLS13_EPOCH_HANDSHAKE in
  let t0Epoch := w64From32 0 DTLS13_EPOCH_TRAFFIC0 in
  let plainEpoch := w64From32 0 0 in
  (* before processing SH we don't know which version will be negotiated *)
  let undecided := (side c =? WOLFSSL_CLIENT_END)
                   && (o_serverState (s_opts s) <? SERVER_HELLO_COMPLETE) in
  let hs_or_plain :=
    if negb (w64Equal cur hsEpoch)
    then if undecided then (if negb (w64Equal cur plainEpoch) then SANITY_MSG_E else 0)
         else SANITY_MSG_E
    else 0 in
  if o_tls13 (s_opts s) then
    if one_of type [client_hello; server_hello; hello_verify_request; hello_retry_request;
                    hello_request]
    then if negb (w64Equal cur plainEpoch) then SANITY_MSG_E else 0
    else if one_of type [encrypted_extensions; server_key_exchange; server_hello_done;
                         client_key_exchange] then hs_or_plain
    else if one_of type [certificate_request; certificate; certificate_verify; finished]
    then if negb (handShakeDone c) then hs_or_plain
         else if negb (w64GTE cur hsEpoch) then SANITY_MSG_E else 0
    else if one_of type [certificate_status; change_cipher_hs; key_update; session_ticket]
    then if negb (w64GTE cur t0Epoch) then SANITY_MSG_E else 0
    else SANITY_MSG_E
  else 0.

Definition Dtls13AcceptFragmented (r : reader) (type : Z) (s : ssl) : bool :=
  let c := s_conn s in
  let o := s_opts s in
  if IsEncryptionOn_recv r s then true
  else if (side c =? WOLFSSL_CLIENT_END) && (type =? server_hello) then true
  else (side c =? WOLFSSL_SERVER_END) && (type =? client_hello) && o_dtls13ChFrag o
       && o_dtlsStateful o.

(** ** The code behind the handshake layer *)

(** The message handlers of tls13.c, internal.c and dtls.c.  The first two take
    the message, the index behind its header, its type, its size and the bytes
    available, and return their code, the index behind the message and the
    connection. *)
Class Handlers := {
  DoTls13HandShakeMsgType : list Z -> Z -> Z -> Z -> Z -> ssl -> Z * Z * ssl;
  DoHandShakeMsgType : list Z -> Z -> Z -> Z -> Z -> ssl -> Z * Z * ssl;
  (* the code, whether the ClientHello asks for TLS 1.3 *)
  DoClientHelloStateless : list Z -> Z -> bool -> ssl -> Z * bool * ssl;
  chGoodCb : option (ssl -> Z * ssl);
  send_unexpected_message : ssl -> ssl;      (* SendAlert(ssl, alert_fatal, unexpected_message) *)
  usingAsyncCrypto : bool                    (* ssl->devId != INVALID_DEVID *)
}.

Section Receive.
Context `{Handlers, Heap}.

Definition EarlySanityCheckMsgReceived (cr : cur_record) (type msgSz : Z) (s : ssl) : Z * ssl :=
  let version_negotiated := SERVER_HELLO_COMPLETE <=? o_serverState (s_opts s) in
  let ret := if version_negotiated
             then MsgCheckEncryption type (decryptedCur (cr_reader cr)) s else 0 in
  let ret := if ret =? 0 then MsgCheckBoundary cr type version_negotiated msgSz s else ret in
  (ret, if negb (ret =? 0) && o_dtlsStateful (s_opts s) then send_unexpected_message s else s).

(** ** Messages waiting in the queue *)

Definition expect_next (s : ssl) : ssl :=
  let n := s_nums s in set_nums (Nums (n_next n) (u16 (n_expected n + 1)) (n_peer n)) s.

(** The message counts as processed. *)
Definition processed_ok (type ret : Z) (s : ssl) : bool :=
  (ret =? 0) || (ret =? WANT_WRITE)
  || (type =? certificate_request) && handShakeDone (s_conn s) && (ret =? WC_PENDING_E).

(** The handler of a queued message, and whether the version was lowered. *)
Definition run_handler (m : DtlsMsg) (s : ssl) : Z * bool * ssl :=
  if o_tls13 (s_opts s) then
    let '(ret, _, s) := DoTls13HandShakeMsgType (fullMsg m) 0 (m_type m) (m_sz m) (m_sz m) s in
    (ret, negb (o_tls13 (s_opts s)), s)
  else
    let '(ret, _, s) := DoHandShakeMsgType (fullMsg m) 0 (m_type m) (m_sz m) (m_sz m) s in
    (ret, false, s).

(** The head of the queue is dropped. *)
Definition pop_rx (rest : list DtlsMsg) (s : ssl) : ssl := set_rx (rest, snd (s_rx s) - 1) s.

(** The loop of [Dtls13ProcessBufferedMessages] over the queue [l]. *)
Fixpoint ProcessBuffered_loop (l : list DtlsMsg) (ret : Z) (s : ssl) : Z * ssl :=
  match l with
  | [] => (ret, s)
  | m :: rest =>
      if negb (n_expected (s_nums s) =? m_seq m) then (ret, s)
      else if negb (ready m) then (ret, s)
      else
        let ret := MsgCheckEncryption (m_type m) (encrypted m) s in
        if negb (ret =? 0) then (ret, send_unexpected_message s)
        else
          let '(ret, downgraded, s) := run_handler m s in
          let s :=
            if processed_ok (m_type m) ret s then
              pop_rx rest (if o_tls13 (s_opts s) then Dtls13MsgWasProcessed (m_type m) s
                      else if downgraded then expect_next s else s)
            else s in
          if negb (ret =? 0) then (ret, s) else ProcessBuffered_loop rest ret s
  end.

Definition Dtls13ProcessBufferedMessages (s : ssl) : Z * ssl :=
  ProcessBuffered_loop (fst (s_rx s)) 0 s.

Definition Dtls13NextMessageComplete (s : ssl) : bool :=
  match fst (s_rx s) with
  | m :: _ => ready m && (m_seq m =? n_expected (s_nums s))
  | [] => false
  end.

Definition deliver_buffered (s : ssl) : Z * ssl :=
  if Dtls13NextMessageComplete s then Dtls13ProcessBufferedMessages s else (0, s).

(** ** A handshake record *)

(** The stateless server adopts the numbers of the ClientHello. *)
Definition adopt_numbers (s : ssl) : ssl :=
  let n := s_nums s in
  let c := s_conn s in
  set_conn (set_slot 0 (e_set_seq (curSeq c) (slot c 0)) c)
    (set_nums (Nums (n_peer n) (n_peer n) (n_peer n)) s).

(** A fragment that is not accepted as such: [None] when it is ignored, else the
    code (0: store it and continue). *)
Definition first_ch_fragment (isFirst : bool) (handshakeType : Z) (body : list Z) (fragLength : Z)
    (s : ssl) : option Z * ssl :=
  if o_dtls13ChFrag (s_opts s) && negb (o_dtlsStateful (s_opts s)) && isFirst
     && (handshakeType =? client_hello)
  then
    let '(ret, tls13, s) := DoClientHelloStateless body fragLength true s in
    if (ret =? 0) && tls13 then
      match chGoodCb with
      | None => (Some 0, s)
      | Some cb => let '(cbret, s) := cb s in
                   (Some (if cbret <? 0 then WOLFSSL_FATAL_ERROR else 0), s)
      end
    else (None, s)
  else (None, s).

(** Storing a fragment or an early message. *)
Definition store_message (r : reader) (h : HsHeader) (input : list Z) (s : ssl) : Z * ssl :=
  if snd (s_rx s) <? DTLS_POOL_SZ then
    (0, set_rx (DtlsMsgStore alloc heap_byte (u16 (w64GetLow32 (curEpoch64 (s_conn s))))
                  (n_peer (s_nums s)) (take (Z.to_nat (hh_fragSz h)) (drop 12 input)) (hh_size h)
                  (hh_type h) (hh_fragOffset h) (hh_fragSz h) (decryptedCur r) (s_rx s)) s)
  else (DTLS_TOO_MANY_FRAGMENTS_E, s).

(** The part after [Dtls13RtxMsgRecvd]: the code, the bytes consumed, the state. *)
Definition dispatch_message (cr : cur_record) (h : HsHeader) (input : list Z) (size idx : Z) (s : ssl)
    : Z * Z * ssl :=
  let r := cr_reader cr in
  let skip := u32 (idx + hh_fragSz h + cr_padSz cr) in
  if n_peer (s_nums s) <? n_expected (s_nums s) then (0, skip, s)
  else
    let isFirst := hh_fragOffset h =? 0 in
    let isComplete := isFirst && (hh_fragSz h =? hh_size h) in
    let '(go, s) :=
      if negb isComplete && negb (Dtls13AcceptFragmented r (hh_type h) s)
      then first_ch_fragment isFirst (hh_type h) (drop (Z.to_nat idx) input) (hh_fragSz h) s
      else (Some 0, s) in
    match go with
    | None => (0, skip, s)
    | Some e =>
        if negb (e =? 0) then (e, 0, s)
        else if negb isComplete || (n_expected (s_nums s) <? n_peer (s_nums s)) || usingAsyncCrypto
        then
          let '(ret, s) := store_message r h input s in
          if negb (ret =? 0) then (ret, 0, s)
          else let '(ret, s) := deliver_buffered s in (ret, skip, s)
        else
          let '(ret, idx, s) := DoTls13HandShakeMsgType input idx (hh_type h) (hh_size h) size s in
          if negb (ret =? 0) then (ret, idx, s)
          else
            let '(ret, s) := deliver_buffered (Dtls13MsgWasProcessed (hh_type h) s) in
            (ret, idx, s)
    end.

(** [input]: the [size] bytes from the message on.  The result is the code, the
    bytes consumed and the state. *)
Definition Dtls13HandshakeRecv_message (cr : cur_record) (input : list Z) (size : Z) (s : ssl)
    : Z * Z * ssl :=
  let '(ret, idx, h, r) := GetDtlsHandShakeHeader input 0 size
                               (set_peer_hs (n_peer (s_nums s)) (cr_reader cr)) in
  let n := s_nums s in
  let s := set_nums (Nums (n_next n) (n_expected n) (dtls_peer_handshake_number r)) s in
  if negb (ret =? 0) then (PARSE_ERROR, 0, s)
  else
    let '(ret, s) := EarlySanityCheckMsgReceived cr (hh_type h) (u32 (idx + hh_fragSz h)) s in
    if negb (ret =? 0) then (ret, 0, s)
    else
      let ret := Dtls13CheckEpoch (hh_type h) s in
      if negb (ret =? 0) then (ret, 0, s)
      else
        let stateless := (side (s_conn s) =? WOLFSSL_SERVER_END)
                         && (o_acceptState (s_opts s) <? ACCEPT_FIRST_REPLY_DONE) in
        if stateless && negb (hh_type h =? client_hello) then (0, size, s)
        else
          let s := if stateless then adopt_numbers s else s in
          if size <? u32 (idx + hh_fragSz h) then (INCOMPLETE_DATA, 0, s)
          else if hh_size h <? u32 (hh_fragOffset h + hh_fragSz h) then (BUFFER_ERROR, 0, s)
          else
            let '(ret, s) := Dtls13RtxMsgRecvd (hh_type h) (hh_fragOffset h) s in
            if negb (ret =? 0) then (ret, 0, s) else dispatch_message cr h input size idx s.

(** The index behind the message and the state. *)
Definition Dtls13HandshakeRecv (cr : cur_record) (input : list Z) (inOutIdx totalSz : Z) (s : ssl)
    : Z * Z * ssl :=
  let '(ret, processedSize, s) :=
    Dtls13HandshakeRecv_message cr (drop (Z.to_nat inOutIdx) input) (u32 (totalSz - inOutIdx)) s in
  (ret, u32 (inOutIdx + processedSize), s).
End Receive.

(** ** Delivery in order *)

(** What the handlers leave alone. *)
Record kept (s s' : ssl) : Prop := {
  k_rx : s_rx s' = s_rx s; k_exp : n_expected (s_nums s') = n_expected (s_nums s);
  k_13 : o_tls13 (s_opts s') = o_tls13 (s_opts s);
  k_stateful : o_dtlsStateful (s_opts s') = o_dtlsStateful (s_opts s);
  k_side : side (s_conn s') = side (s_conn s) }.

#[export] Instance kept_preorder : PreOrder kept.
Proof.
  split; [intros s; split; done|]. intros s1 s2 s3 [] []. split; etransitivity; eassumption.
Qed.

(** Handlers of a TLS 1.3 connection that do not block: each one records the
    message it processed; they and the alerts leave the reassembly alone. *)
Class Orderly `{Handlers} (log : ssl -> list (list Z)) : Prop := {
  handler_log input idx type size total s :
    let '(ret, _, s') := DoTls13HandShakeMsgType input idx type size total s in
    kept s s' /\ ret <> WANT_WRITE /\ ret <> WC_PENDING_E
    /\ log s' = log s ++ (if ret =? 0 then [slice (Z.to_nat idx) (Z.to_nat size) input] else []);
  alert_log s : kept s (send_unexpected_message s) /\ log (send_unexpected_message s) = log s;
  log_frame s s' : s_transcript s' = s_transcript s -> log s' = log s }.

(** Bookkeeping that concerns neither the queue nor the numbers. *)
Definition untouched (s s' : ssl) : Prop :=
  s_conn s' = s_conn s /\ s_opts s' = s_opts s /\ s_nums s' = s_nums s /\ s_rx s' = s_rx s
  /\ s_transcript s' = s_transcript s.

Lemma untouched_trans s1 s2 s3 : untouched s1 s2 -> untouched s2 s3 -> untouched s1 s3.
Proof. unfold untouched. intuition congruence. Qed.

Lemma untouched_kept s s' : untouched s s' -> kept s s'.
Proof. intros (C & O & N & R & _). split; congruence. Qed.

Lemma MaybeSaveClientHello_untouched s : untouched s (Dtls13MaybeSaveClientHello s).
Proof. unfold Dtls13MaybeSaveClientHello. repeat case_match; done. Qed.

Lemma RtxRemoveCurAck_untouched s : untouched s (Dtls13RtxRemoveCurAck s).
Proof. unfold Dtls13RtxRemoveCurAck. repeat case_match; done. Qed.

Lemma PoolReset_untouched s : untouched s (DtlsMsgPoolReset s).
Proof. unfold DtlsMsgPoolReset. destruct (fst (s_tx s)); done. Qed.

Lemma RtxMsgRecvd_untouched hs o s :
  fst (Dtls13RtxMsgRecvd hs o s) = 0 /\ untouched s (snd (Dtls13RtxMsgRecvd hs o s)).
Proof.
  unfold Dtls13RtxMsgRecvd. cbn [fst snd]. split; [done|].
  set (s1 := if _ && (_ <=? _) then _ else s).
  assert (untouched s s1) as U1.
  { subst s1. destruct (_ && _); [|done].
    set (s0 := if hs =? server_hello then _ else s). assert (untouched s s0) as U0
      by (subst s0; destruct (_ =? _); [apply MaybeSaveClientHello_untouched|done]).
    destruct (_ || _); [|done]. apply (untouched_trans _ s0); [done|apply PoolReset_untouched]. }
  set (s2 := if _ <? _ then _ else s1).
  assert (untouched s s2) as U2.
  { apply (untouched_trans _ s1); [done|]. subst s2. destruct (_ <? _); [|done].
    repeat case_match; done. }
  set (s3 := if _ && _ && _ then _ else s2).
  assert (untouched s s3) as U3.
  { apply (untouched_trans _ s2); [done|]. subst s3. destruct (_ && _ && _); [|done].
    apply RtxRemoveCurAck_untouched. }
  apply (untouched_trans _ s3); [done|]. case_match; done.
Qed.

Section InOrder.
Context `{Handlers, Heap} (log : ssl -> list (list Z)) `{!Orderly log}.
(** The peer's messages, by number. *)
Context (body : Z -> list Z) (ty : Z -> Z).
Hypothesis alloc_ok : forall n, alloc n = true.
Hypothesis body_small : forall q, Z.of_nat (length (body q)) < 2 ^ 24.

(** A queued message is one of the peer's, as far as it was received. *)
Definition peer_message (m : DtlsMsg) : Prop :=
  0 <= m_seq m < 65535
  /\ exists R, collecting (body (m_seq m)) (m_seq m) (m_epoch m) (ty (m_seq m)) R m.

Lemma ready_peer m : peer_message m -> ready m = true -> fullMsg m = body (m_seq m) /\ m_sz m = Z.of_nat (length (body (m_seq m))).
Proof. intros (_ & R & [Sz C _]) Er. destruct (C Er). done. Qed.

(** Messages [k] to [k + j - 1], in order. *)
Definition messages (k : Z) (j : nat) : list (list Z) := map (fun i => body (k + Z.of_nat i)) (seq 0 j).

Lemma messages_app k j1 j2 : messages k (j1 + j2) = messages k j1 ++ messages (k + Z.of_nat j1) j2.
Proof.
  unfold messages. rewrite seq_app, map_app. f_equal. cbn [Nat.add].
  rewrite <- (Nat.add_0_r j1) at 1. rewrite <- fmap_add_seq. rewrite map_map.
  apply map_ext. intros i. f_equal. lia.
Qed.

Lemma messages_one k : messages k 1 = [body k].
Proof. unfold messages. cbn [seq map]. rewrite Z.add_0_r. done. Qed.

(** [j] messages were processed; the connection stays a stateful TLS 1.3 one whose
    queue holds messages of the peer. *)
Record advanced (j : nat) (s s' : ssl) : Prop := {
  ad_log : log s' = log s ++ messages (n_expected (s_nums s)) j;
  ad_exp : n_expected (s_nums s') = n_expected (s_nums s) + Z.of_nat j;
  ad_13 : o_tls13 (s_opts s') = o_tls13 (s_opts s);
  ad_stateful : o_dtlsStateful (s_opts s') = o_dtlsStateful (s_opts s);
  ad_side : side (s_conn s') = side (s_conn s);
  ad_rx : Forall peer_message (fst (s_rx s')) }.

Lemma advanced_none s s' : kept s s' -> log s' = log s -> Forall peer_message (fst (s_rx s)) ->
  advanced 0 s s'.
Proof.
  intros [] L F. split; try done; [rewrite L, app_nil_r; done|lia|rewrite k_rx0; done].
Qed.

Lemma advanced_trans j1 j2 s1 s2 s3 : advanced j1 s1 s2 -> advanced j2 s2 s3 ->
  advanced (j1 + j2) s1 s3.
Proof.
  intros [L1 E1 A1 B1 C1 F1] [L2 E2 A2 B2 C2 F2]. split; try congruence; try lia.
  rewrite L2, L1, E1, messages_app, app_assoc. done.
Qed.

(** One message is taken: its handler ran and the counter moves on. *)
Lemma processed_one s s1 s2 t :
  kept s s1 -> log s1 = log s ++ [body (n_expected (s_nums s))] ->
  o_dtlsStateful (s_opts s) = true -> 0 <= n_expected (s_nums s) < 65535 ->
  s_transcript s2 = s_transcript (Dtls13MsgWasProcessed t s1) ->
  s_nums s2 = s_nums (Dtls13MsgWasProcessed t s1) -> s_opts s2 = s_opts s1 ->
  s_conn s2 = s_conn s1 -> Forall peer_message (fst (s_rx s2)) -> advanced 1 s s2.
Proof.
  intros [] L St K Et En Eo Ec F. unfold Dtls13MsgWasProcessed in *.
  rewrite k_stateful0, St in Et, En. cbn in Et, En. split; try congruence.
  - rewrite messages_one, <- L. apply log_frame. done.
  - rewrite En. cbn [n_expected]. rewrite k_exp0, wrap_small by (unfold in_word; lia). lia.
Qed.

Lemma MsgWasProcessed_frame t s : s_opts (Dtls13MsgWasProcessed t s) = s_opts s
  /\ s_conn (Dtls13MsgWasProcessed t s) = s_conn s /\ s_rx (Dtls13MsgWasProcessed t s) = s_rx s.
Proof. unfold Dtls13MsgWasProcessed. cbn zeta. destruct (o_dtlsStateful (s_opts s)); done. Qed.

Lemma ProcessBuffered_loop_spec l : forall ret s n, Forall peer_message l -> s_rx s = (l, n) ->
  o_tls13 (s_opts s) = true -> o_dtlsStateful (s_opts s) = true ->
  exists j, advanced j s (snd (ProcessBuffered_loop l ret s)).
Proof.
  induction l as [|m l IH]; intros ret s n F Rx T St; cbn [ProcessBuffered_loop snd].
  { exists 0%nat. apply advanced_none; [reflexivity|done|rewrite Rx; done]. }
  inversion F as [|?? Fm Fl]; subst.
  assert (advanced 0 s s) as A0 by (apply advanced_none; [reflexivity|done|rewrite Rx; done]).
  destruct (Z.eqb_spec (n_expected (s_nums s)) (m_seq m)) as [Es|]; cbn [negb]; [|exists 0%nat; done].
  destruct (ready m) eqn:Er; cbn [negb]; [|exists 0%nat; done].
  destruct (negb _).
  { exists 0%nat. destruct (alert_log s) as [Ka La]. apply advanced_none; [done|done|rewrite Rx; done]. }
  destruct (ready_peer m Fm Er) as [Fm1 Fm2]. unfold run_handler. rewrite T, Fm1, Fm2.
  pose proof (handler_log (body (m_seq m)) 0 (m_type m) (Z.of_nat (length (body (m_seq m))))
                (Z.of_nat (length (body (m_seq m)))) s) as Hh.
  destruct (DoTls13HandShakeMsgType _ _ _ _ _ s) as [[r i] s1]. destruct Hh as (K & Nw & Np & L).
  unfold processed_ok. destruct (Z.eqb_spec r WANT_WRITE); [done|].
  destruct (Z.eqb_spec r WC_PENDING_E); [done|]. rewrite andb_false_r.
  destruct (Z.eqb_spec r 0) as [->|N]; cbn [orb negb].
  2: { exists 0%nat. cbn [snd]. rewrite app_nil_r in L. apply advanced_none; [done|done|rewrite Rx; done]. }
  rewrite (k_13 s s1 K), T. set (s2 := pop_rx l _).
  assert (advanced 1 s s2) as A1.
  { destruct Fm as [Q _]. apply (processed_one s s1 s2 (m_type m)); try done; try lia.
    - rewrite L, Es. unfold slice. change (Z.to_nat 0) with 0%nat. rewrite Nat2Z.id, drop_0, firstn_all. done.
    - apply (MsgWasProcessed_frame (m_type m) s1).
    - apply (MsgWasProcessed_frame (m_type m) s1). }
  destruct (IH 0 s2 (snd (s_rx (Dtls13MsgWasProcessed (m_type m) s1)) - 1) Fl eq_refl) as [j A2].
  - rewrite (ad_13 _ _ _ A1). done.
  - rewrite (ad_stateful _ _ _ A1). done.
  - exists (1 + j)%nat. apply (advanced_trans _ _ _ s2); done.
Qed.

Lemma deliver_buffered_spec s : Forall peer_message (fst (s_rx s)) ->
  o_tls13 (s_opts s) = true -> o_dtlsStateful (s_opts s) = true ->
  exists j, advanced j s (snd (deliver_buffered s)).
Proof.
  intros F T St. unfold deliver_buffered, Dtls13ProcessBufferedMessages.
  destruct (Dtls13NextMessageComplete s).
  - apply (ProcessBuffered_loop_spec _ 0 s (snd (s_rx s))); try done. destruct (s_rx s); done.
  - exists 0%nat. apply advanced_none; [reflexivity|done|done].
Qed.

(** The bytes [o, o + n) of message [q] can be placed without touching a bucket
    they leave a gap to. *)
Definition storable (ep q o n : Z) (l : list DtlsMsg) : bool :=
  match DtlsMsgFind l ep q with
  | Some m => ready m || safe_place o (o + n) (fragBucketList m)
  | None => true
  end.

Lemma recv_peer ep q o n enc m : peer_message m -> m_seq m = q -> m_epoch m = ep ->
  0 <= o -> 0 <= n -> o + n <= Z.of_nat (length (body q)) ->
  ready m || safe_place o (o + n) (fragBucketList m) = true ->
  peer_message (snd (recv alloc heap_byte (body q) q ep (ty q) enc o n m)).
Proof.
  intros (Q & R & C) <- <- Ho Hn Hb Sf.
  pose proof (recv_spec alloc heap_byte (body (m_seq m)) alloc_ok (body_small _) _ _ _ enc R m o n
                C Ho Hn Hb Sf) as X.
  pose proof (DtlsMsgSet_ids alloc heap_byte m (m_seq m) (m_epoch m)
    (slice (Z.to_nat o) (Z.to_nat n) (body (m_seq m))) (ty (m_seq m)) o n
    (Z.of_nat (length (body (m_seq m)))) enc) as I.
  unfold recv in *. destruct (DtlsMsgSet _ _ _ _ _ _ _ _ _ _ _) as [rc m'].
  destruct I as [I _]. destruct (I eq_refl eq_refl) as [I1 I2]. cbn [snd].
  split; [rewrite I1; done|]. rewrite I1, I2. destruct X as [[_ X]|[_ X]]; eauto.
Qed.

Lemma recv_new_peer ep q o n enc m rc m' : 0 <= q < 65535 ->
  DtlsMsgNew alloc heap_byte (Z.of_nat (length (body q))) false = Some m ->
  0 <= o -> 0 <= n -> o + n <= Z.of_nat (length (body q)) ->
  recv alloc heap_byte (body q) q ep (ty q) enc o n m = (rc, m') -> 0 <= rc -> peer_message m'.
Proof.
  intros Q Nw Ho Hn Hb E Hrc.
  pose proof (collecting_new alloc heap_byte (body q) alloc_ok q ep (ty q) m Nw) as C.
  assert (ready m || safe_place o (o + n) (fragBucketList m) = true) as Sf
    by (unfold DtlsMsgNew in Nw; rewrite alloc_ok in Nw; injection Nw as <-; done).
  pose proof (recv_spec alloc heap_byte (body q) alloc_ok (body_small q) q ep (ty q) enc _ m o n
                C Ho Hn Hb Sf) as X.
  pose proof (DtlsMsgSet_ids alloc heap_byte m q ep (slice (Z.to_nat o) (Z.to_nat n) (body q)) (ty q)
    o n (Z.of_nat (length (body q))) enc) as I.
  unfold recv in E, X. rewrite E in I. rewrite E in X. destruct I as [_ I].
  unfold DtlsMsgNew in Nw. rewrite alloc_ok in Nw. injection Nw as <-.
  destruct (I eq_refl eq_refl Hrc) as [I1 I2]. split; [rewrite I1; done|]. rewrite I1, I2.
  destruct X as [[_ X]|[_ X]]; eauto.
Qed.

Lemma update_found_Forall (P : DtlsMsg -> Prop) ep q f l : Forall P l ->
  (forall m, DtlsMsgFind l ep q = Some m -> m_epoch m = ep -> m_seq m = q -> P m -> P (f m)) ->
  Forall P (update_found l ep q f).
Proof.
  induction l as [|m l IH]; intros F Hf; [constructor|]. inversion F as [|?? F1 F2]; subst.
  cbn [update_found DtlsMsgFind] in *. destruct ((m_epoch m =? ep) && (m_seq m =? q)) eqn:E.
  - constructor; [|done]. apply Hf; try done; lia.
  - constructor; [done|]. apply IH; done.
Qed.

Lemma store_peer ep q o n enc l c : Forall peer_message l -> 0 <= q < 65535 ->
  0 <= o -> 0 <= n -> o + n <= Z.of_nat (length (body q)) -> storable ep q o n l = true ->
  Forall peer_message (fst (DtlsMsgStore alloc heap_byte ep q
    (slice (Z.to_nat o) (Z.to_nat n) (body q)) (Z.of_nat (length (body q))) (ty q) o n enc (l, c))).
Proof.
  intros F Q Ho Hn Hb Sf. unfold DtlsMsgStore.
  pose proof (fun m rc m' Nw => recv_new_peer ep q o n enc m rc m' Q Nw Ho Hn Hb) as New.
  unfold recv in New. destruct l as [|m0 l0].
  - destruct (DtlsMsgNew _ _ _ _) as [m|] eqn:Nw; [|constructor].
    destruct (DtlsMsgSet _ _ _ _ _ _ _ _ _ _ _) as [rc m'] eqn:E.
    destruct (Z.ltb_spec rc 0); [constructor|]. constructor; [|constructor].
    apply (New m rc m'); done.
  - set (l := m0 :: l0) in *. unfold storable in Sf. destruct (DtlsMsgFind l ep q) as [x|] eqn:Fd.
    + apply update_found_Forall; [done|]. intros m Fm E1 E2 P. rewrite Fd in Fm. injection Fm as <-.
      apply (recv_peer ep q o n enc x); done.
    + destruct (DtlsMsgNew _ _ _ _) as [m|] eqn:Nw; [|done].
      destruct (DtlsMsgSet _ _ _ _ _ _ _ _ _ _ _) as [rc m'] eqn:E.
      destruct (Z.ltb_spec rc 0); [done|]. cbn [fst]. rewrite Insert_insert_after.
      apply Forall_forall. intros y Hy. rewrite Forall_forall in F.
      apply (insert_after_elem alloc heap_byte) in Hy as [->|Hy]; [|auto].
      apply (New m rc m'); done.
Qed.

(** A record that holds bytes [o, o + n) of message [q], and [tail] behind them. *)
Definition fragment_input (q o n : Z) (tail : list Z) : list Z :=
  hs_header q (ty q) o n (Z.of_nat (length (body q)))
  ++ slice (Z.to_nat o) (Z.to_nat n) (body q) ++ tail.

Definition fragment_header (q o n : Z) : HsHeader := HsHdr (ty q) (Z.of_nat (length (body q))) o n.

Definition cur_epoch16 (s : ssl) : Z := u16 (w64GetLow32 (curEpoch64 (s_conn s))).

Lemma fragment_input_body q o n tail : 0 <= o -> 0 <= n -> o + n <= Z.of_nat (length (body q)) ->
  take (Z.to_nat n) (drop 12 (fragment_input q o n tail)) = slice (Z.to_nat o) (Z.to_nat n) (body q).
Proof.
  intros Ho Hn Hb. unfold fragment_input.
  change 12%nat with (length (hs_header q (ty q) o n (Z.of_nat (length (body q))))).
  rewrite drop_app_length. replace (Z.to_nat n) with (length (slice (Z.to_nat o) (Z.to_nat n) (body q))) at 1
    by (rewrite length_slice; lia).
  apply take_app_length.
Qed.

Lemma store_message_spec cr q o n tail s : Forall peer_message (fst (s_rx s)) -> 0 <= q < 65535 ->
  n_peer (s_nums s) = q -> 0 <= o -> 0 <= n -> o + n <= Z.of_nat (length (body q)) ->
  storable (cur_epoch16 s) q o n (fst (s_rx s)) = true ->
  let '(_, s') := store_message cr (fragment_header q o n) (fragment_input q o n tail) s in
  s_transcript s' = s_transcript s /\ s_nums s' = s_nums s /\ s_opts s' = s_opts s
  /\ s_conn s' = s_conn s /\ Forall peer_message (fst (s_rx s')).
Proof.
  intros F Q Eq Ho Hn Hb Sf. unfold store_message. destruct (_ <? _); [|done].
  cbn [fragment_header hh_size hh_type hh_fragOffset hh_fragSz].
  rewrite fragment_input_body, Eq by done. split; [done|]. split; [done|]. split; [done|].
  split; [done|]. cbn [s_rx set_rx]. destruct (s_rx s) as [l c]. apply store_peer; done.
Qed.

Lemma dispatch_spec cr q o n tail size s : Forall peer_message (fst (s_rx s)) -> 0 <= q < 65535 ->
  n_peer (s_nums s) = q -> 0 <= o -> 0 <= n -> o + n <= Z.of_nat (length (body q)) ->
  storable (cur_epoch16 s) q o n (fst (s_rx s)) = true ->
  o_tls13 (s_opts s) = true -> o_dtlsStateful (s_opts s) = true ->
  exists j, advanced j s
    (snd (dispatch_message cr (fragment_header q o n) (fragment_input q o n tail) size 12 s)).
Proof.
  intros F Q Eq Ho Hn Hb Sf T St. unfold dispatch_message.
  assert (advanced 0 s s) as A0 by (apply advanced_none; done).
  rewrite Eq. destruct (Z.ltb_spec q (n_expected (s_nums s))); [exists 0%nat; done|].
  cbn [fragment_header hh_size hh_type hh_fragOffset hh_fragSz]. fold (fragment_header q o n).
  unfold first_ch_fragment. rewrite St. cbn [negb]. rewrite andb_false_r. cbn [andb].
  set (complete := (o =? 0) && (n =? _)).
  destruct (negb complete && negb _); [exists 0%nat; done|]. cbn [Z.eqb negb]. rewrite Eq.
  destruct (negb complete || (n_expected (s_nums s) <? q) || usingAsyncCrypto) eqn:Store.
  - pose proof (store_message_spec (cr_reader cr) q o n tail s F Q Eq Ho Hn Hb Sf) as X.
    destruct (store_message _ _ _ s) as [ret s1]. destruct X as (Et & En & Eo & Ec & F1).
    assert (advanced 0 s s1) as A1.
    { split; try congruence; try lia; rewrite ?En; [|lia].
      rewrite app_nil_r. apply log_frame. done. }
    destruct (ret =? 0); cbn [negb]; [|exists 0%nat; exact A1].
    destruct (deliver_buffered_spec s1 F1) as [j A2]; [rewrite Eo; done|rewrite Eo; done|].
    destruct (deliver_buffered s1) as [r2 s2]. exists j. apply (advanced_trans 0 j _ s1); done.
  - apply orb_false_iff in Store as [Store _]. apply orb_false_iff in Store as [Cp Ex].
    apply negb_false_iff in Cp. unfold complete in Cp.
    assert (o = 0 /\ n = Z.of_nat (length (body q)) /\ n_expected (s_nums s) = q)
      as (-> & -> & Es) by lia.
    pose proof (handler_log (fragment_input q 0 (Z.of_nat (length (body q))) tail) 12 (ty q)
                  (Z.of_nat (length (body q))) size s) as Hh.
    destruct (DoTls13HandShakeMsgType _ _ _ _ _ s) as [[r i] s1]. destruct Hh as (K & _ & _ & L).
    destruct (Z.eqb_spec r 0) as [->|N]; cbn [negb].
    2: { exists 0%nat. rewrite app_nil_r in L. apply advanced_none; done. }
    destruct (MsgWasProcessed_frame (ty q) s1) as (Mo & Mc & Mr).
    set (s2 := Dtls13MsgWasProcessed (ty q) s1) in *.
    assert (advanced 1 s s2) as A1.
    { apply (processed_one s s1 s2 (ty q)); try done; try lia; [|rewrite Mr, (k_rx s s1 K); done].
      rewrite L, Es. f_equal. f_equal. unfold slice at 1.
      change (Z.to_nat 12) with 12%nat. rewrite fragment_input_body by lia.
      unfold slice. rewrite drop_0, Nat2Z.id, firstn_all. done. }
    destruct (deliver_buffered_spec s2 (ad_rx _ _ _ A1)) as [j A2];
      [rewrite (ad_13 _ _ _ A1); done|rewrite (ad_stateful _ _ _ A1); done|].
    destruct (deliver_buffered s2) as [r2 s3]. exists (1 + j)%nat. apply (advanced_trans 1 j _ s2); done.
Qed.

Lemma EarlySanityCheck_spec cr t n s :
  let '(ret, s') := EarlySanityCheckMsgReceived cr t n s in
  kept s s' /\ log s' = log s /\ (ret = 0 -> s' = s).
Proof.
  unfold EarlySanityCheckMsgReceived. set (ret := if _ =? 0 then _ else _).
  destruct (Z.eqb_spec ret 0); cbn [negb andb]; [done|].
  destruct (o_dtlsStateful (s_opts s)); [|done]. destruct (alert_log s) as [K L]. done.
Qed.

(** A record with a fragment of the peer's message [q] is refused, or it reaches
    the dispatch with nothing else changed. *)
Lemma receive_prefix cr q o n tail s :
  0 <= q < 65535 -> 0 <= o -> 0 <= n -> o + n <= Z.of_nat (length (body q)) ->
  side (s_conn s) = WOLFSSL_CLIENT_END ->
  Z.of_nat (length (fragment_input q o n tail)) < 2 ^ 32 ->
  let size := Z.of_nat (length (fragment_input q o n tail)) in
  let s' := snd (Dtls13HandshakeRecv_message cr (fragment_input q o n tail) size s) in
  (kept s s' /\ log s' = log s)
  \/ exists s2, n_peer (s_nums s2) = q /\ kept s s2 /\ s_conn s2 = s_conn s /\ log s2 = log s
     /\ s' = snd (dispatch_message cr (fragment_header q o n) (fragment_input q o n tail) size 12 s2).
Proof.
  intros Q Ho Hn Hb Sd Hl size. fold size in Hl. pose proof (body_small q) as Bs. cbn zeta.
  unfold Dtls13HandshakeRecv_message.
  destruct (GetDtlsHandShakeHeader_parse [] q (ty q) o n (Z.of_nat (length (body q)))
    (slice (Z.to_nat o) (Z.to_nat n) (body q) ++ tail) size
    (set_peer_hs (n_peer (s_nums s)) (cr_reader cr))) as (rc & E & _); try (unfold is_u16, in_word; lia).
  { split; [|done]. unfold size, fragment_input. rewrite length_app. cbn [length].
    change (length (hs_header _ _ _ _ _)) with 12%nat. lia. }
  cbn [app length] in E. change (Z.of_nat 0) with 0 in E. fold (fragment_input q o n tail) in E.
  rewrite E. clear E. change (0 + 12) with 12. fold (fragment_header q o n).
  cbn [dtls_peer_handshake_number set_peer_hs]. set (s1 := set_nums _ s).
  assert (kept s s1 /\ log s1 = log s) as R1 by (split; [split; done|apply log_frame; done]).
  destruct (rc =? 0); cbn [negb]; [|left; exact R1].
  pose proof (EarlySanityCheck_spec cr (ty q) (u32 (12 + n)) s1) as X.
  cbn [fragment_header hh_type hh_fragSz hh_size hh_fragOffset]. fold (fragment_header q o n).
  destruct R1 as [K1 L1].
  destruct (EarlySanityCheckMsgReceived _ _ _ s1) as [ret s2]. destruct X as (K2 & L2 & E2).
  destruct (Z.eqb_spec ret 0) as [->|N]; cbn [negb].
  2: { left. split; [etransitivity; done|cbn [snd]; congruence]. }
  rewrite (E2 eq_refl) in *. clear E2 K2 L2 s2.
  destruct (Dtls13CheckEpoch (ty q) s1 =? 0); cbn [negb]; [|left; done].
  change (side (s_conn s1)) with (side (s_conn s)). rewrite Sd.
  change (WOLFSSL_CLIENT_END =? WOLFSSL_SERVER_END) with false. cbn [andb].
  destruct (size <? _); [left; done|]. destruct (_ <? u32 (o + n)); [left; done|].
  pose proof (RtxMsgRecvd_untouched (ty q) o s1) as [R0 U].
  destruct (Dtls13RtxMsgRecvd (ty q) o s1) as [ret s2]. cbn [fst snd] in R0, U. subst ret. cbn [Z.eqb negb].
  right. exists s2. pose proof U as (Uc & Uo & Un & Ur & Ut).
  split; [rewrite Un; done|]. split; [etransitivity; [exact K1|apply untouched_kept; done]|].
  split; [done|]. split; [rewrite (log_frame s s2); done|done].
Qed.

Lemma receive_fragment cr q o n tail s :
  Forall peer_message (fst (s_rx s)) -> 0 <= q < 65535 ->
  0 <= o -> 0 <= n -> o + n <= Z.of_nat (length (body q)) ->
  storable (cur_epoch16 s) q o n (fst (s_rx s)) = true ->
  o_tls13 (s_opts s) = true -> o_dtlsStateful (s_opts s) = true ->
  side (s_conn s) = WOLFSSL_CLIENT_END ->
  Z.of_nat (length (fragment_input q o n tail)) < 2 ^ 32 ->
  exists j, advanced j s (snd (Dtls13HandshakeRecv_message cr (fragment_input q o n tail)
                                 (Z.of_nat (length (fragment_input q o n tail))) s)).
Proof.
  intros F Q Ho Hn Hb Sf T St Sd Hl.
  destruct (receive_prefix cr q o n tail s Q Ho Hn Hb Sd Hl) as [[K L]|(s2 & Np & K & Ec & L & ->)].
  - exists 0%nat. apply advanced_none; done.
  - assert (advanced 0 s s2) as A by (apply advanced_none; done). destruct K as [Kr _ K13 Ks _].
    destruct (dispatch_spec cr q o n tail (Z.of_nat (length (fragment_input q o n tail))) s2)
      as [j A3]; rewrite ?Kr, ?K13, ?Ks; try done.
    + unfold cur_epoch16. rewrite Ec. exact Sf.
    + exists j. apply (advanced_trans 0 j _ s2); done.
Qed.

(** What happens to the receiver over time: records with fragments of the peer's
    messages arrive in any order and any number of times, and the rest of the
    connection does whatever it does in between. *)
Inductive receives : ssl -> ssl -> Prop :=
  | receives_nothing s : receives s s
  | receives_other s s1 s2 : kept s s1 -> log s1 = log s -> receives s1 s2 -> receives s s2
  | receives_record cr q o n tail s s2 :
      0 <= q < 65535 -> 0 <= o -> 0 <= n -> o + n <= Z.of_nat (length (body q)) ->
      storable (cur_epoch16 s) q o n (fst (s_rx s)) = true ->
      Z.of_nat (length (fragment_input q o n tail)) < 2 ^ 32 ->
      receives (snd (Dtls13HandshakeRecv_message cr (fragment_input q o n tail)
                       (Z.of_nat (length (fragment_input q o n tail))) s)) s2 ->
      receives s s2.

Lemma receives_advanced s s' : receives s s' -> Forall peer_message (fst (s_rx s)) ->
  o_tls13 (s_opts s) = true -> o_dtlsStateful (s_opts s) = true ->
  side (s_conn s) = WOLFSSL_CLIENT_END -> exists j, advanced j s s'.
Proof.
  induction 1 as [s|s s1 s2 K L R IH|cr q o n tail s s2 Q Ho Hn Hb Sf Hl R IH];
    intros F T St Sd.
  - exists 0%nat. apply advanced_none; done.
  - assert (advanced 0 s s1) as A by (apply advanced_none; done).
    destruct K as [Kr _ K13 Ks Kd]. destruct IH as [j A2]; try congruence.
    exists j. apply (advanced_trans 0 j _ s1); done.
  - destruct (receive_fragment cr q o n tail s F Q Ho Hn Hb Sf T St Sd Hl) as [j A1].
    set (s1 := snd _) in *. destruct IH as [j2 A2].
    + apply A1.
    + rewrite (ad_13 _ _ _ A1). done.
    + rewrite (ad_stateful _ _ _ A1). done.
    + rewrite (ad_side _ _ _ A1). done.
    + exists (j + j2)%nat. apply (advanced_trans _ _ _ s1); done.
Qed.

(** A record that holds a whole message is always [storable]. *)
Lemma whole_message_storable ep q l : Forall peer_message l ->
  storable ep q 0 (Z.of_nat (length (body q))) l = true.
Proof.
  intros F. unfold storable. destruct (DtlsMsgFind l ep q) as [m|] eqn:Fd; [|done].
  apply Find_some in Fd as (I & _ & Eq). rewrite Forall_forall in F.
  destruct (F m I) as (_ & R & [_ _ Cw]). rewrite Eq in Cw.
  destruct (ready m); [done|]. destruct (Cw eq_refl) as ([Ac _ _ _] & _). cbn [orb].
  apply chain_good in Ac. unfold safe_place.
  destruct (locate _ _ [] _) as [[d pre] l'] eqn:Lo.
  destruct (locate_spec (body q) (body_small q) 0 (0 + Z.of_nat (length (body q))) [] _ _ _ _
    ltac:(lia) Ac Lo)
    as (mid & _ & El & _).
  destruct d; [done|]. destruct l' as [|cur rest]; [done|].
  rewrite El in Ac. apply Forall_app in Ac as [_ [Gc _]%Forall_cons].
  rewrite (good_end _ (body_small q) _ Gc). destruct Gc as (_ & Le & _).
  destruct (Z.leb_spec (b_offset cur + b_sz cur) (0 + Z.of_nat (length (body q)))); [|lia].
  rewrite !orb_true_r. done.
Qed.

(** C2: Handshake messages are delivered in order, each exactly once.  The receiver is
    a stateful TLS 1.3 client whose allocations succeed and whose handlers do not
    block ([Orderly]: they never return WANT_WRITE or WC_PENDING_E, after which the
    code would process the message a second time).  It starts from an empty queue, and
    the peer's messages, numbered below 65535, arrive whole or in fragments, in any
    order and any number of times, as long as each fragment is [storable]: it does not
    lie strictly between two pieces already there or overlap only the front of one,
    the placements the merge mishandles (a whole message always is storable).  Then,
    whatever the other checks refuse, the messages the handlers have processed are
    messages [k], [k + 1], ... up to the expected number, each once and with exactly
    its bytes. *)
Theorem in_order_delivery s s' :
  receives s s' -> fst (s_rx s) = [] -> o_tls13 (s_opts s) = true ->
  o_dtlsStateful (s_opts s) = true -> side (s_conn s) = WOLFSSL_CLIENT_END ->
  exists j, log s' = log s ++ map (fun i => body (n_expected (s_nums s) + Z.of_nat i)) (seq 0 j)
            /\ n_expected (s_nums s') = n_expected (s_nums s) + Z.of_nat j.
Proof.
  intros R E T St Sd. destruct (receives_advanced s s' R) as [j [L Ex _ _ _ _]]; try done.
  - rewrite E. constructor.
  - exists j. done.
Qed.

(** ** A stale message at the head of the queue *)

(** The head of the queue is a message that was processed already. *)
Definition stale_head (s : ssl) : Prop :=
  exists m rest, fst (s_rx s) = m :: rest /\ m_seq m < n_expected (s_nums s).

Lemma store_stale ep q data sz t o n enc l c m rest : l = m :: rest -> m_seq m < q ->
  exists rest', fst (DtlsMsgStore alloc heap_byte ep q data sz t o n enc (l, c)) = m :: rest'.
Proof.
  intros -> Lt. unfold DtlsMsgStore. destruct (DtlsMsgFind (m :: rest) ep q) as [x|].
  - cbn [fst update_found]. destruct ((m_epoch m =? ep) && (m_seq m =? q)) eqn:E; [lia|]. eauto.
  - destruct (DtlsMsgNew _ _ _ _) as [m1|] eqn:Nw; [|eauto].
    destruct (DtlsMsgSet _ _ _ _ _ _ _ _ _ _ _) as [rc m'] eqn:St.
    destruct (Z.ltb_spec rc 0); [eauto|]. cbn [fst DtlsMsgInsert].
    pose proof (DtlsMsgSet_ids alloc heap_byte m1 q ep data t o n sz enc) as X. rewrite St in X.
    unfold DtlsMsgNew in Nw. rewrite alloc_ok in Nw. injection Nw as <-.
    destruct X as [_ X]. destruct (X eq_refl eq_refl ltac:(lia)) as [Sq _].
    unfold before. destruct ((m_epoch m' <=? m_epoch m) && (m_seq m' <? m_seq m)) eqn:E; [lia|]. eauto.
Qed.

Lemma dispatch_stale cr q o n tail size s : stale_head s -> n_peer (s_nums s) = q ->
  n_expected (s_nums s) <= q -> ~ (o = 0 /\ n = Z.of_nat (length (body q)) /\ q = n_expected (s_nums s)) ->
  o_dtlsStateful (s_opts s) = true ->
  let s' := snd (dispatch_message cr (fragment_header q o n) (fragment_input q o n tail) size 12 s) in
  log s' = log s /\ n_expected (s_nums s') = n_expected (s_nums s) /\ stale_head s'.
Proof.
  intros Sh Eq Le Nd St. cbn zeta. unfold dispatch_message. rewrite Eq.
  destruct (Z.ltb_spec q (n_expected (s_nums s))); [lia|].
  cbn [fragment_header hh_size hh_type hh_fragOffset hh_fragSz]. fold (fragment_header q o n).
  unfold first_ch_fragment. rewrite St. cbn [negb]. rewrite andb_false_r. cbn [andb].
  set (complete := (o =? 0) && (n =? _)).
  destruct (negb complete && negb _); [done|]. cbn [Z.eqb negb]. rewrite Eq.
  assert (negb complete || (n_expected (s_nums s) <? q) || usingAsyncCrypto = true) as ->.
  { destruct (Z.ltb_spec (n_expected (s_nums s)) q); [rewrite orb_true_r; done|].
    destruct complete eqn:C; [|done]. exfalso. apply Nd. unfold complete in C. lia. }
  unfold store_message. destruct (_ <? DTLS_POOL_SZ); cbn [Z.eqb negb]; [|done].
  destruct Sh as (m & rest & E & Lt). destruct (s_rx s) as [l c] eqn:Rx. cbn [fst] in E.
  cbn [fragment_header hh_size hh_type hh_fragOffset hh_fragSz]. rewrite Eq.
  set (rx' := DtlsMsgStore _ _ _ _ _ _ _ _ _ _ _).
  destruct (store_stale (cur_epoch16 s) q
    (take (Z.to_nat n) (drop 12 (fragment_input q o n tail))) (Z.of_nat (length (body q))) (ty q) o n
    (decryptedCur (cr_reader cr)) l c m rest E ltac:(lia)) as [rest' Er].
  change (fst rx' = m :: rest') in Er. set (s1 := set_rx rx' s).
  assert (deliver_buffered s1 = (0, s1)) as ->.
  { unfold deliver_buffered, Dtls13NextMessageComplete. change (s_rx s1) with rx'. rewrite Er.
    change (n_expected (s_nums s1)) with (n_expected (s_nums s)).
    destruct (Z.eqb_spec (m_seq m) (n_expected (s_nums s))); [lia|]. rewrite andb_false_r. done. }
  cbn [snd]. split; [apply log_frame; done|]. split; [done|]. exists m, rest'. done.
Qed.

(** C38: A stale message blocks the queue for good.  Once the head of the queue is
    a message older than the one expected - which happens when a fragment of the
    next message was stored (one unauthenticated plaintext fragment of a
    ServerHello is enough) and that message was then received whole - no message
    that needs the queue is ever delivered again: a fragment, or a message ahead
    of its turn, is stored behind the stale one, nothing is handed to a handler,
    and the queue stays blocked. *)
Theorem stale_message_blocks_queue cr q o n tail s :
  stale_head s -> 0 <= q < 65535 -> n_expected (s_nums s) <= q ->
  0 <= o -> 0 <= n -> o + n <= Z.of_nat (length (body q)) ->
  ~ (o = 0 /\ n = Z.of_nat (length (body q)) /\ q = n_expected (s_nums s)) ->
  o_dtlsStateful (s_opts s) = true -> side (s_conn s) = WOLFSSL_CLIENT_END ->
  Z.of_nat (length (fragment_input q o n tail)) < 2 ^ 32 ->
  let s' := snd (Dtls13HandshakeRecv_message cr (fragment_input q o n tail)
                   (Z.of_nat (length (fragment_input q o n tail))) s) in
  log s' = log s /\ n_expected (s_nums s') = n_expected (s_nums s) /\ stale_head s'.
Proof.
  intros Sh Q Le Ho Hn Hb Nd St Sd Hl. cbn zeta.
  destruct (receive_prefix cr q o n tail s Q Ho Hn Hb Sd Hl) as [[K L]|(s2 & Np & K & Ec & L & ->)].
  - split; [done|]. split; [apply K|]. destruct Sh as (m & rest & E & Lt). exists m, rest.
    rewrite (k_rx _ _ K), (k_exp _ _ K). done.
  - destruct K as [Kr Ke _ Ks _]. rewrite <- L, <- Ke.
    apply dispatch_stale; rewrite ?Ke, ?Ks; try done.
    destruct Sh as (m & rest & E & Lt). exists m, rest. rewrite Kr, Ke. done.
Qed.
End InOrder.

(** ** What the checks let through *)

(** The messages a TLS 1.3 connection takes in a record of the current epoch, once
    the version is settled. *)
Definition proper (t : Z) (s : ssl) : Prop :=
  let epoch := curEpoch64 (s_conn s) in
  (epoch = 0
   /\ one_of t [client_hello; server_hello; hello_verify_request; hello_retry_request] = true)
  \/ (epoch = 2 /\ one_of t [encrypted_extensions; server_key_exchange; server_hello_done;
                             client_key_exchange] = true)
  \/ ((if handShakeDone (s_conn s) then 2 <= epoch else epoch = 2)
      /\ one_of t [certificate_request; certificate; certificate_verify; finished] = true)
  \/ (3 <= epoch /\ one_of t [certificate_status; key_update; session_ticket] = true).

Lemma one_of_none t l : one_of t HandShakeTypes = false ->
  forallb (fun x => one_of x HandShakeTypes) l = true -> one_of t l = false.
Proof.
  intros N. unfold one_of in *. induction l as [|x l IH]; [done|]. cbn [forallb existsb].
  intros H. apply andb_true_iff in H as [H1 H2]. rewrite (IH H2), orb_false_r.
  destruct (Z.eqb_spec t x) as [->|]; [congruence|done].
Qed.

Lemma one_of_cases t l : one_of t l = true -> t ∈ l.
Proof.
  unfold one_of. rewrite existsb_exists. intros (x & Hx & E). apply Z.eqb_eq in E as ->.
  apply list_elem_of_In. done.
Qed.

Ltac eval_types :=
  repeat match goal with
  | |- context [one_of ?t ?l] => let b := eval vm_compute in (one_of t l) in change (one_of t l) with b
  end.

Lemma checks_proper t s : o_tls13 (s_opts s) = true ->
  SERVER_HELLO_COMPLETE <= o_serverState (s_opts s) ->
  (MsgCheckEncryption t (negb (curEpoch64 (s_conn s) =? 0)) s = 0 /\ Dtls13CheckEpoch t s = 0)
  <-> proper t s.
Proof.
  intros T V. unfold MsgCheckEncryption, Dtls13CheckEpoch, proper. rewrite T.
  destruct (Z.ltb_spec (o_serverState (s_opts s)) SERVER_HELLO_COMPLETE); [lia|].
  rewrite andb_false_r.
  change (w64From32 0 DTLS13_EPOCH_HANDSHAKE) with 2. change (w64From32 0 DTLS13_EPOCH_TRAFFIC0) with 3.
  change (w64From32 0 0) with 0. unfold w64Equal, w64GTE.
  generalize (curEpoch64 (s_conn s)) as epoch. intros epoch.
  assert (SANITY_MSG_E <> 0 /\ OUT_OF_ORDER_E <> 0) as [N1 N2] by done.
  destruct (one_of t HandShakeTypes) eqn:Ht.
  - apply one_of_cases in Ht.
    repeat (apply elem_of_cons in Ht as [->|Ht]); [..|apply elem_of_nil in Ht; done]; eval_types;
      destruct (handShakeDone (s_conn s)), (Z.eqb_spec epoch 0), (Z.eqb_spec epoch 2),
        (Z.leb_spec 2 epoch), (Z.leb_spec 3 epoch); cbn [negb]; lia.
  - rewrite !(one_of_none t) by done. intuition congruence.
Qed.

Section Refusal.
Context `{Handlers, Heap} (log : ssl -> list (list Z)) `{!Orderly log}.

(** C17: A message is only looked at in a record of the epoch it belongs to.  Once
    the version is settled (a ServerHello was sent or processed), [t] is taken
    from a record of epoch 0 only if it is a hello message, from epoch 2 if it
    belongs to the handshake, later ones (and retransmissions) of the
    authentication messages from epoch 2 on when the handshake is done, and
    session tickets and key updates from epoch 3 on; any other message makes
    [Dtls13HandshakeRecv_message] fail with nothing stored, handed to a handler
    or counted. *)
Theorem messages_need_their_epoch cr input s :
  let t := at_ input 0 in
  12 <= Z.of_nat (length input) < 2 ^ 32 -> o_tls13 (s_opts s) = true ->
  SERVER_HELLO_COMPLETE <= o_serverState (s_opts s) ->
  decryptedCur (cr_reader cr) = negb (curEpoch64 (s_conn s) =? 0) ->
  ((MsgCheckEncryption t (decryptedCur (cr_reader cr)) s = 0 /\ Dtls13CheckEpoch t s = 0)
   <-> proper t s)
  /\ (~ proper t s ->
      let '(ret, _, s') := Dtls13HandshakeRecv_message cr input (Z.of_nat (length input)) s in
      ret <> 0 /\ kept s s' /\ log s' = log s).
Proof.
  intros t Hl T V D. rewrite D. split; [apply checks_proper; done|]. intros Np.
  rewrite <- (checks_proper t s T V) in Np.
  unfold Dtls13HandshakeRecv_message, GetDtlsHandShakeHeader.
  change (0 + DTLS_HANDSHAKE_HEADER_SZ) with 12. change (u32 12) with 12.
  destruct (Z.ltb_spec (Z.of_nat (length input)) 12); [lia|]. change (Z.to_nat 0) with 0%nat.
  fold t. cbn zeta. set (s1 := set_nums _ s).
  assert (kept s s1 /\ log s1 = log s) as [K1 L1] by (split; [split; done|apply log_frame; done]).
  match goal with |- context [if negb (?x =? 0) then (PARSE_ERROR, _, _) else _] =>
    destruct (x =? 0) end; cbn [negb]; [|done].
  cbn [hh_type hh_fragSz hh_size hh_fragOffset].
  match goal with |- context [EarlySanityCheckMsgReceived cr t ?n s1] =>
    pose proof (EarlySanityCheck_spec log cr t n s1) as X; 
    assert (fst (EarlySanityCheckMsgReceived cr t n s1) = 0 -> MsgCheckEncryption t (decryptedCur (cr_reader cr)) s1 = 0) as Y end.
  { unfold EarlySanityCheckMsgReceived. change (o_serverState (s_opts s1)) with (o_serverState (s_opts s)).
    destruct (Z.leb_spec SERVER_HELLO_COMPLETE (o_serverState (s_opts s))); [|lia]. cbn [fst].
    destruct (Z.eqb_spec (MsgCheckEncryption t (decryptedCur (cr_reader cr)) s1) 0); done. }
  destruct (EarlySanityCheckMsgReceived _ _ _ s1) as [ret s2]. destruct X as (K2 & L2 & E2). cbn [fst] in Y.
  destruct (Z.eqb_spec ret 0) as [->|N]; cbn [negb].
  2: { split; [done|]. split; [etransitivity; done|congruence]. }
  rewrite (E2 eq_refl). destruct (Z.eqb_spec (Dtls13CheckEpoch t s1) 0) as [Ep|]; cbn [negb]; [|done].
  exfalso. apply Np. split; [|exact Ep]. specialize (Y eq_refl). rewrite D in Y. exact Y.
Qed.
End Refusal.

(** ** Witnesses *)

(** Handlers that note every message in the transcript, as one number each. *)
#[export] Instance toy_handlers : Handlers := {
  DoTls13HandShakeMsgType input idx type size total s :=
    (0, idx + size, set_transcript (s_transcript s
       ++ [Zpos (encode (slice (Z.to_nat idx) (Z.to_nat size) input))]) s);
  DoHandShakeMsgType input idx type size total s := (0, idx + size, s);
  DoClientHelloStateless input size first s := (0, true, s);
  chGoodCb := None;
  send_unexpected_message s := s;
  usingAsyncCrypto := false }.

Definition toy_log (s : ssl) : list (list Z) :=
  omap (fun z => match z with Zpos p => decode p | _ => None end) (s_transcript s).

#[export] Instance toy_orderly : Orderly toy_log.
Proof.
  split.
  - intros input idx type size total s. cbn. split; [split; done|]. split; [done|]. split; [done|].
    unfold toy_log. cbn [s_transcript set_transcript]. rewrite omap_app. f_equal.
    cbn [omap list_omap]. rewrite decode_encode. done.
  - done.
  - intros s s' E. unfold toy_log. rewrite E. done.
Qed.

(** A client in epoch 2 that waits for message 4; message 4 is an
    EncryptedExtensions, message 5 a Certificate. *)
Definition demo_body (q : Z) : list Z := if q =? 4 then [0; 0] else [7; 8; 9].
Definition demo_ty (q : Z) : Z := if q =? 4 then encrypted_extensions else certificate.

Definition demo_waiting : ssl :=
  set_conn (set_cur 2 5 demo_client)
    (set_nums (Nums 1 4 0) (demo_ssl demo_client [] [])).

Definition demo_cur (epoch0 : bool) : cur_record :=
  CurRec (set_flags true false (negb epoch0) demo_hs_reader) 0 0.

Lemma demo_body_small q : Z.of_nat (length (demo_body q)) < 2 ^ 24.
Proof. unfold demo_body. destruct (q =? 4); cbn; lia. Qed.

Definition demo_recv (q n : Z) (s : ssl) : ssl :=
  snd (Dtls13HandshakeRecv_message (demo_cur false) (fragment_input demo_body demo_ty q 0 n [])
         (Z.of_nat (length (fragment_input demo_body demo_ty q 0 n []))) s).

(** Message 5 arrives first, then message 4. *)
Definition demo_early : ssl := demo_recv 5 3 demo_waiting.
Definition demo_after : ssl := demo_recv 4 2 demo_early.

Lemma in_order_delivery_witness :
  n_expected (s_nums demo_after) = 6 /\ toy_log demo_after = [[0; 0]; [7; 8; 9]].
Proof.
  assert (n_expected (s_nums demo_after) = 6) as E by (vm_compute; reflexivity).
  split; [exact E|].
  assert (receives toy_log demo_body demo_ty demo_waiting demo_after) as R.
  { apply (receives_record toy_log demo_body demo_ty (demo_cur false) 5 0 3 [] demo_waiting demo_after
             ltac:(lia) ltac:(lia) ltac:(lia) ltac:(vm_compute; congruence)
             ltac:(vm_compute; reflexivity) ltac:(vm_compute; reflexivity)).
    apply (receives_record toy_log demo_body demo_ty (demo_cur false) 4 0 2 [] demo_early demo_after
             ltac:(lia) ltac:(lia) ltac:(lia) ltac:(vm_compute; congruence)
             ltac:(vm_compute; reflexivity) ltac:(vm_compute; reflexivity)).
    unfold demo_after, demo_recv. apply receives_nothing. }
  destruct (in_order_delivery toy_log demo_body demo_ty ltac:(done) demo_body_small
              demo_waiting demo_after R eq_refl eq_refl eq_refl eq_refl) as (j & L & X).
  change (n_expected (s_nums demo_waiting)) with 4 in *. assert (j = 2%nat) as -> by lia. exact L.
Defined.

(** A client that waits for the ServerHello, message 0. *)
Definition demo_hello_ty (q : Z) : Z := if q =? 0 then server_hello else certificate.

(** It received bytes 0 and 1 of message 0 in plaintext, then the whole message,
    then bytes 0 and 1 and bytes 2 and 3 of message 1. *)
Definition demo_blocked_queue (pieces : list (Z * Z * Z * bool)) : ssl :=
  fold_left (fun s p => let '(q, o, n, plain) := p in
    let i := fragment_input (fun _ => [1; 2; 3; 4]) demo_hello_ty q o n [] in
    snd (Dtls13HandshakeRecv_message (CurRec (set_curRL (RLH handshake DTLS_MAJOR DTLSv1_2_MINOR [])
           (Z.of_nat (length i)) (cr_reader (demo_cur plain))) 0 0) i (Z.of_nat (length i))
           (set_conn (set_cur (if plain : bool then 0 else 2) 5 (s_conn s)) s)))
    pieces (set_opts (Opts true 1 FIRST_REPLY_DONE 0 0 false false 0 false true true false true 1400
                        wolfssl_aes_gcm)
              (demo_ssl (demo_end WOLFSSL_CLIENT_END ENCRYPT_AND_DECRYPT_SIDE) [] [])).

Lemma stale_message_blocks_queue_witness :
  let s := demo_blocked_queue [(0, 0, 2, true); (0, 0, 4, true); (1, 0, 2, false)] in
  let i := fragment_input (fun _ => [1; 2; 3; 4]) demo_hello_ty 1 2 2 [] in
  let s' := snd (Dtls13HandshakeRecv_message (demo_cur false) i (Z.of_nat (length i)) s) in
  toy_log s' = [[1; 2; 3; 4]] /\ n_expected (s_nums s') = 1 /\ map ready (fst (s_rx s')) = [false; true].
Proof.
  cbn zeta. set (s := demo_blocked_queue _).
  assert (toy_log s = [[1; 2; 3; 4]] /\ n_expected (s_nums s) = 1) as [L0 E0]
    by (split; vm_compute; reflexivity).
  destruct (stale_message_blocks_queue toy_log (fun _ => [1; 2; 3; 4]) demo_hello_ty ltac:(done)
              ltac:(done) (demo_cur false) 1 2 2 [] s) as (L & E & _);
    [|lia|vm_compute; congruence|lia|lia|vm_compute; congruence|lia|reflexivity|reflexivity|vm_compute; reflexivity|].
  - destruct (fst (s_rx s)) as [|m rest] eqn:Rx; [vm_compute in Rx; discriminate|].
    exists m, rest. split; [exact Rx|]. rewrite E0.
    assert (map m_seq (m :: rest) = [0; 1]) as M by (rewrite <- Rx; unfold s; vm_compute; reflexivity).
    cbn [map] in M. injection M as -> _. lia.
  - split; [rewrite L; exact L0|]. split; [rewrite E; exact E0|vm_compute; reflexivity].
Defined.

Lemma messages_need_their_epoch_witness :
  let i := fragment_input demo_body demo_ty 4 0 2 [] in
  let cr := demo_cur true in
  let s := set_conn (set_cur 0 5 demo_client) demo_waiting in
  let '(ret, _, s') := Dtls13HandshakeRecv_message cr i (Z.of_nat (length i)) s in
  ret <> 0 /\ toy_log s' = [].
Proof.
  cbn zeta. set (i := fragment_input _ _ _ _ _ _). set (s := set_conn _ demo_waiting).
  destruct (messages_need_their_epoch toy_log (demo_cur true) i s) as [_ X];
    [vm_compute; split; congruence|reflexivity|vm_compute; congruence|reflexivity|].
  destruct (Dtls13HandshakeRecv_message _ _ _ _) as [[ret n] s'].
  destruct X as (R & _ & L); [|split; [exact R|rewrite L; reflexivity]].
  unfold proper. vm_compute. intuition congruence.
Defined.
