(* ===== verification/Keccak.v ===== *)
(** * The Keccak permutation (src/boot/wolfcrypt/src/sha3.c)

    [BlockSha3], the variant with the rounds unrolled two by two and the row
    step rewritten to use fewer operations ([WOLFSSL_SHA3_SMALL] and
    [SHA3_BY_SPEC] are not defined), on a state of 25 words of 64 bits; the
    permutation of FIPS 202 on bits, step by step as the standard defines it,
    its rotation offsets and round constants computed by the walk and the shift
    register of the standard; and the proof that the code computes it. *)

From S2P Require Import Prelude.

(** ** The code *)

Definition is_u64 : Z -> Prop := in_word 64.

Definition ROTL64 (a n : Z) : Z := Z.lor (u64 (Z.shiftl a n)) (Z.shiftr a (64 - n)).

Definition hash_keccak_r : list Z :=
  [0x0000000000000001; 0x0000000000008082; 0x800000000000808a; 0x8000000080008000;
   0x000000000000808b; 0x0000000080000001; 0x8000000080008081; 0x8000000000008009;
   0x000000000000008a; 0x0000000000000088; 0x0000000080008009; 0x000000008000000a;
   0x000000008000808b; 0x800000000000008b; 0x8000000000008089; 0x8000000000008003;
   0x8000000000008002; 0x8000000000000080; 0x000000000000800a; 0x800000008000000a;
   0x8000000080008081; 0x8000000000008080; 0x0000000080000001; 0x8000000080008008].

(** [KI_0] .. [KI_23] and [KR_0] .. [KR_23]. *)
Definition KI : list nat :=
  [6; 12; 18; 24; 3; 9; 10; 16; 22; 1; 7; 13; 19; 20; 4; 5; 11; 17; 23; 2; 8; 14; 15; 21]%nat.
Definition KR : list Z :=
  [44; 43; 21; 14; 28; 20; 3; 45; 61; 1; 6; 25; 8; 18; 27; 36; 10; 15; 56; 62; 55; 39; 41; 2].

(** [S(s1, i)] *)
Definition S_ (s1 : list Z) (i : nat) : Z := ROTL64 (at_ s1 (nth i KI 0%nat)) (nth i KR 0).

(** [(s)[x] ^= t] down a column. *)
Definition xor_col (x : nat) (t : Z) (s : list Z) : list Z :=
  let s := <[x := Z.lxor (at_ s x) t]> s in
  let s := <[(x + 5)%nat := Z.lxor (at_ s (x + 5)) t]> s in
  let s := <[(x + 10)%nat := Z.lxor (at_ s (x + 10)) t]> s in
  let s := <[(x + 15)%nat := Z.lxor (at_ s (x + 15)) t]> s in
  <[(x + 20)%nat := Z.lxor (at_ s (x + 20)) t]> s.

Definition COL_MIX (s : list Z) : list Z :=
  let col x := Z.lxor (Z.lxor (Z.lxor (Z.lxor (at_ s x) (at_ s (x + 5))) (at_ s (x + 10)))
    (at_ s (x + 15))) (at_ s (x + 20)) in
  let b := [col 0%nat; col 1%nat; col 2%nat; col 3%nat; col 4%nat] in
  let s := xor_col 0 (Z.lxor (at_ b ((0 + 4) mod 5)) (ROTL64 (at_ b ((0 + 1) mod 5)) 1)) s in
  let s := xor_col 1 (Z.lxor (at_ b ((1 + 4) mod 5)) (ROTL64 (at_ b ((1 + 1) mod 5)) 1)) s in
  let s := xor_col 2 (Z.lxor (at_ b ((2 + 4) mod 5)) (ROTL64 (at_ b ((2 + 1) mod 5)) 1)) s in
  let s := xor_col 3 (Z.lxor (at_ b ((3 + 4) mod 5)) (ROTL64 (at_ b ((3 + 1) mod 5)) 1)) s in
  xor_col 4 (Z.lxor (at_ b ((4 + 4) mod 5)) (ROTL64 (at_ b ((4 + 1) mod 5)) 1)) s.

(** Five words of the new state. *)
Definition row_mix (b0 b1 b2 b3 b4 : Z) : list Z :=
  let t12 := Z.lxor b1 b2 in
  let t34 := Z.lxor b3 b4 in
  [Z.lxor b0 (Z.land b2 t12); Z.lxor t12 (Z.lor b2 b3); Z.lxor b2 (Z.land b4 t34);
   Z.lxor t34 (Z.lor b4 b0); Z.lxor b4 (Z.land b1 (Z.lxor b0 b1))].

Definition ROW_MIX (s1 : list Z) : list Z :=
  row_mix (at_ s1 0) (S_ s1 0) (S_ s1 1) (S_ s1 2) (S_ s1 3) ++
  row_mix (S_ s1 4) (S_ s1 5) (S_ s1 6) (S_ s1 7) (S_ s1 8) ++
  row_mix (S_ s1 9) (S_ s1 10) (S_ s1 11) (S_ s1 12) (S_ s1 13) ++
  row_mix (S_ s1 14) (S_ s1 15) (S_ s1 16) (S_ s1 17) (S_ s1 18) ++
  row_mix (S_ s1 19) (S_ s1 20) (S_ s1 21) (S_ s1 22) (S_ s1 23).

(** [n[0] ^= hash_keccak_r[i]] *)
Definition xor_round (i : nat) (n : list Z) : list Z :=
  <[0%nat := Z.lxor (at_ n 0) (at_ hash_keccak_r i)]> n.

(** Two rounds: from [s] to [n] and back. *)
Definition BlockSha3 (s : list Z) : list Z :=
  fold_left (fun s j =>
    let i := (2 * j)%nat in
    let n := ROW_MIX (COL_MIX s) in
    let n := xor_round i n in
    let s := ROW_MIX (COL_MIX n) in
    xor_round (i + 1) s) (seq 0 12) s.

(** ** FIPS 202 on bits *)

Section Fips202.
Local Open Scope nat_scope.

(** [A x y z]: bit [z] of the lane [x], [y]. *)
Definition karray : Type := nat -> nat -> nat -> bool.

Definition parity (A : karray) (x z : nat) : bool :=
  xorb (xorb (xorb (xorb (A x 0 z) (A x 1 z)) (A x 2 z)) (A x 3 z)) (A x 4 z).

Definition theta (A : karray) : karray := fun x y z =>
  xorb (A x y z) (xorb (parity A ((x + 4) mod 5) z) (parity A ((x + 1) mod 5) ((z + 63) mod 64))).

(** The walk from lane [u], [v] at time [t] to the lane [x], [y]. *)
Fixpoint rho_walk (n t u v x y : nat) : nat :=
  match n with
  | O => 0
  | S n => if (u =? x) && (v =? y) then (t + 1) * (t + 2) / 2
           else rho_walk n (t + 1) v ((2 * u + 3 * v) mod 5) x y
  end.
Definition rho_offset (x y : nat) : nat :=
  if (x =? 0) && (y =? 0) then 0 else rho_walk 24 0 1 0 x y.

Definition rho (A : karray) : karray := fun x y z =>
  A x y ((z + (64 - rho_offset x y mod 64)) mod 64).

Definition pi (A : karray) : karray := fun x y z => A ((x + 3 * y) mod 5) x z.

Definition chi (A : karray) : karray := fun x y z =>
  xorb (A x y z) (negb (A ((x + 1) mod 5) y z) && A ((x + 2) mod 5) y z).

(** Algorithm 5: one step of the shift register, and its output at time [t]. *)
Definition lfsr (R : list bool) : list bool :=
  let R := false :: R in
  let r8 := nth 8 R false in
  let tap i (R : list bool) := <[i := xorb (nth i R false) r8]> R in
  take 8 (tap 6 (tap 5 (tap 4 (tap 0 R)))).
Definition rc (t : nat) : bool :=
  nth 0 (Nat.iter (t mod 255) lfsr [true; false; false; false; false; false; false; false]) false.

(** Bit [z] of the round constant: set at [2^j - 1] only. *)
Definition RC (ir z : nat) : bool :=
  existsb (fun j => (z =? 2 ^ j - 1) && rc (j + 7 * ir)) (seq 0 7).

Definition iota (ir : nat) (A : karray) : karray := fun x y z =>
  if (x =? 0) && (y =? 0) then xorb (A x y z) (RC ir z) else A x y z.

Definition Rnd (ir : nat) (A : karray) : karray := iota ir (chi (pi (rho (theta A)))).

Definition keccak_p (A : karray) : karray := fold_left (fun A ir => Rnd ir A) (seq 0 24) A.

(** The lanes of a state of 25 words. *)
Definition lanes (s : list Z) : karray := fun x y z => Z.testbit (at_ s (5 * y + x)) (Z.of_nat z).
End Fips202.

(** ** Equality of bit arrays *)

Definition keq (A B : karray) : Prop :=
  forall x y z, (x < 5)%nat -> (y < 5)%nat -> (z < 64)%nat -> A x y z = B x y z.

#[export] Instance keq_equiv : Equivalence keq.
Proof.
  split; [intros A x y z|intros A B E x y z|intros A B C E F x y z]; intros; [done|symmetry; auto|].
  rewrite E by done. auto.
Qed.

Lemma mod5_lt n : (n mod 5 < 5)%nat. Proof. apply Nat.mod_upper_bound. lia. Qed.
Lemma mod64_lt n : (n mod 64 < 64)%nat. Proof. apply Nat.mod_upper_bound. lia. Qed.
#[local] Hint Resolve mod5_lt mod64_lt : core.

#[export] Instance theta_proper : Proper (keq ==> keq) theta.
Proof.
  intros A B E x y z Hx Hy Hz. unfold theta, parity.
  rewrite !E by (auto || lia). done.
Qed.
#[export] Instance rho_proper : Proper (keq ==> keq) rho.
Proof. intros A B E x y z Hx Hy Hz. unfold rho. by rewrite E. Qed.
#[export] Instance pi_proper : Proper (keq ==> keq) pi.
Proof. intros A B E x y z Hx Hy Hz. unfold pi. by rewrite E. Qed.
#[export] Instance chi_proper : Proper (keq ==> keq) chi.
Proof. intros A B E x y z Hx Hy Hz. unfold chi. by rewrite !E. Qed.
#[export] Instance iota_proper ir : Proper (keq ==> keq) (iota ir).
Proof. intros A B E x y z Hx Hy Hz. unfold iota. by rewrite !E. Qed.
#[export] Instance Rnd_proper ir : Proper (keq ==> keq) (Rnd ir).
Proof. intros A B E. unfold Rnd. by rewrite E. Qed.

(** ** Rotation and the steps of the code *)

Lemma ROTL64_range a n : is_u64 a -> 0 <= n <= 64 -> is_u64 (ROTL64 a n).
Proof.
  intros Ha Hn. unfold ROTL64, is_u64. apply lor_range; [lia|apply wrap_range; lia|].
  unfold is_u64, in_word in *. rewrite Z.shiftr_div_pow2 by lia.
  pose proof (Z.pow_pos_nonneg 2 (64 - n)). split; [apply Z.div_pos; lia|].
  apply Z.div_lt_upper_bound; [lia|]. nia.
Qed.

Lemma testbit_ROTL64 a n z : is_u64 a -> (0 < n < 64)%nat -> (z < 64)%nat ->
  Z.testbit (ROTL64 a (Z.of_nat n)) (Z.of_nat z) = Z.testbit a (Z.of_nat ((z + (64 - n)) mod 64)).
Proof.
  intros Ha Hn Hz. unfold ROTL64. autorewrite with zbits.
  destruct (Z.ltb_spec (Z.of_nat z) 64); [|lia]. cbn [andb].
  destruct (Nat.lt_ge_cases z n).
  - rewrite Z.testbit_neg_r, orb_false_l by lia.
    rewrite Nat.mod_small by lia. f_equal. lia.
  - rewrite (testbit_high 64 a (_ + _)), orb_false_r by (apply Ha || lia).
    replace (z + (64 - n))%nat with (z - n + 1 * 64)%nat by lia.
    rewrite Nat.Div0.mod_add, Nat.mod_small by lia. f_equal. lia.
Qed.

Definition kstate (s : list Z) : Prop := length s = 25%nat /\ Forall is_u64 s.

Lemma kstate_at s i : kstate s -> is_u64 (at_ s i).
Proof.
  intros [_ F]. unfold at_. destruct (nth_in_or_default i s 0) as [Hin| ->].
  - rewrite Forall_forall in F. apply F. by apply list_elem_of_In.
  - unfold is_u64, in_word. lia.
Qed.

Lemma lt5_cases n : (n < 5)%nat -> (n = 0 \/ n = 1 \/ n = 2 \/ n = 3 \/ n = 4)%nat.
Proof. lia. Qed.

(** Every number below five. *)
Ltac five x :=
  destruct (lt5_cases x) as [E|[E|[E|[E|E]]]]; [lia|subst x..].

(** The xor of a column of five words. *)
Definition column (s : list Z) (x : nat) : Z :=
  Z.lxor (Z.lxor (Z.lxor (Z.lxor (at_ s x) (at_ s (x + 5))) (at_ s (x + 10))) (at_ s (x + 15))) (at_ s (x + 20)).

Lemma column_range s x : kstate s -> is_u64 (column s x).
Proof. intros K. unfold column, is_u64. repeat apply lxor_range; try lia; by apply kstate_at. Qed.

Lemma column_parity s x z : (x < 5)%nat -> Z.testbit (column s x) (Z.of_nat z) = parity (lanes s) x z.
Proof. intros Hx. unfold column, parity, lanes. autorewrite with zbits. five x; reflexivity. Qed.

Lemma COL_MIX_at s x y : kstate s -> (x < 5)%nat -> (y < 5)%nat ->
  at_ (COL_MIX s) (5 * y + x) =
  Z.lxor (at_ s (5 * y + x)) (Z.lxor (column s ((x + 4) mod 5)) (ROTL64 (column s ((x + 1) mod 5)) 1)).
Proof.
  intros [L _] Hx Hy. do 25 (destruct s as [|? s]; [discriminate L|]).
  destruct s; [|discriminate L]. five x; five y; reflexivity.
Qed.

Lemma xor_col_length x t s : length (xor_col x t s) = length s.
Proof. unfold xor_col. cbv zeta. by rewrite !length_insert. Qed.

Lemma COL_MIX_length s : length (COL_MIX s) = length s.
Proof. unfold COL_MIX. cbv zeta. by rewrite !xor_col_length. Qed.

Lemma at_kstate s : length s = 25%nat -> (forall x y, (x < 5)%nat -> (y < 5)%nat -> is_u64 (at_ s (5 * y + x))) -> kstate s.
Proof.
  intros L H. split; [done|]. apply Forall_forall. intros v Hv.
  apply list_elem_of_In, (In_nth _ _ 0) in Hv as (i & Hi & <-). rewrite L in Hi.
  pose proof (Nat.div_mod_eq i 5). pose proof (mod5_lt i).
  specialize (H (i mod 5) (i / 5))%nat. unfold at_ in H.
  replace (5 * (i / 5) + i mod 5)%nat with i in H by lia. apply H; [done|].
  apply Nat.Div0.div_lt_upper_bound. lia.
Qed.

Lemma COL_MIX_kstate s : kstate s -> kstate (COL_MIX s).
Proof.
  intros K. apply at_kstate; [rewrite COL_MIX_length; apply K|]. intros x y Hx Hy.
  rewrite COL_MIX_at by done. apply lxor_range; [lia|by apply kstate_at|].
  apply lxor_range; [lia|by apply column_range|]. apply ROTL64_range; [by apply column_range|lia].
Qed.

Lemma COL_MIX_theta s : kstate s -> keq (lanes (COL_MIX s)) (theta (lanes s)).
Proof.
  intros K x y z Hx Hy Hz. unfold lanes at 1. rewrite COL_MIX_at by done.
  rewrite !Z.lxor_spec, (testbit_ROTL64 _ 1) by (done || lia || by apply column_range).
  rewrite !column_parity by auto. reflexivity.
Qed.

(** The five words a row of the new state is made of. *)
Definition row_input (s1 : list Z) (y k : nat) : Z :=
  if (y =? 0)%nat && (k =? 0)%nat then at_ s1 0 else S_ s1 (5 * y + k - 1).

Lemma row_mix_at b0 b1 b2 b3 b4 x : (x < 5)%nat ->
  let b k := at_ [b0; b1; b2; b3; b4] (k mod 5) in
  forall z, 0 <= z -> Z.testbit (at_ (row_mix b0 b1 b2 b3 b4) x) z =
    xorb (Z.testbit (b x) z) (negb (Z.testbit (b (x + 1)%nat) z) && Z.testbit (b (x + 2)%nat) z).
Proof.
  intros Hx b z Hz. subst b. five x; cbn -[Z.testbit Z.lxor Z.land Z.lor]; autorewrite with zbits;
    destruct (Z.testbit b0 z), (Z.testbit b1 z), (Z.testbit b2 z), (Z.testbit b3 z), (Z.testbit b4 z); reflexivity.
Qed.

Lemma ROW_MIX_row s1 x y : (x < 5)%nat -> (y < 5)%nat ->
  at_ (ROW_MIX s1) (5 * y + x) =
  at_ (row_mix (row_input s1 y 0) (row_input s1 y 1) (row_input s1 y 2) (row_input s1 y 3) (row_input s1 y 4)) x.
Proof. intros Hx Hy. five y; five x; reflexivity. Qed.

Lemma S_range s1 i : kstate s1 -> (i < 24)%nat -> is_u64 (S_ s1 i).
Proof.
  intros K Hi. unfold S_. apply ROTL64_range; [by apply kstate_at|].
  assert (Forall (fun n => 0 <= n <= 64) KR) as F by (repeat constructor; lia).
  rewrite Forall_forall in F. apply F, list_elem_of_In, nth_In. apply Hi.
Qed.

Lemma row_input_bit s1 x y z : kstate s1 -> (x < 5)%nat -> (y < 5)%nat -> (z < 64)%nat ->
  Z.testbit (row_input s1 y x) (Z.of_nat z) = pi (rho (lanes s1)) x y z.
Proof.
  intros K Hx Hy Hz. unfold pi, rho, lanes.
  five x; five y; cbv [row_input Nat.eqb andb];
  try (unfold S_; cbn [KI KR nth Nat.mul Nat.add Nat.sub];
       match goal with |- Z.testbit (ROTL64 _ ?n) _ = _ => change n with (Z.of_nat (Z.to_nat n)) end;
       rewrite testbit_ROTL64 by (by apply kstate_at || (vm_compute; lia) || lia); reflexivity).
  change (Z.testbit (at_ s1 0) (Z.of_nat z) = Z.testbit (at_ s1 0) (Z.of_nat ((z + 1 * 64) mod 64))).
  by rewrite Nat.Div0.mod_add, Nat.mod_small.
Qed.

Lemma ROW_MIX_chi s1 : kstate s1 -> keq (lanes (ROW_MIX s1)) (chi (pi (rho (lanes s1)))).
Proof.
  intros K x y z Hx Hy Hz. unfold lanes at 1. rewrite ROW_MIX_row, row_mix_at by (done || lia).
  unfold chi. rewrite <- !row_input_bit by auto. five x; reflexivity.
Qed.

Lemma row_input_range s1 y k : kstate s1 -> (y < 5)%nat -> (k < 5)%nat -> is_u64 (row_input s1 y k).
Proof.
  intros K Hy Hk. unfold row_input. destruct (_ && _) eqn:E; [by apply kstate_at|].
  apply andb_false_iff in E. rewrite !Nat.eqb_neq in E. apply S_range; [done|lia].
Qed.

Lemma row_mix_range b0 b1 b2 b3 b4 : is_u64 b0 -> is_u64 b1 -> is_u64 b2 -> is_u64 b3 -> is_u64 b4 ->
  Forall is_u64 (row_mix b0 b1 b2 b3 b4).
Proof.
  intros. unfold row_mix, is_u64 in *. repeat apply Forall_cons_2; try apply Forall_nil_2;
  repeat first [assumption|apply lxor_range; [lia|..]|apply lor_range; [lia|..]|apply land_range; [lia|..]];
  match goal with H : in_word _ ?b |- 0 <= ?b => apply H end.
Qed.

Lemma ROW_MIX_kstate s1 : kstate s1 -> kstate (ROW_MIX s1).
Proof.
  intros K. split; [reflexivity|]. unfold ROW_MIX. rewrite !Forall_app.
  repeat split; apply row_mix_range; first [by apply kstate_at|apply S_range; [done|lia]].
Qed.

Lemma xor_round_kstate i n : kstate n -> (i < 24)%nat -> kstate (xor_round i n).
Proof.
  intros [L F] Hi. unfold xor_round. split; [by rewrite length_insert|].
  apply Forall_insert; [done|]. apply lxor_range; [lia|by apply kstate_at|].
  assert (Forall is_u64 hash_keccak_r) as G by (repeat constructor; done).
  rewrite Forall_forall in G. apply G, list_elem_of_In, nth_In. apply Hi.
Qed.

(** The table of round constants is the output of the shift register. *)
Lemma round_constant_bits :
  forallb (fun ir => forallb (fun z => eqb (Z.testbit (at_ hash_keccak_r ir) (Z.of_nat z)) (RC ir z)) (seq 0 64)) (seq 0 24) = true.
Proof. vm_compute. reflexivity. Qed.

Lemma xor_round_iota ir n : kstate n -> (ir < 24)%nat -> keq (lanes (xor_round ir n)) (iota ir (lanes n)).
Proof.
  intros [L F] Hi x y z Hx Hy Hz. unfold lanes, iota, xor_round.
  destruct n as [|n0 n]; [discriminate L|].
  assert (Z.testbit (at_ hash_keccak_r ir) (Z.of_nat z) = RC ir z) as R.
  { pose proof round_constant_bits as B. rewrite forallb_forall in B.
    specialize (B ir). rewrite forallb_forall in B. apply eqb_prop, B; apply in_seq; lia. }
  destruct ((x =? 0)%nat && (y =? 0)%nat) eqn:E.
  - apply andb_true_iff in E as [->%Nat.eqb_eq ->%Nat.eqb_eq].
    change (at_ (<[_ := _]> (n0 :: n)) (5 * 0 + 0)) with (Z.lxor n0 (at_ hash_keccak_r ir)).
    by rewrite Z.lxor_spec, R.
  - apply andb_false_iff in E. rewrite !Nat.eqb_neq in E.
    destruct (5 * y + x)%nat eqn:E'; [lia|]. reflexivity.
Qed.

(** ** The permutation *)

Definition round_sha3 (ir : nat) (s : list Z) : list Z := xor_round ir (ROW_MIX (COL_MIX s)).

Lemma round_kstate ir s : kstate s -> (ir < 24)%nat -> kstate (round_sha3 ir s).
Proof. intros K Hi. by apply xor_round_kstate, Hi; apply ROW_MIX_kstate, COL_MIX_kstate. Qed.

Lemma round_Rnd ir s : kstate s -> (ir < 24)%nat -> keq (lanes (round_sha3 ir s)) (Rnd ir (lanes s)).
Proof.
  intros K Hi. unfold round_sha3, Rnd. pose proof (COL_MIX_kstate s K) as K1.
  rewrite xor_round_iota, ROW_MIX_chi, COL_MIX_theta by (done || by apply ROW_MIX_kstate). done.
Qed.

Lemma fold_left_pairs {A} (f : A -> nat -> A) l s :
  fold_left f (concat (map (fun j => [2 * j; 2 * j + 1]%nat) l)) s =
  fold_left (fun s j => f (f s (2 * j)%nat) (2 * j + 1)%nat) l s.
Proof. revert s. induction l as [|j l IH]; intros s; [done|]. exact (IH _). Qed.

Lemma BlockSha3_rounds s : BlockSha3 s = fold_left (fun s ir => round_sha3 ir s) (seq 0 24) s.
Proof.
  change (seq 0 24) with (concat (map (fun j => [2 * j; 2 * j + 1]%nat) (seq 0 12))).
  rewrite fold_left_pairs. reflexivity.
Qed.

Lemma rounds_keccak s A irs : kstate s -> keq (lanes s) A -> Forall (fun ir => ir < 24)%nat irs ->
  let s' := fold_left (fun s ir => round_sha3 ir s) irs s in
  kstate s' /\ keq (lanes s') (fold_left (fun A ir => Rnd ir A) irs A).
Proof.
  intros K E F. revert s A K E. induction F as [|ir irs Hi F IH]; intros s A K E; [done|].
  cbn [fold_left]. apply IH; [by apply round_kstate|]. by rewrite round_Rnd, E.
Qed.

Lemma first_rounds : Forall (fun ir => ir < 24)%nat (seq 0 24).
Proof. apply Forall_seq. lia. Qed.

Lemma BlockSha3_kstate s : kstate s -> kstate (BlockSha3 s).
Proof. intros K. rewrite BlockSha3_rounds. by apply (rounds_keccak s (lanes s) _ K), first_rounds. Qed.

(** C25: The block operation is the permutation Keccak-p[1600, 24] of FIPS 202: on
    any state of 25 words of 64 bits, bit [z] of word [5y + x] of the result is
    the bit [x], [y], [z] that the twenty-four rounds of the five step mappings
    of the standard give, with its rotation offsets and round constants. *)
Theorem BlockSha3_is_keccak_p s x y z :
  length s = 25%nat -> Forall is_u64 s -> (x < 5)%nat -> (y < 5)%nat -> (z < 64)%nat ->
  Z.testbit (at_ (BlockSha3 s) (5 * y + x)) (Z.of_nat z) = keccak_p (lanes s) x y z.
Proof.
  intros L F Hx Hy Hz. rewrite BlockSha3_rounds.
  apply (rounds_keccak s (lanes s) (seq 0 24) (conj L F) (reflexivity _) first_rounds); done.
Qed.

Lemma BlockSha3_is_keccak_p_witness :
  at_ (BlockSha3 (repeat 0 25)) 0 = 0xF1258F7940E1DDE7 /\ keccak_p (lanes (repeat 0 25)) 0%nat 0%nat 63%nat = true.
Proof.
  split; [vm_compute; reflexivity|].
  transitivity (Z.testbit (at_ (BlockSha3 (repeat 0 25)) (5 * 0 + 0)) (Z.of_nat 63)); [symmetry|vm_compute; reflexivity].
  apply (BlockSha3_is_keccak_p (repeat 0 25) 0%nat 0%nat 63%nat); [reflexivity| |lia..].
  repeat (apply Forall_cons_2; [done|]). apply Forall_nil_2.
Defined.
