(* ===== verification/Sha3.v ===== *)
(** * SHA-3 and SHAKE (src/boot/wolfcrypt/src/sha3.c)

    The sponge around [BlockSha3]: buffering of message bytes, padding, the
    hashes of fixed length and the extendable outputs, squeezed at once or block
    by block; the sponge of FIPS 202 over byte strings; and the proof that a
    message given in any pieces is hashed as the standard says.  The state words
    are little-endian in memory, and [xorbuf] is the bytewise exclusive or
    whatever the alignment of its buffers (Misc.v).  [BlockSha3] is in Keccak.v. *)

From S2P Require Import Prelude.
From S2P Require Import Misc.
From S2P Require Import DtlsDefs.
From S2P Require Import Keccak.

(** ** The object *)

Record wc_Sha3 : Type := {
  sha3_s : list Z;     (** 25 words *)
  sha3_t : list Z;     (** 200 bytes: message not processed yet *)
  sha3_i : Z }.        (** bytes of the message in [t], a byte *)

Definition WC_SHA3_224_COUNT : nat := 18.
Definition WC_SHA3_256_COUNT : nat := 17.
Definition WC_SHA3_384_COUNT : nat := 13.
Definition WC_SHA3_512_COUNT : nat := 9.
Definition WC_SHA3_128_COUNT : nat := 21.
Definition WC_SHA3_224_DIGEST_SIZE : nat := 28.
Definition WC_SHA3_256_DIGEST_SIZE : nat := 32.
Definition WC_SHA3_384_DIGEST_SIZE : nat := 48.
Definition WC_SHA3_512_DIGEST_SIZE : nat := 64.

(** The state as bytes and back. *)
Definition state_bytes (s : list Z) : list Z := concat (map (le_bytes 8) s).
Definition state_words (b : list Z) : list Z := map (fun j => le_word (slice (8 * j) 8 b)) (seq 0 25).

(** [xorbuf(sha3->s, m, n)] *)
Definition xorbuf_state (s m : list Z) (n : nat) : list Z := state_words (xor_bytes n (state_bytes s) m).

(** [((byte* )sha3->s)[k] ^= c] *)
Definition xor_state_byte (s : list Z) (k : nat) (c : Z) : list Z :=
  let b := state_bytes s in state_words (<[k := Z.lxor (at_ b k) c]> b).

(** ** Initialise, update, finish *)

(** [t] keeps what was in memory. *)
Definition InitSha3 (sha3 : wc_Sha3) : wc_Sha3 :=
  {| sha3_s := replicate 25 0; sha3_t := sha3_t sha3; sha3_i := 0 |}.

(** The loop over whole blocks: the state and the data left. *)
Fixpoint Sha3Update_blocks (blocks : nat) (s data : list Z) (p : nat) : list Z * list Z :=
  match blocks with
  | O => (s, data)
  | S blocks => Sha3Update_blocks blocks (BlockSha3 (xorbuf_state s data (p * 8))) (drop (p * 8) data) p
  end.

(** The part that completes a started block: the object and the data left. *)
Definition Sha3Update_partial (sha3 : wc_Sha3) (data : list Z) (p : nat) : wc_Sha3 * list Z :=
  if 0 <? sha3_i sha3 then
    let l := u8 (Z.of_nat p * 8 - sha3_i sha3) in
    let l := if Z.of_nat (length data) <? l then u8 (Z.of_nat (length data)) else l in
    let t := blit (Z.to_nat (sha3_i sha3)) (take (Z.to_nat l) data) (sha3_t sha3) in
    let data := drop (Z.to_nat l) data in
    let i := u8 (sha3_i sha3 + l) in
    if i =? Z.of_nat p * 8 then
      ({| sha3_s := BlockSha3 (xorbuf_state (sha3_s sha3) t (p * 8)); sha3_t := t; sha3_i := 0 |}, data)
    else ({| sha3_s := sha3_s sha3; sha3_t := t; sha3_i := i |}, data)
  else (sha3, data).

(** Whole blocks and the bytes after them. *)
Definition Sha3Update_whole (sha3 : wc_Sha3) (data : list Z) (p : nat) : wc_Sha3 :=
  let blocks := (length data / (p * 8))%nat in
  let '(s, data) := Sha3Update_blocks blocks (sha3_s sha3) data p in
  let t := if (0 <? length data)%nat then blit 0 data (sha3_t sha3) else sha3_t sha3 in
  {| sha3_s := s; sha3_t := t; sha3_i := u8 (sha3_i sha3 + Z.of_nat (length data)) |}.

(** The length is that of [data]; the result is always 0. *)
Definition Sha3Update (sha3 : wc_Sha3) (data : list Z) (p : nat) : wc_Sha3 :=
  let '(sha3, data) := Sha3Update_partial sha3 data p in
  Sha3Update_whole sha3 data p.

(** The output loop, [l] being the bytes still to write: blocks of [rate] bytes
    while they fit, then a last partial one. *)
Fixpoint Sha3Final_loop (fuel rate l : nat) (s : list Z) : list Z * list Z :=
  match fuel with
  | O => ([], s)
  | S fuel =>
      if (rate <=? l)%nat then
        let s := BlockSha3 s in
        let '(hash, s') := Sha3Final_loop fuel rate (l - rate) s in
        (take rate (state_bytes s) ++ hash, s')
      else if (l =? 0)%nat then ([], s)
      else let s := BlockSha3 s in (take l (state_bytes s), s)
  end.

(** The hash and the object; the result is always 0. *)
Definition Sha3Final (sha3 : wc_Sha3) (padChar : Z) (p l : nat) : list Z * wc_Sha3 :=
  let rate := (p * 8)%nat in
  let s := xorbuf_state (sha3_s sha3) (sha3_t sha3) (Z.to_nat (sha3_i sha3)) in
  let s := xor_state_byte s (Z.to_nat (sha3_i sha3)) padChar in
  let s := xor_state_byte s (rate - 1) 0x80 in
  let '(hash, s) := Sha3Final_loop (S l) rate l s in
  (hash, {| sha3_s := s; sha3_t := sha3_t sha3; sha3_i := sha3_i sha3 |}).

(** ** The interface

    The pointer to the object is not NULL; the data pointer is [None] when NULL.
    The result code and the object, with the hash where there is one. *)

Definition wc_InitSha3 (sha3 : wc_Sha3) : Z * wc_Sha3 := (0, InitSha3 sha3).

Definition wc_Sha3Update (sha3 : wc_Sha3) (data : option (list Z)) (len : nat) (p : nat) : Z * wc_Sha3 :=
  match data with
  | None => if (0 <? len)%nat then (BAD_FUNC_ARG, sha3) else (0, sha3)
  | Some data => (0, Sha3Update sha3 (take len data) p)
  end.

Definition wc_Sha3Final (sha3 : wc_Sha3) (p len : nat) : Z * list Z * wc_Sha3 :=
  let '(hash, sha3) := Sha3Final sha3 0x06 p len in (0, hash, InitSha3 sha3).

Definition wc_Sha3Copy (src : wc_Sha3) : Z * wc_Sha3 := (0, src).

(** The object itself is not changed. *)
Definition wc_Sha3GetHash (sha3 : wc_Sha3) (p len : nat) : Z * list Z :=
  let '(ret, tmpSha3) := wc_Sha3Copy sha3 in
  if ret =? 0 then let '(ret, hash, _) := wc_Sha3Final tmpSha3 p len in (ret, hash) else (ret, []).

Definition wc_InitSha3_224 := wc_InitSha3.
Definition wc_InitSha3_256 := wc_InitSha3.
Definition wc_InitSha3_384 := wc_InitSha3.
Definition wc_InitSha3_512 := wc_InitSha3.
Definition wc_Sha3_224_Update sha3 data len := wc_Sha3Update sha3 data len WC_SHA3_224_COUNT.
Definition wc_Sha3_256_Update sha3 data len := wc_Sha3Update sha3 data len WC_SHA3_256_COUNT.
Definition wc_Sha3_384_Update sha3 data len := wc_Sha3Update sha3 data len WC_SHA3_384_COUNT.
Definition wc_Sha3_512_Update sha3 data len := wc_Sha3Update sha3 data len WC_SHA3_512_COUNT.
Definition wc_Sha3_224_Final sha3 := wc_Sha3Final sha3 WC_SHA3_224_COUNT WC_SHA3_224_DIGEST_SIZE.
Definition wc_Sha3_256_Final sha3 := wc_Sha3Final sha3 WC_SHA3_256_COUNT WC_SHA3_256_DIGEST_SIZE.
Definition wc_Sha3_384_Final sha3 := wc_Sha3Final sha3 WC_SHA3_384_COUNT WC_SHA3_384_DIGEST_SIZE.
Definition wc_Sha3_512_Final sha3 := wc_Sha3Final sha3 WC_SHA3_512_COUNT WC_SHA3_512_DIGEST_SIZE.
Definition wc_Sha3_224_GetHash sha3 := wc_Sha3GetHash sha3 WC_SHA3_224_COUNT WC_SHA3_224_DIGEST_SIZE.
Definition wc_Sha3_256_GetHash sha3 := wc_Sha3GetHash sha3 WC_SHA3_256_COUNT WC_SHA3_256_DIGEST_SIZE.
Definition wc_Sha3_384_GetHash sha3 := wc_Sha3GetHash sha3 WC_SHA3_384_COUNT WC_SHA3_384_DIGEST_SIZE.
Definition wc_Sha3_512_GetHash sha3 := wc_Sha3GetHash sha3 WC_SHA3_512_COUNT WC_SHA3_512_DIGEST_SIZE.

(** *** SHAKE *)

Definition wc_InitShake128 := wc_InitSha3.
Definition wc_InitShake256 := wc_InitSha3.
Definition wc_Shake128_Update sha3 data len := wc_Sha3Update sha3 data len WC_SHA3_128_COUNT.
Definition wc_Shake256_Update sha3 data len := wc_Sha3Update sha3 data len WC_SHA3_256_COUNT.

Definition shake_final (p : nat) (shake : wc_Sha3) (hashLen : nat) : Z * list Z * wc_Sha3 :=
  let '(hash, shake) := Sha3Final shake 0x1f p hashLen in (0, hash, InitSha3 shake).
Definition wc_Shake128_Final := shake_final WC_SHA3_128_COUNT.
Definition wc_Shake256_Final := shake_final WC_SHA3_256_COUNT.

(** Update and final without output nor reset; [len] bytes of [data], where a
    NULL [data] has [len] 0 and updates with nothing. *)
Definition shake_absorb (p : nat) (shake : wc_Sha3) (data : option (list Z)) (len : nat) : Z * wc_Sha3 :=
  match data with
  | None => if (len =? 0)%nat then
              let '(_, shake) := Sha3Final (Sha3Update shake [] p) 0x1f p 0 in
              (0, {| sha3_s := sha3_s shake; sha3_t := sha3_t shake; sha3_i := 0 |})
            else (BAD_FUNC_ARG, shake)
  | Some data =>
      let '(_, shake) := Sha3Final (Sha3Update shake (take len data) p) 0x1f p 0 in
      (0, {| sha3_s := sha3_s shake; sha3_t := sha3_t shake; sha3_i := 0 |})
  end.
Definition wc_Shake128_Absorb := shake_absorb WC_SHA3_128_COUNT.
Definition wc_Shake256_Absorb := shake_absorb WC_SHA3_256_COUNT.

Fixpoint squeeze_loop (blockCnt p : nat) (s : list Z) : list Z * list Z :=
  match blockCnt with
  | O => ([], s)
  | S blockCnt =>
      let s := BlockSha3 s in
      let '(out, s') := squeeze_loop blockCnt p s in
      (take (p * 8) (state_bytes s) ++ out, s')
  end.

(** The blocks written and the object. *)
Definition shake_squeeze (p : nat) (shake : wc_Sha3) (blockCnt : nat) : Z * list Z * wc_Sha3 :=
  let '(out, s) := squeeze_loop blockCnt p (sha3_s shake) in
  (0, out, {| sha3_s := s; sha3_t := sha3_t shake; sha3_i := sha3_i shake |}).
Definition wc_Shake128_SqueezeBlocks := shake_squeeze WC_SHA3_128_COUNT.
Definition wc_Shake256_SqueezeBlocks := shake_squeeze WC_SHA3_256_COUNT.

(** ** FIPS 202: the sponge over byte strings *)

(** The permutation on the 200 bytes of the state. *)
Definition keccak_f (B : list Z) : list Z := state_bytes (BlockSha3 (state_words B)).

Definition blocks (r : nat) (m : list Z) : list (list Z) :=
  map (fun i => slice (r * i) r m) (seq 0 (length m / r)).

Definition absorb (r : nat) (m : list Z) : list Z :=
  fold_left (fun B P => keccak_f (xor_bytes r B P)) (blocks r m) (replicate 200 0).

(** The domain bits and the padding, in bytes (B.2 of the standard). *)
Definition pad (d : Z) (r n : nat) : list Z :=
  let q := (r - n mod r)%nat in
  if (q =? 1)%nat then [Z.lxor d 0x80] else d :: replicate (q - 2) 0 ++ [0x80].

Definition squeezed (r : nat) (B : list Z) (i : nat) : list Z := take r (Nat.iter i keccak_f B).
Definition squeeze (r : nat) (B : list Z) (l : nat) : list Z :=
  take l (concat (map (squeezed r B) (seq 0 (S (l / r))))).

Definition KECCAK (r : nat) (d : Z) (m : list Z) (l : nat) : list Z :=
  squeeze r (absorb r (m ++ pad d r (length m))) l.

(** ** The state as bytes *)

Definition bstate (B : list Z) : Prop := length B = 200%nat /\ bytes B.

Lemma slice_chunks k n (B : list Z) : length B = (n * k)%nat ->
  concat (map (fun j => slice (k * j) k B) (seq 0 n)) = B.
Proof.
  revert B. induction n as [|n IH]; intros B L; [by destruct B|].
  cbn [seq map concat]. rewrite <- seq_shift, map_map.
  transitivity (take k B ++ drop k B); [|apply take_drop].
  f_equal; [unfold slice; by rewrite Nat.mul_0_r|].
  transitivity (concat (map (fun j => slice (k * j) k (drop k B)) (seq 0 n))); [|apply IH; rewrite length_drop; lia].
  f_equal. apply map_ext. intros j. unfold slice. rewrite drop_drop. do 2 f_equal. lia.
Qed.

Lemma state_bytes_length s : length (state_bytes s) = (8 * length s)%nat.
Proof.
  unfold state_bytes. induction s as [|w s IH]; [done|].
  cbn [map concat length]. rewrite length_app, length_le_bytes, IH. lia.
Qed.

Lemma state_bytes_bytes s : bytes (state_bytes s).
Proof.
  unfold state_bytes. induction s as [|w s IH]; [constructor|]. cbn [map concat].
  apply Forall_app. split; [apply bytes_le_bytes|exact IH].
Qed.

Lemma state_bytes_words B : bstate B -> state_bytes (state_words B) = B.
Proof.
  intros [L HB]. unfold state_bytes, state_words. rewrite map_map.
  transitivity (concat (map (fun j => slice (8 * j) 8 B) (seq 0 25))); [|by apply slice_chunks].
  f_equal. apply map_ext_in. intros j Hj%in_seq.
  pose proof (le_bytes_le_word (slice (8 * j) 8 B) (Forall_slice _ _ _ _ HB)) as E.
  by rewrite length_slice in E by lia.
Qed.

Lemma state_words_kstate B : bstate B -> kstate (state_words B).
Proof.
  intros [L HB]. split; [done|]. apply Forall_map, Forall_forall. intros j Hj%list_elem_of_In%in_seq.
  pose proof (le_word_range (slice (8 * j) 8 B) (Forall_slice _ _ _ _ HB)) as R.
  by rewrite length_slice in R by lia.
Qed.

Lemma slice_state_bytes s j : (j < length s)%nat -> slice (8 * j) 8 (state_bytes s) = le_bytes 8 (at_ s j).
Proof.
  unfold state_bytes. revert j. induction s as [|w s IH]; intros j Hj; [simpl in Hj; lia|]. destruct j as [|j].
  - unfold slice. cbn [Nat.mul drop map concat at_ nth]. apply (take_app_length' _ _ 8). symmetry. apply length_le_bytes.
  - simpl in Hj. replace (8 * S j)%nat with (8 + 8 * j)%nat by lia. unfold slice. rewrite <- drop_drop.
    cbn [map concat]. rewrite (drop_app_length' _ _ 8) by (symmetry; apply length_le_bytes). apply IH. lia.
Qed.

Lemma state_words_bytes s : kstate s -> state_words (state_bytes s) = s.
Proof.
  intros [L F]. apply (nth_ext _ _ 0 0); [done|]. intros j Hj. change (length _) with 25%nat in Hj.
  unfold state_words. rewrite (nth_indep _ 0 (le_word (slice (8 * 0) 8 (state_bytes s)))) by done.
  rewrite (map_nth (fun j => le_word (slice (8 * j) 8 (state_bytes s)))), seq_nth by done.
  rewrite slice_state_bytes by lia. rewrite le_word_le_bytes. apply Z.mod_small.
  rewrite Forall_forall in F. apply F, list_elem_of_In, nth_In. lia.
Qed.

Lemma state_bytes_bstate s : kstate s -> bstate (state_bytes s).
Proof. intros [L _]. split; [by rewrite state_bytes_length, L|apply state_bytes_bytes]. Qed.

Lemma keccak_f_bstate B : bstate B -> bstate (keccak_f B).
Proof. intros H. by apply state_bytes_bstate, BlockSha3_kstate, state_words_kstate. Qed.

Lemma keccak_f_words s : kstate s -> state_bytes (BlockSha3 s) = keccak_f (state_bytes s).
Proof. intros K. unfold keccak_f. by rewrite state_words_bytes. Qed.

Lemma lxor_byte a b : is_byte a -> is_byte b -> is_byte (Z.lxor a b).
Proof. apply (lxor_range 8). lia. Qed.

Lemma xor_bytes_take n b m : xor_bytes n b (take n m) = xor_bytes n b m.
Proof. revert b m. induction n as [|n IH]; intros [|x b] [|y m]; cbn; try done. by rewrite IH. Qed.

Lemma xor_bytes_bytes n b m : bytes b -> bytes (take n m) -> bytes (xor_bytes n b m).
Proof.
  revert b m. induction n as [|n IH]; intros [|x b] [|y m] Hb Hm; cbn in *; try done.
  inversion Hb; inversion Hm; subst. constructor; [by apply lxor_byte|auto].
Qed.

Lemma xor_bytes_bstate n B m : bstate B -> bytes (take n m) -> bstate (xor_bytes n B m).
Proof. intros [L HB] Hm. split; [by rewrite length_xor_bytes|by apply xor_bytes_bytes]. Qed.

Lemma xorbuf_state_bytes s m n : kstate s -> bytes (take n m) ->
  kstate (xorbuf_state s m n) /\ state_bytes (xorbuf_state s m n) = xor_bytes n (state_bytes s) m.
Proof.
  intros K Hm. unfold xorbuf_state.
  assert (bstate (xor_bytes n (state_bytes s) m)) by (by apply xor_bytes_bstate, Hm; apply state_bytes_bstate).
  split; [by apply state_words_kstate|by apply state_bytes_words].
Qed.

(** ** Absorbing a message in pieces *)

Fixpoint absorb_n (n r : nat) (B m : list Z) : list Z :=
  match n with
  | O => B
  | S n => absorb_n n r (keccak_f (xor_bytes r B m)) (drop r m)
  end.

Lemma absorb_n_fold n r B m k :
  fold_left (fun B P => keccak_f (xor_bytes r B P)) (map (fun i => slice (r * i) r m) (seq k n)) B =
  absorb_n n r B (drop (r * k) m).
Proof.
  revert B k. induction n as [|n IH]; intros B k; [done|]. cbn [seq map fold_left absorb_n].
  rewrite IH. unfold slice. rewrite xor_bytes_take, drop_drop. do 2 f_equal. lia.
Qed.

Lemma absorb_eq r m : absorb r m = absorb_n (length m / r) r (replicate 200 0) m.
Proof. unfold absorb, blocks. rewrite absorb_n_fold. by rewrite Nat.mul_0_r. Qed.

Lemma absorb_n_app n r B m d : (n * r <= length m)%nat -> absorb_n n r B (m ++ d) = absorb_n n r B m.
Proof.
  revert B m. induction n as [|n IH]; intros B m L; [done|]. cbn [absorb_n].
  rewrite <- (xor_bytes_take r B (m ++ d)), take_app_le, xor_bytes_take, drop_app_le by lia.
  apply IH. rewrite length_drop. lia.
Qed.

Lemma absorb_n_add n k r B m : absorb_n (n + k) r B m = absorb_n k r (absorb_n n r B m) (drop (n * r) m).
Proof.
  revert B m. induction n as [|n IH]; intros B m; [done|]. cbn [Nat.add absorb_n].
  rewrite IH, drop_drop. do 2 f_equal.
Qed.

Lemma absorb_n_bstate n r B m : bstate B -> bytes m -> bstate (absorb_n n r B m).
Proof.
  revert B m. induction n as [|n IH]; intros B m HB Hm; [done|]. cbn [absorb_n].
  apply IH; [|by apply Forall_drop]. apply keccak_f_bstate, xor_bytes_bstate; [done|by apply Forall_take].
Qed.

Lemma take_blit i (src dst : list Z) : (i + length src <= length dst)%nat ->
  take (i + length src) (blit i src dst) = take i dst ++ src.
Proof.
  intros L. unfold blit. rewrite (take_ge src) by lia.
  rewrite app_assoc. apply take_app_length'. rewrite length_app, length_take. lia.
Qed.

Section Absorbing.
Context (p : nat) (Hp : (0 < p <= 25)%nat).
Let r := (p * 8)%nat.

(** What the object holds of the message [m]. *)
Record absorbed (m : list Z) (st : wc_Sha3) : Prop := {
  ab_words : kstate (sha3_s st);
  ab_state : state_bytes (sha3_s st) = absorb_n (length m / r) r (replicate 200 0) m;
  ab_i : sha3_i st = Z.of_nat (length m mod r);
  ab_t : take (length m mod r) (sha3_t st) = drop (length m / r * r) m;
  ab_t_length : length (sha3_t st) = 200%nat }.

Lemma zeros_kstate : kstate (replicate 25 0).
Proof. split; [done|]. by apply Forall_replicate. Qed.

Lemma InitSha3_absorbed st : length (sha3_t st) = 200%nat -> absorbed [] (InitSha3 st).
Proof.
  intros L. assert (length (@nil Z) / r = 0 /\ length (@nil Z) mod r = 0)%nat as [E1 E2].
  { split; [apply Nat.div_small|apply Nat.mod_small]; cbn; lia. }
  constructor; rewrite ?E1, ?E2; [apply zeros_kstate|done..].
Qed.

Lemma Update_blocks_spec n s data : kstate s -> bytes data ->
  exists s', Sha3Update_blocks n s data p = (s', drop (n * r) data) /\
    kstate s' /\ state_bytes s' = absorb_n n r (state_bytes s) data.
Proof.
  revert s data. induction n as [|n IH]; intros s data K Hd; [by exists s|]. cbn [Sha3Update_blocks].
  destruct (xorbuf_state_bytes s data r K) as [K1 E1]; [by apply Forall_take|].
  destruct (IH (BlockSha3 (xorbuf_state s data r)) (drop r data)) as (s' & E & K' & Eb);
    [by apply BlockSha3_kstate|by apply Forall_drop|].
  exists s'. unfold r in E. rewrite E, drop_drop. split; [done|]. split; [done|].
  rewrite Eb, keccak_f_words, E1 by done. done.
Qed.

Lemma split_length (m : list Z) : (length m = r * (length m / r) + length m mod r /\ length m mod r < r)%nat.
Proof. split; [apply Nat.div_mod_eq|apply Nat.mod_upper_bound; lia]. Qed.

Lemma div_mod_of (n q k : nat) : (n = r * q + k)%nat -> (k < r)%nat -> (n / r = q /\ n mod r = k)%nat.
Proof.
  intros E L. split; [symmetry; by apply (Nat.div_unique n r q k)|symmetry; by apply (Nat.mod_unique n r q k)].
Qed.

Lemma Update_partial_spec m st d : absorbed m st -> bytes m -> bytes d ->
  exists d1, d = d1 ++ snd (Sha3Update_partial st d p) /\
    absorbed (m ++ d1) (fst (Sha3Update_partial st d p)) /\
    (snd (Sha3Update_partial st d p) = [] \/ sha3_i (fst (Sha3Update_partial st d p)) = 0).
Proof.
  intros [K Es Ei Et Lt] Hm Hd. destruct (split_length m) as [Em Lm].
  set (i := (length m mod r)%nat) in *. set (n := (length m / r)%nat) in *.
  unfold Sha3Update_partial. rewrite Ei.
  destruct (Z.ltb_spec 0 (Z.of_nat i)) as [Hi|Hi]; cbv zeta.
  2:{ exists []. rewrite app_nil_r. split; [done|]. split; [by constructor|]. right. cbn [fst]. lia. }
  rewrite (wrap_small 8 (Z.of_nat p * 8 - _)) by (unfold in_word; lia).
  destruct (Z.ltb_spec (Z.of_nat (length d)) (Z.of_nat p * 8 - Z.of_nat i)) as [Hl|Hl].
  - rewrite (wrap_small 8 (Z.of_nat (length d))), (wrap_small 8 (_ + _)) by (unfold in_word; lia).
    destruct (Z.eqb_spec (Z.of_nat i + Z.of_nat (length d)) (Z.of_nat p * 8)); [lia|]. cbn [fst snd].
    rewrite Nat2Z.id, (take_ge d) by lia. rewrite drop_ge by lia. rewrite Nat2Z.id.
    exists d. split; [by rewrite app_nil_r|]. split; [|by left].
    destruct (div_mod_of (length (m ++ d)) n (i + length d)) as [E1 E2]; [rewrite length_app; lia|lia|].
    constructor; cbn [sha3_s sha3_t sha3_i]; rewrite ?E1, ?E2; [done|by rewrite absorb_n_app by lia|lia| |].
    + rewrite take_blit, Et by lia. by rewrite drop_app_le by lia.
    + rewrite length_blit; lia.
  - rewrite (wrap_small 8 (_ + _)) by (unfold in_word; lia).
    destruct (Z.eqb_spec (Z.of_nat i + (Z.of_nat p * 8 - Z.of_nat i)) (Z.of_nat p * 8)); [|lia]. cbn [fst snd].
    replace (Z.to_nat (Z.of_nat p * 8 - Z.of_nat i)) with (r - i)%nat by lia. rewrite Nat2Z.id.
    set (d1 := take (r - i) d). assert (length d1 = r - i)%nat as Ld by (subst d1; rewrite length_take; lia).
    exists d1. split; [symmetry; apply take_drop|]. split; [|by right].
    destruct (div_mod_of (length (m ++ d1)) (n + 1) 0) as [E1 E2]; [rewrite length_app; lia|lia|].
    assert (take r (blit i d1 (sha3_t st)) = drop (n * r) (m ++ d1)) as Eblk.
    { replace r with (i + length d1)%nat at 1 by lia. rewrite take_blit, Et by lia. by rewrite drop_app_le by lia. }
    destruct (xorbuf_state_bytes (sha3_s st) (blit i d1 (sha3_t st)) r K) as [K1 E3].
    { rewrite Eblk. apply Forall_drop, Forall_app. split; [done|by apply Forall_take]. }
    constructor; cbn [sha3_s sha3_t sha3_i]; rewrite ?E1, ?E2; [by apply BlockSha3_kstate| |done| |].
    + change (p * 8)%nat with r. rewrite keccak_f_words, E3, absorb_n_add, absorb_n_app, <- Es by (done || lia). cbn [absorb_n].
      by rewrite <- Eblk, xor_bytes_take.
    + rewrite take_0, drop_ge; [done|]. rewrite length_app. lia.
    + rewrite length_blit; lia.
Qed.

Lemma Update_whole_spec m st d : absorbed m st -> bytes d -> (d = [] \/ sha3_i st = 0) ->
  absorbed (m ++ d) (Sha3Update_whole st d p).
Proof.
  intros [K Es Ei Et Lt] Hd Hor. destruct (split_length m) as [Em Lm].
  set (i := (length m mod r)%nat) in *. set (n := (length m / r)%nat) in *.
  unfold Sha3Update_whole. fold r.
  destruct Hor as [->|Hi].
  { rewrite Nat.div_small by (cbn; lia). cbn [Sha3Update_blocks length Nat.ltb Nat.leb]. rewrite app_nil_r, Ei.
    rewrite Z.add_0_r, (wrap_small 8) by (unfold in_word; lia). by constructor. }
  assert (i = 0)%nat as E0 by lia. clearbody i. subst i.
  destruct (split_length d) as [Ed Ld].
  set (j := (length d mod r)%nat) in *. set (k := (length d / r)%nat) in *.
  destruct (Update_blocks_spec k (sha3_s st) d K Hd) as (s' & E & K' & Eb). rewrite E.
  assert (length (drop (k * r) d) = j) as Ldr by (rewrite length_drop; lia). rewrite Ldr.
  destruct (div_mod_of (length (m ++ d)) (n + k) j) as [E1 E2]; [rewrite length_app; lia|lia|].
  constructor; cbn [sha3_s sha3_t sha3_i]; rewrite ?E1, ?E2; [done| | | |].
  - rewrite Eb, Es, absorb_n_add, absorb_n_app, drop_app_ge by lia.
    by replace (n * r - length m)%nat with 0%nat by lia.
  - rewrite Hi, (wrap_small 8) by (unfold in_word; lia). lia.
  - rewrite drop_app_ge by lia. replace ((n + k) * r - length m)%nat with (k * r)%nat by lia.
    destruct (Nat.ltb_spec 0 j).
    + rewrite <- Ldr at 1. apply (take_blit 0). lia.
    + replace j with 0%nat by lia. rewrite take_0. symmetry. apply nil_length_inv. lia.
  - destruct (Nat.ltb_spec 0 j); [rewrite length_blit; lia|done].
Qed.

Lemma Update_absorbed m st d : absorbed m st -> bytes m -> bytes d -> absorbed (m ++ d) (Sha3Update st d p).
Proof.
  intros A Hm Hd. unfold Sha3Update.
  destruct (Update_partial_spec m st d A Hm Hd) as (d1 & E & A1 & Hor).
  destruct (Sha3Update_partial st d p) as [st1 d2]. cbn [fst snd] in *. subst d. rewrite app_assoc.
  apply Forall_app in Hd as [_ Hd2]. by apply Update_whole_spec.
Qed.

End Absorbing.

(** ** Padding and output *)

Lemma at_xor_bytes n b m k : (n <= length b)%nat -> (n <= length m)%nat ->
  at_ (xor_bytes n b m) k = if (k <? n)%nat then Z.lxor (at_ b k) (at_ m k) else at_ b k.
Proof.
  revert b m k. induction n as [|n IH]; intros [|x b] [|y m] k Lb Lm; cbn [length] in *; try lia; try done.
  cbn [xor_bytes]. destruct k as [|k]; [done|]. cbn [at_ nth]. apply IH; lia.
Qed.

Lemma at_insert (b : list Z) k v j : (k < length b)%nat ->
  at_ (<[k := v]> b) j = if (j =? k)%nat then v else at_ b j.
Proof.
  intros L. unfold at_. rewrite !nth_lookup. destruct (Nat.eqb_spec j k) as [->|Hn].
  - by rewrite list_lookup_insert_eq.
  - by rewrite list_lookup_insert_ne by congruence.
Qed.

Lemma at_app_right (a b : list Z) k : (length a <= k)%nat -> at_ (a ++ b) k = at_ b (k - length a).
Proof. intros L. by apply app_nth2. Qed.
Lemma at_app_left (a b : list Z) k : (k < length a)%nat -> at_ (a ++ b) k = at_ a k.
Proof. intros L. by apply app_nth1. Qed.
Lemma at_replicate0 n k : at_ (replicate n 0) k = 0.
Proof. unfold at_. revert k. induction n as [|n IH]; intros [|k]; cbn; auto. Qed.

Lemma pad_length d r n : (0 < r)%nat -> length (pad d r n) = (r - n mod r)%nat.
Proof.
  intros Hr. pose proof (Nat.mod_upper_bound n r). unfold pad.
  destruct (Nat.eqb_spec (r - n mod r) 1) as [->|]; [done|].
  cbn [length]. rewrite length_app, length_replicate. cbn [length]. lia.
Qed.

Lemma pad_at d r n k : (0 < r)%nat -> (k < r - n mod r)%nat ->
  at_ (pad d r n) k = Z.lxor (if (k =? 0)%nat then d else 0) (if (k =? r - n mod r - 1)%nat then 0x80 else 0).
Proof.
  intros Hr Hk. unfold pad. set (q := (r - n mod r)%nat) in *.
  destruct (Nat.eqb_spec q 1) as [E|E].
  - replace k with 0%nat by lia. rewrite E. done.
  - destruct k as [|k].
    + destruct (Nat.eqb_spec 0 (q - 1)); [lia|]. by rewrite Z.lxor_0_r.
    + change (at_ (replicate (q - 2) 0 ++ [0x80]) k = Z.lxor 0 (if (S k =? q - 1)%nat then 0x80 else 0)).
      rewrite Z.lxor_0_l. destruct (Nat.eqb_spec (S k) (q - 1)).
      * rewrite at_app_right by (rewrite length_replicate; lia). rewrite length_replicate.
        by replace (k - (q - 2))%nat with 0%nat by lia.
      * rewrite at_app_left by (rewrite length_replicate; lia). apply at_replicate0.
Qed.

Lemma pad_bytes d r n : is_byte d -> bytes (pad d r n).
Proof.
  intros Hd. unfold pad. destruct (_ =? _)%nat.
  - constructor; [|constructor]. apply lxor_byte; [done|]. unfold is_byte. lia.
  - constructor; [done|]. apply Forall_app. split; [apply Forall_replicate; unfold is_byte; lia|].
    constructor; [|constructor]. unfold is_byte. lia.
Qed.

Lemma xor_state_byte_spec s k c : kstate s -> is_byte c -> (k < 200)%nat ->
  kstate (xor_state_byte s k c) /\
  state_bytes (xor_state_byte s k c) = <[k := Z.lxor (at_ (state_bytes s) k) c]> (state_bytes s).
Proof.
  intros K Hc Hk. destruct (state_bytes_bstate s K) as [L HB]. unfold xor_state_byte.
  assert (bstate (<[k := Z.lxor (at_ (state_bytes s) k) c]> (state_bytes s))).
  { split; [by rewrite length_insert|]. apply Forall_insert; [done|]. apply lxor_byte; [|done].
    rewrite Forall_forall in HB. apply HB, list_elem_of_In, nth_In. lia. }
  split; [by apply state_words_kstate|by apply state_bytes_words].
Qed.

(** Padding in the state is absorbing the padded block. *)
Lemma pad_in_state r d n (B M : list Z) : bstate B -> (0 < r <= 200)%nat -> (length M = n mod r)%nat ->
  let B1 := xor_bytes (n mod r) B M in
  let B2 := <[(n mod r)%nat := Z.lxor (at_ B1 (n mod r)) d]> B1 in
  <[(r - 1)%nat := Z.lxor (at_ B2 (r - 1)) 0x80]> B2 = xor_bytes r B (M ++ pad d r n).
Proof.
  intros [L HB] Hr LM B1 B2. pose proof (Nat.mod_upper_bound n r).
  set (i := (n mod r)%nat) in *. pose proof (pad_length d r n) as Lp. fold i in Lp.
  assert (length B1 = 200 /\ length B2 = 200)%nat as [L1 L2].
  { subst B1 B2. by rewrite length_insert, !length_xor_bytes. }
  apply (nth_ext _ _ 0 0); [by rewrite length_insert, length_xor_bytes, L2|].
  intros k Hk. rewrite length_insert, L2 in Hk. change (nth k ?l 0) with (at_ l k).
  rewrite at_xor_bytes by (rewrite ?length_app; lia). rewrite at_insert by lia. subst B2. rewrite !at_insert by lia. subst B1.
  rewrite !at_xor_bytes by lia.
  destruct (Nat.ltb_spec k r) as [Hkr|Hkr].
  2:{ destruct (Nat.eqb_spec k (r - 1)), (Nat.eqb_spec k i), (Nat.ltb_spec k i); (lia || done). }
  destruct (Nat.lt_ge_cases k i) as [Hki|Hki].
  - rewrite at_app_left by lia. destruct (Nat.eqb_spec k (r - 1)), (Nat.eqb_spec k i), (Nat.ltb_spec k i); (lia || done).
  - rewrite at_app_right, pad_at by (fold i; lia). fold i. rewrite LM.
    destruct (Nat.eqb_spec k (r - 1)), (Nat.eqb_spec k i), (Nat.ltb_spec k i), (Nat.eqb_spec (r - 1) i),
      (Nat.ltb_spec (r - 1) i), (Nat.ltb_spec i i), (Nat.eqb_spec (k - i) 0), (Nat.eqb_spec (k - i) (r - i - 1));
      try lia; subst; rewrite ?Z.lxor_0_r, ?Z.lxor_0_l, ?Z.lxor_assoc; try done; try (by repeat f_equal; lia).
Qed.

Lemma squeeze_step r B l : bstate B -> (0 < r <= 200)%nat -> (r <= l)%nat ->
  squeeze r B l = take r B ++ squeeze r (keccak_f B) (l - r).
Proof.
  intros [L _] Hr Hl. unfold squeeze.
  assert (l / r = S ((l - r) / r))%nat as ->.
  { replace l with ((l - r) + 1 * r)%nat at 1 by lia. rewrite Nat.div_add by lia. lia. }
  assert (length (take r B) = r) as Lt by (rewrite length_take; lia).
  change (take l (take r B ++ concat (map (squeezed r B) (seq 1 (S ((l - r) / r))))) =
    take r B ++ take (l - r) (concat (map (squeezed r (keccak_f B)) (seq 0 (S ((l - r) / r)))))).
  rewrite take_app_ge, Lt, <- seq_shift, map_map by lia.
  rewrite (map_ext _ (squeezed r (keccak_f B))); [done|].
  intros k. unfold squeezed. by rewrite Nat.iter_succ_r.
Qed.

Lemma squeeze_last r B l : bstate B -> (l < r)%nat -> squeeze r B l = take l B.
Proof.
  intros _ Hl. unfold squeeze. rewrite Nat.div_small by done. cbn [seq map concat]. rewrite app_nil_r.
  change (squeezed r B 0) with (take r B). rewrite take_take. f_equal. lia.
Qed.

Lemma Final_loop_spec fuel r l s : kstate s -> (0 < r <= 200)%nat -> (l < fuel)%nat ->
  exists s', Sha3Final_loop fuel r l s = (squeeze r (keccak_f (state_bytes s)) l, s') /\
    (l = 0%nat -> s' = s).
Proof.
  revert l s. induction fuel as [|fuel IH]; intros l s K Hr Hf; [lia|]. cbn [Sha3Final_loop].
  pose proof (keccak_f_bstate _ (state_bytes_bstate s K)) as HB.
  destruct (Nat.leb_spec r l) as [Hl|Hl].
  - destruct (IH (l - r)%nat (BlockSha3 s)) as (s' & E & _); [by apply BlockSha3_kstate|done|lia|].
    rewrite E, (squeeze_step r (keccak_f (state_bytes s)) l), !keccak_f_words by (done || by apply BlockSha3_kstate). exists s'. split; [done|]. lia.
  - rewrite squeeze_last by done. destruct (Nat.eqb_spec l 0) as [->|]; [by exists s|].
    rewrite keccak_f_words by done. exists (BlockSha3 s). split; [done|lia].
Qed.

(** ** The hash of a message *)

Section Hashing.
Context (p : nat) (Hp : (0 < p <= 25)%nat).
Let r := (p * 8)%nat.

Lemma padded_state m st d : absorbed p m st -> bytes m -> is_byte d ->
  let s1 := xorbuf_state (sha3_s st) (sha3_t st) (Z.to_nat (sha3_i st)) in
  let s2 := xor_state_byte s1 (Z.to_nat (sha3_i st)) d in
  let s3 := xor_state_byte s2 (r - 1) 0x80 in
  kstate s3 /\ keccak_f (state_bytes s3) = absorb r (m ++ pad d r (length m)).
Proof.
  intros [K Es Ei Et Lt] Hm Hd. fold r in Es, Ei, Et. rewrite Ei, Nat2Z.id.
  destruct (split_length p Hp m) as [Em Lm]. fold r in Em, Lm. cbv zeta.
  destruct (xorbuf_state_bytes (sha3_s st) (sha3_t st) (length m mod r) K) as [K1 E1].
  { rewrite Et. by apply Forall_drop. }
  destruct (xor_state_byte_spec _ (length m mod r) d K1 Hd) as [K2 E2]; [lia|].
  destruct (xor_state_byte_spec _ (r - 1) 0x80 K2) as [K3 E3]; [unfold is_byte; lia|lia|].
  split; [done|]. rewrite E3, E2, E1, <- (xor_bytes_take _ _ (sha3_t st)), Et.
  rewrite pad_in_state; [|by apply state_bytes_bstate|lia|rewrite length_drop; lia].
  rewrite absorb_eq, length_app, pad_length by lia.
  destruct (div_mod_of p (length m + (r - length m mod r)) (length m / r + 1) 0) as [Eq _]; [fold r; lia|fold r; lia|].
  fold r in Eq. rewrite Eq.
  rewrite absorb_n_add, absorb_n_app, <- Es by lia. cbn [absorb_n]. by rewrite drop_app_le by lia.
Qed.

Lemma Final_spec m st d l : absorbed p m st -> bytes m -> is_byte d ->
  exists st', Sha3Final st d p l = (KECCAK r d m l, st') /\ length (sha3_t st') = 200%nat.
Proof.
  intros A Hm Hd. destruct (padded_state m st d A Hm Hd) as [K E]. unfold Sha3Final. fold r. cbv zeta in *.
  destruct (Final_loop_spec (S l) r l _ K) as (s' & -> & _); [lia..|].
  eexists. unfold KECCAK. rewrite E. split; [done|]. apply A.
Qed.

Lemma updates_absorbed chunks m st : absorbed p m st -> bytes m -> Forall (fun d => bytes d) chunks ->
  absorbed p (m ++ concat chunks)
    (fold_left (fun st d => snd (wc_Sha3Update st (Some d) (length d) p)) chunks st).
Proof.
  intros A Hm F. revert m st A Hm. induction F as [|d chunks Hd F IH]; intros m st A Hm.
  - by rewrite app_nil_r.
  - cbn [fold_left concat]. rewrite app_assoc. apply IH; [|by apply Forall_app].
    cbn [wc_Sha3Update snd]. rewrite take_ge by done. by apply Update_absorbed.
Qed.

End Hashing.

(** ** Squeezing block by block *)

(** The outputs of calls that squeeze [ns] blocks one after the other. *)
Fixpoint squeezes (p : nat) (ns : list nat) (shake : wc_Sha3) : list Z :=
  match ns with
  | [] => []
  | n :: ns => let '(_, out, shake) := shake_squeeze p shake n in out ++ squeezes p ns shake
  end.

(** The permutation gives 200 bytes whatever it is given. *)
Lemma keccak_f_any B : bstate (keccak_f B).
Proof.
  split; [|apply state_bytes_bytes]. unfold keccak_f. rewrite state_bytes_length, BlockSha3_rounds.
  change (seq 0 24) with (seq 0 23 ++ [23%nat]). rewrite fold_left_app. cbn [fold_left].
  unfold round_sha3, xor_round. by rewrite length_insert.
Qed.

Lemma absorb_bstate r m : bstate (absorb r m).
Proof.
  unfold absorb. assert (bstate (replicate 200 0)) as H0.
  { split; [done|]. apply Forall_replicate. unfold is_byte. lia. }
  revert H0. generalize (replicate 200 0) as B. induction (blocks r m) as [|P l IH]; intros B H0; [done|].
  cbn [fold_left]. apply IH, keccak_f_any.
Qed.

Lemma iter_bstate B i : bstate B -> bstate (Nat.iter i keccak_f B).
Proof. intros H. destruct i as [|i]; [done|apply keccak_f_any]. Qed.

Lemma squeezed_spec r B i : bstate B -> (r <= 200)%nat ->
  length (squeezed r B i) = r /\ bytes (squeezed r B i).
Proof.
  intros HB Hr. destruct (iter_bstate B i HB) as [L H]. unfold squeezed.
  split; [rewrite length_take; lia|by apply Forall_take].
Qed.

Lemma squeezed_concat r B k n : bstate B -> (r <= 200)%nat ->
  length (concat (map (squeezed r B) (seq k n))) = (n * r)%nat /\ bytes (concat (map (squeezed r B) (seq k n))).
Proof.
  intros HB Hr. revert k. induction n as [|n IH]; intros k; [by split; [|constructor]|].
  destruct (IH (S k)) as [L F], (squeezed_spec r B k HB Hr) as [L1 F1]. cbn [seq map concat].
  rewrite length_app, L, L1. split; [lia|by apply Forall_app].
Qed.

Lemma KECCAK_bytes r d m l : (0 < r <= 200)%nat -> length (KECCAK r d m l) = l /\ bytes (KECCAK r d m l).
Proof.
  intros Hr. unfold KECCAK, squeeze.
  destruct (squeezed_concat r (absorb r (m ++ pad d r (length m))) 0 (S (l / r))) as [L F];
    [apply absorb_bstate|lia|].
  pose proof (Nat.mul_succ_div_gt l r). split; [rewrite length_take, L; nia|by apply Forall_take].
Qed.

Lemma squeeze_blocks r B n : bstate B -> (0 < r <= 200)%nat ->
  squeeze r B (n * r) = concat (map (squeezed r B) (seq 0 n)).
Proof.
  intros HB Hr. unfold squeeze. rewrite Nat.div_mul, seq_S, List.map_app, concat_app by lia.
  apply take_app_length'. symmetry. apply squeezed_concat; [done|lia].
Qed.

Lemma squeeze_loop_spec n p s : kstate s -> (p <= 25)%nat ->
  exists s', squeeze_loop n p s = (concat (map (squeezed (p * 8) (keccak_f (state_bytes s))) (seq 0 n)), s') /\
    kstate s' /\ state_bytes s' = Nat.iter n keccak_f (state_bytes s).
Proof.
  revert s. induction n as [|n IH]; intros s K Hp; [by exists s|]. cbn [squeeze_loop].
  destruct (IH (BlockSha3 s)) as (s' & E & K' & Eb); [by apply BlockSha3_kstate|done|].
  exists s'. rewrite E, !keccak_f_words by (done || by apply BlockSha3_kstate).
  split; [|split; [done|]].
  - cbn [seq map concat]. rewrite <- seq_shift, map_map.
    rewrite (map_ext (fun i => squeezed _ _ (S i)) (squeezed (p * 8) (keccak_f (keccak_f (state_bytes s))))); [done|].
    intros i. unfold squeezed. by rewrite Nat.iter_succ_r.
  - by rewrite Eb, keccak_f_words, <- Nat.iter_succ_r.
Qed.

Lemma squeezes_spec p ns st B k : kstate (sha3_s st) -> (p <= 25)%nat ->
  state_bytes (sha3_s st) = Nat.iter k keccak_f B ->
  squeezes p ns st = concat (map (squeezed (p * 8) (keccak_f B)) (seq k (list_sum ns))).
Proof.
  revert st k. induction ns as [|n ns IH]; intros st k K Hp E; [done|]. cbn [squeezes list_sum foldr].
  unfold shake_squeeze. destruct (squeeze_loop_spec n p (sha3_s st) K Hp) as (s' & -> & K' & Eb).
  rewrite seq_app, List.map_app, concat_app.
  rewrite (IH _ (n + k)%nat); [|done|done|cbn [sha3_s]; by rewrite Eb, E, Nat.iter_add].
  f_equal; [|by rewrite Nat.add_comm]. rewrite E. f_equal.
  assert (forall i, squeezed (p * 8) (keccak_f (Nat.iter k keccak_f B)) i = squeezed (p * 8) (keccak_f B) (k + i)) as Ei.
  { intros i. unfold squeezed. by rewrite <- Nat.iter_succ, Nat.iter_succ_r, <- Nat.iter_add, Nat.add_comm. }
  rewrite (map_ext _ _ Ei). clear. revert k. induction n as [|n IH]; intros k; [done|].
  cbn [seq map]. rewrite Nat.add_0_r. f_equal. rewrite <- seq_shift, map_map.
  rewrite <- IH. apply map_ext. intros i. f_equal. lia.
Qed.

(** ** What the interface promises *)

(** C18: However a message is cut into the pieces given to the update function,
    the final functions return the sponge of FIPS 202 applied to the whole
    message, with the domain bits and padding of SHA-3 or of SHAKE, for every rate
    and output length; the object is ready for a new message afterwards, and the
    hash so far can be read without disturbing it. *)
Theorem sha3_hashes_any_pieces p st0 chunks l (Hp : (0 < p <= 25)%nat)
    (Ht : length (sha3_t st0) = 200%nat) (Hc : Forall (fun d => bytes d) chunks) :
  let st := fold_left (fun st d => snd (wc_Sha3Update st (Some d) (length d) p)) chunks (InitSha3 st0) in
  let m := concat chunks in
  (exists st', wc_Sha3Final st p l = (0, KECCAK (p * 8) 0x06 m l, st') /\ absorbed p [] st') /\
  (exists st', shake_final p st l = (0, KECCAK (p * 8) 0x1f m l, st') /\ absorbed p [] st') /\
  wc_Sha3GetHash st p l = (0, KECCAK (p * 8) 0x06 m l).
Proof.
  intros st m. assert (absorbed p m st) as A.
  { apply (updates_absorbed p Hp chunks []); [by apply InitSha3_absorbed|constructor|done]. }
  assert (bytes m) as Hm by (by apply Forall_concat).
  destruct (Final_spec p Hp m st 0x06 l A Hm) as (st1 & E1 & L1); [unfold is_byte; lia|].
  destruct (Final_spec p Hp m st 0x1f l A Hm) as (st2 & E2 & L2); [unfold is_byte; lia|].
  unfold wc_Sha3GetHash, wc_Sha3Copy, wc_Sha3Final, shake_final. rewrite E1, E2.
  split; [|split]; [eexists; split; [done|by apply InitSha3_absorbed]..|done].
Qed.

Lemma shake_absorb_spec p st seed (Hp : (0 < p <= 25)%nat) (Ht : length (sha3_t st) = 200%nat) (Hs : bytes seed) :
  exists st', shake_absorb p (InitSha3 st) (Some seed) (length seed) = (0, st') /\ kstate (sha3_s st') /\
    keccak_f (state_bytes (sha3_s st')) = absorb (p * 8) (seed ++ pad 0x1f (p * 8) (length seed)).
Proof.
  unfold shake_absorb. rewrite take_ge by done.
  assert (absorbed p seed (Sha3Update (InitSha3 st) seed p)) as A.
  { apply (Update_absorbed p Hp []); [by apply InitSha3_absorbed|constructor|done]. }
  destruct (padded_state p Hp seed _ 0x1f A Hs) as [K E]; [unfold is_byte; lia|].
  unfold Sha3Final. cbv zeta in *. destruct (Final_loop_spec 1 (p * 8) 0 _ K) as (s' & -> & Es); [lia..|].
  rewrite Es by done. eexists. split; [done|]. cbn [sha3_s]. by split.
Qed.

(** After absorbing a seed, blocks squeezed in any number of calls are
    consecutive parts of one output, the extendable output of FIPS 202 for that
    seed: asking again never repeats nor skips a block. *)
Theorem shake_squeezes_one_stream p st seed ns (Hp : (0 < p <= 25)%nat)
    (Ht : length (sha3_t st) = 200%nat) (Hs : bytes seed) :
  exists st', shake_absorb p (InitSha3 st) (Some seed) (length seed) = (0, st') /\
    squeezes p ns st' = KECCAK (p * 8) 0x1f seed (list_sum ns * (p * 8)).
Proof.
  destruct (shake_absorb_spec p st seed Hp Ht Hs) as (st' & E & K & Ea). exists st'. split; [done|].
  rewrite (squeezes_spec p ns st' (state_bytes (sha3_s st')) 0) by (done || lia).
  unfold KECCAK. rewrite <- Ea, squeeze_blocks; [done| |lia]. apply keccak_f_any.
Qed.

Definition demo_sha3 : wc_Sha3 := {| sha3_s := []; sha3_t := replicate 200 7; sha3_i := 9 |}.

(** SHA3-256 of "abc", in two pieces. *)
Lemma sha3_hashes_any_pieces_witness :
  let st := fold_left (fun st d => snd (wc_Sha3Update st (Some d) (length d) 17)) [[0x61]; [0x62; 0x63]] (InitSha3 demo_sha3) in
  exists st', wc_Sha3Final st 17 4 = (0, [0x3a; 0x98; 0x5d; 0xa7], st').
Proof.
  intros st. destruct (sha3_hashes_any_pieces 17 demo_sha3 [[0x61]; [0x62; 0x63]] 4) as [(st' & E & _) _].
  - lia.
  - reflexivity.
  - repeat constructor; unfold is_byte; lia.
  - exists st'. unfold st. rewrite E. vm_compute. reflexivity.
Defined.

(** SHAKE128 of nothing: two blocks, then none, then one. *)
Lemma shake_squeezes_one_stream_witness :
  exists st', shake_absorb 21 (InitSha3 demo_sha3) (Some []) 0 = (0, st') /\
    squeezes 21 [2; 0; 1]%nat st' = KECCAK 168 0x1f [] 504 /\ take 4 (squeezes 21 [1]%nat st') = [0x7f; 0x9c; 0x2b; 0xa4].
Proof.
  destruct (shake_squeezes_one_stream 21 demo_sha3 [] [2; 0; 1]%nat) as (st' & E & S).
  - lia.
  - reflexivity.
  - constructor.
  - exists st'. split; [exact E|]. split; [exact S|].
    assert (st' = snd (shake_absorb 21 (InitSha3 demo_sha3) (Some []) 0)) as -> by (cbn [length] in E; rewrite E; reflexivity).
    vm_compute. reflexivity.
Defined.
