(* ===== verification/MlkemReduce.v ===== *)
(** * Arithmetic modulo q of ML-KEM (src/boot/wolfcrypt/src/wc_mlkem_poly.c)

    The Montgomery and Barrett reductions on 16-bit coefficients, the
    conditional subtraction of q, and congruence modulo q as a setoid. *)

From S2P Require Import Prelude.
From Stdlib Require Import Setoid Morphisms.

Definition MLKEM_Q : Z := 3329.
Definition MLKEM_N : nat := 256.
Definition MLKEM_QINV : Z := 62209.
Definition MLKEM_V : Z := (Z.shiftl 1 26 + MLKEM_Q / 2) / MLKEM_Q.
Definition MLKEM_F : Z := Z.shiftl 1 32 mod MLKEM_Q.

(** [MLKEM_MONT_RED(a)], [a] a 32-bit value. *)
Definition MLKEM_MONT_RED (a : Z) : Z :=
  s16 (Z.shiftr (s32 (a - s16 (s16 a * s16 MLKEM_QINV) * MLKEM_Q)) 16).

(** [MLKEM_BARRETT_RED(a)]: the argument is cast to 16 bits at each use. *)
Definition MLKEM_BARRETT_RED (a : Z) : Z :=
  s16 (s16 a - s16 (s16 (Z.shiftr (s32 (MLKEM_V * s16 a)) 26) * MLKEM_Q)).

(** ** Congruence modulo q *)

Definition eqq (x y : Z) : Prop := x mod MLKEM_Q = y mod MLKEM_Q.

Declare Scope mlkem_scope.
Delimit Scope mlkem_scope with mlkem.
Infix "==" := eqq (at level 70, no associativity) : mlkem_scope.
Open Scope mlkem_scope.

#[export] Instance eqq_equiv : Equivalence eqq.
Proof. split; unfold eqq; [intros x|intros x y|intros x y z]; congruence. Qed.

#[export] Instance eqq_dec x y : Decision (eqq x y).
Proof. unfold eqq. apply _. Defined.

#[export] Instance eqq_add : Proper (eqq ==> eqq ==> eqq) Z.add.
Proof. intros x y H x' y' H'. unfold eqq in *. rewrite Zplus_mod, H, H', <- Zplus_mod. done. Qed.

#[export] Instance eqq_sub : Proper (eqq ==> eqq ==> eqq) Z.sub.
Proof. intros x y H x' y' H'. unfold eqq in *. rewrite Zminus_mod, H, H', <- Zminus_mod. done. Qed.

#[export] Instance eqq_mul : Proper (eqq ==> eqq ==> eqq) Z.mul.
Proof. intros x y H x' y' H'. unfold eqq in *. rewrite Zmult_mod, H, H', <- Zmult_mod. done. Qed.

#[export] Instance eqq_opp : Proper (eqq ==> eqq) Z.opp.
Proof. intros x y H. rewrite <- !Z.sub_0_l, H. done. Qed.

Lemma eqq_mod x : x mod MLKEM_Q == x.
Proof. unfold eqq. apply Zmod_mod. Qed.

Lemma eqq_add_mult x k : x + k * MLKEM_Q == x.
Proof. unfold eqq. apply Z_mod_plus_full. Qed.

(** Congruences between numerals, up to ring normalisation. *)
Lemma eqq_diff x y k : x - y = k * MLKEM_Q -> x == y.
Proof. intros H. replace x with (y + k * MLKEM_Q) by lia. apply eqq_add_mult. Qed.

Lemma eqq_divide x y : x == y <-> exists k, x - y = k * MLKEM_Q.
Proof.
  split; [|intros [k H]; by apply (eqq_diff x y k)].
  intros H. exists (x / MLKEM_Q - y / MLKEM_Q). unfold eqq in H.
  pose proof (Z.div_mod x MLKEM_Q ltac:(done)). pose proof (Z.div_mod y MLKEM_Q ltac:(done)). lia.
Qed.

(** Multiplication by a factor with a known inverse can be cancelled. *)
Lemma eqq_cancel c c' x y : c' * c == 1 -> c * x == c * y -> x == y.
Proof.
  intros Hc H. rewrite <- (Z.mul_1_l x), <- (Z.mul_1_l y), <- Hc.
  rewrite <- !Z.mul_assoc, H. done.
Qed.

(** 2^16 modulo q and its inverse: the Montgomery factor. *)
Definition MONT_R : Z := 2285.
Definition MONT_RINV : Z := 169.

Lemma mont_r_inv : MONT_RINV * MONT_R == 1.
Proof. reflexivity. Qed.

Lemma mont_r_pow : 2 ^ 16 == MONT_R.
Proof. reflexivity. Qed.

(** Elements at equal indices. *)
Lemma nth_eq (h : list Z) i j : i = j -> nth i h 0 = nth j h 0.
Proof. by intros ->. Qed.

(** Values of a residue class within one period are equal. *)
Lemma eqq_unique x y : x == y -> - MLKEM_Q < x - y < MLKEM_Q -> x = y.
Proof. intros [k H]%eqq_divide. unfold MLKEM_Q in *. nia. Qed.

(** ** The reductions *)

Section MontRed.
Variable a : Z.

Definition mont_factor : Z := s16 (s16 a * s16 MLKEM_QINV).

Lemma mont_factor_range : - 2 ^ 15 <= mont_factor < 2 ^ 15.
Proof. apply (sext_range 16). lia. Qed.

Lemma mont_exact : (a - mont_factor * MLKEM_Q) mod 2 ^ 16 = 0.
Proof.
  change (wrap 16 (a - mont_factor * MLKEM_Q) = 0).
  rewrite <- (wrap_sub_r 16 a), <- (wrap_mul_l 16 mont_factor). unfold mont_factor.
  rewrite wrap_sext, <- (wrap_mul_l 16 (s16 a)), wrap_sext by lia.
  rewrite (wrap_mul_l 16), (wrap_sub_r 16), <- Z.mul_assoc.
  rewrite <- (wrap_sub_r 16 a), (wrap_mul_l 16), (wrap_sub_r 16).
  change (s16 MLKEM_QINV * MLKEM_Q) with (1 + (- 169) * 2 ^ 16).
  unfold wrap. replace (a - a * (1 + -169 * 2 ^ 16)) with ((a * 169) * 2 ^ 16) by lia.
  apply Z_mod_mult.
Qed.

Lemma MONT_RED_eq : Z.abs a <= 2 ^ 30 ->
  MLKEM_MONT_RED a = (a - mont_factor * MLKEM_Q) / 2 ^ 16.
Proof.
  intros Ha. unfold MLKEM_MONT_RED. fold mont_factor.
  pose proof mont_factor_range. unfold MLKEM_Q in *.
  rewrite (sext_small 32), Z.shiftr_div_pow2, sext_small by (first [lia | lia_mod]). done.
Qed.

Lemma MONT_RED_cong : Z.abs a <= 2 ^ 30 -> MLKEM_MONT_RED a == MONT_RINV * a.
Proof.
  intros Ha. rewrite MONT_RED_eq by done.
  apply (eqq_cancel (2 ^ 16) MONT_RINV); [reflexivity|].
  rewrite <- Z_div_exact_full_2 by (lia || apply mont_exact).
  rewrite Z.mul_assoc. change (2 ^ 16 * MONT_RINV) with (1 + 3327 * MLKEM_Q).
  apply (eqq_diff _ _ (- mont_factor - 3327 * a)). lia.
Qed.

Lemma MONT_RED_bound A : Z.abs a <= A -> A <= 2 ^ 30 ->
  Z.abs (MLKEM_MONT_RED a) <= (A + MLKEM_Q * 2 ^ 15) / 2 ^ 16.
Proof.
  intros Ha HA. rewrite MONT_RED_eq by lia. pose proof mont_factor_range.
  pose proof (Z_div_exact_full_2 _ (2 ^ 16) ltac:(lia) mont_exact) as Hx.
  apply Z.div_le_lower_bound; [lia|]. unfold MLKEM_Q in *. lia.
Qed.

End MontRed.

Lemma sext_sub_r w x y : 0 < w -> sext w (x - sext w y) = sext w (x - y).
Proof.
  intros Hw. assert (H : wrap w (x - sext w y) = wrap w (x - y)).
  { rewrite <- wrap_sub_r, wrap_sext by lia. apply wrap_sub_r. }
  unfold sext at 1 3. rewrite H. done.
Qed.

(** The quotient estimate of the Barrett reduction is off by less than one. *)
Lemma BARRETT_RED_spec a :
  MLKEM_BARRETT_RED a == s16 a /\ 0 <= MLKEM_BARRETT_RED a <= MLKEM_Q.
Proof.
  unfold MLKEM_BARRETT_RED. pose proof (sext_range 16 a ltac:(lia)) as Hx.
  change MLKEM_V with 20159. unfold MLKEM_Q. set (x := s16 a) in *.
  change (2 ^ (16 - 1)) with 32768 in Hx. clearbody x.
  rewrite (sext_small 32) by (change (2 ^ (32 - 1)) with 2147483648; lia).
  rewrite Z.shiftr_div_pow2 by lia.
  change (2 ^ 26) with 67108864. set (k := (20159 * x) / 67108864).
  assert (Hk : 0 <= x - k * 3329 <= 3329 /\ - 10 <= k <= 9) by (unfold k; lia_mod).
  clearbody k. rewrite (sext_small 16 k), sext_sub_r by lia.
  rewrite (sext_small 16 (x - k * 3329)) by lia.
  split; [|lia]. apply (eqq_diff _ _ (- k)). unfold MLKEM_Q. lia.
Qed.

Lemma BARRETT_RED_cong a : MLKEM_BARRETT_RED a == s16 a.
Proof. apply BARRETT_RED_spec. Qed.

Lemma BARRETT_RED_range a : 0 <= MLKEM_BARRETT_RED a <= MLKEM_Q.
Proof. apply BARRETT_RED_spec. Qed.

(** One step of [mlkem_csubq_c]: the sign bit of [t] spread over a mask. *)
Definition csubq (x : Z) : Z :=
  let t := s16 (x - MLKEM_Q) in
  s16 (s16 (Z.land (u16 (- Z.shiftr (u16 t) 15)) MLKEM_Q) + t).

Definition mlkem_csubq_c (p : list Z) : list Z := map csubq p.

Lemma csubq_spec x : 0 <= x < 2 * MLKEM_Q ->
  csubq x = if x <? MLKEM_Q then x else x - MLKEM_Q.
Proof.
  intros Hx. unfold csubq, MLKEM_Q in *. cbv zeta.
  rewrite (sext_small 16 (x - 3329)), Z.shiftr_div_pow2 by lia.
  destruct (Z.ltb_spec x 3329).
  - replace (u16 (x - 3329) / 2 ^ 15) with 1 by (unfold wrap; lia_mod).
    change (s16 _) with 3329 at 2. rewrite sext_small by lia. lia.
  - replace (u16 (x - 3329) / 2 ^ 15) with 0 by (unfold wrap; lia_mod).
    change (s16 _) with 0 at 2. rewrite sext_small by lia. lia.
Qed.

Lemma csubq_mod x : 0 <= x < 2 * MLKEM_Q -> csubq x = x mod MLKEM_Q.
Proof. intros Hx. rewrite csubq_spec by done. unfold MLKEM_Q in *. destruct (Z.ltb_spec x 3329); lia_mod. Qed.
