(* ===== verification/MlkemNtt.v ===== *)
(** * The number-theoretic transform of ML-KEM
      (src/boot/wolfcrypt/src/wc_mlkem_poly.c)

    [mlkem_ntt], [mlkem_ntt_add_to] and [mlkem_invntt] in the variant the
    firmware builds (layers grouped 2, 3, 2), written once over the four
    operations they perform on a coefficient.  The C functions are the instance
    [c_coeff] of these operations; a second instance, [shadow_coeff], runs the
    same code on intervals and linear forms and thereby computes, by
    evaluation, bounds on every coefficient and the matrix of the transform. *)

From S2P Require Import Prelude.
From S2P Require Import MlkemReduce.

Definition zetas : list Z :=
  [2285; 2571; 2970; 1812; 1493; 1422; 287; 202; 3158; 622; 1577; 182; 962; 2127; 1855; 1468;
   573; 2004; 264; 383; 2500; 1458; 1727; 3199; 2648; 1017; 732; 608; 1787; 411; 3124; 1758;
   1223; 652; 2777; 1015; 2036; 1491; 3047; 1785; 516; 3321; 3009; 2663; 1711; 2167; 126; 1469;
   2476; 3239; 3058; 830; 107; 1908; 3082; 2378; 2931; 961; 1821; 2604; 448; 2264; 677; 2054;
   2226; 430; 555; 843; 2078; 871; 1550; 105; 422; 587; 177; 3094; 3038; 2869; 1574; 1653;
   3083; 778; 1159; 3182; 2552; 1483; 2727; 1119; 1739; 644; 2457; 349; 418; 329; 3173; 3254;
   817; 1097; 603; 610; 1322; 2044; 1864; 384; 2114; 3193; 1218; 1994; 2455; 220; 2142; 1670;
   2144; 1799; 2051; 794; 1819; 2475; 2459; 478; 3221; 3021; 996; 991; 958; 1869; 1522; 1628].

Definition zetas_inv : list Z :=
  [1701; 1807; 1460; 2371; 2338; 2333; 308; 108; 2851; 870; 854; 1510; 2535; 1278; 1530; 1185;
   1659; 1187; 3109; 874; 1335; 2111; 136; 1215; 2945; 1465; 1285; 2007; 2719; 2726; 2232; 2512;
   75; 156; 3000; 2911; 2980; 872; 2685; 1590; 2210; 602; 1846; 777; 147; 2170; 2551; 246;
   1676; 1755; 460; 291; 235; 3152; 2742; 2907; 3224; 1779; 2458; 1251; 2486; 2774; 2899; 1103;
   1275; 2652; 1065; 2881; 725; 1508; 2368; 398; 951; 247; 1421; 3222; 2499; 271; 90; 853;
   1860; 3203; 1162; 1618; 666; 320; 8; 2813; 1544; 282; 1838; 1293; 2314; 552; 2677; 2106;
   1571; 205; 2918; 1542; 2721; 2597; 2312; 681; 130; 1602; 1871; 829; 2946; 3065; 1325; 2756;
   1861; 1474; 1202; 2367; 3147; 1752; 2707; 171; 3127; 3042; 1907; 1836; 1517; 359; 758; 1441].

(** ** The operations on a coefficient *)

Class CoeffOps (T : Type) : Type := {
  add16 : T -> T -> T;
  sub16 : T -> T -> T;
  mont : Z -> T -> T;
  barrett : T -> T }.

(** [sword16] coefficients: sums and differences are stored in 16 bits, the
    product with a table entry is 32 bits wide and Montgomery reduced. *)
#[export] Instance c_coeff : CoeffOps Z := {|
  add16 := fun a b => s16 (a + b);
  sub16 := fun a b => s16 (a - b);
  mont := fun zeta a => MLKEM_MONT_RED (zeta * a);
  barrett := MLKEM_BARRETT_RED |}.

(** [for (j = 0; j < bound; j += step)], with [bound] a multiple of [step]. *)
Definition for_by {A} (step bound : nat) (body : nat -> A -> A) (a : A) : A :=
  fold_left (fun a k => body (k * step)%nat a) (seq 0 (bound / step)) a.

Section Code.
Context {T : Type} `{!Inhabited T, !CoeffOps T}.
Local Open Scope nat_scope.

(** Body of the loop of layers 128 and 64. *)
Definition ntt_128_64 (j : nat) (r : list T) : list T :=
  let zeta128 := zetas !!! 1 in
  let zeta64_0 := zetas !!! 2 in
  let zeta64_1 := zetas !!! 3 in
  let r0 := r !!! (j + 0) in
  let r1 := r !!! (j + 32) in
  let r2 := r !!! (j + 64) in
  let r3 := r !!! (j + 96) in
  let r4 := r !!! (j + 128) in
  let r5 := r !!! (j + 160) in
  let r6 := r !!! (j + 192) in
  let r7 := r !!! (j + 224) in
  let t0 := mont zeta128 r4 in
  let t1 := mont zeta128 r5 in
  let t2 := mont zeta128 r6 in
  let t3 := mont zeta128 r7 in
  let r4 := sub16 r0 t0 in
  let r5 := sub16 r1 t1 in
  let r6 := sub16 r2 t2 in
  let r7 := sub16 r3 t3 in
  let r0 := add16 r0 t0 in
  let r1 := add16 r1 t1 in
  let r2 := add16 r2 t2 in
  let r3 := add16 r3 t3 in
  let t0 := mont zeta64_0 r2 in
  let t1 := mont zeta64_0 r3 in
  let t2 := mont zeta64_1 r6 in
  let t3 := mont zeta64_1 r7 in
  let r2 := sub16 r0 t0 in
  let r3 := sub16 r1 t1 in
  let r6 := sub16 r4 t2 in
  let r7 := sub16 r5 t3 in
  let r0 := add16 r0 t0 in
  let r1 := add16 r1 t1 in
  let r4 := add16 r4 t2 in
  let r5 := add16 r5 t3 in
  let r := <[j + 0 := r0]> r in
  let r := <[j + 32 := r1]> r in
  let r := <[j + 64 := r2]> r in
  let r := <[j + 96 := r3]> r in
  let r := <[j + 128 := r4]> r in
  let r := <[j + 160 := r5]> r in
  let r := <[j + 192 := r6]> r in
  let r := <[j + 224 := r7]> r in
  r.

(** Body of the inner loop of layers 32, 16 and 8. *)
Definition ntt_32_16_8 (j i : nat) (r : list T) : list T :=
  let zeta32 := zetas !!! (4 + j / 64 + 0) in
  let zeta16_0 := zetas !!! (8 + j / 32 + 0) in
  let zeta16_1 := zetas !!! (8 + j / 32 + 1) in
  let zeta8_0 := zetas !!! (16 + j / 16 + 0) in
  let zeta8_1 := zetas !!! (16 + j / 16 + 1) in
  let zeta8_2 := zetas !!! (16 + j / 16 + 2) in
  let zeta8_3 := zetas !!! (16 + j / 16 + 3) in
  let r0 := r !!! (j + i + 0) in
  let r1 := r !!! (j + i + 8) in
  let r2 := r !!! (j + i + 16) in
  let r3 := r !!! (j + i + 24) in
  let r4 := r !!! (j + i + 32) in
  let r5 := r !!! (j + i + 40) in
  let r6 := r !!! (j + i + 48) in
  let r7 := r !!! (j + i + 56) in
  let t0 := mont zeta32 r4 in
  let t1 := mont zeta32 r5 in
  let t2 := mont zeta32 r6 in
  let t3 := mont zeta32 r7 in
  let r4 := sub16 r0 t0 in
  let r5 := sub16 r1 t1 in
  let r6 := sub16 r2 t2 in
  let r7 := sub16 r3 t3 in
  let r0 := add16 r0 t0 in
  let r1 := add16 r1 t1 in
  let r2 := add16 r2 t2 in
  let r3 := add16 r3 t3 in
  let t0 := mont zeta16_0 r2 in
  let t1 := mont zeta16_0 r3 in
  let t2 := mont zeta16_1 r6 in
  let t3 := mont zeta16_1 r7 in
  let r2 := sub16 r0 t0 in
  let r3 := sub16 r1 t1 in
  let r6 := sub16 r4 t2 in
  let r7 := sub16 r5 t3 in
  let r0 := add16 r0 t0 in
  let r1 := add16 r1 t1 in
  let r4 := add16 r4 t2 in
  let r5 := add16 r5 t3 in
  let t0 := mont zeta8_0 r1 in
  let t1 := mont zeta8_1 r3 in
  let t2 := mont zeta8_2 r5 in
  let t3 := mont zeta8_3 r7 in
  let r1 := sub16 r0 t0 in
  let r3 := sub16 r2 t1 in
  let r5 := sub16 r4 t2 in
  let r7 := sub16 r6 t3 in
  let r0 := add16 r0 t0 in
  let r2 := add16 r2 t1 in
  let r4 := add16 r4 t2 in
  let r6 := add16 r6 t3 in
  let r := <[j + i + 0 := r0]> r in
  let r := <[j + i + 8 := r1]> r in
  let r := <[j + i + 16 := r2]> r in
  let r := <[j + i + 24 := r3]> r in
  let r := <[j + i + 32 := r4]> r in
  let r := <[j + i + 40 := r5]> r in
  let r := <[j + i + 48 := r6]> r in
  let r := <[j + i + 56 := r7]> r in
  r.

(** Body of the loop of layers 4 and 2, with the final reduction. *)
Definition ntt_4_2 (j : nat) (r : list T) : list T :=
  let zeta4 := zetas !!! (32 + j / 8 + 0) in
  let zeta2_0 := zetas !!! (64 + j / 4 + 0) in
  let zeta2_1 := zetas !!! (64 + j / 4 + 1) in
  let r0 := r !!! (j + 0) in
  let r1 := r !!! (j + 1) in
  let r2 := r !!! (j + 2) in
  let r3 := r !!! (j + 3) in
  let r4 := r !!! (j + 4) in
  let r5 := r !!! (j + 5) in
  let r6 := r !!! (j + 6) in
  let r7 := r !!! (j + 7) in
  let t0 := mont zeta4 r4 in
  let t1 := mont zeta4 r5 in
  let t2 := mont zeta4 r6 in
  let t3 := mont zeta4 r7 in
  let r4 := sub16 r0 t0 in
  let r5 := sub16 r1 t1 in
  let r6 := sub16 r2 t2 in
  let r7 := sub16 r3 t3 in
  let r0 := add16 r0 t0 in
  let r1 := add16 r1 t1 in
  let r2 := add16 r2 t2 in
  let r3 := add16 r3 t3 in
  let t0 := mont zeta2_0 r2 in
  let t1 := mont zeta2_0 r3 in
  let t2 := mont zeta2_1 r6 in
  let t3 := mont zeta2_1 r7 in
  let r2 := sub16 r0 t0 in
  let r3 := sub16 r1 t1 in
  let r6 := sub16 r4 t2 in
  let r7 := sub16 r5 t3 in
  let r0 := add16 r0 t0 in
  let r1 := add16 r1 t1 in
  let r4 := add16 r4 t2 in
  let r5 := add16 r5 t3 in
  let r := <[j + 0 := barrett r0]> r in
  let r := <[j + 1 := barrett r1]> r in
  let r := <[j + 2 := barrett r2]> r in
  let r := <[j + 3 := barrett r3]> r in
  let r := <[j + 4 := barrett r4]> r in
  let r := <[j + 5 := barrett r5]> r in
  let r := <[j + 6 := barrett r6]> r in
  let r := <[j + 7 := barrett r7]> r in
  r.

Definition ntt (r : list T) : list T :=
  let r := for_by 1 (MLKEM_N / 8) ntt_128_64 r in
  let r := for_by 64 MLKEM_N (fun j r => for_by 1 8 (ntt_32_16_8 j) r) r in
  for_by 8 MLKEM_N ntt_4_2 r.

(** The last loop of [mlkem_ntt_add_to]: [r] is only read. *)
Definition ntt_4_2_add (r : list T) (j : nat) (a : list T) : list T :=
  let zeta4 := zetas !!! (32 + j / 8 + 0) in
  let zeta2_0 := zetas !!! (64 + j / 4 + 0) in
  let zeta2_1 := zetas !!! (64 + j / 4 + 1) in
  let r0 := r !!! (j + 0) in
  let r1 := r !!! (j + 1) in
  let r2 := r !!! (j + 2) in
  let r3 := r !!! (j + 3) in
  let r4 := r !!! (j + 4) in
  let r5 := r !!! (j + 5) in
  let r6 := r !!! (j + 6) in
  let r7 := r !!! (j + 7) in
  let t0 := mont zeta4 r4 in
  let t1 := mont zeta4 r5 in
  let t2 := mont zeta4 r6 in
  let t3 := mont zeta4 r7 in
  let r4 := sub16 r0 t0 in
  let r5 := sub16 r1 t1 in
  let r6 := sub16 r2 t2 in
  let r7 := sub16 r3 t3 in
  let r0 := add16 r0 t0 in
  let r1 := add16 r1 t1 in
  let r2 := add16 r2 t2 in
  let r3 := add16 r3 t3 in
  let t0 := mont zeta2_0 r2 in
  let t1 := mont zeta2_0 r3 in
  let t2 := mont zeta2_1 r6 in
  let t3 := mont zeta2_1 r7 in
  let r2 := sub16 r0 t0 in
  let r3 := sub16 r1 t1 in
  let r6 := sub16 r4 t2 in
  let r7 := sub16 r5 t3 in
  let r0 := add16 r0 t0 in
  let r1 := add16 r1 t1 in
  let r4 := add16 r4 t2 in
  let r5 := add16 r5 t3 in
  let r0 := add16 r0 (a !!! (j + 0)) in
  let r1 := add16 r1 (a !!! (j + 1)) in
  let r2 := add16 r2 (a !!! (j + 2)) in
  let r3 := add16 r3 (a !!! (j + 3)) in
  let r4 := add16 r4 (a !!! (j + 4)) in
  let r5 := add16 r5 (a !!! (j + 5)) in
  let r6 := add16 r6 (a !!! (j + 6)) in
  let r7 := add16 r7 (a !!! (j + 7)) in
  let a := <[j + 0 := barrett r0]> a in
  let a := <[j + 1 := barrett r1]> a in
  let a := <[j + 2 := barrett r2]> a in
  let a := <[j + 3 := barrett r3]> a in
  let a := <[j + 4 := barrett r4]> a in
  let a := <[j + 5 := barrett r5]> a in
  let a := <[j + 6 := barrett r6]> a in
  let a := <[j + 7 := barrett r7]> a in
  a.

Definition ntt_add_to (r a : list T) : list T :=
  let r := for_by 1 (MLKEM_N / 8) ntt_128_64 r in
  let r := for_by 64 MLKEM_N (fun j r => for_by 1 8 (ntt_32_16_8 j) r) r in
  for_by 8 MLKEM_N (ntt_4_2_add r) a.

(** Body of the loop of layers 2 and 4 of the inverse. *)
Definition invntt_2_4 (j : nat) (r : list T) : list T :=
  let zeta2_0 := zetas_inv !!! (0 + j / 4 + 0) in
  let zeta2_1 := zetas_inv !!! (0 + j / 4 + 1) in
  let zeta4 := zetas_inv !!! (64 + j / 8 + 0) in
  let r0 := r !!! (j + 0) in
  let r1 := r !!! (j + 1) in
  let r2 := r !!! (j + 2) in
  let r3 := r !!! (j + 3) in
  let r4 := r !!! (j + 4) in
  let r5 := r !!! (j + 5) in
  let r6 := r !!! (j + 6) in
  let r7 := r !!! (j + 7) in
  let t0 := mont zeta2_0 (sub16 r0 r2) in
  let t1 := mont zeta2_0 (sub16 r1 r3) in
  let t2 := mont zeta2_1 (sub16 r4 r6) in
  let t3 := mont zeta2_1 (sub16 r5 r7) in
  let r0 := add16 r0 r2 in
  let r1 := add16 r1 r3 in
  let r4 := add16 r4 r6 in
  let r5 := add16 r5 r7 in
  let r2 := t0 in
  let r3 := t1 in
  let r6 := t2 in
  let r7 := t3 in
  let t0 := mont zeta4 (sub16 r0 r4) in
  let t1 := mont zeta4 (sub16 r1 r5) in
  let t2 := mont zeta4 (sub16 r2 r6) in
  let t3 := mont zeta4 (sub16 r3 r7) in
  let r0 := add16 r0 r4 in
  let r1 := add16 r1 r5 in
  let r2 := add16 r2 r6 in
  let r3 := add16 r3 r7 in
  let r4 := t0 in
  let r5 := t1 in
  let r6 := t2 in
  let r7 := t3 in
  let r := <[j + 0 := r0]> r in
  let r := <[j + 1 := r1]> r in
  let r := <[j + 2 := r2]> r in
  let r := <[j + 3 := r3]> r in
  let r := <[j + 4 := r4]> r in
  let r := <[j + 5 := r5]> r in
  let r := <[j + 6 := r6]> r in
  let r := <[j + 7 := r7]> r in
  r.

(** Body of the inner loop of layers 8, 16 and 32 of the inverse. *)
Definition invntt_8_16_32 (j i : nat) (r : list T) : list T :=
  let zeta8_0 := zetas_inv !!! (96 + j / 16 + 0) in
  let zeta8_1 := zetas_inv !!! (96 + j / 16 + 1) in
  let zeta8_2 := zetas_inv !!! (96 + j / 16 + 2) in
  let zeta8_3 := zetas_inv !!! (96 + j / 16 + 3) in
  let zeta16_0 := zetas_inv !!! (112 + j / 32 + 0) in
  let zeta16_1 := zetas_inv !!! (112 + j / 32 + 1) in
  let zeta32 := zetas_inv !!! (120 + j / 64 + 0) in
  let r0 := r !!! (j + i + 0) in
  let r1 := r !!! (j + i + 8) in
  let r2 := r !!! (j + i + 16) in
  let r3 := r !!! (j + i + 24) in
  let r4 := r !!! (j + i + 32) in
  let r5 := r !!! (j + i + 40) in
  let r6 := r !!! (j + i + 48) in
  let r7 := r !!! (j + i + 56) in
  let t0 := mont zeta8_0 (sub16 r0 r1) in
  let t1 := mont zeta8_1 (sub16 r2 r3) in
  let t2 := mont zeta8_2 (sub16 r4 r5) in
  let t3 := mont zeta8_3 (sub16 r6 r7) in
  let r0 := barrett (add16 r0 r1) in
  let r2 := barrett (add16 r2 r3) in
  let r4 := barrett (add16 r4 r5) in
  let r6 := barrett (add16 r6 r7) in
  let r1 := t0 in
  let r3 := t1 in
  let r5 := t2 in
  let r7 := t3 in
  let t0 := mont zeta16_0 (sub16 r0 r2) in
  let t1 := mont zeta16_0 (sub16 r1 r3) in
  let t2 := mont zeta16_1 (sub16 r4 r6) in
  let t3 := mont zeta16_1 (sub16 r5 r7) in
  let r0 := add16 r0 r2 in
  let r1 := add16 r1 r3 in
  let r4 := add16 r4 r6 in
  let r5 := add16 r5 r7 in
  let r2 := t0 in
  let r3 := t1 in
  let r6 := t2 in
  let r7 := t3 in
  let t0 := mont zeta32 (sub16 r0 r4) in
  let t1 := mont zeta32 (sub16 r1 r5) in
  let t2 := mont zeta32 (sub16 r2 r6) in
  let t3 := mont zeta32 (sub16 r3 r7) in
  let r0 := add16 r0 r4 in
  let r1 := add16 r1 r5 in
  let r2 := add16 r2 r6 in
  let r3 := add16 r3 r7 in
  let r4 := t0 in
  let r5 := t1 in
  let r6 := t2 in
  let r7 := t3 in
  let r := <[j + i + 0 := r0]> r in
  let r := <[j + i + 8 := r1]> r in
  let r := <[j + i + 16 := r2]> r in
  let r := <[j + i + 24 := r3]> r in
  let r := <[j + i + 32 := r4]> r in
  let r := <[j + i + 40 := r5]> r in
  let r := <[j + i + 48 := r6]> r in
  let r := <[j + i + 56 := r7]> r in
  r.

(** Body of the loop of layers 64 and 128, with the final scaling. *)
Definition invntt_64_128 (j : nat) (r : list T) : list T :=
  let zeta64_0 := zetas_inv !!! 124 in
  let zeta64_1 := zetas_inv !!! 125 in
  let zeta128 := zetas_inv !!! 126 in
  let zeta256 := zetas_inv !!! 127 in
  let r0 := r !!! (j + 0) in
  let r1 := r !!! (j + 32) in
  let r2 := r !!! (j + 64) in
  let r3 := r !!! (j + 96) in
  let r4 := r !!! (j + 128) in
  let r5 := r !!! (j + 160) in
  let r6 := r !!! (j + 192) in
  let r7 := r !!! (j + 224) in
  let t0 := mont zeta64_0 (sub16 r0 r2) in
  let t1 := mont zeta64_0 (sub16 r1 r3) in
  let t2 := mont zeta64_1 (sub16 r4 r6) in
  let t3 := mont zeta64_1 (sub16 r5 r7) in
  let r0 := barrett (add16 r0 r2) in
  let r1 := barrett (add16 r1 r3) in
  let r4 := barrett (add16 r4 r6) in
  let r5 := barrett (add16 r5 r7) in
  let r2 := t0 in
  let r3 := t1 in
  let r6 := t2 in
  let r7 := t3 in
  let t0 := mont zeta128 (sub16 r0 r4) in
  let t1 := mont zeta128 (sub16 r1 r5) in
  let t2 := mont zeta128 (sub16 r2 r6) in
  let t3 := mont zeta128 (sub16 r3 r7) in
  let r0 := add16 r0 r4 in
  let r1 := add16 r1 r5 in
  let r2 := add16 r2 r6 in
  let r3 := add16 r3 r7 in
  let r4 := t0 in
  let r5 := t1 in
  let r6 := t2 in
  let r7 := t3 in
  let r0 := mont zeta256 r0 in
  let r1 := mont zeta256 r1 in
  let r2 := mont zeta256 r2 in
  let r3 := mont zeta256 r3 in
  let r4 := mont zeta256 r4 in
  let r5 := mont zeta256 r5 in
  let r6 := mont zeta256 r6 in
  let r7 := mont zeta256 r7 in
  let r := <[j + 0 := r0]> r in
  let r := <[j + 32 := r1]> r in
  let r := <[j + 64 := r2]> r in
  let r := <[j + 96 := r3]> r in
  let r := <[j + 128 := r4]> r in
  let r := <[j + 160 := r5]> r in
  let r := <[j + 192 := r6]> r in
  let r := <[j + 224 := r7]> r in
  r.

Definition invntt (r : list T) : list T :=
  let r := for_by 8 MLKEM_N invntt_2_4 r in
  let r := for_by 64 MLKEM_N (fun j r => for_by 1 8 (invntt_8_16_32 j) r) r in
  for_by 1 (MLKEM_N / 8) invntt_64_128 r.

End Code.

Definition mlkem_ntt : list Z -> list Z := ntt (T := Z).
Definition mlkem_ntt_add_to : list Z -> list Z -> list Z := ntt_add_to (T := Z).
Definition mlkem_invntt : list Z -> list Z := invntt (T := Z).

(** ** Two instances of the code are related when their operations are *)

Definition factor (z : Z) : Prop := 0 <= z < MLKEM_Q.

Lemma table_factor t i : Forall factor t -> factor (t !!! i).
Proof.
  intros H. rewrite list_lookup_total_alt. destruct (t !! i) as [z|] eqn:E; [|done].
  exact (Forall_lookup_1 _ _ _ _ H E).
Qed.

Lemma zetas_factor i : factor (zetas !!! i).
Proof. apply table_factor. unfold factor. apply (bool_decide_eq_true_1 _). vm_compute. done. Qed.

Lemma zetas_inv_factor i : factor (zetas_inv !!! i).
Proof. apply table_factor. unfold factor. apply (bool_decide_eq_true_1 _). vm_compute. done. Qed.

Section Relate.
Context {A B : Type} `{!Inhabited A, !CoeffOps A, !Inhabited B, !CoeffOps B}.
Variable R : A -> B -> Prop.
Hypothesis R_default : R inhabitant inhabitant.
Hypothesis R_add16 : forall a a' b b', R a b -> R a' b' -> R (add16 a a') (add16 b b').
Hypothesis R_sub16 : forall a a' b b', R a b -> R a' b' -> R (sub16 a a') (sub16 b b').
Hypothesis R_mont : forall z a b, factor z -> R a b -> R (mont z a) (mont z b).
Hypothesis R_barrett : forall a b, R a b -> R (barrett a) (barrett b).

Lemma let_rel {X X' Y Y'} (Q : X -> X' -> Prop) (P : Y -> Y' -> Prop) e e' f f' :
  Q e e' -> (forall x x', Q x x' -> P (f x) (f' x')) ->
  P (let x := e in f x) (let x := e' in f' x).
Proof. intros H HP. apply HP, H. Qed.

Lemma let_factor {Y Y'} (P : Y -> Y' -> Prop) z f f' :
  factor z -> (forall z, factor z -> P (f z) (f' z)) ->
  P (let x := z in f x) (let x := z in f' x).
Proof. intros H HP. apply HP, H. Qed.

Lemma lookup_rel i r r' : Forall2 R r r' -> R (r !!! i) (r' !!! i).
Proof.
  intros H. rewrite !list_lookup_total_alt. rewrite Forall2_lookup in H.
  destruct (H i); [done|exact R_default].
Qed.

Lemma for_by_rel step bound (f : nat -> list A -> list A) (f' : nat -> list B -> list B) r r' :
  (forall j r r', Forall2 R r r' -> Forall2 R (f j r) (f' j r')) ->
  Forall2 R r r' -> Forall2 R (for_by step bound f r) (for_by step bound f' r').
Proof.
  intros Hf. unfold for_by. generalize (seq 0 (bound / step)). intros l.
  revert r r'. induction l as [|k l IH]; intros r r' H; cbn; [done|]. by apply IH, Hf.
Qed.

Create HintDb rel.
#[local] Hint Resolve R_add16 R_sub16 R_mont R_barrett lookup_rel Forall2_insert
  zetas_factor zetas_inv_factor : rel.

(** Relates the let-bound values of a body one after the other. *)
Ltac relate_lets :=
  repeat lazymatch goal with
  | |- ?P (let x : Z := ?z in @?f x) (let y : Z := ?z in @?f' y) =>
      refine (let_factor P z f f' _ _); [solve [eauto with rel]|intros ? ?]
  | |- ?P (let x : list _ := ?e in @?f x) (let y : list _ := ?e' in @?f' y) =>
      refine (let_rel (Forall2 R) P e e' f f' _ _); [solve [eauto with rel]|intros ? ? ?]
  | |- ?P (let x := ?e in @?f x) (let y := ?e' in @?f' y) =>
      refine (let_rel R P e e' f f' _ _); [solve [eauto with rel]|intros ? ? ?]
  end; cbv beta; try assumption.

Lemma ntt_128_64_rel j r r' :
  Forall2 R r r' -> Forall2 R (ntt_128_64 j r) (ntt_128_64 j r').
Proof. intros H. cbv delta [ntt_128_64] beta. relate_lets. Qed.

Lemma ntt_32_16_8_rel j i r r' :
  Forall2 R r r' -> Forall2 R (ntt_32_16_8 j i r) (ntt_32_16_8 j i r').
Proof. intros H. cbv delta [ntt_32_16_8] beta. relate_lets. Qed.

Lemma ntt_4_2_rel j r r' : Forall2 R r r' -> Forall2 R (ntt_4_2 j r) (ntt_4_2 j r').
Proof. intros H. cbv delta [ntt_4_2] beta. relate_lets. Qed.

Lemma ntt_4_2_add_rel r r' j a a' : Forall2 R r r' -> Forall2 R a a' ->
  Forall2 R (ntt_4_2_add r j a) (ntt_4_2_add r' j a').
Proof. intros H H'. cbv delta [ntt_4_2_add] beta. relate_lets. Qed.

Lemma invntt_2_4_rel j r r' : Forall2 R r r' -> Forall2 R (invntt_2_4 j r) (invntt_2_4 j r').
Proof. intros H. cbv delta [invntt_2_4] beta. relate_lets. Qed.

Lemma invntt_8_16_32_rel j i r r' :
  Forall2 R r r' -> Forall2 R (invntt_8_16_32 j i r) (invntt_8_16_32 j i r').
Proof. intros H. cbv delta [invntt_8_16_32] beta. relate_lets. Qed.

Lemma invntt_64_128_rel j r r' :
  Forall2 R r r' -> Forall2 R (invntt_64_128 j r) (invntt_64_128 j r').
Proof. intros H. cbv delta [invntt_64_128] beta. relate_lets. Qed.

#[local] Hint Resolve for_by_rel ntt_128_64_rel ntt_32_16_8_rel ntt_4_2_rel ntt_4_2_add_rel
  invntt_2_4_rel invntt_8_16_32_rel invntt_64_128_rel : rel.

Lemma ntt_rel r r' : Forall2 R r r' -> Forall2 R (ntt r) (ntt r').
Proof. intros H. unfold ntt. auto 10 with rel. Qed.

Lemma ntt_add_to_rel r r' a a' : Forall2 R r r' -> Forall2 R a a' ->
  Forall2 R (ntt_add_to r a) (ntt_add_to r' a').
Proof. intros H H'. unfold ntt_add_to. auto 15 with rel. Qed.

Lemma invntt_rel r r' : Forall2 R r r' -> Forall2 R (invntt r) (invntt r').
Proof. intros H. unfold invntt. auto 10 with rel. Qed.

End Relate.
