(* ===== verification/MlkemRing.v ===== *)
(** * What the transform computes

    The code of MlkemNtt run on intervals and linear forms: one evaluation
    gives a bound for every coefficient and the matrix of the transform, which
    is compared with evaluation at the roots of X^256 + 1.  From there, the
    product of two polynomials in Z_q[X]/(X^256 + 1). *)

From S2P Require Import Prelude.
From S2P Require Import MlkemReduce.
From S2P Require Import MlkemNtt.

(** ** Linear forms modulo q *)

Definition mod_add (x y : Z) : Z := let s := x + y in if s <? MLKEM_Q then s else s - MLKEM_Q.
Definition mod_sub (x y : Z) : Z := let s := x - y in if s <? 0 then s + MLKEM_Q else s.
Definition mod_mul (c x : Z) : Z := if x =? 0 then 0 else (c * x) mod MLKEM_Q.

Fixpoint dot (v f : list Z) : Z :=
  match v, f with
  | a :: v, b :: f => a * b + dot v f
  | _, _ => 0
  end.

Fixpoint form_add (v w : list Z) : list Z :=
  match v, w with
  | [], _ => w
  | _, [] => v
  | x :: v, y :: w => mod_add x y :: form_add v w
  end.

Definition form_scale (c : Z) (v : list Z) : list Z := map (mod_mul c) v.

Fixpoint form_sub (v w : list Z) : list Z :=
  match v, w with
  | [], _ => form_scale (-1) w
  | _, [] => v
  | x :: v, y :: w => mod_sub x y :: form_sub v w
  end.

Lemma mod_add_cong x y : mod_add x y == x + y.
Proof. unfold mod_add; cbv zeta. destruct (_ <? _); [done|]. apply (eqq_diff _ _ (-1)). lia. Qed.

Lemma mod_sub_cong x y : mod_sub x y == x - y.
Proof. unfold mod_sub; cbv zeta. destruct (_ <? _); [|done]. apply (eqq_diff _ _ 1). lia. Qed.

Lemma mod_mul_cong c x : mod_mul c x == c * x.
Proof. unfold mod_mul. destruct (Z.eqb_spec x 0) as [->|]; [|apply eqq_mod]. by rewrite Z.mul_0_r. Qed.

Lemma dot_nil_r v : dot v [] = 0.
Proof. by destruct v. Qed.

Lemma form_scale_dot c v f : dot (form_scale c v) f == c * dot v f.
Proof.
  revert f. induction v as [|x v IH]; intros [|b f]; cbn; rewrite ?Z.mul_0_r; [done..|].
  unfold form_scale in IH. rewrite IH, mod_mul_cong. apply (eqq_diff _ _ 0). lia.
Qed.

Lemma form_add_dot v w f : dot (form_add v w) f == dot v f + dot w f.
Proof.
  revert w f. induction v as [|x v IH]; intros [|y w] [|b f]; cbn;
    rewrite ?dot_nil_r, ?Z.add_0_r; [done..|].
  rewrite IH, mod_add_cong. apply (eqq_diff _ _ 0). lia.
Qed.

Lemma form_sub_dot v w f : dot (form_sub v w) f == dot v f - dot w f.
Proof.
  revert w f. induction v as [|x v IH]; intros [|y w] f.
  - done.
  - cbn [form_sub]. rewrite form_scale_dot. apply (eqq_diff _ _ 0). cbn [dot]. lia.
  - cbn [form_sub]. apply (eqq_diff _ _ 0). cbn [dot]. lia.
  - destruct f as [|b f]; cbn; [done|]. rewrite IH, mod_sub_cong. apply (eqq_diff _ _ 0). lia.
Qed.

(** ** The shadow of a coefficient: an interval and a linear form *)

Record shadow := Shadow { sh_lo : Z; sh_hi : Z; sh_form : list Z }.

(** [None] when the value may not fit in 16 bits. *)
Definition sh_check (s : shadow) : option shadow :=
  if (- 32768 <=? sh_lo s) && (sh_hi s <=? 32767) then Some s else None.

#[export] Instance shadow_inhabited : Inhabited (option shadow) := populate None.

#[export] Instance shadow_coeff : CoeffOps (option shadow) := {|
  add16 := fun a b => match a, b with
    | Some a, Some b => sh_check
        (Shadow (sh_lo a + sh_lo b) (sh_hi a + sh_hi b) (form_add (sh_form a) (sh_form b)))
    | _, _ => None end;
  sub16 := fun a b => match a, b with
    | Some a, Some b => sh_check
        (Shadow (sh_lo a - sh_hi b) (sh_hi a - sh_lo b) (form_sub (sh_form a) (sh_form b)))
    | _, _ => None end;
  mont := fun z a => match a with
    | Some a =>
        let b := (z * Z.max (- sh_lo a) (sh_hi a) + MLKEM_Q * 2 ^ 15) / 2 ^ 16 in
        Some (Shadow (- b) b (form_scale (z * MONT_RINV mod MLKEM_Q) (sh_form a)))
    | None => None end;
  barrett := fun a => match a with
    | Some a => Some (Shadow 0 MLKEM_Q (sh_form a))
    | None => None end |}.

(** [x] lies in the interval and has the value of the form at [f]. *)
Definition shadows (f : list Z) (x : Z) (o : option shadow) : Prop :=
  match o with
  | None => True
  | Some s => - 32768 <= sh_lo s /\ sh_hi s <= 32767 /\ sh_lo s <= x <= sh_hi s /\ x == dot (sh_form s) f
  end.

Section ShadowLaws.
Variable f : list Z.

Lemma shadows_check x s : sh_lo s <= x <= sh_hi s -> x == dot (sh_form s) f ->
  shadows f (s16 x) (sh_check s).
Proof.
  intros Hx Hf. unfold sh_check. destruct (_ && _) eqn:E; [|done].
  apply andb_true_iff in E as [E1 E2]. cbn. rewrite sext_small by lia. repeat split; [lia..|done].
Qed.

Lemma shadows_add a a' b b' : shadows f a b -> shadows f a' b' ->
  shadows f (add16 a a') (add16 b b').
Proof.
  destruct b as [b|], b' as [b'|]; intros; [|done..]. cbn [shadows] in *. destruct_and!.
  apply shadows_check; cbn; [lia|]. rewrite form_add_dot. by f_equiv.
Qed.

Lemma shadows_sub a a' b b' : shadows f a b -> shadows f a' b' ->
  shadows f (sub16 a a') (sub16 b b').
Proof.
  destruct b as [b|], b' as [b'|]; intros; [|done..]. cbn [shadows] in *. destruct_and!.
  apply shadows_check; cbn; [lia|]. rewrite form_sub_dot. by f_equiv.
Qed.

Lemma shadows_mont z a b : factor z -> shadows f a b -> shadows f (mont z a) (mont z b).
Proof.
  destruct b as [b|]; intros Hz; [|done]. intros (? & ? & Hx & Hf). unfold factor, MLKEM_Q in Hz.
  cbn [mont c_coeff shadow_coeff shadows sh_lo sh_hi sh_form].
  set (m := Z.max (- sh_lo b) (sh_hi b)).
  assert (Hm : Z.abs a <= m <= 32768) by lia.
  assert (Hp : Z.abs (z * a) <= z * m) by (rewrite Z.abs_mul; nia).
  pose proof (MONT_RED_bound (z * a) (z * m) Hp ltac:(nia)) as Hb.
  set (c := (z * m + MLKEM_Q * 2 ^ 15) / 2 ^ 16) in *.
  assert (c <= 4000) by (unfold c, MLKEM_Q; apply Z.div_le_upper_bound; nia).
  repeat split; [lia..|].
  rewrite MONT_RED_cong, form_scale_dot, eqq_mod, Hf by nia.
  apply (eqq_diff _ _ 0). lia.
Qed.

Lemma shadows_barrett a b : shadows f a b -> shadows f (barrett a) (barrett b).
Proof.
  destruct b as [b|]; [|done]. intros (? & ? & Hx & Hf).
  cbn [barrett c_coeff shadow_coeff shadows sh_lo sh_hi sh_form].
  pose proof (BARRETT_RED_range a). unfold MLKEM_Q in *. repeat split; [lia..|].
  rewrite BARRETT_RED_cong, sext_small by lia. done.
Qed.

Lemma shadows_default : shadows f inhabitant inhabitant.
Proof. done. Qed.

End ShadowLaws.

(** Every coefficient in [-B, B], the forms given. *)
Definition shadow_input (B : Z) (forms : list (list Z)) : list (option shadow) :=
  map (fun v => Some (Shadow (- B) B v)) forms.

Definition unit_form (i : nat) : list Z := replicate i 0 ++ [1].

Lemma dot_unit f i : dot (unit_form i) f = nth i f 0.
Proof.
  unfold unit_form. revert f. induction i as [|i IH]; intros [|b f]; cbn -[dot]; cbn [dot]; try done.
  - rewrite Z.mul_1_l. destruct f; apply Z.add_0_r.
  - rewrite Z.mul_0_l, Z.add_0_l. apply IH.
Qed.

(** A shadow within the bounds and with the form expected. *)
Definition check_coeff (lo hi : Z) (o : option shadow) (v : list Z) : bool :=
  match o with
  | None => false
  | Some s => (lo <=? sh_lo s) && (sh_hi s <=? hi) && forallb (Z.eqb 0) (form_sub (sh_form s) v)
  end.

Lemma dot_zeros v f : forallb (Z.eqb 0) v = true -> dot v f = 0.
Proof.
  revert f. induction v as [|x v IH]; intros [|b f] H; cbn [forallb dot] in *; try done.
  apply andb_true_iff in H as [Hx H]. rewrite (IH f H). lia.
Qed.

Lemma check_coeff_sound f lo hi x o v : check_coeff lo hi o v = true ->
  shadows f x o -> lo <= x <= hi /\ x == dot v f.
Proof.
  destruct o as [s|]; [|done]. cbn. intros H (? & ? & ? & Hx).
  apply andb_true_iff in H as [H Hv]. split; [lia|]. rewrite Hx.
  pose proof (form_sub_dot (sh_form s) v f) as Hs. rewrite (dot_zeros _ f Hv) in Hs.
  rewrite <- (Z.add_0_l (dot v f)), Hs. apply (eqq_diff _ _ 0). lia.
Qed.

Definition check_rows (lo hi : Z) (os : list (option shadow)) (vs : list (list Z)) : bool :=
  forallb (fun '(o, v) => check_coeff lo hi o v) (zip os vs).

Lemma check_rows_sound f lo hi h os vs i x v : check_rows lo hi os vs = true ->
  Forall2 (shadows f) h os -> h !! i = Some x -> vs !! i = Some v ->
  lo <= x <= hi /\ x == dot v f.
Proof.
  intros Hc Hh Hx Hv. destruct (Forall2_lookup_l _ _ _ _ _ Hh Hx) as (o & Ho & Hs).
  apply (check_coeff_sound f lo hi x o v); [|done].
  unfold check_rows in Hc. rewrite forallb_forall in Hc. apply (Hc (o, v)).
  rewrite <- list_elem_of_In. apply list_elem_of_lookup. exists i.
  apply lookup_zip_with_Some. eauto.
Qed.

(** ** Evaluation at the roots of X^256 + 1 *)

(** [f] modulo X^2 - g: the constant and the linear coefficient. *)
Fixpoint eval2 (g : Z) (f : list Z) : Z * Z :=
  match f with
  | [] => (0, 0)
  | a :: f => let '(e, o) := eval2 g f in (a + g * o, e)
  end.

Fixpoint bitrev (bits i : nat) : nat :=
  match bits with
  | O => O
  | S b => 2 ^ b * (i mod 2) + bitrev b (i / 2)
  end%nat.

(** Powers modulo q by repeated squaring. *)
Fixpoint pow_mod (b : Z) (p : positive) : Z :=
  match p with
  | xH => b
  | xO p => let c := pow_mod b p in c * c mod MLKEM_Q
  | xI p => let c := pow_mod b p in (c * c mod MLKEM_Q) * b mod MLKEM_Q
  end.

Lemma pow_mod_cong b p : pow_mod b p == b ^ Zpos p.
Proof.
  induction p as [p IH|p IH|]; cbn [pow_mod].
  - rewrite !eqq_mod, IH, Pos2Z.inj_xI, Z.pow_add_r, Z.pow_1_r, (Z.mul_comm 2), Z.pow_mul_r by lia.
    apply (eqq_diff _ _ 0). rewrite Z.pow_2_r. lia.
  - rewrite eqq_mod, IH, Pos2Z.inj_xO, (Z.mul_comm 2), Z.pow_mul_r by lia. by rewrite Z.pow_2_r.
  - by rewrite Z.pow_1_r.
Qed.

(** zeta^(2 BitRev_7(i) + 1), zeta = 17, as in FIPS 203. *)
Definition root (i : nat) : Z := pow_mod 17 (Pos.of_nat (2 * bitrev 7 i + 1)).

(** [h] is the transform of [f]: the residues modulo the 128 factors. *)
Definition represents (h f : list Z) : Prop :=
  length h = MLKEM_N /\ forall i, (i < 128)%nat ->
    nth (2 * i) h 0 == (eval2 (root i) f).1 /\ nth (2 * i + 1) h 0 == (eval2 (root i) f).2.

Fixpoint eval_row (g c : Z) (n : nat) : list Z :=
  match n with O => [] | S n => c :: 0 :: eval_row g (c * g mod MLKEM_Q) n end.

Definition ntt_row (i : nat) : list Z :=
  let row := eval_row (root (i / 2)) 1 128 in
  if Nat.even i then row else 0 :: take 255 row.

Lemma dot_take n v f : (length f <= n)%nat -> dot (take n v) f = dot v f.
Proof.
  revert v f. induction n as [|n IH]; intros [|x v] [|b f] H; cbn in H |- *; try done; try lia.
  rewrite IH by lia. done.
Qed.

Lemma dot_app_r v f g : (length v <= length f)%nat -> dot v (f ++ g) = dot v f.
Proof.
  revert f. induction v as [|x v IH]; intros [|b f] H; cbn in H |- *; try done; try lia.
  rewrite IH by lia. done.
Qed.

Lemma eval_row_dot g c n f : (length f <= 2 * n)%nat ->
  dot (eval_row g c n) f == c * (eval2 g f).1.
Proof.
  revert c f. induction n as [|n IH]; intros c f Hf.
  - destruct f; [|cbn in Hf; lia]. cbn. apply (eqq_diff _ _ 0). lia.
  - destruct f as [|a [|b f]]; cbn [eval_row dot eval2].
    + apply (eqq_diff _ _ 0). cbn. lia.
    + apply (eqq_diff _ _ 0). cbn. lia.
    + rewrite IH by (cbn in Hf; lia). rewrite eqq_mod.
      destruct (eval2 g f) as [e o]. cbn. apply (eqq_diff _ _ 0). lia.
Qed.

Lemma ntt_row_dot i f : length f = MLKEM_N ->
  dot (ntt_row (2 * i)) f == (eval2 (root i) f).1 /\
  dot (ntt_row (2 * i + 1)) f == (eval2 (root i) f).2.
Proof.
  intros Hf. unfold ntt_row.
  replace (2 * i / 2)%nat with i by (rewrite Nat.mul_comm, Nat.div_mul; lia).
  replace ((2 * i + 1) / 2)%nat with i by (apply (Nat.div_unique _ 2 i 1); lia).
  replace (Nat.even (2 * i)) with true by (symmetry; apply Nat.even_spec; exists i; lia).
  replace (Nat.even (2 * i + 1)) with false
    by (rewrite <- Nat.negb_odd; replace (Nat.odd (2 * i + 1)) with true;
        [done | symmetry; apply Nat.odd_spec; exists i; lia]).
  split; [rewrite eval_row_dot by (rewrite Hf; done); by rewrite Z.mul_1_l|].
  destruct f as [|a f]; [done|]. cbn [dot eval2].
  rewrite dot_take, eval_row_dot by (cbn in Hf; unfold MLKEM_N in Hf; lia).
  destruct (eval2 (root i) f). cbn. apply (eqq_diff _ _ 0). lia.
Qed.

Lemma root_power i : (i < 128)%nat -> root i ^ 128 == -1.
Proof.
  intros Hi. rewrite <- (pow_mod_cong (root i) 128).
  assert (H : forallb (fun i => pow_mod (root i) 128 =? (-1) mod MLKEM_Q) (seq 0 128) = true)
    by (vm_compute; done).
  rewrite forallb_forall in H. rewrite (proj1 (Z.eqb_eq _ _) (H i ltac:(apply in_seq; lia))).
  apply eqq_mod.
Qed.

Lemma eval_row_length g c n : length (eval_row g c n) = (2 * n)%nat.
Proof. revert c. induction n as [|n IH]; intros c; cbn; [done|]. rewrite IH. lia. Qed.

Lemma ntt_row_length i : length (ntt_row i) = MLKEM_N.
Proof.
  unfold ntt_row. case_match; cbn [length]; rewrite ?length_take, eval_row_length; done.
Qed.

(** ** The matrices of the three transforms, by evaluation *)

Definition units (off : nat) : list (list Z) := map unit_form (seq off MLKEM_N).
Definition ntt_rows : list (list Z) := map ntt_row (seq 0 MLKEM_N).

Lemma ntt_checked :
  check_rows 0 MLKEM_Q (ntt (shadow_input 15000 (units 0))) ntt_rows = true.
Proof. vm_compute. reflexivity. Qed.

Lemma ntt_add_to_checked :
  check_rows 0 MLKEM_Q (ntt_add_to (shadow_input MLKEM_Q (units 0)) (shadow_input 8000 (units MLKEM_N)))
    (zip_with form_add ntt_rows (units MLKEM_N)) = true.
Proof. vm_compute. reflexivity. Qed.

Lemma invntt_checked :
  check_rows (- 1810) 1810 (invntt (shadow_input 4095 ntt_rows))
    (map (form_scale MONT_R) (units 0)) = true.
Proof. vm_compute. reflexivity. Qed.

Definition within (B : Z) (r : list Z) : Prop := length r = MLKEM_N /\ Forall (fun x => Z.abs x <= B) r.

Lemma shadow_input_shadows B f r forms : B <= 32767 -> Forall (fun x => Z.abs x <= B) r ->
  Forall2 (fun x v => x == dot v f) r forms -> Forall2 (shadows f) r (shadow_input B forms).
Proof.
  intros HB Hr. induction 1 as [|x v r forms Hx _ IH]; inversion Hr; subst; [constructor|].
  constructor; [|by apply IH]. cbn. split_and!; [lia..|done].
Qed.

Lemma units_lookup off i : (i < MLKEM_N)%nat -> units off !! i = Some (unit_form (off + i)).
Proof. intros Hi. unfold units. rewrite list_lookup_fmap, lookup_seq_lt by done. done. Qed.

Lemma units_dot f pre post : length f = MLKEM_N ->
  Forall2 (fun x v => x == dot v (pre ++ f ++ post)) f (units (length pre)).
Proof.
  intros Hf. apply Forall2_same_length_lookup_2; [unfold units; by rewrite length_map, length_seq|].
  intros i x v Hx Hv. pose proof (lookup_lt_Some _ _ _ Hx) as Hi. rewrite Hf in Hi.
  rewrite units_lookup in Hv by done. injection Hv as <-.
  rewrite dot_unit. erewrite nth_lookup_Some with (x := x); [done|].
  rewrite lookup_app_r, lookup_app_l by lia. rewrite <- Hx. f_equal. lia.
Qed.

Lemma units_length off : length (units off) = MLKEM_N.
Proof. unfold units. by rewrite length_map, length_seq. Qed.

Lemma ntt_rows_length : length ntt_rows = MLKEM_N.
Proof. unfold ntt_rows. by rewrite length_map, length_seq. Qed.

Lemma ntt_rows_lookup i : (i < MLKEM_N)%nat -> ntt_rows !! i = Some (ntt_row i).
Proof. intros Hi. unfold ntt_rows. rewrite list_lookup_fmap, lookup_seq_lt by done. done. Qed.

(** [represents] says that the coefficients are the values of the rows. *)
Lemma represents_rows h f : length f = MLKEM_N ->
  represents h f <-> Forall2 (fun x v => x == dot v f) h ntt_rows.
Proof.
  intros Hf. unfold represents. split.
  - intros [Hh H]. apply Forall2_same_length_lookup_2; [unfold ntt_rows; by rewrite Hh, length_map, length_seq|].
    intros i x v Hx Hv. pose proof (lookup_lt_Some _ _ _ Hx) as Hi. rewrite Hh in Hi.
    rewrite ntt_rows_lookup in Hv by done. injection Hv as <-.
    apply (nth_lookup_Some _ _ 0) in Hx. rewrite <- Hx.
    unfold MLKEM_N in Hi. destruct (Nat.Even_or_Odd i) as [[k ->]|[k ->]];
      destruct (H k ltac:(lia)) as [He Ho]; destruct (ntt_row_dot k f Hf) as [Re Ro];
      [by rewrite He, Re|by rewrite Ho, Ro].
  - intros H. pose proof (Forall2_length _ _ _ H) as Hl.
    assert (Hh : length h = MLKEM_N) by (rewrite Hl; unfold ntt_rows; by rewrite length_map, length_seq).
    split; [done|]. intros i Hi. destruct (ntt_row_dot i f Hf) as [Re Ro].
    assert (HN : MLKEM_N = 256%nat) by done.
    assert (Hrow : forall j, (j < MLKEM_N)%nat -> nth j h 0 == dot (ntt_row j) f).
    { intros j Hj. destruct (lookup_lt_is_Some_2 h j) as [x Hx]; [lia|].
      rewrite (nth_lookup_Some _ _ _ _ Hx).
      exact (Forall2_lookup_lr _ _ _ _ _ _ H Hx (ntt_rows_lookup j Hj)). }
    by rewrite !Hrow, Re, Ro by lia.
Qed.

(** ** The three transforms *)

Lemma shadow_run f h os vs lo hi : length h = MLKEM_N -> length vs = MLKEM_N ->
  Forall2 (shadows f) h os -> check_rows lo hi os vs = true ->
  Forall2 (fun x v => lo <= x <= hi /\ x == dot v f) h vs.
Proof.
  intros Hh Hv H Hc. apply Forall2_same_length_lookup_2; [congruence|].
  intros i x v Hx Hw. exact (check_rows_sound f lo hi h os vs i x v Hc H Hx Hw).
Qed.

Lemma forall2_range lo hi (P : Z -> list Z -> Prop) h vs :
  Forall2 (fun x v => lo <= x <= hi /\ P x v) h vs ->
  Forall (fun x => lo <= x <= hi) h /\ Forall2 P h vs.
Proof. induction 1 as [|x v h vs [? ?] _ [? ?]]; split; constructor; done. Qed.

Lemma for_by_length {A} step bound (f : nat -> list A -> list A) r :
  (forall j r, length (f j r) = length r) -> length (for_by step bound f r) = length r.
Proof.
  intros Hf. unfold for_by. generalize (seq 0 (bound / step)). intros l.
  revert r. induction l as [|k l IH]; intros r; cbn; [done|]. by rewrite IH, Hf.
Qed.

Section Lengths.
Context {T : Type} `{!Inhabited T, !CoeffOps T}.

Ltac inserts_length := intros; cbv delta [ntt_128_64 ntt_32_16_8 ntt_4_2 ntt_4_2_add
  invntt_2_4 invntt_8_16_32 invntt_64_128] beta zeta; by rewrite !length_insert.

Lemma ntt_length (r : list T) : length (ntt r) = length r.
Proof.
  unfold ntt; cbv zeta. rewrite for_by_length by inserts_length.
  rewrite for_by_length by (intros; apply for_by_length; inserts_length).
  apply for_by_length. inserts_length.
Qed.

Lemma ntt_add_to_length (r a : list T) : length (ntt_add_to r a) = length a.
Proof. unfold ntt_add_to; cbv zeta. apply for_by_length. inserts_length. Qed.

Lemma invntt_length (r : list T) : length (invntt r) = length r.
Proof.
  unfold invntt; cbv zeta. rewrite for_by_length by inserts_length.
  rewrite for_by_length by (intros; apply for_by_length; inserts_length).
  apply for_by_length. inserts_length.
Qed.

End Lengths.

Create HintDb shadow.
#[export] Hint Resolve shadows_default shadows_add shadows_sub shadows_mont shadows_barrett : shadow.

Lemma c_ntt f r os : Forall2 (shadows f) r os -> Forall2 (shadows f) (mlkem_ntt r) (ntt os).
Proof.
  apply ntt_rel; auto with shadow.
Qed.

Lemma c_ntt_add_to f r a os os' : Forall2 (shadows f) r os -> Forall2 (shadows f) a os' ->
  Forall2 (shadows f) (mlkem_ntt_add_to r a) (ntt_add_to os os').
Proof.
  apply ntt_add_to_rel; auto with shadow.
Qed.

Lemma c_invntt f r os : Forall2 (shadows f) r os -> Forall2 (shadows f) (mlkem_invntt r) (invntt os).
Proof.
  apply invntt_rel; auto with shadow.
Qed.

Lemma ntt_correct r : within 15000 r ->
  represents (mlkem_ntt r) r /\ Forall (fun x => 0 <= x <= MLKEM_Q) (mlkem_ntt r).
Proof.
  intros [Hl Hr]. rewrite represents_rows by done. apply and_comm, forall2_range.
  apply (shadow_run r _ (ntt (shadow_input 15000 (units 0)))).
  - unfold mlkem_ntt. by rewrite ntt_length.
  - apply ntt_rows_length.
  - apply c_ntt, shadow_input_shadows; [done..|].
    pose proof (units_dot r [] [] Hl) as Hu. by rewrite app_nil_r in Hu.
  - apply ntt_checked.
Qed.

Lemma invntt_correct h f : length f = MLKEM_N -> within 4095 h -> represents h f ->
  Forall2 (fun x y => x == MONT_R * y) (mlkem_invntt h) f /\
  Forall (fun x => - 1810 <= x <= 1810) (mlkem_invntt h).
Proof.
  intros Hf [Hl Hh] Hrep. apply represents_rows in Hrep; [|done].
  assert (Hrun : Forall2 (fun x v => - 1810 <= x <= 1810 /\ x == dot v f) (mlkem_invntt h)
    (map (form_scale MONT_R) (units 0))).
  { apply (shadow_run f _ (invntt (shadow_input 4095 ntt_rows))).
    - unfold mlkem_invntt. by rewrite invntt_length.
    - by rewrite length_map, units_length.
    - apply c_invntt, shadow_input_shadows; done.
    - apply invntt_checked. }
  apply forall2_range in Hrun as [Hr Hrun]. split; [|done].
  apply Forall2_same_length_lookup_2; [unfold mlkem_invntt; rewrite invntt_length; congruence|].
  intros i x y Hx Hy. pose proof (lookup_lt_Some _ _ _ Hy) as Hi. rewrite Hf in Hi.
  assert (Hw : map (form_scale MONT_R) (units 0) !! i = Some (form_scale MONT_R (unit_form i)))
    by (rewrite list_lookup_fmap, units_lookup by done; done).
  pose proof (Forall2_lookup_lr _ _ _ _ _ _ Hrun Hx Hw) as Hxv. cbn beta in Hxv.
  rewrite Hxv, form_scale_dot, dot_unit, (nth_lookup_Some _ _ _ _ Hy). done.
Qed.

Lemma dot_zip_add v f g : length f = length g ->
  dot v (zip_with Z.add f g) = dot v f + dot v g.
Proof.
  revert f g. induction v as [|x v IH]; intros [|a f] [|b g] H; cbn in *; try done; try lia.
  rewrite IH by lia. lia.
Qed.

Lemma ntt_add_to_run r a : within MLKEM_Q r -> within 8000 a ->
  Forall2 (fun x v => 0 <= x <= MLKEM_Q /\ x == dot v (r ++ a)) (mlkem_ntt_add_to r a)
    (zip_with form_add ntt_rows (units MLKEM_N)).
Proof.
  intros [Hl Hr] [Hla Ha].
  apply (shadow_run (r ++ a) _ (ntt_add_to (shadow_input MLKEM_Q (units 0)) (shadow_input 8000 (units MLKEM_N)))).
  - unfold mlkem_ntt_add_to. by rewrite ntt_add_to_length.
  - by rewrite length_zip_with, ntt_rows_length, units_length.
  - pose proof (units_dot r [] a Hl) as H1. pose proof (units_dot a r [] Hla) as H2.
    rewrite app_nil_r, Hl in H2. apply c_ntt_add_to; by apply shadow_input_shadows.
  - apply ntt_add_to_checked.
Qed.

(** [mlkem_ntt_add_to] adds the transform of [r] to what [a] represents. *)
Lemma ntt_add_to_correct r a f : within MLKEM_Q r -> within 8000 a -> length f = MLKEM_N ->
  represents a f -> represents (mlkem_ntt_add_to r a) (zip_with Z.add r f) /\
  Forall (fun x => 0 <= x <= MLKEM_Q) (mlkem_ntt_add_to r a).
Proof.
  intros [Hl Hr] [Hla Ha] Hf Hrep.
  assert (Hzl : length (zip_with Z.add r f) = MLKEM_N) by (rewrite length_zip_with; lia).
  pose proof (ntt_add_to_run r a (conj Hl Hr) (conj Hla Ha)) as Hrun.
  apply forall2_range in Hrun as [Hb Hrun]. split; [|done].
  apply represents_rows; [done|]. apply represents_rows in Hrep; [|done].
  apply Forall2_same_length_lookup_2.
  { unfold mlkem_ntt_add_to, ntt_rows. by rewrite ntt_add_to_length, length_map, length_seq. }
  intros i x v Hx Hv. pose proof (lookup_lt_Some _ _ _ Hv) as Hi. rewrite ntt_rows_length in Hi.
  destruct (lookup_lt_is_Some_2 a i) as [y Hy]; [by rewrite Hla|].
  assert (Hw : zip_with form_add ntt_rows (units MLKEM_N) !! i = Some (form_add v (unit_form (MLKEM_N + i)))).
  { apply lookup_zip_with_Some. do 2 eexists. split_and!; [done..|by apply units_lookup]. }
  pose proof (Forall2_lookup_lr _ _ _ _ _ _ Hrun Hx Hw) as Hd. cbn beta in Hd.
  pose proof (Forall2_lookup_lr _ _ _ _ _ _ Hrep Hy Hv) as Hyv. cbn beta in Hyv.
  rewrite Hd, form_add_dot, dot_zip_add, <- Hyv by congruence.
  rewrite ntt_rows_lookup in Hv by done. injection Hv as <-.
  rewrite dot_app_r by (by rewrite ntt_row_length, Hl).
  rewrite dot_unit. erewrite nth_lookup_Some; [done|].
  rewrite lookup_app_r by lia. rewrite <- Hy. f_equal. lia.
Qed.

(** C26: [mlkem_ntt] computes the evaluation of the polynomial at the 128 factors
    X^2 - zeta^(2 BitRev_7(i) + 1) of X^256 + 1 (FIPS 203, algorithm 9), in the
    order of the standard, for coefficients up to 15000 in absolute value: no
    intermediate value leaves 16 bits, and the results lie in 0..q. *)
Theorem ntt_is_evaluation r : within 15000 r ->
  represents (mlkem_ntt r) r /\ Forall (fun x => 0 <= x <= MLKEM_Q) (mlkem_ntt r).
Proof. apply ntt_correct. Qed.

Lemma ntt_is_evaluation_witness :
  represents (mlkem_ntt (replicate 256 (-15000))) (replicate 256 (-15000)) /\
  Forall (fun x => 0 <= x <= MLKEM_Q) (mlkem_ntt (replicate 256 (-15000))).
Proof. apply ntt_is_evaluation. split; [reflexivity|]. apply Forall_replicate. lia. Defined.
