(* ===== verification/MlkemMul.v ===== *)
(** * Multiplication in the transform domain
      (src/boot/wolfcrypt/src/wc_mlkem_poly.c)

    [mlkem_basemul], [mlkem_basemul_mont], [mlkem_basemul_mont_add] and
    [mlkem_pointwise_acc_mont]; products in Z_q[X]/(X^256 + 1) and what the
    chain transform - multiply - inverse transform computes.  A vector of
    polynomials, a flat array in C, is the list of its polynomials. *)

From S2P Require Import Prelude.
From S2P Require Import MlkemReduce.
From S2P Require Import MlkemNtt.
From S2P Require Import MlkemRing.

(** The pointers [r + ro], [a + ao], [b + bo]. *)
Definition mlkem_basemul (r : list Z) (ro : nat) (a : list Z) (ao : nat) (b : list Z) (bo : nat)
    (zeta : Z) : list Z :=
  let a0 := nth (ao + 0) a 0 in
  let a1 := nth (ao + 1) a 0 in
  let b0 := nth (bo + 0) b 0 in
  let b1 := nth (bo + 1) b 0 in
  let p1 := a0 * b0 in
  let p2 := a1 * b1 in
  let r0 := MLKEM_MONT_RED p2 in
  let p2 := zeta * r0 in
  let p2 := s32 (p2 + p1) in
  let r := <[(ro + 0)%nat := MLKEM_MONT_RED p2]> r in
  let p1 := a0 * b1 in
  let p2 := a1 * b0 in
  let p1 := s32 (p1 + p2) in
  <[(ro + 1)%nat := MLKEM_MONT_RED p1]> r.

(** Eight multiplications per loop; [zeta] starts at [zetas + 64] and advances
    by 4 when [i] advances by 16. *)
Definition mlkem_basemul_mont (r a b : list Z) : list Z :=
  for_by 16 MLKEM_N (fun i r =>
    let zeta := (64 + i / 16 * 4)%nat in
    let r := mlkem_basemul r (i + 0) a (i + 0) b (i + 0) (zetas !!! (zeta + 0)%nat) in
    let r := mlkem_basemul r (i + 2) a (i + 2) b (i + 2) (- (zetas !!! (zeta + 0)%nat)) in
    let r := mlkem_basemul r (i + 4) a (i + 4) b (i + 4) (zetas !!! (zeta + 1)%nat) in
    let r := mlkem_basemul r (i + 6) a (i + 6) b (i + 6) (- (zetas !!! (zeta + 1)%nat)) in
    let r := mlkem_basemul r (i + 8) a (i + 8) b (i + 8) (zetas !!! (zeta + 2)%nat) in
    let r := mlkem_basemul r (i + 10) a (i + 10) b (i + 10) (- (zetas !!! (zeta + 2)%nat)) in
    let r := mlkem_basemul r (i + 12) a (i + 12) b (i + 12) (zetas !!! (zeta + 3)%nat) in
    mlkem_basemul r (i + 14) a (i + 14) b (i + 14) (- (zetas !!! (zeta + 3)%nat))) r.

(** [r[i] += t[k]] *)
Definition add_at (r : list Z) (i : nat) (x : Z) : list Z := <[i := s16 (nth i r 0 + x)]> r.

Definition mlkem_basemul_mont_add (r a b : list Z) : list Z :=
  for_by 16 MLKEM_N (fun i r =>
    let zeta := (64 + i / 16 * 4)%nat in
    let t := [0; 0] in
    let t0 := mlkem_basemul t 0 a (i + 0) b (i + 0) (zetas !!! (zeta + 0)%nat) in
    let t2 := mlkem_basemul t 0 a (i + 2) b (i + 2) (- (zetas !!! (zeta + 0)%nat)) in
    let t4 := mlkem_basemul t 0 a (i + 4) b (i + 4) (zetas !!! (zeta + 1)%nat) in
    let t6 := mlkem_basemul t 0 a (i + 6) b (i + 6) (- (zetas !!! (zeta + 1)%nat)) in
    let t8 := mlkem_basemul t 0 a (i + 8) b (i + 8) (zetas !!! (zeta + 2)%nat) in
    let t10 := mlkem_basemul t 0 a (i + 10) b (i + 10) (- (zetas !!! (zeta + 2)%nat)) in
    let t12 := mlkem_basemul t 0 a (i + 12) b (i + 12) (zetas !!! (zeta + 3)%nat) in
    let t14 := mlkem_basemul t 0 a (i + 14) b (i + 14) (- (zetas !!! (zeta + 3)%nat)) in
    let r := add_at r (i + 0) (nth 0 t0 0) in
    let r := add_at r (i + 1) (nth 1 t0 0) in
    let r := add_at r (i + 2) (nth 0 t2 0) in
    let r := add_at r (i + 3) (nth 1 t2 0) in
    let r := add_at r (i + 4) (nth 0 t4 0) in
    let r := add_at r (i + 5) (nth 1 t4 0) in
    let r := add_at r (i + 6) (nth 0 t6 0) in
    let r := add_at r (i + 7) (nth 1 t6 0) in
    let r := add_at r (i + 8) (nth 0 t8 0) in
    let r := add_at r (i + 9) (nth 1 t8 0) in
    let r := add_at r (i + 10) (nth 0 t10 0) in
    let r := add_at r (i + 11) (nth 1 t10 0) in
    let r := add_at r (i + 12) (nth 0 t12 0) in
    let r := add_at r (i + 13) (nth 1 t12 0) in
    let r := add_at r (i + 14) (nth 0 t14 0) in
    add_at r (i + 15) (nth 1 t14 0)) r.

(** [sword16] polynomial [i] of the vector at [a]. *)
Definition vpoly (a : list (list Z)) (i : nat) : list Z := nth i a [].

Definition mlkem_pointwise_acc_mont (r : list Z) (a b : list (list Z)) (k : nat) : list Z :=
  let r := mlkem_basemul_mont r (vpoly a 0) (vpoly b 0) in
  let r := fold_left (fun r i => mlkem_basemul_mont_add r (vpoly a i) (vpoly b i)) (seq 1 (k - 2)) r in
  mlkem_basemul_mont_add r (vpoly a (k - 1)) (vpoly b (k - 1)).

(** ** The ring Z_q[X]/(X^256 + 1) *)

(** Multiplication by X: the leading coefficient comes back negated. *)
Definition xmul (f : list Z) : list Z := - List.last f 0 :: removelast f.

Definition padd (f g : list Z) : list Z := zip_with Z.add f g.
Definition pscale (c : Z) (f : list Z) : list Z := map (Z.mul c) f.

(** Horner's rule in the ring: a_0 g + X (a_1 g + X (...)). *)
Fixpoint pmul (f g : list Z) : list Z :=
  match f with
  | [] => replicate MLKEM_N 0
  | a :: f => padd (pscale a g) (xmul (pmul f g))
  end.

Lemma removelast_length {A} (l : list A) : length (removelast l) = (length l - 1)%nat.
Proof.
  induction l as [|x [|y l] IH]; [done..|]. cbn [removelast length] in *. rewrite IH. lia.
Qed.

Lemma xmul_length f : (0 < length f)%nat -> length (xmul f) = length f.
Proof. intros H. unfold xmul. cbn. rewrite removelast_length. lia. Qed.

Lemma pmul_length f g : length g = MLKEM_N -> length (pmul f g) = MLKEM_N.
Proof.
  intros Hg. induction f as [|a f IH]; [done|]. cbn [pmul]. unfold padd, pscale.
  rewrite length_zip_with, length_map, xmul_length, IH; [lia|rewrite IH; unfold MLKEM_N; lia].
Qed.

Lemma eval2_padd g f h : length f = length h ->
  (eval2 g (padd f h)).1 = (eval2 g f).1 + (eval2 g h).1 /\
  (eval2 g (padd f h)).2 = (eval2 g f).2 + (eval2 g h).2.
Proof.
  revert h. induction f as [|a f IH]; intros [|b h] H; try done. cbn in H.
  specialize (IH h ltac:(lia)). unfold padd in *. cbn.
  destruct (eval2 g f), (eval2 g h), (eval2 g (zip_with _ f h)). cbn in *. lia.
Qed.

Lemma eval2_pscale g c f :
  (eval2 g (pscale c f)).1 = c * (eval2 g f).1 /\ (eval2 g (pscale c f)).2 = c * (eval2 g f).2.
Proof.
  unfold pscale. induction f as [|a f IH]; cbn; [lia|].
  destruct (eval2 g f), (eval2 g (map _ f)). cbn in *. lia.
Qed.

Lemma eval2_replicate0 g n : eval2 g (replicate n 0) = (0, 0).
Proof. induction n as [|n IH]; cbn; [done|]. rewrite IH. f_equal. lia. Qed.

(** Appending a coefficient of even degree 2n. *)
Lemma eval2_snoc g n f z : length f = (2 * n)%nat ->
  eval2 g (f ++ [z]) = ((eval2 g f).1 + g ^ Z.of_nat n * z, (eval2 g f).2).
Proof.
  revert f. induction n as [|n IH]; intros f Hf.
  - destruct f; [|done]. cbn. f_equal. lia.
  - destruct f as [|a [|b f]]; cbn in Hf; [lia..|]. cbn [app eval2].
    rewrite IH by lia. destruct (eval2 g f) as [e o]. cbn [fst snd].
    rewrite Nat2Z.inj_succ, Z.pow_succ_r by lia. f_equal. lia.
Qed.

Lemma eval2_xmul g f : length f = MLKEM_N -> g ^ 128 == -1 ->
  (eval2 g (xmul f)).1 == g * (eval2 g f).2 /\ (eval2 g (xmul f)).2 == (eval2 g f).1.
Proof.
  intros Hf Hg. destruct f as [|a f]; [done|]. unfold MLKEM_N in Hf. cbn in Hf.
  destruct (exists_last (l := f)) as (h & z & ->); [intros ->; cbn in Hf; lia|].
  rewrite length_app in Hf. cbn in Hf.
  unfold xmul. rewrite app_comm_cons, removelast_last, List.last_last.
  cbn [eval2 app]. rewrite (eval2_snoc g 127 h z) by lia.
  destruct (eval2 g h) as [e o]. cbn [fst snd]. split; [|done].
  transitivity (-1 * z + g * e); [apply (eqq_diff _ _ 0); lia|].
  rewrite <- Hg. change 128 with (Z.succ (Z.of_nat 127)). rewrite Z.pow_succ_r by lia.
  apply (eqq_diff _ _ 0). lia.
Qed.

(** The product of two residues modulo X^2 - g. *)
Definition mul2 (g : Z) (x y : Z * Z) : Z * Z :=
  (x.1 * y.1 + g * (x.2 * y.2), x.1 * y.2 + x.2 * y.1).

(** Reduction modulo a factor of X^256 + 1 is a ring homomorphism. *)
Lemma eval2_pmul g f h : length h = MLKEM_N -> g ^ 128 == -1 ->
  (eval2 g (pmul f h)).1 == (mul2 g (eval2 g f) (eval2 g h)).1 /\
  (eval2 g (pmul f h)).2 == (mul2 g (eval2 g f) (eval2 g h)).2.
Proof.
  intros Hh Hg. induction f as [|a f IH].
  - cbn [pmul]. rewrite eval2_replicate0. cbn. split; apply (eqq_diff _ _ 0); lia.
  - cbn [pmul]. pose proof (pmul_length f h Hh) as Hl.
    destruct (eval2_padd g (pscale a h) (xmul (pmul f h))) as [-> ->].
    { unfold pscale. rewrite length_map, xmul_length, Hl by (rewrite Hl; unfold MLKEM_N; lia). done. }
    destruct (eval2_pscale g a h) as [-> ->]. destruct (eval2_xmul g (pmul f h) Hl Hg) as [-> ->].
    destruct IH as [-> ->]. cbn [eval2]. destruct (eval2 g f) as [e o]. unfold mul2. cbn [fst snd].
    split; apply (eqq_diff _ _ 0); lia.
Qed.

(** ** What one base multiplication computes *)

Lemma nth_insert_eq (l : list Z) i j x : i = j -> (i < length l)%nat -> nth i (<[j := x]> l) 0 = x.
Proof. intros <- H. apply nth_lookup_Some, list_lookup_insert_eq, H. Qed.

Lemma nth_insert_ne (l : list Z) i j x : i <> j -> nth i (<[j := x]> l) 0 = nth i l 0.
Proof. intros H. rewrite !nth_lookup, list_lookup_insert_ne by congruence. done. Qed.

Lemma for_by_ind {A} (P : nat -> A -> Prop) step bound f (a : A) :
  P O a -> (forall k a, (k < bound / step)%nat -> P k a -> P (S k) (f (k * step)%nat a)) ->
  P (bound / step)%nat (for_by step bound f a).
Proof.
  intros H0 HS. unfold for_by. set (n := (bound / step)%nat) in *.
  assert (H : forall m a, (m <= n)%nat -> P (n - m)%nat a ->
    P n (fold_left (fun a k => f (k * step)%nat a) (seq (n - m) m) a)).
  { clear a H0. induction m as [|m IH]; intros a Hm HP; cbn; [by rewrite Nat.sub_0_r in HP|].
    replace (S (n - S m)) with (n - m)%nat by lia. apply IH; [lia|].
    replace (n - m)%nat with (S (n - S m)) by lia. apply HS; [lia|done]. }
  specialize (H n a ltac:(lia)). rewrite Nat.sub_diag in H. by apply H.
Qed.

(** The two results of [mlkem_basemul] at offset [o]. *)
Definition bm (a b : list Z) (o : nat) (zeta : Z) : Z * Z :=
  (MLKEM_MONT_RED (s32 (zeta * MLKEM_MONT_RED (nth (o + 1) a 0 * nth (o + 1) b 0)
     + nth (o + 0) a 0 * nth (o + 0) b 0)),
   MLKEM_MONT_RED (s32 (nth (o + 0) a 0 * nth (o + 1) b 0 + nth (o + 1) a 0 * nth (o + 0) b 0))).

(** Coefficient 4m + c of the product. *)
Definition bmq (a b : list Z) (m c : nat) : Z :=
  let z := zetas !!! (64 + m)%nat in
  match c with
  | 0%nat => (bm a b (4 * m) z).1
  | 1%nat => (bm a b (4 * m) z).2
  | 2%nat => (bm a b (4 * m + 2) (- z)).1
  | _ => (bm a b (4 * m + 2) (- z)).2
  end.

Lemma basemul_bm r ro a b o z :
  mlkem_basemul r ro a o b o z = <[(ro + 1)%nat := (bm a b o z).2]> (<[(ro + 0)%nat := (bm a b o z).1]> r).
Proof. reflexivity. Qed.

(** Reads through a chain of stores at computed offsets. *)
Ltac nth_inserts := repeat first
  [ rewrite nth_insert_ne by lia
  | rewrite nth_insert_eq by (rewrite ?length_insert; unfold MLKEM_N in *; lia) ].

Lemma lt4_cases c : (c < 4)%nat -> (c = 0 \/ c = 1 \/ c = 2 \/ c = 3)%nat.
Proof. lia. Qed.

(** Splits the group [m] and the coefficient [c] written by iteration [k]. *)
Ltac sixteen_cases k m c Hm Hc Hge :=
  destruct (lt4_cases (m - 4 * k) ltac:(lia)) as [Hd|[Hd|[Hd|Hd]]];
  destruct (lt4_cases c Hc) as [-> | [-> | [-> | ->]]];
  (replace m with (4 * k + (m - 4 * k))%nat by lia); rewrite Hd.

(** The same product with its offset and table index computed differently. *)
Ltac same_product :=
  cbv beta iota zeta delta [bmq];
  lazymatch goal with |- ?L = ?R =>
    lazymatch L with context [bm _ _ ?o _] => lazymatch R with context [bm _ _ ?o' _] =>
    lazymatch L with context [zetas !!! ?i] => lazymatch R with context [zetas !!! ?i'] =>
      replace o with o' by lia; replace i with i' by lia; reflexivity
    end end end end
  end.

Lemma basemul_mont_nth r a b m c : length r = MLKEM_N -> (m < 64)%nat -> (c < 4)%nat ->
  nth (4 * m + c) (mlkem_basemul_mont r a b) 0 = bmq a b m c.
Proof.
  intros Hr Hm Hc.
  pose (P := fun (k : nat) (r : list Z) => length r = MLKEM_N /\
    forall m c, (m < 4 * k)%nat -> (c < 4)%nat -> nth (4 * m + c) r 0 = bmq a b m c).
  assert (HP : P (MLKEM_N / 16)%nat (mlkem_basemul_mont r a b)); [|apply HP; [exact Hm|exact Hc]].
  unfold mlkem_basemul_mont. apply for_by_ind; [split; [done|lia]|].
  clear r Hr m c Hm Hc. intros k r Hk [Hr IH]. change (MLKEM_N / 16)%nat with 16%nat in Hk.
  cbv zeta. rewrite !basemul_bm, (Nat.div_mul k 16) by lia. split; [by rewrite !length_insert|].
  intros m c Hm Hc. destruct (decide (m < 4 * k)%nat) as [Hlt|Hge].
  - rewrite <- (IH m c Hlt Hc). repeat (rewrite nth_insert_ne by lia). done.
  - sixteen_cases k m c Hm Hc Hge; nth_inserts; same_product.
Qed.

Lemma add_at_length r i x : length (add_at r i x) = length r.
Proof. apply length_insert. Qed.

Lemma nth_add_at r i j x : (i < length r)%nat ->
  nth i (add_at r j x) 0 = if decide (i = j) then s16 (nth i r 0 + x) else nth i r 0.
Proof.
  intros Hi. unfold add_at. case_decide as H; [subst; by rewrite nth_insert_eq|by rewrite nth_insert_ne].
Qed.

Lemma nth_add_at_eq r i j x : i = j -> (i < length r)%nat -> nth i (add_at r j x) 0 = s16 (nth i r 0 + x).
Proof. intros <- H. by apply nth_insert_eq. Qed.

Lemma nth_add_at_ne r i j x : i <> j -> nth i (add_at r j x) 0 = nth i r 0.
Proof. apply nth_insert_ne. Qed.

Lemma basemul_tmp0 a o b z : nth 0 (mlkem_basemul [0; 0] 0 a o b o z) 0 = (bm a b o z).1.
Proof. reflexivity. Qed.

Lemma basemul_tmp1 a o b z : nth 1 (mlkem_basemul [0; 0] 0 a o b o z) 0 = (bm a b o z).2.
Proof. reflexivity. Qed.

Ltac nth_adds := repeat first
  [ rewrite nth_add_at_ne by lia
  | rewrite nth_add_at_eq by (rewrite ?add_at_length; unfold MLKEM_N in *; lia) ].

Lemma basemul_mont_add_nth r a b m c : length r = MLKEM_N -> (m < 64)%nat -> (c < 4)%nat ->
  nth (4 * m + c) (mlkem_basemul_mont_add r a b) 0 = s16 (nth (4 * m + c) r 0 + bmq a b m c).
Proof.
  intros Hr Hm Hc.
  pose (P := fun (k : nat) (r' : list Z) => length r' = MLKEM_N /\
    forall m c, (c < 4)%nat -> nth (4 * m + c) r' 0 =
      if decide (m < 4 * k)%nat then s16 (nth (4 * m + c) r 0 + bmq a b m c) else nth (4 * m + c) r 0).
  assert (HP : P (MLKEM_N / 16)%nat (mlkem_basemul_mont_add r a b)).
  2: { destruct HP as [_ HP]. rewrite HP by exact Hc. rewrite decide_True by exact Hm. done. }
  unfold mlkem_basemul_mont_add. apply for_by_ind.
  { split; [done|]. intros. by rewrite decide_False by lia. }
  clear m c Hm Hc. intros k r' Hk [Hr' IH]. change (MLKEM_N / 16)%nat with 16%nat in Hk.
  cbv zeta. rewrite !basemul_tmp0, !basemul_tmp1, (Nat.div_mul k 16) by lia.
  split; [by rewrite !add_at_length|].
  intros m c Hc. destruct (decide (m < 4 * k \/ 4 * S k <= m)%nat) as [Hout|Hin].
  - nth_adds. rewrite IH by done. destruct Hout.
    + by rewrite !decide_True by lia.
    + by rewrite !decide_False by lia.
  - rewrite decide_True by lia. assert (Hm : (m < 4 * S k)%nat) by lia.
    assert (Hge : (4 * k <= m)%nat) by lia.
    pose proof (IH m c Hc) as Hold. rewrite decide_False in Hold by lia. rewrite <- Hold. clear Hold IH.
    sixteen_cases k m c Hm Hc Hge; nth_adds; same_product.
Qed.

(** ** Bounds and values *)

Lemma within_nth B r i : 0 <= B -> within B r -> Z.abs (nth i r 0) <= B.
Proof.
  intros HB [_ H]. rewrite nth_lookup. destruct (r !! i) as [x|] eqn:E; cbn; [|done].
  exact (Forall_lookup_1 _ _ _ _ H E).
Qed.

Lemma within_intro B r : length r = MLKEM_N ->
  (forall m c, (m < 64)%nat -> (c < 4)%nat -> Z.abs (nth (4 * m + c) r 0) <= B) -> within B r.
Proof.
  intros Hl H. split; [done|]. apply Forall_lookup. intros i x Hx.
  pose proof (lookup_lt_Some _ _ _ Hx) as Hi. rewrite Hl in Hi. unfold MLKEM_N in Hi.
  rewrite <- (nth_lookup_Some _ _ 0 _ Hx).
  pose proof (Nat.div_mod i 4 ltac:(lia)) as Hd. pose proof (Nat.mod_upper_bound i 4 ltac:(lia)).
  rewrite Hd. apply H; lia.
Qed.

Lemma abs_mul_le x y A B : Z.abs x <= A -> Z.abs y <= B -> Z.abs (x * y) <= A * B.
Proof. intros Hx Hy. rewrite Z.abs_mul. nia. Qed.

(** The bound of a product of two reduced coefficients. *)
Definition MUL_BOUND : Z := 2002.

Lemma bm_bound a b o z : within MLKEM_Q a -> within MLKEM_Q b -> Z.abs z <= MLKEM_Q ->
  Z.abs (bm a b o z).1 <= MUL_BOUND /\ Z.abs (bm a b o z).2 <= MUL_BOUND.
Proof.
  intros Ha Hb Hz. unfold bm. cbn [fst snd].
  pose proof (fun i => within_nth MLKEM_Q a i ltac:(done) Ha) as Na.
  pose proof (fun i => within_nth MLKEM_Q b i ltac:(done) Hb) as Nb.
  assert (Hp : forall i j, Z.abs (nth i a 0 * nth j b 0) <= 3329 * 3329)
    by (intros i j; specialize (Na i); specialize (Nb j); unfold MLKEM_Q in *; rewrite Z.abs_mul; nia).
  pose proof (MONT_RED_bound _ _ (Hp (o + 1)%nat (o + 1)%nat) ltac:(done)) as Hm.
  set (m := MLKEM_MONT_RED _) in *. change (_ / _) with 1833 in Hm.
  pose proof (abs_mul_le z m _ _ Hz Hm) as Hzm. unfold MLKEM_Q in Hzm.
  pose proof (Hp (o + 0)%nat (o + 0)%nat). pose proof (Hp (o + 0)%nat (o + 1)%nat).
  pose proof (Hp (o + 1)%nat (o + 0)%nat).
  split.
  - rewrite sext_small by lia.
    etransitivity; [apply (MONT_RED_bound _ (3329 * 1833 + 3329 * 3329)); lia|done].
  - rewrite sext_small by lia.
    etransitivity; [apply (MONT_RED_bound _ (2 * (3329 * 3329))); lia|done].
Qed.

(** The residues a product is computed from. *)
Lemma bm_cong a b o z : within MLKEM_Q a -> within MLKEM_Q b -> Z.abs z <= MLKEM_Q ->
  (bm a b o z).1 == MONT_RINV * (mul2 (MONT_RINV * z) (nth o a 0, nth (o + 1) a 0) (nth o b 0, nth (o + 1) b 0)).1 /\
  (bm a b o z).2 == MONT_RINV * (mul2 (MONT_RINV * z) (nth o a 0, nth (o + 1) a 0) (nth o b 0, nth (o + 1) b 0)).2.
Proof.
  intros Ha Hb Hz. unfold bm, mul2. cbn [fst snd]. rewrite !Nat.add_0_r.
  pose proof (within_nth MLKEM_Q a o ltac:(done) Ha) as A0. pose proof (within_nth MLKEM_Q a (o + 1) ltac:(done) Ha) as A1.
  pose proof (within_nth MLKEM_Q b o ltac:(done) Hb) as B0. pose proof (within_nth MLKEM_Q b (o + 1) ltac:(done) Hb) as B1.
  unfold MLKEM_Q in A0, A1, B0, B1, Hz.
  set (a0 := nth o a 0) in *. set (a1 := nth (o + 1) a 0) in *.
  set (b0 := nth o b 0) in *. set (b1 := nth (o + 1) b 0) in *.
  pose proof (abs_mul_le a1 b1 _ _ A1 B1) as H11.
  pose proof (abs_mul_le a0 b0 _ _ A0 B0) as H00.
  pose proof (abs_mul_le a0 b1 _ _ A0 B1) as H01.
  pose proof (abs_mul_le a1 b0 _ _ A1 B0) as H10.
  pose proof (MONT_RED_bound _ _ H11 ltac:(done)) as Hm. pose proof (MONT_RED_cong (a1 * b1) ltac:(lia)) as Cm.
  set (m := MLKEM_MONT_RED (a1 * b1)) in *. change (_ / _) with 1833 in Hm.
  pose proof (abs_mul_le z m _ _ Hz Hm) as Hzm. clearbody m a0 a1 b0 b1.
  clear A0 A1 B0 B1 Hm Hz. apply Z.abs_le in H11, H00, H01, H10, Hzm.
  rewrite !(sext_small 32) by lia. rewrite !MONT_RED_cong, Cm by lia.
  split; apply (eqq_diff _ _ 0); clear; lia.
Qed.

(** The table entries of the last layer are the roots in Montgomery form. *)
Lemma zetas_roots m : (m < 64)%nat ->
  MONT_RINV * (zetas !!! (64 + m)%nat) == root (2 * m) /\
  MONT_RINV * - (zetas !!! (64 + m)%nat) == root (2 * m + 1).
Proof.
  intros Hm.
  assert (H : forallb (fun m => ((MONT_RINV * (zetas !!! (64 + m)%nat)) mod MLKEM_Q =? root (2 * m) mod MLKEM_Q) &&
    ((MONT_RINV * - (zetas !!! (64 + m)%nat)) mod MLKEM_Q =? root (2 * m + 1) mod MLKEM_Q)) (seq 0 64) = true)
    by (vm_compute; done).
  rewrite forallb_forall in H. specialize (H m ltac:(apply in_seq; lia)).
  apply andb_true_iff in H as [H1%Z.eqb_eq H2%Z.eqb_eq]. split; [exact H1|exact H2].
Qed.

Lemma mul2_cong g g' x y x' y' : g == g' -> x.1 == x'.1 -> x.2 == x'.2 -> y.1 == y'.1 -> y.2 == y'.2 ->
  (mul2 g x y).1 == (mul2 g' x' y').1 /\ (mul2 g x y).2 == (mul2 g' x' y').2.
Proof. intros H1 H2 H3 H4 H5. unfold mul2. cbn [fst snd]. by rewrite H1, H2, H3, H4, H5. Qed.

(** Coefficient 4m + c of the transform of [f]. *)
Definition coeff4 (f : list Z) (m c : nat) : Z :=
  match c with
  | 0%nat => (eval2 (root (2 * m)) f).1
  | 1%nat => (eval2 (root (2 * m)) f).2
  | 2%nat => (eval2 (root (2 * m + 1)) f).1
  | _ => (eval2 (root (2 * m + 1)) f).2
  end.

Lemma represents4 h f : represents h f <-> length h = MLKEM_N /\
  forall m c, (m < 64)%nat -> (c < 4)%nat -> nth (4 * m + c) h 0 == coeff4 f m c.
Proof.
  unfold represents. split; intros [Hl H]; (split; [done|]).
  - intros m c Hm Hc.
    destruct (H (2 * m)%nat ltac:(lia)) as [H0 H1]. destruct (H (2 * m + 1)%nat ltac:(lia)) as [H2 H3].
    destruct (lt4_cases c Hc) as [-> | [-> | [-> | ->]]]; cbn [coeff4];
      [rewrite <- H0|rewrite <- H1|rewrite <- H2|rewrite <- H3]; erewrite nth_eq; [reflexivity|lia| | | | | |];
      try reflexivity; lia.
  - intros i Hi. destruct (Nat.Even_or_Odd i) as [[k ->]|[k ->]].
    + pose proof (H k 0%nat ltac:(lia) ltac:(lia)) as H0. pose proof (H k 1%nat ltac:(lia) ltac:(lia)) as H1.
      cbn [coeff4] in H0, H1. rewrite <- H0, <- H1.
      split; erewrite nth_eq; try reflexivity; lia.
    + pose proof (H k 2%nat ltac:(lia) ltac:(lia)) as H0. pose proof (H k 3%nat ltac:(lia) ltac:(lia)) as H1.
      cbn [coeff4] in H0, H1. rewrite <- H0, <- H1.
      split; erewrite nth_eq; try reflexivity; lia.
Qed.

Lemma basemul_mont_length r a b : length (mlkem_basemul_mont r a b) = length r.
Proof. apply for_by_length. intros. cbv zeta. rewrite !basemul_bm. by rewrite !length_insert. Qed.

Lemma basemul_mont_add_length r a b : length (mlkem_basemul_mont_add r a b) = length r.
Proof. apply for_by_length. intros. cbv zeta. by rewrite !add_at_length. Qed.

Lemma zetas_abs i : Z.abs (zetas !!! i) <= MLKEM_Q /\ Z.abs (- (zetas !!! i)) <= MLKEM_Q.
Proof. pose proof (zetas_factor i) as H. unfold factor in H. lia. Qed.

Lemma bmq_bound a b m c : within MLKEM_Q a -> within MLKEM_Q b -> Z.abs (bmq a b m c) <= MUL_BOUND.
Proof.
  intros Ha Hb. destruct (zetas_abs (64 + m)) as [Z1 Z2].
  pose proof (bm_bound a b (4 * m) _ Ha Hb Z1) as [? ?].
  pose proof (bm_bound a b (4 * m + 2) _ Ha Hb Z2) as [? ?].
  unfold bmq. by destruct c as [|[|[|c]]].
Qed.

(** The coefficients multiplied are those of the ring product, over 2^16. *)
Lemma bmq_cong a b f g m c : (m < 64)%nat -> (c < 4)%nat -> length g = MLKEM_N ->
  within MLKEM_Q a -> within MLKEM_Q b -> represents a f -> represents b g ->
  bmq a b m c == MONT_RINV * coeff4 (pmul f g) m c.
Proof.
  intros Hm Hc Hg Ha Hb [_ Hf]%represents4 [_ Hg']%represents4.
  destruct (zetas_abs (64 + m)) as [Z1 Z2]. destruct (zetas_roots m Hm) as [R1 R2].
  assert (Hi : forall p, (p < 4)%nat -> nth (4 * m + p) a 0 == coeff4 f m p /\ nth (4 * m + p) b 0 == coeff4 g m p)
    by (intros; split; [apply Hf|apply Hg']; done).
  destruct (Hi 0%nat ltac:(lia)) as [A0 B0]. destruct (Hi 1%nat ltac:(lia)) as [A1 B1].
  destruct (Hi 2%nat ltac:(lia)) as [A2 B2]. destruct (Hi 3%nat ltac:(lia)) as [A3 B3].
  rewrite Nat.add_0_r in A0, B0. cbn [coeff4] in *.
  destruct (bm_cong a b (4 * m) _ Ha Hb Z1) as [C0 C1]. destruct (bm_cong a b (4 * m + 2) _ Ha Hb Z2) as [C2 C3].
  rewrite <- Nat.add_assoc in C2, C3. change (2 + 1)%nat with 3%nat in C2, C3.
  destruct (eval2_pmul (root (2 * m)) f g Hg (root_power (2 * m) ltac:(lia))) as [P0 P1].
  destruct (eval2_pmul (root (2 * m + 1)) f g Hg (root_power (2 * m + 1) ltac:(lia))) as [P2 P3].
  destruct (mul2_cong _ _ (_, _) (_, _) _ _ R1 A0 A1 B0 B1) as [M0 M1].
  destruct (mul2_cong _ _ (_, _) (_, _) _ _ R2 A2 A3 B2 B3) as [M2 M3].
  unfold bmq. cbv zeta.
  destruct (lt4_cases c Hc) as [-> | [-> | [-> | ->]]]; cbn [coeff4];
    [by rewrite C0, M0, P0|by rewrite C1, M1, P1|by rewrite C2, M2, P2|by rewrite C3, M3, P3].
Qed.

(** ** The inner product of two vectors *)

(** Sum of the products of the first [k] polynomials of two vectors. *)
Fixpoint psum (fs gs : list (list Z)) (k : nat) : list Z :=
  match k with
  | O => replicate MLKEM_N 0
  | S k => padd (psum fs gs k) (pmul (vpoly fs k) (vpoly gs k))
  end.

(** A vector of at least [k] transforms of [fs]. *)
Definition vrepresents (k : nat) (a fs : list (list Z)) : Prop :=
  forall i, (i < k)%nat ->
    represents (vpoly a i) (vpoly fs i) /\ within MLKEM_Q (vpoly a i) /\ length (vpoly fs i) = MLKEM_N.

Lemma psum_length fs gs k : (forall i, (i < k)%nat -> length (vpoly gs i) = MLKEM_N) ->
  length (psum fs gs k) = MLKEM_N.
Proof.
  intros H. induction k as [|k IH]; [done|]. cbn [psum]. unfold padd.
  rewrite length_zip_with, pmul_length, IH by auto with lia. done.
Qed.

Lemma coeff4_padd f g m c : length f = length g ->
  coeff4 (padd f g) m c = coeff4 f m c + coeff4 g m c.
Proof.
  intros H. pose proof (eval2_padd (root (2 * m)) f g H). pose proof (eval2_padd (root (2 * m + 1)) f g H).
  unfold coeff4. destruct_and!. by destruct c as [|[|[|c]]].
Qed.

Lemma coeff4_pscale x f m c : coeff4 (pscale x f) m c = x * coeff4 f m c.
Proof.
  pose proof (eval2_pscale (root (2 * m)) x f). pose proof (eval2_pscale (root (2 * m + 1)) x f).
  unfold coeff4. destruct_and!. by destruct c as [|[|[|c]]].
Qed.

Lemma coeff4_zeros n m c : coeff4 (replicate n 0) m c = 0.
Proof. unfold coeff4. rewrite !eval2_replicate0. by destruct c as [|[|[|c]]]. Qed.

(** The accumulator after [n] products: their sum, and its bound. *)
Definition accumulated (fs gs : list (list Z)) (n : nat) (r : list Z) : Prop :=
  length r = MLKEM_N /\ forall m c, (m < 64)%nat -> (c < 4)%nat ->
    nth (4 * m + c) r 0 == MONT_RINV * coeff4 (psum fs gs n) m c /\
    Z.abs (nth (4 * m + c) r 0) <= Z.of_nat n * MUL_BOUND.

Section Accumulate.
Variables (k : nat) (a b fs gs : list (list Z)).
Hypothesis k_bound : Z.of_nat k * MUL_BOUND <= 32767.
Hypothesis a_fs : vrepresents k a fs.
Hypothesis b_gs : vrepresents k b gs.

Lemma accumulated_first r : (0 < k)%nat -> length r = MLKEM_N ->
  accumulated fs gs 1 (mlkem_basemul_mont r (vpoly a 0) (vpoly b 0)).
Proof.
  intros Hk Hr. split; [by rewrite basemul_mont_length|]. intros m c Hm Hc.
  destruct (a_fs 0%nat Hk) as (Ra & Wa & La), (b_gs 0%nat Hk) as (Rb & Wb & Lb).
  rewrite basemul_mont_nth by done. split; [|pose proof (bmq_bound _ _ m c Wa Wb); lia].
  rewrite (bmq_cong _ _ _ _ m c Hm Hc Lb Wa Wb Ra Rb). cbn [psum].
  rewrite coeff4_padd, coeff4_zeros by (by rewrite pmul_length). done.
Qed.

Lemma accumulated_next n r : (n < k)%nat -> accumulated fs gs n r ->
  accumulated fs gs (S n) (mlkem_basemul_mont_add r (vpoly a n) (vpoly b n)).
Proof.
  intros Hn [Hr IH]. split; [by rewrite basemul_mont_add_length|]. intros m c Hm Hc.
  destruct (a_fs n Hn) as (Ra & Wa & La), (b_gs n Hn) as (Rb & Wb & Lb).
  destruct (IH m c Hm Hc) as [Hc1 Hb1]. pose proof (bmq_bound _ _ m c Wa Wb) as Hb2.
  assert (Hs : Z.of_nat (S n) * MUL_BOUND <= 32767) by (unfold MUL_BOUND in *; lia).
  rewrite basemul_mont_add_nth by done. rewrite sext_small by lia. split; [|lia].
  rewrite Hc1, (bmq_cong _ _ _ _ m c Hm Hc Lb Wa Wb Ra Rb). cbn [psum].
  rewrite coeff4_padd; [apply (eqq_diff _ _ 0); lia|].
  rewrite pmul_length, psum_length; [done|intros i Hi; apply b_gs; lia|done].
Qed.

Lemma accumulated_loop n r : (1 + n <= k)%nat -> accumulated fs gs 1 r ->
  accumulated fs gs (1 + n)
    (fold_left (fun r i => mlkem_basemul_mont_add r (vpoly a i) (vpoly b i)) (seq 1 n) r).
Proof.
  intros Hn Hr. induction n as [|n IH]; [done|].
  rewrite seq_S, fold_left_app. cbn [fold_left]. apply (accumulated_next (1 + n)); [lia|].
  apply IH. lia.
Qed.

(** [k] is at least 2: the first and the last product are outside the loop. *)
Lemma pointwise_acc_mont_correct r : (2 <= k)%nat -> length r = MLKEM_N ->
  accumulated fs gs k (mlkem_pointwise_acc_mont r a b k).
Proof.
  intros Hk Hr. unfold mlkem_pointwise_acc_mont. cbv zeta.
  replace k with (S (k - 1)) at 1 by lia. apply accumulated_next; [lia|].
  replace (k - 1)%nat with (1 + (k - 2))%nat at 1 by lia. apply accumulated_loop; [lia|].
  apply accumulated_first; [lia|done].
Qed.

End Accumulate.

Lemma accumulated_represents fs gs n r : accumulated fs gs n r ->
  represents r (pscale MONT_RINV (psum fs gs n)) /\ within (Z.of_nat n * MUL_BOUND) r.
Proof.
  intros [Hr H]. split.
  - apply represents4. split; [done|]. intros m c Hm Hc. rewrite coeff4_pscale. by apply H.
  - apply within_intro; [done|]. intros m c Hm Hc. by apply H.
Qed.

(** ** Products in the ring through the transform *)

(** Every coefficient of every polynomial of the vector is within the bound. *)
Definition vwithin (B : Z) (k : nat) (fs : list (list Z)) : Prop :=
  forall i, (i < k)%nat -> within B (vpoly fs i).

Lemma vpoly_map (f : list Z -> list Z) fs i : (i < length fs)%nat -> vpoly (map f fs) i = f (vpoly fs i).
Proof.
  intros H. unfold vpoly. rewrite (nth_indep _ [] (f [])) by (by rewrite length_map). apply map_nth.
Qed.

Lemma within_range B lo hi r : length r = MLKEM_N -> - B <= lo -> hi <= B ->
  Forall (fun x => lo <= x <= hi) r -> within B r.
Proof. intros Hl H1 H2 H. split; [done|]. eapply Forall_impl; [exact H|]. intros x Hx. cbn in Hx. lia. Qed.

Lemma ntt_vrepresents k fs : (k <= length fs)%nat -> vwithin 15000 k fs ->
  vrepresents k (map mlkem_ntt fs) fs.
Proof.
  intros Hk Hw i Hi. rewrite vpoly_map by lia. destruct (ntt_correct _ (Hw i Hi)) as [Hr Hb].
  split_and!; [done| |apply Hw, Hi].
  apply (within_range MLKEM_Q 0 MLKEM_Q); [apply Hr|done..].
Qed.

(** The inverse transform of an inner product with [k] = 2 (ML-KEM-512). *)
Lemma invntt_pointwise a b fs gs r : length r = MLKEM_N ->
  vrepresents 2 a fs -> vrepresents 2 b gs ->
  Forall2 eqq (mlkem_invntt (mlkem_pointwise_acc_mont r a b 2)) (psum fs gs 2) /\
  Forall (fun x => - 1810 <= x <= 1810) (mlkem_invntt (mlkem_pointwise_acc_mont r a b 2)).
Proof.
  intros Hr Ha Hb.
  pose proof (pointwise_acc_mont_correct 2 a b fs gs ltac:(done) Ha Hb r ltac:(lia) Hr) as Hacc.
  destruct (accumulated_represents _ _ _ _ Hacc) as [Hrep [Hl Hw]].
  assert (Hps : length (psum fs gs 2) = MLKEM_N) by (apply psum_length; intros i Hi; apply Hb, Hi).
  destruct (invntt_correct (mlkem_pointwise_acc_mont r a b 2) (pscale MONT_RINV (psum fs gs 2))) as [Hc Hbd]; [| |exact Hrep|].
  - unfold pscale. by rewrite length_map.
  - split; [done|]. eapply Forall_impl; [exact Hw|]. intros x Hx. cbn in Hx. unfold MUL_BOUND in Hx. lia.
  - split; [|done]. unfold pscale in Hc.
    apply (proj1 (Forall2_fmap_r (Z.mul MONT_RINV) (fun x y => x == MONT_R * y) _ _)) in Hc.
    eapply Forall2_impl; [exact Hc|]. intros x y Hxy. cbn in Hxy. rewrite Hxy, Z.mul_assoc.
    change (MONT_R * MONT_RINV) with (1 + 116 * MLKEM_Q). apply (eqq_diff _ _ (116 * y)). lia.
Qed.

(** C10: transforming the polynomials of two vectors of length 2 (ML-KEM-512)
    with coefficients of absolute value at most 15000, multiplying and
    accumulating them in the transform domain and transforming back gives
    coefficients congruent modulo q to those of the inner product in
    Z_q[X]/(X^256 + 1), each between -1810 and 1810.  The length matters: for
    length 4 the same composition is wrong on some reduced inputs
    ([inverse_transform_overflows_k4]); nothing is said here of length 3. *)
Theorem ring_product_through_transform fs gs r :
  length r = MLKEM_N -> length fs = 2%nat -> length gs = 2%nat ->
  vwithin 15000 2 fs -> vwithin 15000 2 gs ->
  let p := mlkem_invntt (mlkem_pointwise_acc_mont r (map mlkem_ntt fs) (map mlkem_ntt gs) 2) in
  Forall2 eqq p (psum fs gs 2) /\ Forall (fun x => - 1810 <= x <= 1810) p.
Proof.
  intros Hr Hf Hg Wf Wg. apply invntt_pointwise; [done|..]; apply ntt_vrepresents; try done; lia.
Qed.

Definition ones_poly (c : Z) : list Z := replicate MLKEM_N c.

Lemma ring_product_through_transform_witness :
  Forall2 eqq (mlkem_invntt (mlkem_pointwise_acc_mont (ones_poly 0)
    (map mlkem_ntt [ones_poly 1; ones_poly 15000]) (map mlkem_ntt [ones_poly (-15000); ones_poly 3]) 2))
    (psum [ones_poly 1; ones_poly 15000] [ones_poly (-15000); ones_poly 3] 2).
Proof.
  apply (ring_product_through_transform [ones_poly 1; ones_poly 15000]
    [ones_poly (-15000); ones_poly 3] (ones_poly 0)); try reflexivity.
  - intros i Hi. destruct i as [|[|i]]; [| |lia]; (split; [reflexivity|]); apply Forall_replicate; lia.
  - intros i Hi. destruct i as [|[|i]]; [| |lia]; (split; [reflexivity|]); apply Forall_replicate; lia.
Defined.

(** ** The bound is tight in the dimension *)

(** C31: with vectors of length 4 (ML-KEM-1024) the sums of the first three
    layers of [mlkem_invntt] do not fit in 16 bits for some products of reduced
    coefficients: the inverse transform of the accumulator is then not congruent
    to the inverse transform of the same accumulator with its coefficients
    reduced modulo q. *)
Theorem inverse_transform_overflows_k4 :
  exists a b, vwithin MLKEM_Q 4 a /\ vwithin MLKEM_Q 4 b /\
    let h := mlkem_pointwise_acc_mont (ones_poly 0) a b 4 in
    Forall2 eqq h (map MLKEM_BARRETT_RED h) /\
    ~ Forall2 eqq (mlkem_invntt h) (mlkem_invntt (map MLKEM_BARRETT_RED h)).
Proof.
  exists (replicate 4 (ones_poly 1)), (replicate 4 (ones_poly 54)).
  assert (Hw : forall c, Z.abs c <= MLKEM_Q -> vwithin MLKEM_Q 4 (replicate 4 (ones_poly c))).
  { intros c Hc i Hi. unfold vpoly. rewrite (nth_lookup_Some _ _ _ (ones_poly c)) by (by apply lookup_replicate_2).
    split; [reflexivity|]. by apply Forall_replicate. }
  split_and!; [by apply Hw..|]. cbv zeta.
  split; apply (bool_decide_unpack _); vm_compute; exact I.
Qed.
