(* ===== verification/MlkemCodec.v ===== *)
(** * Encoding of polynomials (src/boot/wolfcrypt/src/wc_mlkem_poly.c)

    12-bit packing of keys, compression to 10 and 4 bits with packing for
    ciphertexts, and messages as polynomials.  [WORD64_AVAILABLE] is defined, so
    compression multiplies by a 54-bit reciprocal instead of dividing. *)

From S2P Require Import Prelude.
From S2P Require Import MlkemReduce.
From S2P Require Import MlkemRing.

Definition MLKEM_Q_1_HALF : Z := (MLKEM_Q + 1) / 2.
Definition MLKEM_Q_HALF : Z := MLKEM_Q / 2.
Definition MLKEM_V54 : Z := 0x4ebedda02ec.
Definition MLKEM_V54_HALF : Z := 0x200275f6ed00ec.
Definition MLKEM_V28 : Z := (Z.shiftl 1 28 + MLKEM_Q_HALF) / MLKEM_Q.
Definition MLKEM_V28_HALF : Z := u32 (MLKEM_V28 * (MLKEM_Q_HALF + 1)).
Definition MLKEM_V31 : Z := (Z.shiftl 1 31 + MLKEM_Q / 2) / MLKEM_Q.
Definition MLKEM_V31_2 : Z := u32 (MLKEM_V31 * 2).
Definition MLKEM_V31_HALF : Z := u32 (MLKEM_V31 * MLKEM_Q_HALF).
Definition WC_ML_KEM_POLY_SIZE : nat := 384.

(** A loop that writes a group of values per iteration, one after the other:
    [for (j = 0; j < bound; j += step)] with an output pointer moving along. *)
Definition emit {A} (step bound : nat) (f : nat -> list A) : list A :=
  concat (map (fun k => f (k * step)%nat) (seq 0 (bound / step))).

(** ** Ciphertext compression *)

(** [TO_COMP_WORD_10]: 64-bit arithmetic. *)
Definition TO_COMP_WORD_10 (x : Z) : Z :=
  Z.shiftr (u64 (u64 (u64 (Z.shiftl MLKEM_V54 10) * u64 x) + MLKEM_V54_HALF)) 54.

Definition pack_10 (t0 t1 t2 t3 : Z) : list Z :=
  [u8 (Z.shiftr t0 0);
   u8 (Z.lor (Z.shiftr t0 8) (Z.shiftl t1 2));
   u8 (Z.lor (Z.shiftr t1 6) (Z.shiftl t2 4));
   u8 (Z.lor (Z.shiftr t2 4) (Z.shiftl t3 6));
   u8 (Z.shiftr t3 2)].

Definition mlkem_vec_compress_10_c (v : list (list Z)) (k : nat) : list Z :=
  let v := map mlkem_csubq_c (take k v) in
  concat (map (fun p =>
    emit 4 MLKEM_N (fun j =>
      let t0 := s16 (TO_COMP_WORD_10 (nth (j + 0) p 0)) in
      let t1 := s16 (TO_COMP_WORD_10 (nth (j + 1) p 0)) in
      let t2 := s16 (TO_COMP_WORD_10 (nth (j + 2) p 0)) in
      let t3 := s16 (TO_COMP_WORD_10 (nth (j + 3) p 0)) in
      pack_10 t0 t1 t2 t3)) v).

Definition mlkem_vec_compress_10 : list (list Z) -> nat -> list Z := mlkem_vec_compress_10_c.

(** [DECOMP_10]: the value stored. *)
Definition DECOMP_10 (t : Z) : Z :=
  s16 (u16 (Z.shiftr (u32 (u32 (Z.land t 0x3ff * MLKEM_Q) + 512)) 10)).

Definition mlkem_vec_decompress_10_c (b : list Z) (k : nat) : list (list Z) :=
  map (fun i =>
    emit 1 (MLKEM_N / 4) (fun j =>
      let b := drop (i * 320 + j * 5) b in
      let t0 := s16 (Z.lor (Z.shiftr (nth 0 b 0) 0) (Z.shiftl (nth 1 b 0) 8)) in
      let t1 := s16 (Z.lor (Z.shiftr (nth 1 b 0) 2) (Z.shiftl (nth 2 b 0) 6)) in
      let t2 := s16 (Z.lor (Z.shiftr (nth 2 b 0) 4) (Z.shiftl (nth 3 b 0) 4)) in
      let t3 := s16 (Z.lor (Z.shiftr (nth 3 b 0) 6) (Z.shiftl (nth 4 b 0) 2)) in
      [DECOMP_10 t0; DECOMP_10 t1; DECOMP_10 t2; DECOMP_10 t3])) (seq 0 k).

Definition mlkem_vec_decompress_10 : list Z -> nat -> list (list Z) := mlkem_vec_decompress_10_c.

Definition TO_COMP_WORD_4 (x : Z) : Z :=
  Z.shiftr (u32 (u32 (u32 (Z.shiftl MLKEM_V28 4) * u32 x) + MLKEM_V28_HALF)) 28.

Definition mlkem_compress_4_c (p : list Z) : list Z :=
  let p := mlkem_csubq_c p in
  emit 8 MLKEM_N (fun i =>
    let t j := u8 (TO_COMP_WORD_4 (nth (i + j) p 0)) in
    [u8 (Z.lor (t 0%nat) (Z.shiftl (t 1%nat) 4));
     u8 (Z.lor (t 2%nat) (Z.shiftl (t 3%nat) 4));
     u8 (Z.lor (t 4%nat) (Z.shiftl (t 5%nat) 4));
     u8 (Z.lor (t 6%nat) (Z.shiftl (t 7%nat) 4))]).

Definition mlkem_compress_4 : list Z -> list Z := mlkem_compress_4_c.

Definition DECOMP_4 (t : Z) : Z := s16 (Z.shiftr (u16 (t * MLKEM_Q) + 8) 4).

Definition mlkem_decompress_4_c (b : list Z) : list Z :=
  emit 2 MLKEM_N (fun i =>
    let b := drop (i / 2) b in
    [DECOMP_4 (Z.land (nth 0 b 0) 0xf); DECOMP_4 (Z.shiftr (nth 0 b 0) 4)]).

Definition mlkem_decompress_4 : list Z -> list Z := mlkem_decompress_4_c.

(** *** ML-KEM-1024: 11 and 5 bits *)

Definition MLKEM_V53 : Z := 0x275f6ed0176.
Definition MLKEM_V53_HALF : Z := 0x10013afb768076.
Definition MLKEM_V27 : Z := (Z.shiftl 1 27 + MLKEM_Q_HALF) / MLKEM_Q.
Definition MLKEM_V27_HALF : Z := u32 (MLKEM_V27 * MLKEM_Q_HALF).

Definition TO_COMP_WORD_11 (x : Z) : Z :=
  Z.shiftr (u64 (u64 (u64 (Z.shiftl MLKEM_V53 11) * u64 x) + MLKEM_V53_HALF)) 53.

(** Eight 11-bit values in eleven bytes. *)
Definition pack_11 (t0 t1 t2 t3 t4 t5 t6 t7 : Z) : list Z :=
  [u8 (Z.shiftr t0 0);
   u8 (Z.lor (Z.shiftr t0 8) (Z.shiftl t1 3));
   u8 (Z.lor (Z.shiftr t1 5) (Z.shiftl t2 6));
   u8 (Z.shiftr t2 2);
   u8 (Z.lor (Z.shiftr t2 10) (Z.shiftl t3 1));
   u8 (Z.lor (Z.shiftr t3 7) (Z.shiftl t4 4));
   u8 (Z.lor (Z.shiftr t4 4) (Z.shiftl t5 7));
   u8 (Z.shiftr t5 1);
   u8 (Z.lor (Z.shiftr t5 9) (Z.shiftl t6 2));
   u8 (Z.lor (Z.shiftr t6 6) (Z.shiftl t7 5));
   u8 (Z.shiftr t7 3)].

Definition mlkem_vec_compress_11_c (v : list (list Z)) : list Z :=
  let v := map mlkem_csubq_c (take 4 v) in
  concat (map (fun p =>
    emit 8 MLKEM_N (fun j =>
      let t k := s16 (TO_COMP_WORD_11 (nth (j + k) p 0)) in
      pack_11 (t 0%nat) (t 1%nat) (t 2%nat) (t 3%nat) (t 4%nat) (t 5%nat) (t 6%nat) (t 7%nat))) v).

Definition mlkem_vec_compress_11 : list (list Z) -> list Z := mlkem_vec_compress_11_c.

Definition DECOMP_11 (t : Z) : Z :=
  s16 (u16 (Z.shiftr (u32 (u32 (Z.land t 0x7ff * MLKEM_Q) + 1024)) 11)).

Definition unpack_11 (b : list Z) : list Z :=
  let b i := nth i b 0 in
  [s16 (Z.lor (Z.shiftr (b 0%nat) 0) (Z.shiftl (b 1%nat) 8));
   s16 (Z.lor (Z.shiftr (b 1%nat) 3) (Z.shiftl (b 2%nat) 5));
   s16 (Z.lor (Z.lor (Z.shiftr (b 2%nat) 6) (Z.shiftl (b 3%nat) 2)) (Z.shiftl (b 4%nat) 10));
   s16 (Z.lor (Z.shiftr (b 4%nat) 1) (Z.shiftl (b 5%nat) 7));
   s16 (Z.lor (Z.shiftr (b 5%nat) 4) (Z.shiftl (b 6%nat) 4));
   s16 (Z.lor (Z.lor (Z.shiftr (b 6%nat) 7) (Z.shiftl (b 7%nat) 1)) (Z.shiftl (b 8%nat) 9));
   s16 (Z.lor (Z.shiftr (b 8%nat) 2) (Z.shiftl (b 9%nat) 6));
   s16 (Z.lor (Z.shiftr (b 9%nat) 5) (Z.shiftl (b 10%nat) 3))].

Definition mlkem_vec_decompress_11_c (b : list Z) : list (list Z) :=
  map (fun i =>
    emit 1 (MLKEM_N / 8) (fun j => map DECOMP_11 (unpack_11 (drop (i * 352 + j * 11) b)))) (seq 0 4).

Definition mlkem_vec_decompress_11 : list Z -> list (list Z) := mlkem_vec_decompress_11_c.

Definition TO_COMP_WORD_5 (x : Z) : Z :=
  Z.shiftr (u32 (u32 (u32 (Z.shiftl MLKEM_V27 5) * u32 x) + MLKEM_V27_HALF)) 27.

Definition mlkem_compress_5_c (p : list Z) : list Z :=
  let p := mlkem_csubq_c p in
  emit 8 MLKEM_N (fun i =>
    let t j := u8 (TO_COMP_WORD_5 (nth (i + j) p 0)) in
    [u8 (Z.lor (Z.shiftr (t 0%nat) 0) (Z.shiftl (t 1%nat) 5));
     u8 (Z.lor (Z.lor (Z.shiftr (t 1%nat) 3) (Z.shiftl (t 2%nat) 2)) (Z.shiftl (t 3%nat) 7));
     u8 (Z.lor (Z.shiftr (t 3%nat) 1) (Z.shiftl (t 4%nat) 4));
     u8 (Z.lor (Z.lor (Z.shiftr (t 4%nat) 4) (Z.shiftl (t 5%nat) 1)) (Z.shiftl (t 6%nat) 6));
     u8 (Z.lor (Z.shiftr (t 6%nat) 2) (Z.shiftl (t 7%nat) 3))]).

Definition mlkem_compress_5 : list Z -> list Z := mlkem_compress_5_c.

Definition DECOMP_5 (t : Z) : Z := s16 (Z.shiftr (u32 (u32 (Z.land t 0x1f * MLKEM_Q) + 16)) 5).

Definition mlkem_decompress_5_c (b : list Z) : list Z :=
  emit 8 MLKEM_N (fun i =>
    let b k := nth (i / 8 * 5 + k) b 0 in
    map DECOMP_5
      [u8 (Z.shiftr (b 0%nat) 0);
       u8 (Z.lor (Z.shiftr (b 0%nat) 5) (Z.shiftl (b 1%nat) 3));
       u8 (Z.shiftr (b 1%nat) 2);
       u8 (Z.lor (Z.shiftr (b 1%nat) 7) (Z.shiftl (b 2%nat) 1));
       u8 (Z.lor (Z.shiftr (b 2%nat) 4) (Z.shiftl (b 3%nat) 4));
       u8 (Z.shiftr (b 3%nat) 1);
       u8 (Z.lor (Z.shiftr (b 3%nat) 6) (Z.shiftl (b 4%nat) 2));
       u8 (Z.shiftr (b 4%nat) 3)]).

Definition mlkem_decompress_5 : list Z -> list Z := mlkem_decompress_5_c.

(** ** Messages *)

(** [FROM_MSG_BIT]; [mlkem_opt_blocker] holds 0. *)
Definition FROM_MSG_BIT (x : Z) (j : Z) : Z :=
  let mlkem_opt_blocker := 0 in
  s16 (Z.land (Z.lxor (0 - s16 (Z.land (Z.shiftr x j) 1)) mlkem_opt_blocker) MLKEM_Q_1_HALF).

Definition mlkem_from_msg_c (msg : list Z) : list Z :=
  emit 1 (MLKEM_N / 8) (fun i =>
    [FROM_MSG_BIT (nth i msg 0) 0; FROM_MSG_BIT (nth i msg 0) 1;
     FROM_MSG_BIT (nth i msg 0) 2; FROM_MSG_BIT (nth i msg 0) 3;
     FROM_MSG_BIT (nth i msg 0) 4; FROM_MSG_BIT (nth i msg 0) 5;
     FROM_MSG_BIT (nth i msg 0) 6; FROM_MSG_BIT (nth i msg 0) 7]).

Definition mlkem_from_msg : list Z -> list Z := mlkem_from_msg_c.

(** [TO_MSG_BIT]: ORs bit [j] into the byte built so far. *)
Definition TO_MSG_BIT (acc : Z) (x : Z) (j : Z) : Z :=
  u8 (Z.lor acc (Z.shiftl (Z.shiftr (u32 (u32 (MLKEM_V31_2 * u32 x) + MLKEM_V31_HALF)) 31) j)).

Definition mlkem_to_msg_c (p : list Z) : list Z :=
  let p := mlkem_csubq_c p in
  emit 1 (MLKEM_N / 8) (fun i =>
    let m := 0 in
    let m := TO_MSG_BIT m (nth (8 * i + 0) p 0) 0 in
    let m := TO_MSG_BIT m (nth (8 * i + 1) p 0) 1 in
    let m := TO_MSG_BIT m (nth (8 * i + 2) p 0) 2 in
    let m := TO_MSG_BIT m (nth (8 * i + 3) p 0) 3 in
    let m := TO_MSG_BIT m (nth (8 * i + 4) p 0) 4 in
    let m := TO_MSG_BIT m (nth (8 * i + 5) p 0) 5 in
    let m := TO_MSG_BIT m (nth (8 * i + 6) p 0) 6 in
    let m := TO_MSG_BIT m (nth (8 * i + 7) p 0) 7 in
    [m]).

Definition mlkem_to_msg : list Z -> list Z := mlkem_to_msg_c.

(** ** Keys: 12 bits per coefficient *)

Definition mlkem_from_bytes_c (b : list Z) (k : nat) : list (list Z) :=
  map (fun j =>
    let b := drop (j * WC_ML_KEM_POLY_SIZE) b in
    emit 1 (MLKEM_N / 2) (fun i =>
      [s16 (Z.land (Z.lor (Z.shiftr (nth (3 * i + 0) b 0) 0) (Z.shiftl (nth (3 * i + 1) b 0) 8)) 0xfff);
       s16 (Z.land (Z.lor (Z.shiftr (nth (3 * i + 1) b 0) 4) (Z.shiftl (nth (3 * i + 2) b 0) 4)) 0xfff)]))
    (seq 0 k).

Definition mlkem_from_bytes : list Z -> nat -> list (list Z) := mlkem_from_bytes_c.

(** The bytes, and the polynomials, which are reduced in place. *)
Definition mlkem_to_bytes_c (p : list (list Z)) (k : nat) : list Z * list (list Z) :=
  let p' := map mlkem_csubq_c (take k p) in
  (concat (map (fun p =>
     emit 1 (MLKEM_N / 2) (fun i =>
       let t0 := u16 (nth (2 * i) p 0) in
       let t1 := u16 (nth (2 * i + 1) p 0) in
       [u8 (Z.shiftr t0 0);
        u8 (Z.lor (Z.shiftr t0 8) (Z.shiftl t1 4));
        u8 (Z.shiftr t1 4)])) p'),
   p' ++ drop k p).

Definition mlkem_to_bytes : list (list Z) -> nat -> list Z * list (list Z) := mlkem_to_bytes_c.

(** ** Loops that emit groups *)

Lemma nth_concat_uniform {A} (d : A) g (ls : list (list A)) k c :
  Forall (fun l => length l = g) ls -> (c < g)%nat ->
  nth (k * g + c) (concat ls) d = nth c (nth k ls []) d.
Proof.
  intros H Hc. revert k. induction H as [|l ls Hl _ IH]; intros k.
  { cbn [concat]. rewrite nth_overflow by (cbn; lia). by destruct k, c. }
  cbn [concat]. destruct k as [|k].
  - rewrite app_nth1 by lia. done.
  - rewrite app_nth2 by lia. cbn [nth]. rewrite <- IH. f_equal. lia.
Qed.

Lemma length_concat_uniform {A} g (ls : list (list A)) :
  Forall (fun l => length l = g) ls -> length (concat ls) = (length ls * g)%nat.
Proof. induction 1 as [|l ls Hl _ IH]; cbn; [done|]. rewrite length_app. lia. Qed.

Section Emit.
Context {A : Type} (g step bound : nat) (f : nat -> list A).
Hypothesis group : forall k, (k < bound / step)%nat -> length (f (k * step)%nat) = g.

Lemma emit_groups : Forall (fun l => length l = g) (map (fun k => f (k * step)%nat) (seq 0 (bound / step))).
Proof.
  apply Forall_fmap, Forall_forall. intros k Hk. apply elem_of_seq in Hk. apply group. lia.
Qed.

Lemma emit_length : length (emit step bound f) = (bound / step * g)%nat.
Proof. unfold emit. rewrite (length_concat_uniform g) by apply emit_groups. by rewrite length_map, length_seq. Qed.

Lemma nth_emit d k c : (k < bound / step)%nat -> (c < g)%nat ->
  nth (k * g + c) (emit step bound f) d = nth c (f (k * step)%nat) d.
Proof.
  intros Hk Hc. unfold emit. rewrite nth_concat_uniform by (apply emit_groups || done).
  f_equal. rewrite (nth_indep _ [] (f (0 * step)%nat)) by (by rewrite length_map, length_seq).
  rewrite (map_nth (fun k => f (k * step)%nat)), seq_nth by done. done.
Qed.

End Emit.

Lemma emit_ext {A} s b s' b' (f f' : nat -> list A) : (b / s = b' / s')%nat ->
  (forall k, (k < b / s)%nat -> f (k * s)%nat = f' (k * s')%nat) -> emit s b f = emit s' b' f'.
Proof.
  intros Hn Hf. unfold emit. rewrite <- Hn. f_equal. apply map_ext_in.
  intros k Hk. apply in_seq in Hk. apply Hf. lia.
Qed.

(** A list is the concatenation of its groups. *)
Lemma emit_chunks {A} (d : A) g n (l : list A) : length l = (n * g)%nat -> g <> 0%nat ->
  l = emit g (n * g) (fun j => map (fun c => nth (j + c) l d) (seq 0 g)).
Proof.
  intros Hl Hg. assert (Hd : (n * g / g = n)%nat) by (by apply Nat.div_mul).
  apply (nth_ext _ _ d d).
  - rewrite (emit_length g) by (intros; by rewrite length_map, length_seq). by rewrite Hd.
  - intros i Hi. rewrite Hl in Hi.
    pose proof (Nat.div_mod i g Hg) as Hdm. pose proof (Nat.mod_upper_bound i g Hg) as Hm.
    assert (Hk : (i / g < n)%nat) by (apply Nat.Div0.div_lt_upper_bound; lia).
    replace i with (i / g * g + i mod g)%nat by lia.
    rewrite (nth_emit g) by (rewrite ?Hd; intros; rewrite ?length_map, ?length_seq; done).
    rewrite (nth_indep (map (fun c => nth (i / g * g + c) l d) (seq 0 g)) d (nth (i / g * g + 0) l d))
      by (by rewrite length_map, length_seq).
    rewrite (map_nth (fun c => nth (i / g * g + c) l d)), seq_nth by done. done.
Qed.

Lemma emit_map {A B} (h : A -> B) s b (f : nat -> list A) :
  map h (emit s b f) = emit s b (fun j => map h (f j)).
Proof. unfold emit. rewrite concat_map, map_map. done. Qed.

(** ** Rounding *)

Lemma TO_COMP_WORD_10_eq x : 0 <= x < MLKEM_Q ->
  TO_COMP_WORD_10 x = (1024 * x + 1664) / MLKEM_Q mod 1024.
Proof.
  intros Hx. unfold TO_COMP_WORD_10, MLKEM_Q in *.
  rewrite (wrap_small 64 x) by (unfold in_word; lia).
  change (u64 (Z.shiftl MLKEM_V54 10)) with 5541226816974848.
  change MLKEM_V54_HALF with 9009904931897580.
  rewrite wrap_add_l, Z.shiftr_div_pow2 by lia. unfold wrap. lia_mod.
Qed.

Lemma DECOMP_10_eq t : 0 <= t < 1024 -> DECOMP_10 t = (t * MLKEM_Q + 512) / 1024.
Proof.
  intros Ht. unfold DECOMP_10. change 0x3ff with (Z.ones 10).
  rewrite <- (wrap_land_ones 10 t), (wrap_small 10 t) by (unfold in_word; lia).
  unfold MLKEM_Q. rewrite (wrap_small 32 (t * 3329)), (wrap_small 32) by (unfold in_word; lia).
  rewrite Z.shiftr_div_pow2 by lia. change (2 ^ 10) with 1024.
  rewrite wrap_small by (unfold in_word; lia_mod). apply sext_small; [lia|lia_mod].
Qed.

(** Decompressing what was compressed changes a coefficient by at most 2. *)
Lemma comp_10_error x : 0 <= x < MLKEM_Q ->
  exists e, - 2 <= e <= 2 /\ DECOMP_10 (TO_COMP_WORD_10 x) == x + e.
Proof.
  intros Hx. rewrite TO_COMP_WORD_10_eq by done.
  rewrite DECOMP_10_eq by (apply Z.mod_pos_bound; lia). unfold MLKEM_Q in Hx |- *.
  set (k := (1024 * x + 1664) / 3329).
  assert (Hk : 0 <= k <= 1024 /\ - 1664 <= 3329 * k - 1024 * x <= 1664) by (unfold k; lia_mod).
  clearbody k. destruct (decide (k = 1024)) as [->|Hk'].
  - exists (3329 - x). split; [lia|]. change ((1024 mod 1024 * 3329 + 512) / 1024) with 0.
    apply (eqq_diff _ _ (-1)). unfold MLKEM_Q. lia.
  - rewrite Z.mod_small by lia. exists ((k * 3329 + 512) / 1024 - x).
    split; [lia_mod|]. apply (eqq_diff _ _ 0). lia.
Qed.

Lemma TO_COMP_WORD_4_eq x : 0 <= x < MLKEM_Q ->
  TO_COMP_WORD_4 x = (16 * x + 1664) / MLKEM_Q mod 16.
Proof.
  intros Hx. unfold TO_COMP_WORD_4, MLKEM_Q in *.
  rewrite (wrap_small 32 x) by (unfold in_word; lia).
  change (u32 (Z.shiftl MLKEM_V28 4)) with 1290160.
  change MLKEM_V28_HALF with 134257275.
  rewrite wrap_add_l, Z.shiftr_div_pow2 by lia. unfold wrap. lia_mod.
Qed.

Lemma DECOMP_4_eq t : 0 <= t < 16 -> DECOMP_4 t = (t * MLKEM_Q + 8) / 16.
Proof.
  intros Ht. unfold DECOMP_4, MLKEM_Q. rewrite wrap_small by (unfold in_word; lia).
  rewrite Z.shiftr_div_pow2 by lia. change (2 ^ 4) with 16. apply sext_small; [lia|lia_mod].
Qed.

(** For 4 bits the error is at most 104. *)
Lemma comp_4_error x : 0 <= x < MLKEM_Q ->
  exists e, - 104 <= e <= 104 /\ DECOMP_4 (TO_COMP_WORD_4 x) == x + e.
Proof.
  intros Hx. rewrite TO_COMP_WORD_4_eq by done.
  rewrite DECOMP_4_eq by (apply Z.mod_pos_bound; lia). unfold MLKEM_Q in Hx |- *.
  set (k := (16 * x + 1664) / 3329).
  assert (Hk : 0 <= k <= 16 /\ - 1664 <= 3329 * k - 16 * x <= 1664) by (unfold k; lia_mod).
  clearbody k. destruct (decide (k = 16)) as [->|Hk'].
  - exists (3329 - x). split; [lia|]. change ((16 mod 16 * 3329 + 8) / 16) with 0.
    apply (eqq_diff _ _ (-1)). unfold MLKEM_Q. lia.
  - rewrite Z.mod_small by lia. exists ((k * 3329 + 8) / 16 - x).
    split; [lia_mod|]. apply (eqq_diff _ _ 0). lia.
Qed.

(** ** Round trips of the packings *)

(** Two fields joined: the low one has [n] bits. *)
Lemma join_fields n a b : 0 <= n -> 0 <= a < 2 ^ n -> Z.lor a (Z.shiftl b n) = a + b * 2 ^ n.
Proof. intros Hn Ha. rewrite Z.lor_comm, lor_shiftl_add by lia. lia. Qed.

Lemma DECOMP_10_wrap y : DECOMP_10 (s16 y) = DECOMP_10 (wrap 10 y).
Proof.
  unfold DECOMP_10. change 0x3ff with (Z.ones 10). rewrite <- !(wrap_land_ones 10) by lia.
  rewrite <- (wrap_wrap_le 10 16 (s16 y)), wrap_sext, wrap_wrap_le, wrap_idem by lia. done.
Qed.

Definition is_10 (t : Z) : Prop := 0 <= t < 1024.

Lemma pack_10_eq t0 t1 t2 t3 : is_10 t0 -> is_10 t1 -> is_10 t2 -> is_10 t3 ->
  pack_10 t0 t1 t2 t3 =
    [t0 mod 256; t0 / 256 + t1 mod 64 * 4; t1 / 64 + t2 mod 16 * 16; t2 / 16 + t3 mod 4 * 64; t3 / 4].
Proof.
  unfold is_10. intros H0 H1 H2 H3. unfold pack_10. rewrite !Z.shiftr_div_pow2 by lia.
  rewrite !join_fields by (first [lia | lia_mod]). unfold wrap.
  repeat f_equal; lia_mod.
Qed.

(** What [mlkem_vec_decompress_10_c] reads back from a packed group. *)
Lemma unpack_10 b t0 t1 t2 t3 : is_10 t0 -> is_10 t1 -> is_10 t2 -> is_10 t3 ->
  (forall c, (c < 5)%nat -> nth c b 0 = nth c (pack_10 t0 t1 t2 t3) 0) ->
  [DECOMP_10 (s16 (Z.lor (Z.shiftr (nth 0 b 0) 0) (Z.shiftl (nth 1 b 0) 8)));
   DECOMP_10 (s16 (Z.lor (Z.shiftr (nth 1 b 0) 2) (Z.shiftl (nth 2 b 0) 6)));
   DECOMP_10 (s16 (Z.lor (Z.shiftr (nth 2 b 0) 4) (Z.shiftl (nth 3 b 0) 4)));
   DECOMP_10 (s16 (Z.lor (Z.shiftr (nth 3 b 0) 6) (Z.shiftl (nth 4 b 0) 2)))] =
  map DECOMP_10 [t0; t1; t2; t3].
Proof.
  intros H0 H1 H2 H3 Hb. rewrite !Hb, pack_10_eq by (done || lia). unfold is_10 in *. cbn [nth map].
  rewrite !DECOMP_10_wrap, !Z.shiftr_div_pow2 by lia.
  rewrite !join_fields by (first [lia | lia_mod]).
  repeat f_equal; unfold wrap; lia_mod.
Qed.

(** The same for 4 bits. *)
Lemma unpack_4 t0 t1 : 0 <= t0 < 16 -> 0 <= t1 < 16 ->
  [DECOMP_4 (Z.land (u8 (Z.lor t0 (Z.shiftl t1 4))) 0xf); DECOMP_4 (Z.shiftr (u8 (Z.lor t0 (Z.shiftl t1 4))) 4)] =
  [DECOMP_4 t0; DECOMP_4 t1].
Proof.
  intros H0 H1. rewrite join_fields, (wrap_small 8) by (unfold in_word; lia).
  change 0xf with (Z.ones 4). rewrite <- wrap_land_ones, Z.shiftr_div_pow2 by lia.
  repeat f_equal; unfold wrap; lia_mod.
Qed.

(** The same for 12 bits. *)
Lemma unpack_12 t0 t1 : 0 <= t0 < 4096 -> 0 <= t1 < 4096 ->
  s16 (Z.land (Z.lor (Z.shiftr (u8 (Z.shiftr t0 0)) 0) (Z.shiftl (u8 (Z.lor (Z.shiftr t0 8) (Z.shiftl t1 4))) 8)) 0xfff) = t0 /\
  s16 (Z.land (Z.lor (Z.shiftr (u8 (Z.lor (Z.shiftr t0 8) (Z.shiftl t1 4))) 4) (Z.shiftl (u8 (Z.shiftr t1 4)) 4)) 0xfff) = t1.
Proof.
  intros H0 H1. change 0xfff with (Z.ones 12). rewrite <- !wrap_land_ones, !Z.shiftr_div_pow2 by lia.
  rewrite (join_fields 4 (t0 / 2 ^ 8)) by lia_mod.
  rewrite !join_fields by (first [lia | lia_mod]).
  split; (rewrite sext_small; unfold wrap; lia_mod).
Qed.

Lemma mlkem_csubq_length p : length (mlkem_csubq_c p) = length p.
Proof. apply length_map. Qed.

(** What [csubq] leaves in place of coefficients in 0..q. *)
Definition reduced (p : list Z) : Prop := length p = MLKEM_N /\ Forall (fun x => 0 <= x < MLKEM_Q) p.

Lemma csubq_reduced p : length p = MLKEM_N -> Forall (fun x => 0 <= x < 2 * MLKEM_Q) p ->
  reduced (mlkem_csubq_c p) /\ Forall2 eqq (mlkem_csubq_c p) p.
Proof.
  intros Hl H. split; [split; [by rewrite mlkem_csubq_length|]|]; unfold mlkem_csubq_c.
  - apply Forall_fmap. eapply Forall_impl; [exact H|]. intros x Hx. cbn. rewrite csubq_mod by done.
    apply Z.mod_pos_bound. done.
  - apply Forall2_fmap_l, Forall_Forall2_diag. eapply Forall_impl; [exact H|]. intros x Hx.
    cbn. rewrite csubq_mod by done. apply eqq_mod.
Qed.

Lemma reduced_nth p i : reduced p -> 0 <= nth i p 0 < MLKEM_Q.
Proof.
  intros [_ H]. rewrite nth_lookup. destruct (p !! i) eqn:E; cbn; [|done].
  exact (Forall_lookup_1 _ _ _ _ H E).
Qed.

Definition comp_10 (x : Z) : Z := DECOMP_10 (TO_COMP_WORD_10 x).
Definition comp_4 (x : Z) : Z := DECOMP_4 (TO_COMP_WORD_4 x).

Lemma TO_COMP_WORD_10_range x : 0 <= x < MLKEM_Q -> is_10 (TO_COMP_WORD_10 x).
Proof. intros Hx. rewrite TO_COMP_WORD_10_eq by done. apply Z.mod_pos_bound. lia. Qed.

Lemma TO_COMP_WORD_4_range x : 0 <= x < MLKEM_Q -> 0 <= TO_COMP_WORD_4 x < 16.
Proof. intros Hx. rewrite TO_COMP_WORD_4_eq by done. apply Z.mod_pos_bound. lia. Qed.

Lemma s16_comp_10 x : 0 <= x < MLKEM_Q -> s16 (TO_COMP_WORD_10 x) = TO_COMP_WORD_10 x.
Proof. intros Hx. pose proof (TO_COMP_WORD_10_range x Hx). unfold is_10 in *. apply sext_small; lia. Qed.

(** The bytes of one polynomial. *)
Definition poly_bytes_10 (p : list Z) : list Z :=
  emit 4 MLKEM_N (fun j =>
    pack_10 (s16 (TO_COMP_WORD_10 (nth (j + 0) p 0))) (s16 (TO_COMP_WORD_10 (nth (j + 1) p 0)))
      (s16 (TO_COMP_WORD_10 (nth (j + 2) p 0))) (s16 (TO_COMP_WORD_10 (nth (j + 3) p 0)))).

Lemma poly_bytes_10_length p : length (poly_bytes_10 p) = 320%nat.
Proof. apply (emit_length 5). done. Qed.

Lemma read_poly_10 p b : reduced p ->
  (forall i, (i < 320)%nat -> nth i b 0 = nth i (poly_bytes_10 p) 0) ->
  emit 1 (MLKEM_N / 4) (fun j =>
    let b := drop (j * 5) b in
    [DECOMP_10 (s16 (Z.lor (Z.shiftr (nth 0 b 0) 0) (Z.shiftl (nth 1 b 0) 8)));
     DECOMP_10 (s16 (Z.lor (Z.shiftr (nth 1 b 0) 2) (Z.shiftl (nth 2 b 0) 6)));
     DECOMP_10 (s16 (Z.lor (Z.shiftr (nth 2 b 0) 4) (Z.shiftl (nth 3 b 0) 4)));
     DECOMP_10 (s16 (Z.lor (Z.shiftr (nth 3 b 0) 6) (Z.shiftl (nth 4 b 0) 2)))]) = map comp_10 p.
Proof.
  intros Hp Hb. rewrite (emit_chunks 0 4 64 p) at 1 by (apply Hp || done). rewrite emit_map.
  apply emit_ext; [done|]. change (MLKEM_N / 4 / 1)%nat with 64%nat. intros k Hk.
  pose proof (fun i => reduced_nth p i Hp) as Hn. cbv zeta. rewrite Nat.mul_1_r.
  pose proof (fun c => TO_COMP_WORD_10_range _ (Hn (k * 4 + c)%nat)) as Hr.
  rewrite (unpack_10 _ (TO_COMP_WORD_10 (nth (k * 4 + 0) p 0)) (TO_COMP_WORD_10 (nth (k * 4 + 1) p 0))
    (TO_COMP_WORD_10 (nth (k * 4 + 2) p 0)) (TO_COMP_WORD_10 (nth (k * 4 + 3) p 0))); [done|apply Hr..|].
  intros c Hc. rewrite nth_skipn, Hb by lia. unfold poly_bytes_10.
  rewrite (nth_emit 5) by done. by rewrite !s16_comp_10 by apply Hn.
Qed.

(** Reading in a concatenation of encodings of equal length. *)
Lemma nth_encoded (enc : list Z -> list Z) g ps rest i j p : (forall p, length (enc p) = g) ->
  (j < g)%nat -> ps !! i = Some p ->
  nth (i * g + j) (concat (map enc ps) ++ rest) 0 = nth j (enc p) 0.
Proof.
  intros Hg Hj Hp. assert (Hu : Forall (fun l : list Z => length l = g) (map enc ps)).
  { apply Forall_fmap, Forall_true. intros. apply Hg. }
  pose proof (lookup_lt_Some _ _ _ Hp) as Hi. rewrite app_nth1.
  - rewrite (nth_concat_uniform 0 g) by done. f_equal. apply nth_lookup_Some. by rewrite list_lookup_fmap, Hp.
  - rewrite (length_concat_uniform g) by done. rewrite length_map. nia.
Qed.

(** Ciphertext part 1: every coefficient comes back rounded. *)
Lemma vec_compress_10_roundtrip v k rest : length v = k ->
  Forall (fun p => length p = MLKEM_N /\ Forall (fun x => 0 <= x < 2 * MLKEM_Q) p) v ->
  mlkem_vec_decompress_10 (mlkem_vec_compress_10 v k ++ rest) k =
  map (fun p => map comp_10 (mlkem_csubq_c p)) v.
Proof.
  intros <- Hv. unfold mlkem_vec_decompress_10, mlkem_vec_decompress_10_c, mlkem_vec_compress_10, mlkem_vec_compress_10_c.
  rewrite take_ge by lia. cbv zeta.
  change (map (fun p => emit 4 MLKEM_N _) ?x) with (map poly_bytes_10 x).
  apply list_eq. intros i. rewrite !list_lookup_fmap.
  destruct (decide (i < length v)%nat) as [Hi|Hi].
  2: { rewrite lookup_seq_ge by lia. rewrite (lookup_ge_None_2 v) by lia. done. }
  rewrite lookup_seq_lt by done. destruct (lookup_lt_is_Some_2 v i Hi) as [p Hp]. rewrite Hp.
  cbn [fmap option_fmap option_map]. f_equal.
  destruct (Forall_lookup_1 _ _ _ _ Hv Hp) as [Hl Hr]. destruct (csubq_reduced p Hl Hr) as [Hred _].
  rewrite <- (read_poly_10 (mlkem_csubq_c p) (drop (i * 320) (concat (map poly_bytes_10 (map mlkem_csubq_c v)) ++ rest)) Hred).
  - apply emit_ext; [done|]. intros j Hj. cbv zeta. by rewrite !drop_drop, Nat.mul_1_r.
  - intros j Hj. rewrite nth_skipn. apply (nth_encoded poly_bytes_10 320); [apply poly_bytes_10_length|done|].
    by rewrite list_lookup_fmap, Hp.
Qed.

(** The byte holding coefficients 2m and 2m + 1. *)
Lemma compress_4_nth p rest m : reduced p -> (m < 128)%nat ->
  nth m (emit 8 MLKEM_N (fun i =>
    let t j := u8 (TO_COMP_WORD_4 (nth (i + j) p 0)) in
    [u8 (Z.lor (t 0%nat) (Z.shiftl (t 1%nat) 4)); u8 (Z.lor (t 2%nat) (Z.shiftl (t 3%nat) 4));
     u8 (Z.lor (t 4%nat) (Z.shiftl (t 5%nat) 4)); u8 (Z.lor (t 6%nat) (Z.shiftl (t 7%nat) 4))]) ++ rest) 0 =
  u8 (Z.lor (TO_COMP_WORD_4 (nth (2 * m) p 0)) (Z.shiftl (TO_COMP_WORD_4 (nth (2 * m + 1) p 0)) 4)).
Proof.
  intros Hp Hm. assert (Hu : forall i, u8 (TO_COMP_WORD_4 (nth i p 0)) = TO_COMP_WORD_4 (nth i p 0)).
  { intros i. pose proof (TO_COMP_WORD_4_range _ (reduced_nth p i Hp)). apply wrap_small. unfold in_word. lia. }
  rewrite app_nth1 by (rewrite (emit_length 4); [cbn; lia|done]).
  pose proof (Nat.div_mod m 4 ltac:(lia)) as Hdm. pose proof (Nat.mod_upper_bound m 4 ltac:(lia)) as Hlt.
  rewrite Hdm at 1. rewrite (Nat.mul_comm 4). rewrite (nth_emit 4); [|done|change (MLKEM_N / 8)%nat with 32%nat; lia|done].
  cbv beta zeta. rewrite !Hu.
  assert (m mod 4 = 0 \/ m mod 4 = 1 \/ m mod 4 = 2 \/ m mod 4 = 3)%nat as Hc by lia.
  destruct Hc as [Hc|[Hc|[Hc|Hc]]]; rewrite Hc; cbn [nth];
    match goal with |- u8 (Z.lor (_ (nth ?i _ _)) (Z.shiftl (_ (nth ?j _ _)) _)) = _ =>
      rewrite (nth_eq p (2 * m) i), (nth_eq p (2 * m + 1) j) by lia end; reflexivity.
Qed.

Lemma compress_4_roundtrip p rest : length p = MLKEM_N -> Forall (fun x => 0 <= x < 2 * MLKEM_Q) p ->
  mlkem_decompress_4 (mlkem_compress_4 p ++ rest) = map comp_4 (mlkem_csubq_c p).
Proof.
  intros Hl Hr. destruct (csubq_reduced p Hl Hr) as [Hred _].
  unfold mlkem_decompress_4, mlkem_decompress_4_c, mlkem_compress_4, mlkem_compress_4_c. cbv zeta.
  set (q := mlkem_csubq_c p) in *. pose proof (emit_chunks 0 2 128 q ltac:(apply Hred) ltac:(done)) as Eq.
  etransitivity; [|apply (f_equal (map comp_4)); symmetry; exact Eq]. rewrite emit_map. apply emit_ext; [done|]. change (MLKEM_N / 2)%nat with 128%nat. intros k Hk.
  rewrite Nat.div_mul by lia. rewrite nth_skipn, Nat.add_0_r.
  pose proof (compress_4_nth q rest k Hred Hk) as Hn. cbv zeta in Hn. rewrite Hn.
  rewrite unpack_4 by (apply TO_COMP_WORD_4_range, reduced_nth, Hred).
  cbn [map seq]. unfold comp_4.
  rewrite (nth_eq q (2 * k) (k * 2 + 0)), (nth_eq q (2 * k + 1) (k * 2 + 1)) by lia. done.
Qed.

(** ** Messages *)

Lemma FROM_MSG_BIT_eq x j : 0 <= j -> FROM_MSG_BIT x j = if Z.testbit x j then MLKEM_Q_1_HALF else 0.
Proof.
  intros Hj. unfold FROM_MSG_BIT. cbv zeta.
  change 1 with (Z.ones 1) at 1. rewrite <- wrap_land_ones by lia.
  unfold wrap. change (2 ^ 1) with 2. rewrite <- Z.bit0_mod, Z.shiftr_spec, Z.add_0_l by lia.
  destruct (Z.testbit x j); reflexivity.
Qed.

(** The bit of a coefficient: 1 in the middle half of 0..q. *)
Definition msg_bit (x : Z) : Z := if (833 <=? x) && (x <=? 2496) then 1 else 0.

Lemma TO_MSG_BIT_eq acc x j : 0 <= x < MLKEM_Q ->
  TO_MSG_BIT acc x j = u8 (Z.lor acc (Z.shiftl (msg_bit x) j)).
Proof.
  intros Hx. unfold TO_MSG_BIT, MLKEM_Q in *. do 3 f_equal.
  rewrite (wrap_small 32 x) by (unfold in_word; lia).
  change MLKEM_V31_2 with 1290168. change MLKEM_V31_HALF with 1073419776.
  rewrite wrap_add_l, Z.shiftr_div_pow2 by lia. unfold wrap, msg_bit.
  destruct (Z.leb_spec 833 x), (Z.leb_spec x 2496); cbn [andb]; lia_mod.
Qed.

(** A coefficient that carries bit [b] up to a noise of less than a quarter of q. *)
Lemma msg_bit_noise (b : bool) n w : - 832 <= n <= 831 -> 0 <= w < MLKEM_Q ->
  w == (if b then MLKEM_Q_1_HALF else 0) + n -> msg_bit w = Z.b2z b.
Proof.
  intros Hn Hw [k Hk]%eqq_divide. change MLKEM_Q_1_HALF with 1665 in Hk. unfold MLKEM_Q, msg_bit in *.
  destruct b; cbn [Z.b2z];
    destruct (Z.leb_spec 833 w), (Z.leb_spec w 2496); cbn [andb]; try done; exfalso;
    assert (- 1 <= k <= 1) by lia; lia.
Qed.

(** Bit [i] of a message as the coefficient that carries it. *)
Definition msg_testbit (msg : list Z) (i : nat) : bool :=
  Z.testbit (nth (i / 8) msg 0) (Z.of_nat (i mod 8)).

Definition is_byte_list (l : list Z) : Prop := Forall is_u8 l.

Lemma nth_byte l i : is_byte_list l -> 0 <= nth i l 0 < 256.
Proof.
  intros H. rewrite nth_lookup. destruct (l !! i) eqn:E; cbn; [|lia].
  exact (Forall_lookup_1 _ _ _ _ H E).
Qed.

Lemma lt8_cases c : (c < 8)%nat ->
  (c = 0 \/ c = 1 \/ c = 2 \/ c = 3 \/ c = 4 \/ c = 5 \/ c = 6 \/ c = 7)%nat.
Proof. lia. Qed.

Lemma mlkem_from_msg_nth msg i : (i < MLKEM_N)%nat ->
  nth i (mlkem_from_msg msg) 0 = if msg_testbit msg i then MLKEM_Q_1_HALF else 0.
Proof.
  intros Hi. unfold mlkem_from_msg, mlkem_from_msg_c, msg_testbit. unfold MLKEM_N in Hi.
  pose proof (Nat.div_mod i 8 ltac:(lia)) as Hdm. pose proof (Nat.mod_upper_bound i 8 ltac:(lia)) as Hlt.
  assert (Hk : (i / 8 < 32)%nat) by lia.
  rewrite Hdm at 1. rewrite (Nat.mul_comm 8), (nth_emit 8) by done. rewrite Nat.mul_1_r.
  destruct (lt8_cases _ Hlt) as [H|[H|[H|[H|[H|[H|[H|H]]]]]]]; rewrite H; cbn [nth];
    by rewrite FROM_MSG_BIT_eq by lia.
Qed.

Lemma mlkem_from_msg_length msg : length (mlkem_from_msg msg) = MLKEM_N.
Proof. apply (emit_length 8). done. Qed.

Lemma msg_byte_of_bits x : 0 <= x < 256 ->
  let b j := Z.b2z (Z.testbit x j) in
  let m := u8 (Z.lor 0 (Z.shiftl (b 0) 0)) in
  let m := u8 (Z.lor m (Z.shiftl (b 1) 1)) in
  let m := u8 (Z.lor m (Z.shiftl (b 2) 2)) in
  let m := u8 (Z.lor m (Z.shiftl (b 3) 3)) in
  let m := u8 (Z.lor m (Z.shiftl (b 4) 4)) in
  let m := u8 (Z.lor m (Z.shiftl (b 5) 5)) in
  let m := u8 (Z.lor m (Z.shiftl (b 6) 6)) in
  u8 (Z.lor m (Z.shiftl (b 7) 7)) = x.
Proof.
  intros Hx.
  assert (H : forallb (fun n => let x := Z.of_nat n in
    let b j := Z.b2z (Z.testbit x j) in
    let m := u8 (Z.lor 0 (Z.shiftl (b 0) 0)) in
    let m := u8 (Z.lor m (Z.shiftl (b 1) 1)) in
    let m := u8 (Z.lor m (Z.shiftl (b 2) 2)) in
    let m := u8 (Z.lor m (Z.shiftl (b 3) 3)) in
    let m := u8 (Z.lor m (Z.shiftl (b 4) 4)) in
    let m := u8 (Z.lor m (Z.shiftl (b 5) 5)) in
    let m := u8 (Z.lor m (Z.shiftl (b 6) 6)) in
    u8 (Z.lor m (Z.shiftl (b 7) 7)) =? x) (seq 0 256) = true) by (vm_compute; done).
  rewrite forallb_forall in H. specialize (H (Z.to_nat x) ltac:(apply in_seq; lia)).
  cbv zeta in H. rewrite Z2Nat.id in H by lia. by apply Z.eqb_eq.
Qed.

(** A message survives any noise below a quarter of q. *)
Lemma to_msg_noise w msg : length w = MLKEM_N -> Forall (fun x => 0 <= x < 2 * MLKEM_Q) w ->
  length msg = 32%nat -> is_byte_list msg ->
  (forall i, (i < MLKEM_N)%nat -> exists n, - 832 <= n <= 831 /\
    nth i w 0 == (if msg_testbit msg i then MLKEM_Q_1_HALF else 0) + n) ->
  mlkem_to_msg w = msg.
Proof.
  intros Hl Hr Hm Hb Hn. destruct (csubq_reduced w Hl Hr) as [Hred Hcong].
  unfold mlkem_to_msg, mlkem_to_msg_c. cbv zeta. set (q := mlkem_csubq_c w) in *.
  pose proof (emit_chunks 0 1 32 msg ltac:(done) ltac:(done)) as Em.
  etransitivity; [|symmetry; exact Em]. apply emit_ext; [done|].
  intros k Hk. change (MLKEM_N / 8 / 1)%nat with 32%nat in Hk.
  cbn [map seq]. rewrite Nat.mul_1_r, (nth_eq msg (k + 0) k) by lia. f_equal.
  assert (Hbit : forall j, (j < 8)%nat -> msg_bit (nth (8 * k + j) q 0) = Z.b2z (Z.testbit (nth k msg 0) (Z.of_nat j))).
  { intros j Hj. assert (Hi : (8 * k + j < MLKEM_N)%nat) by (unfold MLKEM_N; lia).
    destruct (Hn _ Hi) as (n & Hnr & Hw).
    apply (msg_bit_noise _ n); [done|apply reduced_nth, Hred|].
    destruct (lookup_lt_is_Some_2 q (8 * k + j)) as [x Hx]; [by rewrite (proj1 Hred)|].
    destruct (Forall2_lookup_l _ _ _ _ _ Hcong Hx) as (y & Hy & Hxy).
    rewrite (nth_lookup_Some _ _ _ _ Hx), Hxy. rewrite (nth_lookup_Some _ _ _ _ Hy) in Hw.
    rewrite Hw. unfold msg_testbit.
    replace ((8 * k + j) / 8)%nat with k by (apply (Nat.div_unique _ 8 k j); lia).
    replace ((8 * k + j) mod 8)%nat with j by (apply (Nat.mod_unique _ 8 k j); lia). done. }
  rewrite !TO_MSG_BIT_eq by (apply reduced_nth, Hred). rewrite !Hbit by lia.
  apply (msg_byte_of_bits (nth k msg 0)). by apply nth_byte.
Qed.

(** ** Keys *)

Lemma to_bytes_poly_read p b : reduced p ->
  (forall i, (i < 384)%nat -> nth i b 0 =
    nth i (emit 1 (MLKEM_N / 2) (fun i =>
       [u8 (Z.shiftr (u16 (nth (2 * i) p 0)) 0);
        u8 (Z.lor (Z.shiftr (u16 (nth (2 * i) p 0)) 8) (Z.shiftl (u16 (nth (2 * i + 1) p 0)) 4));
        u8 (Z.shiftr (u16 (nth (2 * i + 1) p 0)) 4)])) 0) ->
  emit 1 (MLKEM_N / 2) (fun i =>
      [s16 (Z.land (Z.lor (Z.shiftr (nth (3 * i + 0) b 0) 0) (Z.shiftl (nth (3 * i + 1) b 0) 8)) 0xfff);
       s16 (Z.land (Z.lor (Z.shiftr (nth (3 * i + 1) b 0) 4) (Z.shiftl (nth (3 * i + 2) b 0) 4)) 0xfff)]) = p.
Proof.
  intros Hp Hb. pose proof (emit_chunks 0 2 128 p ltac:(apply Hp) ltac:(done)) as Ep.
  etransitivity; [|symmetry; exact Ep]. apply emit_ext; [done|].
  intros k Hk. change (MLKEM_N / 2 / 1)%nat with 128%nat in Hk. rewrite Nat.mul_1_r.
  assert (Hu : forall i, u16 (nth i p 0) = nth i p 0).
  { intros i. pose proof (reduced_nth p i Hp) as H. unfold MLKEM_Q in H. apply wrap_small. unfold in_word. lia. }
  assert (Hc : forall c, (c < 3)%nat -> nth (3 * k + c) b 0 = nth c
     [u8 (Z.shiftr (nth (2 * k) p 0) 0);
      u8 (Z.lor (Z.shiftr (nth (2 * k) p 0) 8) (Z.shiftl (nth (2 * k + 1) p 0) 4));
      u8 (Z.shiftr (nth (2 * k + 1) p 0) 4)] 0).
  { intros c Hc. rewrite Hb by lia. rewrite (Nat.mul_comm 3), (nth_emit 3) by done.
    by rewrite Nat.mul_1_r, !Hu. }
  rewrite !Hc by lia. cbn [nth map seq].
  pose proof (reduced_nth p (2 * k) Hp) as H0. pose proof (reduced_nth p (2 * k + 1) Hp) as H1. unfold MLKEM_Q in H0, H1.
  destruct (unpack_12 (nth (2 * k) p 0) (nth (2 * k + 1) p 0) ltac:(lia) ltac:(lia)) as [-> ->].
  rewrite (nth_eq p (2 * k) (k * 2 + 0)), (nth_eq p (2 * k + 1) (k * 2 + 1)) by lia. done.
Qed.

Definition poly_bytes_12 (p : list Z) : list Z :=
  emit 1 (MLKEM_N / 2) (fun i =>
    [u8 (Z.shiftr (u16 (nth (2 * i) p 0)) 0);
     u8 (Z.lor (Z.shiftr (u16 (nth (2 * i) p 0)) 8) (Z.shiftl (u16 (nth (2 * i + 1) p 0)) 4));
     u8 (Z.shiftr (u16 (nth (2 * i + 1) p 0)) 4)]).

Lemma poly_bytes_12_length p : length (poly_bytes_12 p) = 384%nat.
Proof. by apply (emit_length 3). Qed.

Lemma from_to_bytes ps rest : Forall reduced ps ->
  mlkem_from_bytes (concat (map poly_bytes_12 ps) ++ rest) (length ps) = ps.
Proof.
  intros Hv. unfold mlkem_from_bytes, mlkem_from_bytes_c.
  apply list_eq. intros i. rewrite list_lookup_fmap.
  destruct (decide (i < length ps)%nat) as [Hi|Hi].
  2: { rewrite lookup_seq_ge by lia. rewrite (lookup_ge_None_2 ps) by lia. done. }
  rewrite lookup_seq_lt by done. destruct (lookup_lt_is_Some_2 ps i Hi) as [p Hp]. rewrite Hp.
  cbn [fmap option_fmap option_map]. f_equal. cbv zeta. cbn [Nat.add].
  apply to_bytes_poly_read; [exact (Forall_lookup_1 _ _ _ _ Hv Hp)|].
  intros j Hj. rewrite nth_skipn. by apply (nth_encoded poly_bytes_12 384); [apply poly_bytes_12_length|..].
Qed.

(** Coefficients as the code leaves them: in 0..q (after a Barrett reduction)
    or in any case below 2q. *)
Definition nearly_reduced (p : list Z) : Prop :=
  length p = MLKEM_N /\ Forall (fun x => 0 <= x < 2 * MLKEM_Q) p.

(** Keys survive their encoding: the 12-bit packing writes 384 bytes per
    polynomial, reduces the coefficients in place, and reading the bytes (with
    whatever follows them) gives the reduced polynomials back, each coefficient
    in 0..q-1 and congruent to the one given. *)
Theorem key_encoding_roundtrip v rest : Forall nearly_reduced v ->
  let b := (mlkem_to_bytes v (length v)).1 in
  let v' := (mlkem_to_bytes v (length v)).2 in
  length b = (length v * WC_ML_KEM_POLY_SIZE)%nat /\
  mlkem_from_bytes (b ++ rest) (length v) = v' /\
  Forall reduced v' /\ Forall2 (Forall2 eqq) v' v.
Proof.
  intros Hv. unfold mlkem_to_bytes, mlkem_to_bytes_c. rewrite take_ge, drop_ge, app_nil_r by lia. cbv zeta. cbn [fst snd].
  change (map (fun p => emit 1 (MLKEM_N / 2) _) ?x) with (map poly_bytes_12 x).
  assert (Hr : Forall (fun p => reduced (mlkem_csubq_c p) /\ Forall2 eqq (mlkem_csubq_c p) p) v).
  { eapply Forall_impl; [exact Hv|]. intros p [Hl Hp]. by apply csubq_reduced. }
  assert (Hred : Forall reduced (map mlkem_csubq_c v)).
  { apply Forall_fmap. eapply Forall_impl; [exact Hr|]. by intros p [H _]. }
  pose proof (from_to_bytes (map mlkem_csubq_c v) rest Hred) as Hback. rewrite length_map in Hback.
  split_and!; [|exact Hback|done|].
  - rewrite (length_concat_uniform 384); [by rewrite !length_map|].
    apply Forall_fmap, Forall_true. intros. apply poly_bytes_12_length.
  - apply Forall2_fmap_l, Forall_Forall2_diag. eapply Forall_impl; [exact Hr|]. by intros p [_ H].
Qed.

Lemma key_encoding_roundtrip_witness :
  let v := [replicate 256 3329; replicate 256 3328] in
  mlkem_from_bytes ((mlkem_to_bytes v 2).1 ++ [7]) 2 = (mlkem_to_bytes v 2).2 /\
  Forall2 (Forall2 eqq) (mlkem_to_bytes v 2).2 v.
Proof.
  intros v. assert (Hv : Forall nearly_reduced v).
  { constructor; [|constructor; [|constructor]]; (split; [reflexivity|apply Forall_replicate; done]). }
  pose proof (key_encoding_roundtrip v [7] Hv) as (_ & H1 & _ & H2). split; [exact H1|exact H2].
Defined.

(** Ciphertexts survive compression up to the rounding error of the standard:
    every coefficient of the vector, compressed to 10 bits, comes back within 2
    of itself modulo q, and every coefficient of the polynomial, compressed to
    4 bits, within 104. *)
Theorem ciphertext_compression_error v p rest rest' :
  Forall nearly_reduced v -> nearly_reduced p ->
  Forall2 (Forall2 (fun y x => exists e, - 2 <= e <= 2 /\ y == x + e))
    (mlkem_vec_decompress_10 (mlkem_vec_compress_10 v (length v) ++ rest) (length v)) v /\
  Forall2 (fun y x => exists e, - 104 <= e <= 104 /\ y == x + e)
    (mlkem_decompress_4 (mlkem_compress_4 p ++ rest')) p.
Proof.
  intros Hv [Hl Hp]. split.
  - rewrite vec_compress_10_roundtrip by done. apply Forall2_fmap_l, Forall_Forall2_diag.
    eapply Forall_impl; [exact Hv|]. intros x [Hlx Hx]. cbn.
    destruct (csubq_reduced x Hlx Hx) as [[_ Hr] Hc]. apply Forall2_fmap_l.
    apply Forall2_same_length_lookup_2; [exact (Forall2_length _ _ _ Hc)|].
    intros i a b Ha Hb. destruct (comp_10_error a) as (e & He & Hea); [exact (Forall_lookup_1 _ _ _ _ Hr Ha)|].
    exists e. split; [done|]. cbn. unfold comp_10. rewrite Hea.
    by rewrite (Forall2_lookup_lr _ _ _ _ _ _ Hc Ha Hb).
  - rewrite compress_4_roundtrip by done. destruct (csubq_reduced p Hl Hp) as [[_ Hr] Hc].
    apply Forall2_fmap_l, Forall2_same_length_lookup_2; [exact (Forall2_length _ _ _ Hc)|].
    intros i a b Ha Hb. destruct (comp_4_error a) as (e & He & Hea); [exact (Forall_lookup_1 _ _ _ _ Hr Ha)|].
    exists e. split; [done|]. cbn. unfold comp_4. rewrite Hea.
    by rewrite (Forall2_lookup_lr _ _ _ _ _ _ Hc Ha Hb).
Qed.

Lemma ciphertext_compression_error_witness :
  let p := replicate 256 1664 in
  Forall2 (fun y x => exists e, - 104 <= e <= 104 /\ y == x + e)
    (mlkem_decompress_4 (mlkem_compress_4 p ++ [1])) p.
Proof.
  intros p. assert (Hp : nearly_reduced p) by (split; [reflexivity|apply Forall_replicate; done]).
  exact (proj2 (ciphertext_compression_error [p; p] p [] [1]
    (Forall_cons_2 _ _ _ Hp (Forall_cons_2 _ _ _ Hp (Forall_nil_2 _))) Hp)).
Defined.
