(* ===== verification/MlkemSample.v ===== *)
(** * Sampling polynomials (src/boot/wolfcrypt/src/wc_mlkem_poly.c)

    Rejection sampling of the public matrix, the centered binomial noise, and
    the calls that expand seeds into them.  SHA-3 and SHAKE (sha3.c) are the
    interface [KemHash]: an extendable output function squeezed in blocks of
    168 bytes, a pseudo-random function and two hashes, of bytes and of the
    documented lengths.  [XMALLOC] may refuse: the argument [mem]. *)

From S2P Require Import Prelude.
From S2P Require Import MlkemReduce.
From S2P Require Import MlkemRing.
From S2P Require Import DtlsDefs.
From S2P Require Import MlkemCodec.

Definition XOF_BLOCK_SIZE : nat := 168.
Definition GEN_MATRIX_NBLOCKS : nat := 3.
Definition GEN_MATRIX_SIZE : nat := GEN_MATRIX_NBLOCKS * XOF_BLOCK_SIZE.
Definition ETA3_RAND_SIZE : nat := 192.
Definition ETA2_RAND_SIZE : nat := 128.
Definition WC_ML_KEM_SYM_SZ : nat := 32.
Definition MLKEM_CBD_ETA2 : Z := 2.
Definition MLKEM_CBD_ETA3 : Z := 3.
Definition WC_ML_KEM_512_K : nat := 2.
Definition WC_ML_KEM_768_K : nat := 3.
Definition WC_ML_KEM_1024_K : nat := 4.

Class KemHash : Type := {
  (** block [i] squeezed after absorbing the seed *)
  shake128_block : list Z -> nat -> list Z;
  shake256 : list Z -> nat -> list Z;
  sha3_256 : list Z -> list Z;
  sha3_512 : list Z -> list Z }.

Class KemHashLaws `(KemHash) : Prop := {
  shake128_bytes : forall s i, length (shake128_block s i) = XOF_BLOCK_SIZE /\ is_byte_list (shake128_block s i);
  shake256_bytes : forall s n, length (shake256 s n) = n /\ is_byte_list (shake256 s n);
  sha3_256_bytes : forall s, length (sha3_256 s) = 32%nat /\ is_byte_list (sha3_256 s);
  sha3_512_bytes : forall s, length (sha3_512 s) = 64%nat /\ is_byte_list (sha3_512 s) }.

(** ** Rejection sampling *)

(** The two 12-bit integers of three bytes. *)
Definition rej_v0 (r0 r1 : Z) : Z := s16 (Z.land (Z.lor (Z.shiftr r0 0) (Z.shiftl r1 8)) 0xFFF).
Definition rej_v1 (r1 r2 : Z) : Z := s16 (Z.land (Z.lor (Z.shiftr r1 4) (Z.shiftl r2 4)) 0xFFF).

(** The values written at [p], their number being the result; the loop stops
    when [len] values are there or fewer than three bytes are left. *)
Fixpoint mlkem_rej_uniform_c (len : nat) (r : list Z) : list Z :=
  match r with
  | r0 :: r1 :: r2 :: r =>
      if (0 <? len)%nat then
        let v0 := rej_v0 r0 r1 in
        let v1 := rej_v1 r1 r2 in
        let p := if v0 <? MLKEM_Q then [v0] else [] in
        let p := if (length p <? len)%nat && (v1 <? MLKEM_Q) then p ++ [v1] else p in
        p ++ mlkem_rej_uniform_c (len - length p) r
      else []
  | _ => []
  end.

Section Expand.
Context `{KemHash}.

(** [while (ctr < MLKEM_N)]: one more block per turn; [blk] is the number of
    blocks squeezed so far.  [None] when the fuel runs out. *)
Fixpoint rej_more (fuel : nat) (seed : list Z) (blk : nat) (a : list Z) : option (list Z) :=
  if (length a <? MLKEM_N)%nat then
    match fuel with
    | O => None
    | S fuel =>
        rej_more fuel seed (S blk) (a ++ mlkem_rej_uniform_c (MLKEM_N - length a) (shake128_block seed blk))
    end
  else Some a.

Definition squeezeblocks (seed : list Z) (blk n : nat) : list Z :=
  concat (map (shake128_block seed) (seq blk n)).

(** One polynomial from the extended seed. *)
Definition gen_poly (fuel : nat) (extSeed : list Z) : option (list Z) :=
  let rand := squeezeblocks extSeed 0 GEN_MATRIX_NBLOCKS in
  let a := mlkem_rej_uniform_c MLKEM_N rand in
  rej_more fuel extSeed GEN_MATRIX_NBLOCKS a.

(** The seed of entry [i, j]: the indices in the two last bytes. *)
Definition extSeed_ij (seed : list Z) (transposed : bool) (i j : nat) : list Z :=
  take WC_ML_KEM_SYM_SZ seed ++
  (if transposed then [u8 (Z.of_nat i); u8 (Z.of_nat j)] else [u8 (Z.of_nat j); u8 (Z.of_nat i)]).

(** Row [i] of the matrix, or of its transpose. *)
Definition mlkem_gen_matrix_i (fuel : nat) (mem : bool) (k : nat) (seed : list Z) (i : nat)
    (transposed : bool) : option (Z * list (list Z)) :=
  if mem then
    match mapM (fun j => gen_poly fuel (extSeed_ij seed transposed i j)) (seq 0 k) with
    | Some a => Some (0, a)
    | None => None
    end
  else Some (MEMORY_E, []).

(** ** Noise *)

Definition le64 (r : list Z) (o : nat) : Z :=
  foldr (fun b acc => b + 256 * acc) 0 (map (fun i => nth (o + i) r 0) (seq 0 8)).

Definition ETA2_SUB (d : Z) (i : nat) : Z :=
  s16 (Z.land (Z.shiftr d (Z.of_nat i * 4 + 0)) 0x3) - s16 (Z.land (Z.shiftr d (Z.of_nat i * 4 + 2)) 0x3).

Definition mlkem_cbd_eta2 (r : list Z) : list Z :=
  emit 16 MLKEM_N (fun i =>
    let t := le64 r (i / 16 * 8) in
    let d := Z.land (Z.shiftr t 0) 0x5555555555555555 in
    let d := u64 (d + Z.land (Z.shiftr t 1) 0x5555555555555555) in
    map (ETA2_SUB d) (seq 0 16)).

Definition ETA3_SUB (d : Z) (i : nat) : Z :=
  s16 (Z.land (Z.shiftr d (Z.of_nat i * 6 + 0)) 0x7) - s16 (Z.land (Z.shiftr d (Z.of_nat i * 6 + 3)) 0x7).

Definition le48 (r : list Z) (o : nat) : Z :=
  Z.lor (Z.shiftl (nth (o + 0) r 0) 0)
    (Z.lor (Z.shiftl (nth (o + 1) r 0) 8)
      (Z.lor (Z.shiftl (nth (o + 2) r 0) 16)
        (Z.lor (Z.shiftl (nth (o + 3) r 0) 24)
          (Z.lor (Z.shiftl (nth (o + 4) r 0) 32) (Z.shiftl (nth (o + 5) r 0) 40))))).

Definition mlkem_cbd_eta3 (r : list Z) : list Z :=
  emit 8 MLKEM_N (fun i =>
    let t := le48 r (i / 8 * 6) in
    let d := Z.land (Z.shiftr t 0) 0x0000249249249249 in
    let d := u64 (d + Z.land (Z.shiftr t 1) 0x0000249249249249) in
    let d := u64 (d + Z.land (Z.shiftr t 2) 0x0000249249249249) in
    map (ETA3_SUB d) (seq 0 8)).

(** [mlkem_prf]: SHAKE-256 of the 33-byte key. *)
Definition mlkem_prf (outLen : nat) (key : list Z) : list Z :=
  shake256 (take (WC_ML_KEM_SYM_SZ + 1) key) outLen.

Definition mlkem_get_noise_eta1_c (seed : list Z) (eta1 : Z) : list Z :=
  if eta1 =? MLKEM_CBD_ETA3 then mlkem_cbd_eta3 (mlkem_prf ETA3_RAND_SIZE seed)
  else mlkem_cbd_eta2 (mlkem_prf ETA2_RAND_SIZE seed).

Definition mlkem_get_noise_eta2_c (seed : list Z) : list Z :=
  mlkem_cbd_eta2 (mlkem_prf ETA2_RAND_SIZE seed).

(** [seed[WC_ML_KEM_SYM_SZ] = x] *)
Definition seed_index (seed : list Z) (x : Z) : list Z := <[WC_ML_KEM_SYM_SZ := u8 x]> seed.

(** Second vector, polynomial [i]. *)
Definition mlkem_get_noise_i (k : nat) (seed : list Z) (i : nat) (make : bool) : list Z :=
  let seed := seed_index seed (Z.of_nat k + Z.of_nat i) in
  if (k =? WC_ML_KEM_512_K)%nat && make then mlkem_get_noise_eta1_c seed MLKEM_CBD_ETA3
  else mlkem_get_noise_eta1_c seed MLKEM_CBD_ETA2.

(** [n] polynomials, the index byte counting up from [first]. *)
Definition noise_vec (seed : list Z) (eta : Z) (first n : nat) : list (list Z) :=
  map (fun i => mlkem_get_noise_eta1_c (seed_index seed (Z.of_nat i)) eta) (seq first n).

(** The vectors, the polynomial and the seed left; a NULL pointer for the second
    vector or the polynomial is [false]. *)
Definition mlkem_get_noise_c (k : nat) (eta1 : Z) (vec2 : bool) (eta2 : Z) (poly : bool) (seed : list Z) :
    list (list Z) * list (list Z) * list Z * list Z :=
  let v1 := noise_vec seed eta1 0 k in
  let v2 := if vec2 then noise_vec seed eta2 k k else [] in
  let seed := seed_index seed (2 * Z.of_nat k) in
  let p := if poly then mlkem_get_noise_eta2_c seed else [] in
  (v1, v2, p, seed).

Definition mlkem_get_noise (k : nat) (vec2 poly : bool) (seed : list Z) :
    Z * (list (list Z) * list (list Z) * list Z * list Z) :=
  if (k =? WC_ML_KEM_512_K)%nat then
    (0, if poly then mlkem_get_noise_c k MLKEM_CBD_ETA3 vec2 MLKEM_CBD_ETA2 true seed
        else mlkem_get_noise_c k MLKEM_CBD_ETA3 vec2 MLKEM_CBD_ETA3 false seed)
  else if (k =? WC_ML_KEM_768_K)%nat then (0, mlkem_get_noise_c k MLKEM_CBD_ETA2 vec2 MLKEM_CBD_ETA2 poly seed)
  else if (k =? WC_ML_KEM_1024_K)%nat then (0, mlkem_get_noise_c k MLKEM_CBD_ETA2 vec2 MLKEM_CBD_ETA2 poly seed)
  else (BAD_STATE_E, ([], [], [], seed)).

End Expand.

(** ** Rejection sampling takes the first candidates below q *)

(** The candidates of a byte stream, FIPS 203, algorithm 7. *)
Fixpoint candidates (r : list Z) : list Z :=
  match r with
  | r0 :: r1 :: r2 :: r =>
      filter (fun v => v < MLKEM_Q) [r0 + 256 * (r1 mod 16); r1 / 16 + 16 * r2] ++ candidates r
  | _ => []
  end.

Lemma rej_v0_eq r0 r1 : 0 <= r0 < 256 -> 0 <= r1 < 256 -> rej_v0 r0 r1 = r0 + 256 * (r1 mod 16).
Proof.
  intros H0 H1. unfold rej_v0. change 0xFFF with (Z.ones 12).
  rewrite <- wrap_land_ones, Z.shiftr_div_pow2, join_fields by lia_mod.
  rewrite sext_small; unfold wrap; lia_mod.
Qed.

Lemma rej_v1_eq r1 r2 : 0 <= r1 < 256 -> 0 <= r2 < 256 -> rej_v1 r1 r2 = r1 / 16 + 16 * r2.
Proof.
  intros H0 H1. unfold rej_v1. change 0xFFF with (Z.ones 12).
  rewrite <- wrap_land_ones, Z.shiftr_div_pow2, join_fields by lia_mod.
  rewrite sext_small; unfold wrap; lia_mod.
Qed.

Lemma list_ind3 {A} (P : list A -> Prop) :
  P [] -> (forall a, P [a]) -> (forall a b, P [a; b]) ->
  (forall a b c l, P l -> P (a :: b :: c :: l)) -> forall l, P l.
Proof.
  intros H0 H1 H2 H3 l.
  assert (H : P l /\ (forall a, P (a :: l)) /\ (forall a b, P (a :: b :: l))); [|apply H].
  induction l as [|c l (IH0 & IH1 & IH2)]; [auto|]. split_and!; auto.
Qed.

Lemma rej_uniform_take len r : is_byte_list r ->
  mlkem_rej_uniform_c len r = take len (candidates r).
Proof.
  intros Hr. revert len Hr. induction r as [|a|a b|a b c r IH] using list_ind3; intros len Hr;
    [by destruct len..|].
  unfold is_byte_list in Hr. rewrite !Forall_cons in Hr. destruct Hr as (Ha & Hb & Hc & Hr).
  cbn [mlkem_rej_uniform_c candidates]. rewrite rej_v0_eq, rej_v1_eq by assumption.
  set (v0 := a + 256 * (b mod 16)). set (v1 := b / 16 + 16 * c).
  destruct len as [|len]; [done|]. cbn [Nat.ltb Nat.leb]. cbv zeta. rewrite !filter_cons, filter_nil.
  destruct (Z.ltb_spec v0 MLKEM_Q) as [L0|L0], (Z.ltb_spec v1 MLKEM_Q) as [L1|L1];
    rewrite ?(decide_True _ _ L0), ?(decide_True _ _ L1), ?(decide_False (P := v0 < _)), ?(decide_False (P := v1 < _)) by lia;
    cbn [length app]; rewrite ?andb_true_r, ?andb_false_r.
  - destruct len as [|len]; cbn [Nat.ltb Nat.leb Nat.sub take app length].
    + by destruct r as [|? [|? [|? r]]].
    + rewrite IH by done. cbn. by rewrite Nat.sub_0_r.
  - cbn [Nat.sub take app length]. rewrite Nat.sub_0_r, IH by done. done.
  - cbn [Nat.ltb Nat.leb app length Nat.sub take]. rewrite Nat.sub_0_r, IH by done. done.
  - cbn [app length Nat.sub]. by rewrite IH.
Qed.

Lemma candidates_app r s n : length r = (3 * n)%nat -> candidates (r ++ s) = candidates r ++ candidates s.
Proof.
  revert r. induction n as [|n IH]; intros r Hr.
  - destruct r; [done|]. cbn in Hr. lia.
  - destruct r as [|a [|b [|c r]]]; cbn in Hr; [lia..|]. cbn [app candidates].
    rewrite IH by lia. by rewrite app_assoc.
Qed.

Lemma candidates_range r : is_byte_list r -> Forall (fun v => 0 <= v < MLKEM_Q) (candidates r).
Proof.
  induction r as [|a|a b|a b c r IH] using list_ind3; intros Hr; [constructor..|].
  unfold is_byte_list in Hr. rewrite !Forall_cons in Hr. destruct Hr as (Ha & Hb & Hc & Hr).
  cbn [candidates]. apply Forall_app. split; [|by apply IH].
  apply Forall_forall. intros v Hv. apply list_elem_of_filter in Hv as [Hlt Hin].
  apply elem_of_cons in Hin as [->|Hin%list_elem_of_singleton]; [|subst v]; unfold in_word in *; (split; [lia_mod|done]).
Qed.

Section ExpandLaws.
Context `{KL : KemHashLaws}.

Lemma squeezeblocks_app seed m n :
  squeezeblocks seed 0 (m + n) = squeezeblocks seed 0 m ++ squeezeblocks seed m n.
Proof. unfold squeezeblocks. by rewrite seq_app, List.map_app, concat_app. Qed.

Lemma squeezeblocks_one seed m : squeezeblocks seed m 1 = shake128_block seed m.
Proof. unfold squeezeblocks. cbn [seq map concat]. apply app_nil_r. Qed.

Lemma squeezeblocks_bytes seed m n :
  length (squeezeblocks seed m n) = (3 * (56 * n))%nat /\ is_byte_list (squeezeblocks seed m n).
Proof.
  revert m. induction n as [|n IH]; intros m; [split; [done|constructor]|].
  destruct (IH (S m)) as [L F]. destruct (shake128_bytes seed m) as [L1 F1].
  unfold squeezeblocks in *. cbn [seq map concat]. rewrite length_app, L, L1. unfold XOF_BLOCK_SIZE.
  split; [lia|]. by apply Forall_app.
Qed.

(** What has been sampled after [m] blocks. *)
Definition sampled (seed : list Z) (m : nat) : list Z := take MLKEM_N (candidates (squeezeblocks seed 0 m)).

Lemma sampled_next seed m : sampled seed (S m) =
  sampled seed m ++ mlkem_rej_uniform_c (MLKEM_N - length (sampled seed m)) (shake128_block seed m).
Proof.
  unfold sampled. replace (S m) with (m + 1)%nat by lia.
  rewrite squeezeblocks_app, squeezeblocks_one.
  destruct (squeezeblocks_bytes seed 0 m) as [L _]. rewrite (candidates_app _ _ _ L).
  rewrite rej_uniform_take by apply shake128_bytes.
  rewrite take_app, length_take. f_equal. f_equal. lia.
Qed.

Lemma sampled_stable seed m n : (MLKEM_N <= length (sampled seed m))%nat -> sampled seed (m + n) = sampled seed m.
Proof.
  intros Hl. induction n as [|n IH]; [by rewrite Nat.add_0_r|].
  rewrite Nat.add_succ_r, sampled_next, IH.
  replace (MLKEM_N - _)%nat with 0%nat by lia.
  replace (mlkem_rej_uniform_c 0 _) with (@nil Z); [apply app_nil_r|].
  by destruct (shake128_block seed (m + n)) as [|? [|? [|? ?]]].
Qed.

Lemma rej_more_sampled fuel seed m :
  (MLKEM_N <= length (sampled seed (m + fuel)))%nat ->
  rej_more fuel seed m (sampled seed m) = Some (sampled seed (m + fuel)).
Proof.
  revert m. induction fuel as [|fuel IH]; intros m Hl; cbn [rej_more];
    destruct (Nat.ltb_spec (length (sampled seed m)) MLKEM_N) as [L|L].
  - rewrite Nat.add_0_r in Hl. lia.
  - by rewrite Nat.add_0_r.
  - rewrite <- sampled_next, IH; rewrite Nat.add_succ_comm; done.
  - by rewrite sampled_stable.
Qed.

Lemma gen_poly_sampled fuel seed :
  (MLKEM_N <= length (sampled seed (GEN_MATRIX_NBLOCKS + fuel)))%nat ->
  gen_poly fuel seed = Some (sampled seed (GEN_MATRIX_NBLOCKS + fuel)).
Proof.
  intros Hl. unfold gen_poly. rewrite rej_uniform_take by apply squeezeblocks_bytes.
  by apply rej_more_sampled.
Qed.

Lemma sampled_reduced seed m : Forall (fun v => 0 <= v < MLKEM_Q) (sampled seed m).
Proof. apply Forall_take, candidates_range, squeezeblocks_bytes. Qed.

Lemma rej_more_result fuel seed m a : rej_more fuel seed m (sampled seed m) = Some a ->
  exists n, a = sampled seed n /\ length a = MLKEM_N.
Proof.
  revert m. induction fuel as [|fuel IH]; intros m; cbn [rej_more];
    destruct (Nat.ltb_spec (length (sampled seed m)) MLKEM_N) as [L|L]; intros E;
    [done| |rewrite <- sampled_next in E; eauto|];
    injection E as <-; exists m; split; [done| |done|]; unfold sampled in *; rewrite length_take in *; lia.
Qed.

Lemma gen_poly_result fuel seed a : gen_poly fuel seed = Some a ->
  length a = MLKEM_N /\ Forall (fun v => 0 <= v < MLKEM_Q) a.
Proof.
  unfold gen_poly. rewrite rej_uniform_take by apply squeezeblocks_bytes.
  intros (n & -> & L)%rej_more_result. split; [done|apply sampled_reduced].
Qed.

End ExpandLaws.

(** ** The noise is the centered binomial distribution of the bits *)

(** Bit [n] of a byte string, the least significant of each byte first. *)
Definition bit_of (r : list Z) (n : nat) : Z := Z.b2z (Z.testbit (nth (n / 8) r 0) (Z.of_nat (n mod 8))).

Definition count_bits (r : list Z) (n e : nat) : Z := foldr Z.add 0 (map (fun j => bit_of r (n + j)) (seq 0 e)).

(** FIPS 203, algorithm 8. *)
Definition SamplePolyCBD (eta : nat) (r : list Z) : list Z :=
  map (fun i => count_bits r (2 * i * eta) eta - count_bits r (2 * i * eta + eta) eta) (seq 0 MLKEM_N).

(** The mask with every [e]th of [e * n] bits. *)
Fixpoint stripes (e : Z) (n : nat) : Z :=
  match n with O => 0 | S n => 1 + 2 ^ e * stripes e n end.

(** Adding the masked word, the word shifted by one, ... sums every group of bits. *)
Definition group_bits (e n : nat) (t : Z) : Z :=
  foldr Z.add 0 (map (fun j => Z.land (Z.shiftr t (Z.of_nat j)) (stripes (Z.of_nat e) n)) (seq 0 e)).

Lemma land_stripe e x m : 1 <= e ->
  Z.land x (1 + 2 ^ e * m) = Z.b2z (Z.testbit x 0) + 2 ^ e * Z.land (Z.shiftr x e) m.
Proof.
  intros He. pose proof (Z.pow_pos_nonneg 2 e ltac:(lia) ltac:(lia)) as Hp.
  assert (Hj : forall b y, 0 <= b < 2 -> Z.lor b (Z.shiftl y e) = b + 2 ^ e * y).
  { intros b y Hb. pose proof (Z.pow_le_mono_r 2 1 e ltac:(lia) He).
    rewrite Z.lor_comm, (lor_shiftl_add e); lia. }
  rewrite <- (Hj 1), <- Hj by (try lia; destruct (Z.testbit x 0); cbn; lia).
  apply Z.bits_inj'. intros i Hi. rewrite Z.land_spec, !Z.lor_spec, !Z.shiftl_spec by lia.
  destruct (Z.lt_ge_cases i e) as [L|L].
  - rewrite (Z.testbit_neg_r _ (i - e)) by lia. rewrite (Z.testbit_neg_r _ (i - e)) by lia.
    rewrite !orb_false_r. destruct (decide (i = 0)) as [->|Hn].
    + destruct (Z.testbit x 0); done.
    + rewrite (testbit_high 1 1), (testbit_high 1 (Z.b2z _)) by (try lia; destruct (Z.testbit x 0); cbn; lia).
      by rewrite andb_false_r.
  - rewrite (testbit_high 1 1), (testbit_high 1 (Z.b2z _)) by (try lia; destruct (Z.testbit x 0); cbn; lia).
    rewrite Z.land_spec, Z.shiftr_spec by lia. cbn [orb]. by replace (i - e + e) with i by lia.
Qed.

(** The number of ones among bits [n], ..., [n + e - 1] of a word. *)
Definition ones_at (t : Z) (n e : nat) : Z :=
  foldr Z.add 0 (map (fun j => Z.b2z (Z.testbit t (Z.of_nat (n + j)))) (seq 0 e)).

Lemma foldr_add_lin (f g h : nat -> Z) c l : (forall j, f j = g j + c * h j) ->
  foldr Z.add 0 (map f l) = foldr Z.add 0 (map g l) + c * foldr Z.add 0 (map h l).
Proof. intros Hf. induction l as [|j l IH]; cbn [map foldr]; [lia|]. rewrite IH, Hf. lia. Qed.

Lemma group_bits_S e n t : (1 <= e)%nat ->
  group_bits e (S n) t = ones_at t 0 e + 2 ^ Z.of_nat e * group_bits e n (Z.shiftr t (Z.of_nat e)).
Proof.
  intros He. unfold group_bits, ones_at. apply foldr_add_lin. intros j.
  cbn [stripes]. rewrite land_stripe by lia. rewrite Z.shiftr_spec, !Z.shiftr_shiftr by lia.
  by rewrite (Z.add_comm (Z.of_nat e)).
Qed.

Lemma ones_at_range t n e : 0 <= ones_at t n e <= Z.of_nat e.
Proof.
  unfold ones_at. rewrite <- (length_seq e 0) at 3. induction (seq 0 e) as [|j l IH]; cbn [map foldr length]; [lia|].
  destruct (Z.testbit t _); cbn [Z.b2z]; lia.
Qed.

Lemma ones_at_shift t n m e : ones_at (Z.shiftr t (Z.of_nat m)) n e = ones_at t (m + n) e.
Proof.
  unfold ones_at. f_equal. apply map_ext. intros j. rewrite Z.shiftr_spec by lia. do 2 f_equal. lia.
Qed.

Lemma pow_gt_nat e : Z.of_nat e < 2 ^ Z.of_nat e.
Proof. apply Z.pow_gt_lin_r; lia. Qed.

(** Every group holds its own count. *)
Lemma group_bits_digit e n k t : (1 <= e)%nat -> (k < n)%nat ->
  Z.land (Z.shiftr (group_bits e n t) (Z.of_nat (e * k))) (Z.ones (Z.of_nat e)) = ones_at t (e * k) e.
Proof.
  intros He. revert n t. induction k as [|k IH]; intros n t Hk; (destruct n as [|n]; [lia|]);
    rewrite group_bits_S by done; pose proof (ones_at_range t 0 e) as Hr; pose proof (pow_gt_nat e) as Hp.
  - rewrite Nat.mul_0_r, Z.shiftr_0_r, <- wrap_land_ones by lia. unfold wrap.
    rewrite (Z.mul_comm (2 ^ _)), Z_mod_plus_full. apply Z.mod_small. lia.
  - replace (Z.of_nat (e * S k)) with (Z.of_nat e + Z.of_nat (e * k)) by lia.
    rewrite <- Z.shiftr_shiftr by lia.
    rewrite (Z.shiftr_div_pow2 (ones_at t 0 e + _)) by lia.
    rewrite (Z.mul_comm (2 ^ _)), Z.div_add, Z.div_small, Z.add_0_l by lia.
    rewrite IH by lia. rewrite ones_at_shift. f_equal. lia.
Qed.

Lemma group_bits_nonneg e n t : (1 <= e)%nat -> 0 <= group_bits e n t < 2 ^ Z.of_nat (e * n).
Proof.
  intros He. revert t. induction n as [|n IH]; intros t.
  { unfold group_bits. cbn [stripes]. rewrite Nat.mul_0_r.
    induction (seq 0 e) as [|j l IH]; cbn [map foldr]; [done|]. rewrite Z.land_0_r. done. }
  rewrite group_bits_S by done. pose proof (ones_at_range t 0 e). pose proof (pow_gt_nat e).
  specialize (IH (Z.shiftr t (Z.of_nat e))).
  replace (Z.of_nat (e * S n)) with (Z.of_nat e + Z.of_nat (e * n)) by lia.
  rewrite Z.pow_add_r by lia. nia.
Qed.

(** Bits of a little-endian number are bits of its bytes. *)
Definition le_bytes (l : list Z) : Z := foldr (fun b acc => b + 256 * acc) 0 l.

Lemma le_bytes_testbit l n : is_byte_list l -> Z.b2z (Z.testbit (le_bytes l) (Z.of_nat n)) = bit_of l n.
Proof.
  unfold bit_of. intros Hl. revert n. induction Hl as [|b l Hb Hl IH]; intros n.
  { cbn [le_bytes foldr]. rewrite Z.testbit_0_l. by destruct (n / 8)%nat; cbn [nth]; rewrite Z.testbit_0_l. }
  cbn [le_bytes foldr]. fold (le_bytes l). unfold is_u8, in_word in Hb.
  rewrite Z.add_comm, Z.mul_comm. change 256 with (2 ^ 8).
  rewrite <- (lor_shiftl_add 8), Z.lor_spec, Z.shiftl_spec by (cbn in *; lia).
  destruct (Nat.lt_ge_cases n 8) as [L|L].
  - rewrite Z.testbit_neg_r, orb_false_l by lia. by rewrite Nat.div_small, Nat.mod_small by done.
  - rewrite (testbit_high 8 b), orb_false_r by (cbn in *; lia).
    replace (Z.of_nat n - 8) with (Z.of_nat (n - 8)) by lia. rewrite IH.
    replace n with (n - 8 + 1 * 8)%nat at 3 4 by lia.
    rewrite Nat.div_add, Nat.Div0.mod_add by lia. by rewrite Nat.add_1_r.
Qed.

Lemma bit_of_chunk r o n m : (n < 8 * m)%nat ->
  bit_of (map (fun i => nth (o + i) r 0) (seq 0 m)) n = bit_of r (8 * o + n).
Proof.
  intros Hn. unfold bit_of. rewrite (Nat.mul_comm 8), Nat.div_add_l, (Nat.add_comm (o * 8)), Nat.Div0.mod_add by lia.
  assert (Hk : (n / 8 < m)%nat) by (apply Nat.Div0.div_lt_upper_bound; lia).
  rewrite (nth_indep _ 0 (nth (o + 0) r 0)) by (by rewrite length_map, length_seq).
  rewrite (map_nth (fun i => nth (o + i) r 0)), seq_nth by done. done.
Qed.

Lemma chunk_bytes r o m : is_byte_list r -> is_byte_list (map (fun i => nth (o + i) r 0) (seq 0 m)).
Proof. intros Hr. apply Forall_fmap, Forall_forall. intros i _. cbn. by apply nth_byte. Qed.

Lemma ones_at_chunk r o n e m : is_byte_list r -> (n + e <= 8 * m)%nat ->
  ones_at (le_bytes (map (fun i => nth (o + i) r 0) (seq 0 m))) n e = count_bits r (8 * o + n) e.
Proof.
  intros Hr Hn. unfold ones_at, count_bits. f_equal. apply map_ext_in. intros j Hj%in_seq.
  rewrite le_bytes_testbit by by apply chunk_bytes. rewrite bit_of_chunk by lia. f_equal. lia.
Qed.

Lemma group_sub e n k t : (1 <= e)%nat -> (2 * k + 1 < n)%nat -> (e <= 15)%nat ->
  s16 (Z.land (Z.shiftr (group_bits e n t) (Z.of_nat (e * (2 * k)))) (Z.ones (Z.of_nat e))) -
  s16 (Z.land (Z.shiftr (group_bits e n t) (Z.of_nat (e * (2 * k + 1)))) (Z.ones (Z.of_nat e))) =
  ones_at t (e * (2 * k)) e - ones_at t (e * (2 * k + 1)) e.
Proof.
  intros He Hk H15. rewrite !group_bits_digit by lia.
  pose proof (ones_at_range t (e * (2 * k)) e). pose proof (ones_at_range t (e * (2 * k + 1)) e).
  rewrite !sext_small by lia. done.
Qed.

Lemma emit_pointwise s b (G : nat -> Z) : emit s b (fun i => map (fun c => G (i + c)%nat) (seq 0 s)) = map G (seq 0 (b / s * s)).
Proof.
  unfold emit. induction (b / s)%nat as [|n IH]; [done|].
  rewrite seq_S, List.map_app, concat_app, IH. cbn [Nat.add map concat]. rewrite app_nil_r.
  rewrite Nat.mul_succ_l, seq_app, List.map_app. cbn [Nat.add]. f_equal.
  replace (seq (n * s) s) with (map (Nat.add (n * s)) (seq 0 s)); [symmetry; apply map_map|].
  pose proof (fmap_add_seq (n * s) 0 s) as E. by rewrite Nat.add_0_r in E.
Qed.

Lemma cbd_eta2_spec r : is_byte_list r -> mlkem_cbd_eta2 r = SamplePolyCBD 2 r.
Proof.
  intros Hr. unfold SamplePolyCBD. change (seq 0 MLKEM_N) with (seq 0 (MLKEM_N / 16 * 16)). rewrite <- emit_pointwise.
  apply emit_ext; [done|]. intros k _. cbv zeta. set (t := le64 r (k * 16 / 16 * 8)).
  replace (u64 _) with (group_bits 2 32 t).
  2: { pose proof (group_bits_nonneg 2 32 t ltac:(lia)) as Hg. symmetry.
       replace (Z.land _ _ + _) with (group_bits 2 32 t); [by apply (wrap_small 64)|].
       unfold group_bits. cbn [seq map foldr]. rewrite Z.add_0_r. done. }
  apply map_ext_in. intros c Hc%in_seq. unfold ETA2_SUB.
  replace (Z.of_nat c * 4 + 0) with (Z.of_nat (2 * (2 * c))) by lia.
  replace (Z.of_nat c * 4 + 2) with (Z.of_nat (2 * (2 * c + 1))) by lia.
  change 0x3 with (Z.ones (Z.of_nat 2)). rewrite group_sub by lia.
  subst t. rewrite Nat.div_mul by lia. unfold le64.
  change (foldr (fun b acc => b + 256 * acc) 0) with le_bytes. rewrite !ones_at_chunk by (done || lia).
  f_equal; f_equal; lia.
Qed.

Lemma le48_eq r o : is_byte_list r -> le48 r o = le_bytes (map (fun i => nth (o + i) r 0) (seq 0 6)).
Proof.
  intros Hr. unfold le48. cbn [map seq le_bytes foldr].
  set (b i := nth (o + i) r 0). assert (H : forall i, 0 <= b i < 2 ^ 8) by (intros i; by apply nth_byte).
  transitivity (Z.lor (b 0%nat) (Z.shiftl (Z.lor (b 1%nat) (Z.shiftl (Z.lor (b 2%nat) (Z.shiftl
    (Z.lor (b 3%nat) (Z.shiftl (Z.lor (b 4%nat) (Z.shiftl (b 5%nat) 8)) 8)) 8)) 8)) 8)).
  - rewrite !Z.shiftl_lor, !Z.shiftl_shiftl by lia. rewrite Z.shiftl_0_r. done.
  - rewrite !join_fields by (done || lia). change (2 ^ 8) with 256. subst b. cbv beta. lia.
Qed.

Lemma cbd_eta3_spec r : is_byte_list r -> mlkem_cbd_eta3 r = SamplePolyCBD 3 r.
Proof.
  intros Hr. unfold SamplePolyCBD. change (seq 0 MLKEM_N) with (seq 0 (MLKEM_N / 8 * 8)). rewrite <- emit_pointwise.
  apply emit_ext; [done|]. intros k _. cbv zeta. set (t := le48 r (k * 8 / 8 * 6)).
  replace (u64 (u64 _ + _)) with (group_bits 3 16 t).
  2: { pose proof (group_bits_nonneg 3 16 t ltac:(lia)) as Hg. symmetry. rewrite wrap_add_l.
       replace (_ + Z.land (Z.shiftr t 2) _) with (group_bits 3 16 t);
         [apply (wrap_small 64); unfold in_word; cbn in *; lia|].
       unfold group_bits. cbn [seq map foldr]. rewrite Z.add_0_r, Z.add_assoc. done. }
  apply map_ext_in. intros c Hc%in_seq. unfold ETA3_SUB.
  replace (Z.of_nat c * 6 + 0) with (Z.of_nat (3 * (2 * c))) by lia.
  replace (Z.of_nat c * 6 + 3) with (Z.of_nat (3 * (2 * c + 1))) by lia.
  change 0x7 with (Z.ones (Z.of_nat 3)). rewrite group_sub by lia.
  subst t. rewrite Nat.div_mul by lia. rewrite le48_eq by done. rewrite !ones_at_chunk by (done || lia).
  f_equal; f_equal; lia.
Qed.

Lemma count_bits_range r n e : 0 <= count_bits r n e <= Z.of_nat e.
Proof.
  unfold count_bits. rewrite <- (length_seq e 0) at 3. induction (seq 0 e) as [|j l IH]; cbn [map foldr length]; [lia|].
  assert (Hb : 0 <= bit_of r (n + j) <= 1) by (unfold bit_of; destruct (Z.testbit _ _); cbn; lia). lia.
Qed.

Lemma SamplePolyCBD_within eta r : within (Z.of_nat eta) (SamplePolyCBD eta r).
Proof.
  unfold SamplePolyCBD. split; [by rewrite length_map, length_seq|].
  apply Forall_fmap, Forall_forall. intros i _. cbv beta.
  pose proof (count_bits_range r (2 * i * eta) eta). pose proof (count_bits_range r (2 * i * eta + eta) eta).
  apply Z.abs_le. lia.
Qed.

(** The noise sampled from a byte string is FIPS 203's SamplePolyCBD: the
    difference of the numbers of ones in two groups of eta bits.  The code adds
    masked and shifted 64-bit words to count all groups of a word at once; no
    carry crosses a group, for either eta, and every coefficient is within eta. *)
Theorem noise_is_centered_binomial r (Hr : is_byte_list r) :
  mlkem_cbd_eta2 r = SamplePolyCBD 2 r /\ mlkem_cbd_eta3 r = SamplePolyCBD 3 r /\
  within 2 (mlkem_cbd_eta2 r) /\ within 3 (mlkem_cbd_eta3 r).
Proof.
  rewrite cbd_eta2_spec, cbd_eta3_spec by done.
  split_and!; [done|done|apply (SamplePolyCBD_within 2)|apply (SamplePolyCBD_within 3)].
Qed.

Lemma noise_is_centered_binomial_witness :
  is_byte_list [0xB4; 0x1D; 0x7F] /\ take 6 (mlkem_cbd_eta2 [0xB4; 0x1D; 0x7F]) = [-1; 1; -1; 1; 0; 1] /\
  mlkem_cbd_eta2 [0xB4; 0x1D; 0x7F] = SamplePolyCBD 2 [0xB4; 0x1D; 0x7F].
Proof.
  assert (H : is_byte_list [0xB4; 0x1D; 0x7F]) by (repeat constructor; done).
  split; [exact H|split; [vm_compute; reflexivity|apply (noise_is_centered_binomial [0xB4; 0x1D; 0x7F] H)]].
Defined.

Section Matrix.
Context `{KL : KemHashLaws}.

(** C36: row [i] of the public matrix is FIPS 203's SampleNTT of the seed and the
    indices: the first 256 values below q among the 12-bit integers of the
    extendable output, however many blocks beyond the first three that takes
    (all [m] blocks hold enough values and the fuel allows [m - 3] turns of the
    loop).  Every value is reduced, and the transposed matrix is the transpose. *)
Theorem matrix_rows_are_rejection_sampled fuel m k seed i
    (Hm : (m <= GEN_MATRIX_NBLOCKS + fuel)%nat)
    (Henough : forall j tr, (j < k)%nat ->
       (MLKEM_N <= length (candidates (squeezeblocks (extSeed_ij seed tr i j) 0 m)))%nat) :
  let SampleNTT s := take MLKEM_N (candidates (squeezeblocks s 0 m)) in
  mlkem_gen_matrix_i fuel true k seed i false = Some (0, map (fun j => SampleNTT (extSeed_ij seed false i j)) (seq 0 k)) /\
  mlkem_gen_matrix_i fuel true k seed i true = Some (0, map (fun j => SampleNTT (extSeed_ij seed false j i)) (seq 0 k)) /\
  Forall (Forall (fun v => 0 <= v < MLKEM_Q)) (map (fun j => SampleNTT (extSeed_ij seed false i j)) (seq 0 k)) /\
  mlkem_gen_matrix_i fuel false k seed i false = Some (MEMORY_E, []).
Proof.
  cbv zeta. assert (Hrow : forall tr, mapM (fun j => gen_poly fuel (extSeed_ij seed tr i j)) (seq 0 k) =
    Some (map (fun j => sampled (extSeed_ij seed tr i j) m) (seq 0 k))).
  { intros tr. apply mapM_Some, Forall2_fmap_r, Forall_Forall2_diag, Forall_forall. intros j Hj%elem_of_seq.
    specialize (Henough j tr ltac:(lia)).
    assert (Hl : (MLKEM_N <= length (sampled (extSeed_ij seed tr i j) m))%nat)
      by (unfold sampled; rewrite length_take; lia).
    pose proof (sampled_stable _ _ (GEN_MATRIX_NBLOCKS + fuel - m) Hl) as E.
    replace (m + _)%nat with (GEN_MATRIX_NBLOCKS + fuel)%nat in E by lia.
    unfold compose. rewrite <- E. apply gen_poly_sampled. by rewrite E. }
  unfold mlkem_gen_matrix_i. rewrite !Hrow. split_and!; try done.
  apply Forall_fmap, Forall_forall. intros j _. apply sampled_reduced.
Qed.

End Matrix.

(** Hash functions with the documented lengths; the first block of the
    extendable output is rejected as a whole. *)
Definition toy_hash : KemHash := {|
  shake128_block s i := repeat (if (i =? 0)%nat then 255 else 1) XOF_BLOCK_SIZE;
  shake256 s n := map (fun i => u8 (foldr Z.add 0 s + Z.of_nat i)) (seq 0 n);
  sha3_256 s := repeat 5 32;
  sha3_512 s := repeat 7 64 |}.

Lemma bytes_repeat x n : 0 <= x < 256 -> length (repeat x n) = n /\ is_byte_list (repeat x n).
Proof. intros Hx. split; [apply repeat_length|]. apply Forall_forall. intros y Hy%list_elem_of_In%repeat_spec. by subst y. Qed.

#[export] Instance toy_hash_laws : KemHashLaws toy_hash.
Proof.
  split; intros s; [intros i|intros n|..]; cbn [shake128_block shake256 sha3_256 sha3_512 toy_hash];
    [apply bytes_repeat; destruct (i =? 0)%nat; lia| |apply bytes_repeat; lia|apply bytes_repeat; lia].
  split; [by rewrite length_map, length_seq|].
  apply Forall_fmap, Forall_forall. intros i _. by apply (wrap_range 8).
Qed.

Lemma matrix_rows_are_rejection_sampled_witness :
  exists row, mlkem_gen_matrix_i (H := toy_hash) 1 true 2 (repeat 3%Z 32) 0 false = Some (0, row) /\
  mlkem_gen_matrix_i (H := toy_hash) 0 true 2 (repeat 3%Z 32) 0 false = None /\ map length row = [256%nat; 256%nat].
Proof.
  assert (He : forall j tr, (j < 2)%nat -> (MLKEM_N <= length (candidates
    (squeezeblocks (H := toy_hash) (extSeed_ij (repeat 3%Z 32) tr 0 j) 0 4)))%nat).
  { intros j tr _. apply Nat.leb_le. vm_compute. reflexivity. }
  pose proof (matrix_rows_are_rejection_sampled (H := toy_hash) 1 4 2 (repeat 3%Z 32) 0
    ltac:(unfold GEN_MATRIX_NBLOCKS; lia) He) as P. cbv zeta in P.
  eexists. split; [exact (proj1 P)|]. clear P. split; vm_compute; reflexivity.
Defined.
