(* ===== verification/MlkemCrt.v ===== *)
(** * The transform is an isomorphism of rings

    Facts about the transform of src/boot/wolfcrypt/src/wc_mlkem_poly.c that the
    public-key scheme needs: a polynomial is determined by its transform, every
    sampled array is the transform of a polynomial, and the ring laws of
    Z_q[X]/(X^256 + 1), which follow through the transform. *)

From S2P Require Import Prelude.
From S2P Require Import MlkemReduce.
From S2P Require Import MlkemNtt.
From S2P Require Import MlkemRing.
From S2P Require Import MlkemMul.

Definition peq : list Z -> list Z -> Prop := Forall2 eqq.
Definition pneg (f : list Z) : list Z := pscale (-1) f.
Definition psub (f g : list Z) : list Z := padd f (pneg g).
Definition is_poly (f : list Z) : Prop := length f = MLKEM_N.

#[export] Instance peq_equiv : Equivalence peq.
Proof. unfold peq. apply _. Qed.

Lemma eval2_cong g f f' : peq f f' -> (eval2 g f).1 == (eval2 g f').1 /\ (eval2 g f).2 == (eval2 g f').2.
Proof.
  induction 1 as [|x y f f' Hxy _ [IH1 IH2]]; [done|]. cbn [eval2].
  destruct (eval2 g f), (eval2 g f'). cbn [fst snd] in *. by rewrite Hxy, IH1, IH2.
Qed.

(** ** Every array is a transform *)

Definition bounds_ok (B : Z) (os : list (option shadow)) : bool :=
  forallb (fun o => match o with Some s => (- B <=? sh_lo s) && (sh_hi s <=? B) | None => false end) os.

Lemma bounds_ok_sound B f h os : bounds_ok B os = true -> Forall2 (shadows f) h os ->
  Forall (fun x => Z.abs x <= B) h.
Proof.
  intros Hb H. induction H as [|x o h os Hx _ IH]; [constructor|]. cbn [bounds_ok forallb] in Hb.
  apply andb_true_iff in Hb as [Ho Hb]. constructor; [|by apply IH].
  destruct o as [s|]; [|done]. cbn in Hx. apply Z.abs_le. lia.
Qed.

Lemma invntt_units_bounds : bounds_ok 1810 (invntt (shadow_input 4095 (units 0))) = true.
Proof. vm_compute. reflexivity. Qed.

Lemma ntt_invntt_units :
  check_rows 0 MLKEM_Q (ntt (invntt (shadow_input 4095 (units 0)))) (map (form_scale MONT_R) (units 0)) = true.
Proof. vm_compute. reflexivity. Qed.

Lemma ntt_invntt h : within 4095 h ->
  within 1810 (mlkem_invntt h) /\ Forall2 (fun x y => x == MONT_R * y) (mlkem_ntt (mlkem_invntt h)) h.
Proof.
  intros [Hl Hh]. pose proof invntt_units_bounds as Hb. pose proof ntt_invntt_units as Hc.
  pose proof (units_dot h [] [] Hl) as Hu. rewrite app_nil_r in Hu.
  pose proof (c_invntt h h _ (shadow_input_shadows 4095 h h (units 0) ltac:(done) Hh Hu)) as Hi.
  split.
  - split; [unfold mlkem_invntt; by rewrite invntt_length|exact (bounds_ok_sound _ _ _ _ Hb Hi)].
  - assert (Hlen : length (mlkem_ntt (mlkem_invntt h)) = MLKEM_N).
    { unfold mlkem_ntt. rewrite ntt_length. unfold mlkem_invntt. by rewrite invntt_length. }
    assert (Hru : length (map (form_scale MONT_R) (units 0)) = MLKEM_N) by by rewrite length_map, units_length.
    pose proof (shadow_run h _ _ _ _ _ Hlen Hru (c_ntt _ _ _ Hi) Hc) as Hrun. clear Hc.
    apply Forall2_same_length_lookup_2; [congruence|]. intros i x y Hx Hy.
    pose proof (lookup_lt_Some _ _ _ Hy) as Hi'. rewrite Hl in Hi'.
    assert (Hw : map (form_scale MONT_R) (units 0) !! i = Some (form_scale MONT_R (unit_form i)))
      by (rewrite list_lookup_fmap, units_lookup by done; done).
    destruct (Forall2_lookup_lr _ _ _ _ _ _ Hrun Hx Hw) as [_ Hxv].
    rewrite Hxv, form_scale_dot, dot_unit, (nth_lookup_Some _ _ _ _ Hy). done.
Qed.

Lemma nth_Forall2_mul c h h' i : Forall2 (fun x y => x == c * y) h h' -> nth i h 0 == c * nth i h' 0.
Proof.
  intros H. revert i. induction H as [|x y h h' Hxy _ IH]; intros [|i]; cbn [nth]; try done; try (by rewrite Z.mul_0_r).
Qed.

(** The coefficients sampled for the public matrix are a transform. *)
Lemma transform_onto h : within 4095 h -> exists f, is_poly f /\ represents h f.
Proof.
  intros Hh. destruct (ntt_invntt h Hh) as [Hw Hb].
  destruct (ntt_correct (mlkem_invntt h)) as [[_ Hrep] _];
    [split; [apply Hw|]; eapply Forall_impl; [apply Hw|]; cbn; lia|].
  exists (pscale MONT_RINV (mlkem_invntt h)). split; [unfold is_poly, pscale; rewrite length_map; apply Hw|].
  split; [apply Hh|]. intros i Hi. destruct (Hrep i Hi) as [H0 H1].
  destruct (eval2_pscale (root i) MONT_RINV (mlkem_invntt h)) as [-> ->]. rewrite <- H0, <- H1.
  rewrite !(nth_Forall2_mul _ _ _ _ Hb), !Z.mul_assoc. change (MONT_RINV * MONT_R) with (1 + 116 * MLKEM_Q).
  split; apply eqq_divide; [exists (- 116 * nth (2 * i) h 0)|exists (- 116 * nth (2 * i + 1) h 0)]; lia.
Qed.

(** ** A polynomial is determined by its transform *)

Definition same_residues (f g : list Z) : Prop := forall i, (i < 128)%nat ->
  (eval2 (root i) f).1 == (eval2 (root i) g).1 /\ (eval2 (root i) f).2 == (eval2 (root i) g).2.

Lemma peq_mod f : peq (map (fun x => x mod MLKEM_Q) f) f.
Proof. apply Forall2_fmap_l, Forall_Forall2_diag, Forall_forall. intros x _. apply eqq_mod. Qed.

Lemma represents_residues h f g : represents h f -> same_residues f g -> represents h g.
Proof.
  intros [Hl H] Hfg. split; [done|]. intros i Hi.
  destruct (H i Hi) as [-> ->]. apply Hfg, Hi.
Qed.

Lemma peq_residues f g : peq f g -> same_residues f g.
Proof. intros H i _. by apply eval2_cong. Qed.

Lemma residues_peq f g : is_poly f -> is_poly g -> same_residues f g -> peq f g.
Proof.
  intros Hf Hg H. set (f' := map (fun x => x mod MLKEM_Q) f).
  assert (Hw : within 15000 f').
  { split; [unfold f'; by rewrite length_map|]. apply Forall_fmap, Forall_forall. intros x _. cbn.
    pose proof (Z.mod_pos_bound x MLKEM_Q ltac:(done)). unfold MLKEM_Q in *. lia. }
  destruct (ntt_correct f' Hw) as [Hrep Hr].
  assert (Hh : within 4095 (mlkem_ntt f')) by (apply (within_range 4095 0 MLKEM_Q); [apply Hrep|done..]).
  pose proof (represents_residues _ _ f Hrep (peq_residues _ _ (peq_mod f))) as Hrf.
  pose proof (represents_residues _ _ g Hrf H) as Hrg.
  destruct (invntt_correct _ _ Hf Hh Hrf) as [E1 _]. destruct (invntt_correct _ _ Hg Hh Hrg) as [E2 _].
  apply Forall2_same_length_lookup_2; [congruence|]. intros i x y Hx Hy.
  destruct (Forall2_lookup_r _ _ _ _ _ E1 Hx) as (z & Hz & Hzx).
  pose proof (Forall2_lookup_lr _ _ _ _ _ _ E2 Hz Hy) as Hzy. cbn in Hzx, Hzy.
  apply (eqq_cancel MONT_R MONT_RINV); [reflexivity|]. by rewrite <- Hzx, <- Hzy.
Qed.

(** ** Ring laws *)

Lemma padd_length f g : is_poly f -> is_poly g -> is_poly (padd f g).
Proof. unfold is_poly, padd. intros Hf Hg. rewrite length_zip_with. lia. Qed.

Lemma pneg_length f : is_poly f -> is_poly (pneg f).
Proof. unfold is_poly, pneg, pscale. by rewrite length_map. Qed.

Lemma pmul_is_poly f g : is_poly g -> is_poly (pmul f g).
Proof. apply pmul_length. Qed.

Lemma zeros_is_poly : is_poly (replicate MLKEM_N 0).
Proof. apply length_replicate. Qed.

(** ** Residues modulo one factor: pairs, up to congruence *)

Definition eqq2 (x y : Z * Z) : Prop := x.1 == y.1 /\ x.2 == y.2.
Definition add2 (x y : Z * Z) : Z * Z := (x.1 + y.1, x.2 + y.2).
Definition sub2 (x y : Z * Z) : Z * Z := (x.1 - y.1, x.2 - y.2).
Infix "==2" := eqq2 (at level 70) : mlkem_scope.

#[export] Instance eqq2_equiv : Equivalence eqq2.
Proof.
  split; unfold eqq2; [done|intros x y [? ?]; done|].
  intros x y z [H1 H2] [H3 H4]. by rewrite H1, H2, H3, H4.
Qed.

#[export] Instance add2_proper : Proper (eqq2 ==> eqq2 ==> eqq2) add2.
Proof. intros x x' [H1 H2] y y' [H3 H4]. unfold eqq2, add2. cbn [fst snd]. by rewrite H1, H2, H3, H4. Qed.

#[export] Instance sub2_proper : Proper (eqq2 ==> eqq2 ==> eqq2) sub2.
Proof. intros x x' [H1 H2] y y' [H3 H4]. unfold eqq2, sub2. cbn [fst snd]. by rewrite H1, H2, H3, H4. Qed.

#[export] Instance mul2_proper g : Proper (eqq2 ==> eqq2 ==> eqq2) (mul2 g).
Proof. intros x x' [H1 H2] y y' [H3 H4]. unfold eqq2, mul2. cbn [fst snd]. by rewrite H1, H2, H3, H4. Qed.

#[export] Instance eval2_proper g : Proper (peq ==> eqq2) (eval2 g).
Proof. intros f f' H. by apply eval2_cong. Qed.

Create HintDb poly.
#[export] Hint Resolve padd_length pneg_length pmul_is_poly zeros_is_poly : poly.

Lemma psum2 f0 f1 g0 g1 :
  psum [f0; f1] [g0; g1] 2 = padd (padd (replicate MLKEM_N 0) (pmul f0 g0)) (pmul f1 g1).
Proof. reflexivity. Qed.

Lemma psum2_is_poly f0 f1 g0 g1 : is_poly g0 -> is_poly g1 -> is_poly (psum [f0; f1] [g0; g1] 2).
Proof. intros. rewrite psum2. auto with poly. Qed.
#[export] Hint Resolve psum2_is_poly : poly.

Lemma psub_is_poly f g : is_poly f -> is_poly g -> is_poly (psub f g).
Proof. unfold psub. auto with poly. Qed.
#[export] Hint Resolve psub_is_poly : poly.

Lemma padd_res g f h : is_poly f -> is_poly h -> eval2 g (padd f h) ==2 add2 (eval2 g f) (eval2 g h).
Proof. intros Hf Hh. destruct (eval2_padd g f h) as [H1 H2]; [congruence|]. split; [by rewrite H1|by rewrite H2]. Qed.

Lemma psub_res g f h : is_poly f -> is_poly h -> eval2 g (psub f h) ==2 sub2 (eval2 g f) (eval2 g h).
Proof.
  intros Hf Hh. unfold psub. rewrite padd_res by auto with poly.
  destruct (eval2_pscale g (-1) h) as [H1 H2]. split; cbn [fst snd add2 sub2]; unfold pneg; rewrite ?H1, ?H2;
    apply (eqq_diff _ _ 0); lia.
Qed.

Lemma psum2_res i f0 f1 g0 g1 : (i < 128)%nat -> is_poly g0 -> is_poly g1 ->
  eval2 (root i) (psum [f0; f1] [g0; g1] 2) ==2
  add2 (mul2 (root i) (eval2 (root i) f0) (eval2 (root i) g0)) (mul2 (root i) (eval2 (root i) f1) (eval2 (root i) g1)).
Proof.
  intros Hi H0 H1. rewrite psum2, !padd_res, eval2_replicate0 by auto with poly.
  assert (P : forall f g, is_poly g -> eval2 (root i) (pmul f g) ==2 mul2 (root i) (eval2 (root i) f) (eval2 (root i) g)).
  { intros f g Hg. destruct (eval2_pmul (root i) f g Hg (root_power i Hi)). by split. }
  rewrite !P by done. split; cbn [fst snd add2]; by rewrite Z.add_0_l.
Qed.

#[export] Instance padd_peq : Proper (peq ==> peq ==> peq) padd.
Proof.
  intros f f' Hf. unfold padd. induction Hf as [|x y f f' Hxy _ IH]; intros g g' Hg; [constructor|].
  destruct Hg as [|z z' g g' Hz Hg]; cbn; [constructor|]. constructor; [by rewrite Hxy, Hz|by apply IH].
Qed.

#[export] Instance pneg_peq : Proper (peq ==> peq) pneg.
Proof.
  intros f f' Hf. unfold pneg, pscale. apply Forall2_fmap. eapply Forall2_impl; [exact Hf|].
  intros x y Hxy. by rewrite Hxy.
Qed.

#[export] Instance psub_peq : Proper (peq ==> peq ==> peq) psub.
Proof. intros f f' Hf g g' Hg. unfold psub. by rewrite Hf, Hg. Qed.

Lemma psum2_peq f0 f1 g0 g1 g0' g1' : is_poly g0 -> is_poly g1 -> is_poly g0' -> is_poly g1' ->
  peq g0 g0' -> peq g1 g1' -> peq (psum [f0; f1] [g0; g1] 2) (psum [f0; f1] [g0'; g1'] 2).
Proof.
  intros L0 L1 L0' L1' E0 E1. apply residues_peq; [auto with poly..|]. intros i Hi.
  change (eval2 (root i) (psum [f0; f1] [g0; g1] 2) ==2 eval2 (root i) (psum [f0; f1] [g0'; g1'] 2)).
  by rewrite !psum2_res, E0, E1.
Qed.

(** Adding a difference. *)
Lemma padd_psub x y z : is_poly x -> is_poly y -> is_poly z -> peq x z -> peq (padd z (psub y x)) y.
Proof.
  intros Lx Ly Lz E. apply residues_peq; [auto with poly..|]. intros i Hi.
  change (eval2 (root i) (padd z (psub y x)) ==2 eval2 (root i) y).
  rewrite padd_res, psub_res, E by auto with poly. unfold eqq2, add2, sub2. cbn [fst snd].
  split; apply (eqq_diff _ _ 0); ring.
Qed.

(** ** Decryption as an identity of the ring *)

Section Decrypt.
Variables (A00 A01 A10 A11 s0 s1 e0 e1 y0 y1 f0 f1 h mu d0 d1 dv : list Z).

(** Public key, ciphertext, the ciphertext after its compression error, and
    what decryption computes (FIPS 203, algorithms 13 to 15, with k = 2). *)
Definition pke_t0 := padd (psum [A00; A01] [s0; s1] 2) e0.
Definition pke_t1 := padd (psum [A10; A11] [s0; s1] 2) e1.
Definition pke_u0 := padd (psum [A00; A10] [y0; y1] 2) f0.
Definition pke_u1 := padd (psum [A01; A11] [y0; y1] 2) f1.
Definition pke_v := padd (psum [pke_t0; pke_t1] [y0; y1] 2) (padd h mu).
Definition pke_w := psub (padd pke_v dv) (psum [s0; s1] [padd pke_u0 d0; padd pke_u1 d1] 2).

(** What is left beside the message. *)
Definition pke_noise :=
  psub (padd (psum [e0; e1] [y0; y1] 2) (padd h dv)) (psum [s0; s1] [padd f0 d0; padd f1 d1] 2).

Lemma pke_identity :
  Forall is_poly [s0; s1; e0; e1; y0; y1; f0; f1; h; mu; d0; d1; dv] ->
  peq pke_w (padd mu pke_noise).
Proof.
  rewrite !Forall_cons. intros H. destruct_and!.
  assert (is_poly pke_t0 /\ is_poly pke_t1) as [? ?] by (unfold pke_t0, pke_t1; auto with poly).
  assert (is_poly pke_u0 /\ is_poly pke_u1) as [? ?] by (unfold pke_u0, pke_u1; auto with poly).
  assert (is_poly pke_v) by (unfold pke_v; auto with poly).
  apply residues_peq; [unfold pke_w, pke_noise; auto 8 with poly..|]. intros i Hi.
  change (eval2 (root i) pke_w ==2 eval2 (root i) (padd mu pke_noise)).
  unfold pke_w, pke_noise. rewrite !psub_res, !padd_res, !psub_res by auto 8 with poly.
  rewrite !psum2_res by auto 8 with poly. rewrite !padd_res by auto 8 with poly.
  unfold pke_v, pke_u0, pke_u1. rewrite !padd_res by auto 8 with poly. rewrite !psum2_res by auto 8 with poly.
  unfold pke_t0, pke_t1. rewrite !padd_res by auto 8 with poly. rewrite !psum2_res by auto 8 with poly.
  generalize (root i). intros g. unfold eqq2, add2, sub2, mul2. cbn [fst snd].
  split; apply (eqq_diff _ _ 0); ring.
Qed.

End Decrypt.
