(* ===== verification/MlkemPke.v ===== *)
(** * The public-key scheme inside ML-KEM (src/boot/wolfcrypt/src/wc_mlkem_poly.c)

    [mlkem_keygen_seeds], [mlkem_encapsulate_seeds] and [mlkem_decapsulate_c], the
    variants that generate the matrix row by row to save memory, and the proof
    that decryption inverts encryption when the noise is small.  A vector is the
    list of its polynomials; [mem i] says whether the allocation of row [i]
    succeeds; [None] is rejection sampling that needs more fuel. *)

From S2P Require Import Prelude.
From S2P Require Import MlkemReduce.
From S2P Require Import MlkemNtt.
From S2P Require Import MlkemRing.
From S2P Require Import MlkemMul.
From S2P Require Import DtlsDefs.
From S2P Require Import MlkemCodec.
From S2P Require Import MlkemSample.
From S2P Require Import MlkemCrt.

(** [for (i = 0; i < k; ++i) mlkem_ntt(s + i * MLKEM_N)] *)
Definition ntt_vec (k : nat) (s : list (list Z)) : list (list Z) := map mlkem_ntt (take k s) ++ drop k s.

Section Scheme.
Context `{KemHash}.

(** Runs the rows until one reports an error, storing what each leaves. *)
Fixpoint rows_loop (row : nat -> list Z -> option (Z * list Z)) (rows : list nat) (t : list (list Z)) :
    option (Z * list (list Z)) :=
  match rows with
  | [] => Some (0, t)
  | i :: rows =>
      match row i (vpoly t i) with
      | None => None
      | Some (r, ti) =>
          let t := <[i := ti]> t in
          if r =? 0 then rows_loop row rows t else Some (r, t)
      end
  end.

(** [t = MLKEM_MONT_RED(t * MLKEM_F)] for every coefficient. *)
Definition to_mont (t : list Z) : list Z := map (fun x => MLKEM_MONT_RED (s32 (x * MLKEM_F))) t.

(** One turn of the loop over the rows of the matrix. *)
Definition keygen_row (fuel : nat) (mem : nat -> bool) (k : nat) (s : list (list Z)) (rho sigma : list Z)
    (i : nat) (ti : list Z) : option (Z * list Z) :=
  match mlkem_gen_matrix_i fuel (mem i) k rho i false with
  | None => None
  | Some (r, ai) =>
      if r =? 0 then
        let ti := mlkem_pointwise_acc_mont ti ai s k in
        let ti := to_mont ti in
        let e := mlkem_get_noise_i k sigma i true in
        Some (0, mlkem_ntt_add_to e ti)
      else Some (r, ti)
  end.

(** The result, the private and the public vector. *)
Definition mlkem_keygen_seeds (fuel : nat) (mem : nat -> bool) (k : nat) (s t : list (list Z))
    (rho sigma : list Z) : option (Z * list (list Z) * list (list Z)) :=
  let s := ntt_vec k s in
  match rows_loop (keygen_row fuel mem k s rho sigma) (seq 0 k) t with
  | None => None
  | Some (r, t) => Some (r, s, t)
  end.

Definition barrett_add (u e : list Z) : list Z := zip_with (fun u e => MLKEM_BARRETT_RED (s16 (u + e))) u e.

Definition encapsulate_row (fuel : nat) (mem : nat -> bool) (k : nat) (y : list (list Z)) (seed coins : list Z)
    (i : nat) (ui : list Z) : option (Z * list Z) :=
  match mlkem_gen_matrix_i fuel (mem i) k seed i true with
  | None => None
  | Some (r, a) =>
      if r =? 0 then
        let ui := mlkem_pointwise_acc_mont ui a y k in
        let ui := mlkem_invntt ui in
        let e1 := mlkem_get_noise_i k coins i false in
        Some (0, barrett_add ui e1)
      else Some (r, ui)
  end.

(** The result, [u] and [v]; [tp] is what the memory of [v] held.  The result of
    the loop is not looked at again: [ret] is assigned by the call that samples
    the last noise polynomial, which succeeds. *)
Definition mlkem_encapsulate_seeds (fuel : nat) (mem : nat -> bool) (pub u : list (list Z)) (tp : list Z)
    (y : list (list Z)) (k : nat) (msg seed coins : list Z) : option (Z * list (list Z) * list Z) :=
  let y := ntt_vec k y in
  match rows_loop (encapsulate_row fuel mem k y seed coins) (seq 0 k) u with
  | None => None
  | Some (_, u) =>
      let v := mlkem_pointwise_acc_mont tp pub y k in
      let v := mlkem_invntt v in
      let m := mlkem_from_msg msg in
      let coins := seed_index coins (2 * Z.of_nat k) in
      let e2 := mlkem_get_noise_eta2_c coins in
      let v := barrett_add v (zip_with Z.add e2 m) in
      Some (0, u, v)
  end.

End Scheme.

(** The eight products of a turn of [mlkem_basemul_mont]: offsets and roots. *)
Definition eight_products (i : nat) : list (nat * Z) :=
  let zeta := (64 + i / 16 * 4)%nat in
  [((i + 0)%nat, zetas !!! (zeta + 0)%nat); ((i + 2)%nat, - (zetas !!! (zeta + 0)%nat));
   ((i + 4)%nat, zetas !!! (zeta + 1)%nat); ((i + 6)%nat, - (zetas !!! (zeta + 1)%nat));
   ((i + 8)%nat, zetas !!! (zeta + 2)%nat); ((i + 10)%nat, - (zetas !!! (zeta + 2)%nat));
   ((i + 12)%nat, zetas !!! (zeta + 3)%nat); ((i + 14)%nat, - (zetas !!! (zeta + 3)%nat))].

(** [mlkem_basemul_mont(r, a, r)]: each product reads [r] as it is then. *)
Definition mlkem_basemul_mont_alias (r a : list Z) : list Z :=
  for_by 16 MLKEM_N (fun i r =>
    fold_left (fun r '(o, z) => mlkem_basemul r o a o r o z) (eight_products i) r) r.

(** [mlkem_pointwise_acc_mont(w, a, u, k)] with [w] at the address of [u]. *)
Definition pointwise_acc_mont_alias (a u : list (list Z)) (k : nat) : list Z :=
  let r := mlkem_basemul_mont_alias (vpoly u 0) (vpoly a 0) in
  let r := fold_left (fun r i => mlkem_basemul_mont_add r (vpoly a i) (vpoly u i)) (seq 1 (k - 2)) r in
  mlkem_basemul_mont_add r (vpoly a (k - 1)) (vpoly u (k - 1)).

(** Called with [w = u]: the message polynomial is written over the vector. *)
Definition mlkem_decapsulate_c (s u : list (list Z)) (v : list Z) (k : nat) : list Z :=
  let u := ntt_vec k u in
  let w := pointwise_acc_mont_alias s u k in
  let w := mlkem_invntt w in
  zip_with (fun v w => MLKEM_BARRETT_RED (s16 (v - w))) v w.

(** ** Multiplying in place *)

(** [r] has been written below [n] only. *)
Definition untouched (b r : list Z) (n : nat) : Prop :=
  length r = length b /\ forall j, (n <= j)%nat -> nth j r 0 = nth j b 0.

Lemma basemul_alias b r a o z : untouched b r o ->
  mlkem_basemul r o a o r o z = mlkem_basemul r o a o b o z /\ untouched b (mlkem_basemul r o a o b o z) (o + 2).
Proof.
  intros [Hl H]. rewrite !basemul_bm. split.
  - unfold bm. rewrite (H (o + 0)%nat), (H (o + 1)%nat) by lia. done.
  - split; [by rewrite !length_insert|]. intros j Hj. rewrite !nth_insert_ne by lia. apply H. lia.
Qed.

Lemma products_alias b a l r o : untouched b r o ->
  (forall j, nth_error (map fst l) j = Some (o + 2 * j)%nat \/ nth_error (map fst l) j = None) ->
  let g r := fold_left (fun r '(o, z) => mlkem_basemul r o a o b o z) l r in
  fold_left (fun r '(o, z) => mlkem_basemul r o a o r o z) l r = g r /\ untouched b (g r) (o + 2 * length l).
Proof.
  cbv zeta. revert r o. induction l as [|[o' z] l IH]; intros r o Hu Ho; cbn [fold_left length].
  { split; [done|]. by rewrite Nat.add_0_r. }
  destruct (Ho 0%nat) as [E|E]; [|done]. injection E as ->. rewrite Nat.add_0_r in *.
  destruct (basemul_alias b r a o z Hu) as [-> Hu']. rewrite Nat.mul_succ_r, (Nat.add_comm (2 * _)), Nat.add_assoc.
  apply IH; [done|]. intros j. specialize (Ho (S j)). cbn [map nth_error] in Ho.
  by replace (o + 2 + 2 * j)%nat with (o + 2 * S j)%nat by lia.
Qed.

Lemma for_by_ext {A} (P : nat -> A -> Prop) step bound (f g : nat -> A -> A) r : P 0%nat r ->
  (forall k r, P k r -> f (k * step)%nat r = g (k * step)%nat r /\ P (S k) (g (k * step)%nat r)) ->
  for_by step bound f r = for_by step bound g r.
Proof.
  intros H0 HS. unfold for_by. revert r H0. generalize 0%nat. induction (bound / step)%nat as [|n IH]; intros k r H0; [done|].
  cbn [seq fold_left]. destruct (HS k r H0) as [-> H1]. by apply IH.
Qed.

(** Writing the product over a factor gives what separate memory gives. *)
Lemma basemul_mont_alias_eq b a : mlkem_basemul_mont_alias b a = mlkem_basemul_mont b a b.
Proof.
  apply (for_by_ext (fun k r => untouched b r (16 * k))); [by split|]. intros k r Hu.
  destruct (products_alias b a (eight_products (k * 16)) r (k * 16)) as [E Hu'].
  - by rewrite (Nat.mul_comm k).
  - intros j. do 8 (destruct j as [|j]; [left; cbn [eight_products map nth_error fst]; f_equal; lia|]).
    right. by destruct j.
  - split; [exact E|]. replace (16 * S k)%nat with (k * 16 + 2 * 8)%nat by lia. exact Hu'.
Qed.

Lemma pointwise_alias_eq a u k : pointwise_acc_mont_alias a u k = mlkem_pointwise_acc_mont (vpoly u 0) a u k.
Proof.
  cbv delta [pointwise_acc_mont_alias mlkem_pointwise_acc_mont] beta zeta.
  rewrite basemul_mont_alias_eq. reflexivity.
Qed.

(** ** The operations in the ring *)

Lemma represents_scale c h h' f : Forall2 (fun x y => x == c * y) h' h -> represents h f ->
  represents h' (pscale c f).
Proof.
  intros Hc [Hl H]. split; [by rewrite (Forall2_length _ _ _ Hc)|]. intros i Hi.
  destruct (H i Hi) as [H0 H1]. destruct (eval2_pscale (root i) c f) as [-> ->].
  by rewrite !(nth_Forall2_mul _ _ _ _ Hc), H0, H1.
Qed.

Lemma pscale_length c f : is_poly f -> is_poly (pscale c f).
Proof. unfold is_poly, pscale. by rewrite length_map. Qed.

Lemma pscale_cancel c c' f : c * c' == 1 -> peq (pscale c (pscale c' f)) f.
Proof.
  intros Hc. unfold pscale. rewrite map_map. apply Forall2_fmap_l, Forall_Forall2_diag, Forall_forall.
  intros x _. cbn. rewrite Z.mul_assoc, Hc. by rewrite Z.mul_1_l.
Qed.

Lemma to_mont_spec t : within 4004 t ->
  Forall2 (fun x y => x == MONT_R * y) (to_mont t) t /\ within 8000 (to_mont t).
Proof.
  intros [Hl Hw]. unfold to_mont.
  assert (H : Forall (fun x => MLKEM_MONT_RED (s32 (x * MLKEM_F)) == MONT_R * x /\
    Z.abs (MLKEM_MONT_RED (s32 (x * MLKEM_F))) <= 8000) t).
  { eapply Forall_impl; [exact Hw|]. intros x Hx. cbn in Hx.
    assert (Hp : Z.abs (x * MLKEM_F) <= 4004 * 1353) by (apply abs_mul_le; [done|reflexivity || done]).
    assert (Hs : s32 (x * MLKEM_F) = x * MLKEM_F).
    { apply (sext_small 32); [lia|]. apply Z.abs_le in Hp. change (2 ^ (32 - 1)) with 2147483648. lia. }
    rewrite Hs. split.
    - rewrite MONT_RED_cong by (change (2 ^ 30) with 1073741824; lia).
      rewrite (Z.mul_comm x), Z.mul_assoc. apply eqq_mul; [reflexivity|done].
    - etransitivity; [apply (MONT_RED_bound _ (4004 * 1353)); [done|by vm_compute]|]. by vm_compute. }
  split.
  - apply Forall2_fmap_l, Forall_Forall2_diag. eapply Forall_impl; [exact H|]. by intros x [Hx _].
  - split; [by rewrite length_map|]. apply Forall_fmap. eapply Forall_impl; [exact H|]. by intros x [_ Hx].
Qed.

Lemma padd_comm f g : padd f g = padd g f.
Proof.
  unfold padd. revert g. induction f as [|a f IH]; intros [|b g]; cbn; [done..|]. by rewrite IH, Z.add_comm.
Qed.

(** One polynomial of the public key. *)
Lemma keygen_row_represents r ai s a s' e : length r = MLKEM_N ->
  vrepresents 2 ai a -> vrepresents 2 s s' -> within 3 e ->
  let t := mlkem_ntt_add_to e (to_mont (mlkem_pointwise_acc_mont r ai s 2)) in
  represents t (padd (psum a s' 2) e) /\ Forall (fun x => 0 <= x <= MLKEM_Q) t.
Proof.
  intros Hr Ha Hs [Hle He]. cbv zeta.
  pose proof (pointwise_acc_mont_correct 2 ai s a s' ltac:(done) Ha Hs r ltac:(lia) Hr) as Hacc.
  destruct (accumulated_represents _ _ _ _ Hacc) as [Hrep Hw].
  destruct (to_mont_spec _ Hw) as [Hm Hmw].
  assert (Hps : is_poly (psum a s' 2)) by (apply psum_length; intros i Hi; apply Hs, Hi).
  rewrite padd_comm. apply ntt_add_to_correct; [|done|exact Hps|].
  - split; [done|]. eapply Forall_impl; [exact He|]. intros x Hx. cbn in Hx. unfold MLKEM_Q. lia.
  - apply (represents_residues _ (pscale MONT_R (pscale MONT_RINV (psum a s' 2)))).
    + by apply (represents_scale _ (mlkem_pointwise_acc_mont r ai s 2)).
    + apply peq_residues, pscale_cancel. reflexivity.
Qed.

(** Sums of small coefficients, reduced. *)
Lemma barrett_add_spec B C u e : within B u -> within C e -> B + C <= 32767 ->
  peq (barrett_add u e) (padd u e) /\ Forall (fun x => 0 <= x <= MLKEM_Q) (barrett_add u e).
Proof.
  intros [Hlu Hu] [Hle He] HB. unfold barrett_add, padd. split.
  - apply Forall2_same_length_lookup_2; [rewrite !length_zip_with; lia|].
    intros i x y Hx Hy. apply lookup_zip_with_Some in Hx as (a & b & -> & Ha & Hb).
    apply lookup_zip_with_Some in Hy as (a' & b' & -> & Ha' & Hb'). simplify_eq.
    pose proof (Forall_lookup_1 _ _ _ _ Hu Ha) as HA. pose proof (Forall_lookup_1 _ _ _ _ He Hb) as HB'.
    cbn in HA, HB'. apply Z.abs_le in HA, HB'.
    rewrite (proj1 (BARRETT_RED_spec _)), !sext_small; [done|lia|change (2 ^ (16 - 1)) with 32768; lia|lia|].
    rewrite sext_small; change (2 ^ (16 - 1)) with 32768; lia.
  - apply Forall_lookup. intros i x (a & b & -> & _)%lookup_zip_with_Some. apply BARRETT_RED_spec.
Qed.

Lemma barrett_sub_spec B C v w : within B v -> within C w -> B + C <= 32767 ->
  let t := zip_with (fun v w => MLKEM_BARRETT_RED (s16 (v - w))) v w in
  peq t (psub v w) /\ Forall (fun x => 0 <= x <= MLKEM_Q) t.
Proof.
  intros Hv [Hlw Hw] HB. cbv zeta.
  replace (zip_with _ v w) with (barrett_add v (pneg w)).
  - apply (barrett_add_spec B C); [done| |done]. split; [by apply pneg_length|].
    apply Forall_fmap. eapply Forall_impl; [exact Hw|]. intros x Hx. cbn [compose]. cbn in Hx. lia.
  - unfold barrett_add, pneg, pscale. rewrite zip_with_fmap_r. apply zip_with_ext; [|done..].
    reflexivity.
Qed.

(** ** The scheme with k = 2 (ML-KEM-512) *)

Lemma within_weaken B C f : B <= C -> within B f -> within C f.
Proof. intros HB [Hl Hf]. split; [done|]. eapply Forall_impl; [exact Hf|]. cbn. lia. Qed.

Lemma range_within lo hi B f : is_poly f -> Forall (fun x => lo <= x <= hi) f -> - B <= lo -> hi <= B -> within B f.
Proof. intros Hl Hf H1 H2. by apply (within_range B lo hi). Qed.

Section Two.
Context `{KL : KemHashLaws}.

Lemma noise_eta2_within seed : within 2 (mlkem_get_noise_eta2_c seed).
Proof.
  unfold mlkem_get_noise_eta2_c. rewrite cbd_eta2_spec by apply shake256_bytes. apply (SamplePolyCBD_within 2).
Qed.

Lemma noise_eta1_within seed eta : within 3 (mlkem_get_noise_eta1_c seed eta).
Proof.
  unfold mlkem_get_noise_eta1_c. destruct (eta =? MLKEM_CBD_ETA3).
  - rewrite cbd_eta3_spec by apply shake256_bytes. apply (SamplePolyCBD_within 3).
  - apply (within_weaken 2); [lia|]. apply noise_eta2_within.
Qed.

Lemma noise_i_within k seed i make : within 3 (mlkem_get_noise_i k seed i make).
Proof. unfold mlkem_get_noise_i. cbv zeta. destruct (_ && _); apply noise_eta1_within. Qed.

Variables (fuel : nat) (rho : list Z) (Ahat : nat -> nat -> list Z).
Hypothesis gen : forall i j, (i < 2)%nat -> (j < 2)%nat -> gen_poly fuel (extSeed_ij rho false i j) = Some (Ahat i j).

Lemma gen_row i tr : (i < 2)%nat -> mlkem_gen_matrix_i fuel true 2 rho i tr =
  Some (0, if tr then [Ahat 0 i; Ahat 1 i] else [Ahat i 0; Ahat i 1]).
Proof.
  intros Hi. unfold mlkem_gen_matrix_i. cbn [seq mapM]. destruct tr.
  - change (extSeed_ij rho true i 0) with (extSeed_ij rho false 0 i). change (extSeed_ij rho true i 1) with (extSeed_ij rho false 1 i).
    rewrite !gen by lia. done.
  - rewrite !gen by lia. done.
Qed.

Lemma Ahat_onto i j : (i < 2)%nat -> (j < 2)%nat ->
  exists a, is_poly a /\ represents (Ahat i j) a /\ within MLKEM_Q (Ahat i j).
Proof.
  intros Hi Hj. destruct (gen_poly_result _ _ _ (gen i j Hi Hj)) as [Hl Hr].
  assert (Hw : within MLKEM_Q (Ahat i j)).
  { split; [done|]. eapply Forall_impl; [exact Hr|]. intros x Hx. cbn in Hx. lia. }
  destruct (transform_onto (Ahat i j)) as (a & Ha & Hrep); [by apply (within_weaken MLKEM_Q)|]. eauto.
Qed.

Lemma vrepresents2 h0 h1 hs f0 f1 : represents h0 f0 -> represents h1 f1 -> within MLKEM_Q h0 -> within MLKEM_Q h1 ->
  is_poly f0 -> is_poly f1 -> vrepresents 2 (h0 :: h1 :: hs) [f0; f1].
Proof. intros H0 H1 W0 W1 L0 L1 i Hi. destruct i as [|[|i]]; [by split_and!..|lia]. Qed.

Lemma ntt_vrepresents_app s0 s1 ss : within 15000 s0 -> within 15000 s1 ->
  vrepresents 2 (mlkem_ntt s0 :: mlkem_ntt s1 :: ss) [s0; s1].
Proof.
  intros W0 W1. destruct (ntt_correct s0 W0) as [R0 B0], (ntt_correct s1 W1) as [R1 B1].
  apply vrepresents2; [exact R0|exact R1| | |apply W0|apply W1].
  - exact (range_within 0 MLKEM_Q MLKEM_Q _ (proj1 R0) B0 ltac:(done) ltac:(done)).
  - exact (range_within 0 MLKEM_Q MLKEM_Q _ (proj1 R1) B1 ltac:(done) ltac:(done)).
Qed.

Lemma ntt_vrepresents2 s0 s1 : within 15000 s0 -> within 15000 s1 ->
  vrepresents 2 (ntt_vec 2 [s0; s1]) [s0; s1].
Proof. apply (ntt_vrepresents_app s0 s1 []). Qed.

(** The matrix in the ring. *)
Variable A : nat -> nat -> list Z.
Hypothesis A_hat : forall i j, (i < 2)%nat -> (j < 2)%nat ->
  is_poly (A i j) /\ represents (Ahat i j) (A i j) /\ within MLKEM_Q (Ahat i j).

Lemma row_represents i : (i < 2)%nat -> vrepresents 2 [Ahat i 0; Ahat i 1] [A i 0; A i 1].
Proof.
  intros Hi. destruct (A_hat i 0 Hi ltac:(lia)) as (? & ? & ?), (A_hat i 1 Hi ltac:(lia)) as (? & ? & ?).
  by apply vrepresents2.
Qed.

Lemma column_represents i : (i < 2)%nat -> vrepresents 2 [Ahat 0 i; Ahat 1 i] [A 0 i; A 1 i].
Proof.
  intros Hi. destruct (A_hat 0 i ltac:(lia) Hi) as (? & ? & ?), (A_hat 1 i ltac:(lia) Hi) as (? & ? & ?).
  by apply vrepresents2.
Qed.

(** What key generation leaves: the transforms of the secret and of the public key. *)
Lemma keygen_two mem s0 s1 ss r0 r1 rs sigma : (forall i, mem i = true) ->
  within 3 s0 -> within 3 s1 -> is_poly r0 -> is_poly r1 ->
  exists t0 t1,
    mlkem_keygen_seeds fuel mem 2 (s0 :: s1 :: ss) (r0 :: r1 :: rs) rho sigma =
      Some (0, mlkem_ntt s0 :: mlkem_ntt s1 :: ss, t0 :: t1 :: rs) /\
    represents t0 (padd (psum [A 0 0; A 0 1] [s0; s1] 2) (mlkem_get_noise_i 2 sigma 0 true)) /\
    represents t1 (padd (psum [A 1 0; A 1 1] [s0; s1] 2) (mlkem_get_noise_i 2 sigma 1 true)) /\
    Forall (Forall (fun x => 0 <= x <= MLKEM_Q)) [t0; t1].
Proof.
  intros Hmem W0 W1 Hr0 Hr1. unfold mlkem_keygen_seeds. cbv zeta.
  change (ntt_vec 2 (s0 :: s1 :: ss)) with (mlkem_ntt s0 :: mlkem_ntt s1 :: ss).
  assert (Hs : vrepresents 2 (mlkem_ntt s0 :: mlkem_ntt s1 :: ss) [s0; s1])
    by (apply ntt_vrepresents_app; by apply (within_weaken 3)).
  set (s := mlkem_ntt s0 :: _) in *. clearbody s.
  assert (Hrow : forall i r, (i < 2)%nat -> is_poly r ->
    keygen_row fuel mem 2 s rho sigma i r = Some (0, mlkem_ntt_add_to (mlkem_get_noise_i 2 sigma i true)
      (to_mont (mlkem_pointwise_acc_mont r [Ahat i 0; Ahat i 1] s 2)))).
  { intros i r Hi Hr. unfold keygen_row. rewrite Hmem, gen_row by done. done. }
  pose proof (fun i r Hi Hr => keygen_row_represents r [Ahat i 0; Ahat i 1] s [A i 0; A i 1] [s0; s1]
    (mlkem_get_noise_i 2 sigma i true) Hr (row_represents i Hi) Hs (noise_i_within 2 sigma i true)) as Hrep.
  cbv zeta in Hrep. cbn [seq rows_loop vpoly nth]. rewrite (Hrow 0%nat) by (done || lia). cbn [Z.eqb list_insert insert list_insert].
  eexists _, _.
  destruct (Hrep 0%nat r0 ltac:(lia) Hr0) as [R0 B0]. destruct (Hrep 1%nat r1 ltac:(lia) Hr1) as [R1 B1].
  split; [|split; [exact R0|split; [exact R1|by repeat constructor]]].
  change (vpoly (<[0%nat := ?x]> (r0 :: r1 :: rs)) 1) with r1. rewrite (Hrow 1%nat) by (done || lia). reflexivity.
Qed.

Lemma psum2_poly f g0 g1 : is_poly g0 -> is_poly g1 -> is_poly (psum f [g0; g1] 2).
Proof. intros H0 H1. apply psum_length. intros i Hi. destruct i as [|[|i]]; [done..|lia]. Qed.

(** An inner product in the transform domain, taken back, with a small polynomial added. *)
Lemma product_plus r a b f g0 g1 e C : is_poly r -> vrepresents 2 a f -> vrepresents 2 b [g0; g1] ->
  within C e -> C <= 3000 ->
  let t := barrett_add (mlkem_invntt (mlkem_pointwise_acc_mont r a b 2)) e in
  peq t (padd (psum f [g0; g1] 2) e) /\ Forall (fun x => 0 <= x <= MLKEM_Q) t /\ is_poly t.
Proof.
  intros Hr Ha Hb He HC. cbv zeta. destruct (invntt_pointwise a b f [g0; g1] r Hr Ha Hb) as [Hc Hw].
  assert (Hl : is_poly (mlkem_invntt (mlkem_pointwise_acc_mont r a b 2))).
  { unfold is_poly. rewrite (Forall2_length _ _ _ Hc). apply psum2_poly; [apply (Hb 0%nat)|apply (Hb 1%nat)]; lia. }
  destruct (barrett_add_spec 1810 C _ e (range_within _ _ 1810 _ Hl Hw ltac:(done) ltac:(done)) He ltac:(lia)) as [H1 H2].
  split_and!; [|done|].
  - rewrite H1. change (Forall2 eqq) with peq in Hc. by rewrite Hc.
  - unfold is_poly, barrett_add. rewrite length_zip_with, Hl. destruct He as [-> _]. done.
Qed.

Lemma from_msg_within msg : within 1665 (mlkem_from_msg msg).
Proof.
  split; [apply mlkem_from_msg_length|]. apply Forall_lookup. intros i x Hx.
  pose proof (lookup_lt_Some _ _ _ Hx) as Hi. rewrite mlkem_from_msg_length in Hi.
  rewrite <- (nth_lookup_Some _ _ 0 _ Hx), mlkem_from_msg_nth by done. by destruct (msg_testbit msg i).
Qed.

Lemma padd_within B C f g : within B f -> within C g -> within (B + C) (padd f g).
Proof.
  intros [Hlf Hf] [Hlg Hg]. split; [by apply padd_length|]. apply Forall_lookup.
  intros i x (a & b & -> & Ha & Hb)%lookup_zip_with_Some.
  pose proof (Forall_lookup_1 _ _ _ _ Hf Ha). pose proof (Forall_lookup_1 _ _ _ _ Hg Hb). cbn in *. lia.
Qed.

(** The ciphertext polynomials. *)
Lemma encapsulate_two mem pub t0 t1 y0 y1 r0 r1 tp msg coins : (forall i, mem i = true) ->
  vrepresents 2 pub [t0; t1] -> within 3 y0 -> within 3 y1 -> is_poly r0 -> is_poly r1 -> is_poly tp ->
  exists u0 u1 v,
    mlkem_encapsulate_seeds fuel mem pub [r0; r1] tp [y0; y1] 2 msg rho coins = Some (0, [u0; u1], v) /\
    peq u0 (padd (psum [A 0 0; A 1 0] [y0; y1] 2) (mlkem_get_noise_i 2 coins 0 false)) /\
    peq u1 (padd (psum [A 0 1; A 1 1] [y0; y1] 2) (mlkem_get_noise_i 2 coins 1 false)) /\
    peq v (padd (psum [t0; t1] [y0; y1] 2)
      (padd (mlkem_get_noise_eta2_c (seed_index coins 4)) (mlkem_from_msg msg))) /\
    Forall (fun p => is_poly p /\ Forall (fun x => 0 <= x <= MLKEM_Q) p) [u0; u1; v].
Proof.
  intros Hmem Hpub W0 W1 Hr0 Hr1 Htp. unfold mlkem_encapsulate_seeds. cbv zeta.
  assert (Hy : vrepresents 2 (ntt_vec 2 [y0; y1]) [y0; y1])
    by (apply ntt_vrepresents2; by apply (within_weaken 3)).
  set (y := ntt_vec 2 [y0; y1]) in *. clearbody y.
  assert (Hrow : forall i r, (i < 2)%nat -> is_poly r ->
    encapsulate_row fuel mem 2 y rho coins i r = Some (0, barrett_add
      (mlkem_invntt (mlkem_pointwise_acc_mont r [Ahat 0 i; Ahat 1 i] y 2)) (mlkem_get_noise_i 2 coins i false))).
  { intros i r Hi Hr. unfold encapsulate_row. rewrite Hmem, gen_row by done. done. }
  pose proof (fun i r Hi Hr => product_plus r [Ahat 0 i; Ahat 1 i] y [A 0 i; A 1 i] y0 y1
    (mlkem_get_noise_i 2 coins i false) 3 Hr (column_represents i Hi) Hy (noise_i_within 2 coins i false) ltac:(done)) as Hu.
  cbv zeta in Hu. cbn [seq rows_loop vpoly nth]. rewrite (Hrow 0%nat) by (done || lia). cbn [Z.eqb].
  change (vpoly (<[0%nat := ?x]> [r0; r1]) 1) with r1. rewrite (Hrow 1%nat) by (done || lia). cbn [Z.eqb].
  destruct (Hu 0%nat r0 ltac:(lia) Hr0) as (U0 & B0 & L0). destruct (Hu 1%nat r1 ltac:(lia) Hr1) as (U1 & B1 & L1).
  pose proof (padd_within 2 1665 _ _ (noise_eta2_within (seed_index coins 4)) (from_msg_within msg)) as Hem.
  destruct (product_plus tp pub y [t0; t1] y0 y1 _ _ Htp Hpub Hy Hem ltac:(done)) as (V & Bv & Lv).
  change (2 * Z.of_nat 2) with 4. change (zip_with Z.add ?x ?y) with (padd x y).
  do 3 eexists. split; [reflexivity|].
  split; [exact U0|split; [exact U1|split; [exact V|by repeat constructor]]].
Qed.

End Two.

(** What decryption computes. *)
Lemma decapsulate_two s s0 s1 u0 u1 v : vrepresents 2 s [s0; s1] ->
  within 15000 u0 -> within 15000 u1 -> within 20000 v ->
  let w := mlkem_decapsulate_c s [u0; u1] v 2 in
  peq w (psub v (psum [s0; s1] [u0; u1] 2)) /\ Forall (fun x => 0 <= x <= MLKEM_Q) w /\ is_poly w.
Proof.
  intros Hs W0 W1 Wv. cbv zeta. unfold mlkem_decapsulate_c. cbv zeta. rewrite pointwise_alias_eq.
  pose proof (ntt_vrepresents2 u0 u1 W0 W1) as Hu. set (u := ntt_vec 2 [u0; u1]) in *.
  assert (Hl : is_poly (vpoly u 0)) by apply (Hu 0%nat ltac:(lia)). clearbody u.
  destruct (invntt_pointwise s u [s0; s1] [u0; u1] (vpoly u 0) Hl Hs Hu) as [Hc Hw].
  set (w := mlkem_invntt _) in *. clearbody w.
  assert (Hlw : is_poly w).
  { unfold is_poly. rewrite (Forall2_length _ _ _ Hc). apply psum2_poly; [apply W0|apply W1]. }
  destruct (barrett_sub_spec 20000 1810 v w Wv (range_within _ _ 1810 _ Hlw Hw ltac:(done) ltac:(done)) ltac:(done)) as [H1 H2].
  split_and!; [|exact H2|].
  - rewrite H1. change (Forall2 eqq) with peq in Hc. by rewrite Hc.
  - unfold is_poly. rewrite length_zip_with, Hlw. destruct Wv as [-> _]. done.
Qed.

Section Noise.
Variables (A : nat -> nat -> list Z) (s0 s1 e0 e1 y0 y1 f0 f1 h mu u0 u1 v u0' u1' v' t0 t1 : list Z).

(** The message comes out with the noise added. *)
Lemma decryption_noise s : Forall is_poly [s0; s1; e0; e1; y0; y1; f0; f1; h; mu; u0; u1; v] ->
  vrepresents 2 s [s0; s1] -> within 15000 u0' -> within 15000 u1' -> within 20000 v' ->
  t0 = padd (psum [A 0 0; A 0 1] [s0; s1] 2) e0 -> t1 = padd (psum [A 1 0; A 1 1] [s0; s1] 2) e1 ->
  peq u0 (padd (psum [A 0 0; A 1 0] [y0; y1] 2) f0) -> peq u1 (padd (psum [A 0 1; A 1 1] [y0; y1] 2) f1) ->
  peq v (padd (psum [t0; t1] [y0; y1] 2) (padd h mu)) ->
  peq (mlkem_decapsulate_c s [u0'; u1'] v' 2)
    (padd mu (pke_noise s0 s1 e0 e1 y0 y1 f0 f1 h (psub u0' u0) (psub u1' u1) (psub v' v))).
Proof.
  intros Hp Hs W0 W1 Wv Et0 Et1 Eu0 Eu1 Ev.
  destruct (decapsulate_two s s0 s1 u0' u1' v' Hs W0 W1 Wv) as (Hw & _ & _). rewrite Hw. clear Hw.
  rewrite !Forall_cons in Hp. destruct_and!.
  assert (is_poly u0' /\ is_poly u1' /\ is_poly v') as (? & ? & ?) by (split_and!; [apply W0|apply W1|apply Wv]).
  rewrite <- (pke_identity (A 0 0) (A 0 1) (A 1 0) (A 1 1)) by (rewrite !Forall_cons; split_and!; auto with poly).
  subst t0 t1. unfold pke_w.
  assert (is_poly (pke_v (A 0 0) (A 0 1) (A 1 0) (A 1 1) s0 s1 e0 e1 y0 y1 h mu)) by (unfold pke_v; auto with poly).
  assert (is_poly (pke_u0 (A 0 0) (A 1 0) y0 y1 f0) /\ is_poly (pke_u1 (A 0 1) (A 1 1) y0 y1 f1)) as [? ?]
    by (unfold pke_u0, pke_u1; auto with poly).
  symmetry. apply psub_peq; [by apply padd_psub|].
  apply psum2_peq; auto with poly; by apply padd_psub.
Qed.
End Noise.
