(* ===== verification/MlkemKem.v ===== *)
(** * The key encapsulation mechanism ML-KEM (src/boot/wolfcrypt/src/wc_mlkem.c)

    Key objects, key generation, encapsulation, decapsulation with implicit
    rejection, and the encodings of keys.  The arrays of a key hold
    [WC_ML_KEM_MAX_K] polynomials, of which the first k are used.  Allocation
    may fail ([allocs]); [None] is rejection sampling that needs more fuel; the
    memory an allocation returns is the argument [heap]. *)

From S2P Require Import Prelude.
From S2P Require Import MlkemReduce.
From S2P Require Import MlkemNtt.
From S2P Require Import MlkemRing.
From S2P Require Import MlkemMul.
From S2P Require Import DtlsDefs.
From S2P Require Import MlkemCodec.
From S2P Require Import MlkemSample.
From S2P Require Import MlkemCrt.
From S2P Require Import MlkemPke.

Definition WC_ML_KEM_512 : Z := 0.
Definition WC_ML_KEM_768 : Z := 1.
Definition WC_ML_KEM_1024 : Z := 2.
Definition WC_ML_KEM_SS_SZ : nat := 32.
Definition WC_ML_KEM_MAKEKEY_RAND_SZ : Z := 64.
Definition WC_ML_KEM_ENC_RAND_SZ : Z := 32.
Definition MLKEM_FLAG_PRIV_SET : Z := 1.
Definition MLKEM_FLAG_PUB_SET : Z := 2.
Definition MLKEM_FLAG_BOTH_SET : Z := 3.
Definition MLKEM_FLAG_H_SET : Z := 4.

Record MlKemKey := MkMlKemKey {
  key_type : Z;
  key_flags : Z;
  key_priv : list (list Z);
  key_pub : list (list Z);
  key_pubSeed : list Z;
  key_h : list Z;
  key_z : list Z }.

Definition set_flags (key : MlKemKey) (f : Z) : MlKemKey :=
  MkMlKemKey (key_type key) f (key_priv key) (key_pub key) (key_pubSeed key) (key_h key) (key_z key).
Definition set_priv (key : MlKemKey) (p : list (list Z)) : MlKemKey :=
  MkMlKemKey (key_type key) (key_flags key) p (key_pub key) (key_pubSeed key) (key_h key) (key_z key).
Definition set_pub (key : MlKemKey) (p : list (list Z)) : MlKemKey :=
  MkMlKemKey (key_type key) (key_flags key) (key_priv key) p (key_pubSeed key) (key_h key) (key_z key).
Definition set_pubSeed (key : MlKemKey) (s : list Z) : MlKemKey :=
  MkMlKemKey (key_type key) (key_flags key) (key_priv key) (key_pub key) s (key_h key) (key_z key).
Definition set_h (key : MlKemKey) (h : list Z) : MlKemKey :=
  MkMlKemKey (key_type key) (key_flags key) (key_priv key) (key_pub key) (key_pubSeed key) h (key_z key).
Definition set_z (key : MlKemKey) (z : list Z) : MlKemKey :=
  MkMlKemKey (key_type key) (key_flags key) (key_priv key) (key_pub key) (key_pubSeed key) (key_h key) z.

(** Which allocations succeed: the error vector of key generation, the vectors
    of encapsulation, those of decapsulation, the ciphertext to compare with,
    the encoded public key, and the random data for each row of the matrix. *)
Record allocs := Allocs {
  al_e : bool; al_y : bool; al_u : bool; al_cmp : bool; al_pubKey : bool; al_rand : nat -> bool }.

Definition no_failure : allocs := Allocs true true true true true (fun _ => true).

(** The switch on the type of the key, [NOT_COMPILED_IN] being [None]. *)
Definition type_k (type : Z) : option nat :=
  if type =? WC_ML_KEM_512 then Some WC_ML_KEM_512_K
  else if type =? WC_ML_KEM_768 then Some WC_ML_KEM_768_K
  else if type =? WC_ML_KEM_1024 then Some WC_ML_KEM_1024_K
  else None.

Definition PUBLIC_KEY_SIZE (k : nat) : Z := Z.of_nat (k * WC_ML_KEM_POLY_SIZE + WC_ML_KEM_SYM_SZ).
Definition PRIVATE_KEY_SIZE (k : nat) : Z :=
  Z.of_nat (k * WC_ML_KEM_POLY_SIZE) + PUBLIC_KEY_SIZE k + Z.of_nat (2 * WC_ML_KEM_SYM_SZ).

(** [MLKEM_POLY_VEC_COMPRESSED_SZ] and [MLKEM_POLY_COMPRESSED_SZ] with the bits of the type. *)
Definition POLY_VEC_COMPRESSED_SZ (k : nat) : nat :=
  if (k =? WC_ML_KEM_1024_K)%nat then k * (11 * (MLKEM_N / 8)) else k * (10 * (MLKEM_N / 8)).
Definition POLY_COMPRESSED_SZ (k : nat) : nat :=
  if (k =? WC_ML_KEM_1024_K)%nat then 5 * (MLKEM_N / 8) else 4 * (MLKEM_N / 8).
Definition CIPHER_TEXT_SIZE (k : nat) : Z := Z.of_nat (POLY_VEC_COMPRESSED_SZ k + POLY_COMPRESSED_SZ k).

Definition size_of (f : nat -> Z) (key : MlKemKey) : Z * Z :=
  match type_k (key_type key) with
  | Some k => (0, f k)
  | None => (NOT_COMPILED_IN, 0)
  end.

(** The result and the size stored at [len]. *)
Definition wc_MlKemKey_CipherTextSize : MlKemKey -> Z * Z := size_of CIPHER_TEXT_SIZE.
Definition wc_MlKemKey_PrivateKeySize : MlKemKey -> Z * Z := size_of PRIVATE_KEY_SIZE.
Definition wc_MlKemKey_PublicKeySize : MlKemKey -> Z * Z := size_of PUBLIC_KEY_SIZE.
Definition wc_MlKemKey_SharedSecretSize (key : MlKemKey) : Z * Z := (0, Z.of_nat WC_ML_KEM_SS_SZ).

(** [key] as it was in memory before. *)
Definition wc_MlKemKey_Init (key : MlKemKey) (type : Z) : Z * MlKemKey :=
  match type_k type with
  | None => (BAD_FUNC_ARG, key)
  | Some _ =>
      (0, MkMlKemKey type 0 (key_priv key) (key_pub key) (key_pubSeed key) (key_h key) (key_z key))
  end.

Definition flag_clear (key : MlKemKey) (f : Z) : bool := Z.land (key_flags key) f =? 0.

(** [mlkem_cmp_c]: 0 or -1, in constant time. *)
Definition mlkem_cmp_c (a b : list Z) (sz : nat) : Z :=
  let r := fold_left (fun r i => u8 (Z.lor r (Z.lxor (nth i a 0) (nth i b 0)))) (seq 0 sz) 0 in
  s32 (u32 (0 - Z.shiftr (u32 (- r)) 31)).

Definition mlkem_cmp : list Z -> list Z -> nat -> Z := mlkem_cmp_c.

Section Kem.
Context `{KemHash}.

(** *** Encodings *)

(** The result, the bytes written and the key, whose public polynomials are
    reduced and whose hash is set. *)
Definition wc_MlKemKey_EncodePublicKey (key : MlKemKey) (len : Z) : Z * list Z * MlKemKey :=
  if negb (Z.land (key_flags key) MLKEM_FLAG_PUB_SET =? MLKEM_FLAG_PUB_SET) then (BAD_FUNC_ARG, [], key)
  else match type_k (key_type key) with
  | None => (NOT_COMPILED_IN, [], key)
  | Some k =>
      if negb (len =? PUBLIC_KEY_SIZE k) then (BUFFER_E, [], key)
      else
        let '(p, pub) := mlkem_to_bytes (key_pub key) k in
        let key := set_pub key pub in
        let out := p ++ take WC_ML_KEM_SYM_SZ (key_pubSeed key) in
        let key := if flag_clear key MLKEM_FLAG_H_SET then set_h key (sha3_256 out) else key in
        (0, out, set_flags key (Z.lor (key_flags key) MLKEM_FLAG_H_SET))
  end.

Definition wc_MlKemKey_EncodePrivateKey (key : MlKemKey) (len : Z) : Z * list Z * MlKemKey :=
  if negb (Z.land (key_flags key) MLKEM_FLAG_BOTH_SET =? MLKEM_FLAG_BOTH_SET) then (BAD_FUNC_ARG, [], key)
  else match type_k (key_type key) with
  | None => (NOT_COMPILED_IN, [], key)
  | Some k =>
      if negb (len =? PRIVATE_KEY_SIZE k) then (BUFFER_E, [], key)
      else
        let '(p, priv) := mlkem_to_bytes (key_priv key) k in
        let key := set_priv key priv in
        let '(ret, pub, key) := wc_MlKemKey_EncodePublicKey key (PUBLIC_KEY_SIZE k) in
        if ret =? 0 then
          let key := if flag_clear key MLKEM_FLAG_H_SET then set_h key (sha3_256 pub) else key in
          let key := set_flags key (Z.lor (key_flags key) MLKEM_FLAG_H_SET) in
          (0, p ++ pub ++ key_h key ++ key_z key, key)
        else (ret, p, key)
  end.

(** The vector and the seed. *)
Definition mlkemkey_decode_public (pub : list (list Z)) (p : list Z) (k : nat) : list (list Z) * list Z :=
  (mlkem_from_bytes p k ++ drop k pub, slice (k * WC_ML_KEM_POLY_SIZE) WC_ML_KEM_SYM_SZ p).

Definition wc_MlKemKey_DecodePublicKey (key : MlKemKey) (inb : option (list Z)) (len : Z) : Z * MlKemKey :=
  match inb with
  | None => (BAD_FUNC_ARG, key)
  | Some inb =>
      match type_k (key_type key) with
      | None => (NOT_COMPILED_IN, key)
      | Some k =>
          if negb (len =? PUBLIC_KEY_SIZE k) then (BUFFER_E, key)
          else
            let '(pub, seed) := mlkemkey_decode_public (key_pub key) inb k in
            let key := set_pubSeed (set_pub key pub) seed in
            let key := set_h key (sha3_256 (take (Z.to_nat len) inb)) in
            (0, set_flags key (Z.lor (key_flags key) (Z.lor MLKEM_FLAG_PUB_SET MLKEM_FLAG_H_SET)))
      end
  end.

Definition wc_MlKemKey_DecodePrivateKey (key : MlKemKey) (inb : option (list Z)) (len : Z) : Z * MlKemKey :=
  match inb with
  | None => (BAD_FUNC_ARG, key)
  | Some inb =>
      match type_k (key_type key) with
      | None => (NOT_COMPILED_IN, key)
      | Some k =>
          if negb (len =? PRIVATE_KEY_SIZE k) then (BUFFER_E, key)
          else
            let p := inb in
            let key := set_priv key (mlkem_from_bytes p k ++ drop k (key_priv key)) in
            let p := drop (k * WC_ML_KEM_POLY_SIZE) p in
            let '(pub, seed) := mlkemkey_decode_public (key_pub key) p k in
            let key := set_pubSeed (set_pub key pub) seed in
            let p := drop (Z.to_nat (PUBLIC_KEY_SIZE k)) p in
            let key := set_h key (take WC_ML_KEM_SYM_SZ p) in
            let p := drop WC_ML_KEM_SYM_SZ p in
            let key := set_z key (take WC_ML_KEM_SYM_SZ p) in
            (0, set_flags key (Z.lor (key_flags key) (Z.lor MLKEM_FLAG_H_SET MLKEM_FLAG_BOTH_SET)))
      end
  end.

(** *** Key generation *)

(** The 65th byte of [buf], an index byte, is assigned before it is read. *)
Definition wc_MlKemKey_MakeKeyWithRandom (fuel : nat) (al : allocs) (key : MlKemKey) (rand : option (list Z))
    (len : Z) : option (Z * MlKemKey) :=
  match rand with
  | None => Some (BAD_FUNC_ARG, key)
  | Some rand =>
      if negb (len =? WC_ML_KEM_MAKEKEY_RAND_SZ) then Some (BUFFER_E, key)
      else
        let key := set_flags key 0 in
        match type_k (key_type key) with
        | None => Some (NOT_COMPILED_IN, key)
        | Some k =>
            if al_e al then
              let d := take WC_ML_KEM_SYM_SZ rand in
              let buf := sha3_512 (d ++ [u8 (Z.of_nat k)]) ++ [0] in
              let rho := take WC_ML_KEM_SYM_SZ buf in
              let sigma := drop WC_ML_KEM_SYM_SZ buf in
              let z := slice WC_ML_KEM_SYM_SZ WC_ML_KEM_SYM_SZ rand in
              let key := set_z (set_pubSeed key rho) z in
              let '(ret, (s, _, _, sigma)) := mlkem_get_noise k false false sigma in
              let s := s ++ drop k (key_priv key) in
              if ret =? 0 then
                match mlkem_keygen_seeds fuel (al_rand al) k s (key_pub key) rho sigma with
                | None => None
                | Some (ret, s, t) =>
                    let key := set_pub (set_priv key s) t in
                    Some (ret, if ret =? 0
                      then set_flags key (Z.lor (key_flags key) (Z.lor MLKEM_FLAG_PRIV_SET MLKEM_FLAG_PUB_SET))
                      else key)
                end
              else Some (ret, set_priv key s)
            else Some (MEMORY_E, key)
        end
  end.

(** [rng n]: the result and [n] bytes of [wc_RNG_GenerateBlock]. *)
Definition wc_MlKemKey_MakeKey (fuel : nat) (al : allocs) (key : MlKemKey) (rng : option (nat -> Z * list Z)) :
    option (Z * MlKemKey) :=
  match rng with
  | None => Some (BAD_FUNC_ARG, key)
  | Some rng =>
      let '(ret, rand) := rng (WC_ML_KEM_SYM_SZ * 2)%nat in
      if ret =? 0 then wc_MlKemKey_MakeKeyWithRandom fuel al key (Some rand) WC_ML_KEM_MAKEKEY_RAND_SZ
      else Some (ret, key)
  end.

(** *** Encapsulation *)

(** The result and the bytes written at [c].  The allocation holds
    y (k polynomials), the row of the matrix (k) and u (k). *)
Definition mlkemkey_encapsulate (fuel : nat) (al : allocs) (heap : list (list Z)) (key : MlKemKey)
    (m r : list Z) : option (Z * list Z) :=
  match type_k (key_type key) with
  | None => Some (NOT_COMPILED_IN, [])
  | Some k =>
      if al_y al then
        let '(ret, (y, _, _, r)) := mlkem_get_noise k false false r in
        if ret =? 0 then
          let a := slice k k heap in
          let u := slice (2 * k) k heap in
          match mlkem_encapsulate_seeds fuel (al_rand al) (key_pub key) u (vpoly a 0) y k m (key_pubSeed key) r with
          | None => None
          | Some (ret, u, v) =>
              if ret =? 0 then
                Some (0, if (k =? WC_ML_KEM_1024_K)%nat then mlkem_vec_compress_11 u ++ mlkem_compress_5 v
                         else mlkem_vec_compress_10 u k ++ mlkem_compress_4 v)
              else Some (ret, [])
          end
        else Some (ret, [])
      else Some (MEMORY_E, [])
  end.

(** The result, the ciphertext, the secret and the key, whose public polynomials
    are reduced and hashed if the hash was not set. *)
Definition wc_MlKemKey_EncapsulateWithRandom (fuel : nat) (al : allocs) (heap : list (list Z)) (key : MlKemKey)
    (m : option (list Z)) (len : Z) : option (Z * list Z * list Z * MlKemKey) :=
  match m with
  | None => Some (BAD_FUNC_ARG, [], [], key)
  | Some m =>
      if negb (len =? WC_ML_KEM_ENC_RAND_SZ) then Some (BUFFER_E, [], [], key)
      else
        let '(ret, key) :=
          if flag_clear key MLKEM_FLAG_H_SET then
            let '(ret, pubKeyLen) := wc_MlKemKey_PublicKeySize key in
            if ret =? 0 then
              if al_pubKey al then
                let '(ret, _, key) := wc_MlKemKey_EncodePublicKey key pubKeyLen in (ret, key)
              else (MEMORY_E, key)
            else (ret, key)
          else (0, key) in
        let ret := if (ret =? 0) && flag_clear key MLKEM_FLAG_H_SET then BAD_STATE_E else ret in
        if ret =? 0 then
          let kr := sha3_512 (take WC_ML_KEM_SYM_SZ m ++ take WC_ML_KEM_SYM_SZ (key_h key)) ++ [0] in
          match mlkemkey_encapsulate fuel al heap key m (drop WC_ML_KEM_SYM_SZ kr) with
          | None => None
          | Some (ret, c) => Some (ret, c, if ret =? 0 then take WC_ML_KEM_SS_SZ kr else [], key)
          end
        else Some (ret, [], [], key)
  end.

Definition wc_MlKemKey_Encapsulate (fuel : nat) (al : allocs) (heap : list (list Z)) (key : MlKemKey)
    (rng : option (nat -> Z * list Z)) : option (Z * list Z * list Z * MlKemKey) :=
  match rng with
  | None => Some (BAD_FUNC_ARG, [], [], key)
  | Some rng =>
      let '(ret, m) := rng (Z.to_nat WC_ML_KEM_ENC_RAND_SZ) in
      if ret =? 0 then wc_MlKemKey_EncapsulateWithRandom fuel al heap key (Some m) WC_ML_KEM_ENC_RAND_SZ
      else Some (ret, [], [], key)
  end.

(** *** Decapsulation *)

(** The result and the message. *)
Definition mlkemkey_decapsulate (al : allocs) (key : MlKemKey) (c : list Z) : Z * list Z :=
  match type_k (key_type key) with
  | None => (NOT_COMPILED_IN, [])
  | Some k =>
      if al_u al then
        let c1 := c in
        let c2 := drop (POLY_VEC_COMPRESSED_SZ k) c in
        let '(u, v) := if (k =? WC_ML_KEM_1024_K)%nat then (mlkem_vec_decompress_11 c1, mlkem_decompress_5 c2)
                       else (mlkem_vec_decompress_10 c1 k, mlkem_decompress_4 c2) in
        let w := mlkem_decapsulate_c (key_priv key) u v k in
        (0, mlkem_to_msg w)
      else (MEMORY_E, [])
  end.

Definition mlkem_derive_secret (z ct : list Z) (ctSz : Z) : list Z :=
  shake256 (take WC_ML_KEM_SYM_SZ z ++ take (Z.to_nat ctSz) ct) WC_ML_KEM_SS_SZ.

(** The result and the secret: [kr] where the ciphertexts agree, [msg] otherwise. *)
Definition wc_MlKemKey_Decapsulate (fuel : nat) (al : allocs) (heap : list (list Z)) (key : MlKemKey)
    (ct : option (list Z)) (len : Z) : option (Z * list Z) :=
  match ct with
  | None => Some (BAD_FUNC_ARG, [])
  | Some ct =>
      match type_k (key_type key) with
      | None => Some (NOT_COMPILED_IN, [])
      | Some k =>
          let ctSz := CIPHER_TEXT_SIZE k in
          if negb (len =? ctSz) then Some (BUFFER_E, [])
          else if negb (al_cmp al) then Some (MEMORY_E, [])
          else
            let '(ret, msg) := mlkemkey_decapsulate al key ct in
            if ret =? 0 then
              let kr := sha3_512 (take WC_ML_KEM_SYM_SZ msg ++ take WC_ML_KEM_SYM_SZ (key_h key)) ++ [0] in
              match mlkemkey_encapsulate fuel al heap key msg (drop WC_ML_KEM_SYM_SZ kr) with
              | None => None
              | Some (ret, cmp) =>
                  if ret =? 0 then
                    let fail := mlkem_cmp ct cmp (Z.to_nat ctSz) in
                    let msg := mlkem_derive_secret (key_z key) ct ctSz in
                    Some (0, map (fun i => u8 (Z.lxor (nth i kr 0)
                      (Z.land (Z.lxor (nth i kr 0) (nth i msg 0)) fail))) (seq 0 WC_ML_KEM_SYM_SZ))
                  else Some (ret, [])
              end
            else Some (ret, [])
      end
  end.

End Kem.

(** ** Constant-time comparison and selection *)

Lemma lxor_0_iff x y : Z.lxor x y = 0 <-> x = y.
Proof. split; [apply Z.lxor_eq|intros ->; apply Z.lxor_nilpotent]. Qed.

Lemma cmp_accumulates a b n : is_byte_list a -> is_byte_list b ->
  let r := fold_left (fun r i => u8 (Z.lor r (Z.lxor (nth i a 0) (nth i b 0)))) (seq 0 n) 0 in
  0 <= r < 256 /\ (r = 0 <-> forall i, (i < n)%nat -> nth i a 0 = nth i b 0).
Proof.
  intros Ha Hb. cbv zeta. induction n as [|n [Hr IH]]; [split; [cbn; lia|split; [lia|done]]|].
  rewrite seq_S, fold_left_app. cbn [fold_left Nat.add].
  set (r := fold_left _ _ 0) in *. clearbody r.
  pose proof (nth_byte a n Ha) as Hx. pose proof (nth_byte b n Hb) as Hy.
  set (x := nth n a 0) in *. set (y := nth n b 0) in *.
  assert (Hw : in_word 8 (Z.lor r (Z.lxor x y))) by (apply lor_range; [lia|exact Hr|by apply lxor_range]).
  rewrite wrap_small by done. split; [exact Hw|]. rewrite Z.lor_eq_0_iff, lxor_0_iff, IH. split.
  - intros [H1 H2] i Hi. destruct (decide (i = n)) as [->|]; [done|]. apply H1. lia.
  - intros H1. split; [intros i Hi; apply H1; lia|apply H1; lia].
Qed.

Lemma mlkem_cmp_spec a b n : is_byte_list a -> is_byte_list b -> length a = n -> length b = n ->
  mlkem_cmp a b n = if decide (a = b) then 0 else -1.
Proof.
  intros Ha Hb La Lb. unfold mlkem_cmp, mlkem_cmp_c. cbv zeta.
  destruct (cmp_accumulates a b n Ha Hb) as [Hr H0]. set (r := fold_left _ _ 0) in *. clearbody r.
  assert (Heq : r = 0 <-> a = b).
  { rewrite H0. split; [|by intros ->]. intros Hi. apply list_eq_same_length with n; [done..|].
    intros i x y Hl Hx Hy. specialize (Hi i Hl).
    by rewrite (nth_lookup_Some _ _ _ _ Hx), (nth_lookup_Some _ _ _ _ Hy) in Hi. }
  destruct (decide (a = b)) as [E|E].
  - apply Heq in E. subst r. reflexivity.
  - assert (Hrn : 0 < r < 256) by (assert (r <> 0) by tauto; lia).
    assert (Hs : Z.shiftr (u32 (- r)) 31 = 1).
    { rewrite Z.shiftr_div_pow2 by lia. unfold wrap. lia_mod. }
    rewrite Hs. reflexivity.
Qed.

(** The byte selected by the mask. *)
Lemma select_byte x y (b : bool) : 0 <= x < 256 -> 0 <= y < 256 ->
  u8 (Z.lxor x (Z.land (Z.lxor x y) (if b then 0 else -1))) = if b then x else y.
Proof.
  intros Hx Hy. destruct b.
  - rewrite Z.land_0_r, Z.lxor_0_r. by apply (wrap_small 8).
  - rewrite Z.land_m1_r, <- Z.lxor_assoc, Z.lxor_nilpotent, Z.lxor_0_l. by apply (wrap_small 8).
Qed.

Lemma emit_bytes s b (f : nat -> list Z) : (forall i, is_byte_list (f i)) -> is_byte_list (emit s b f).
Proof. intros Hf. apply Forall_concat, Forall_fmap, Forall_forall. intros k _. apply Hf. Qed.

Lemma u8_range x : 0 <= u8 x < 256.
Proof. apply (wrap_range 8). lia. Qed.

Lemma compress_10_bytes v k : (k <= length v)%nat ->
  length (mlkem_vec_compress_10 v k) = (k * 320)%nat /\ is_byte_list (mlkem_vec_compress_10 v k).
Proof.
  intros Hk. unfold mlkem_vec_compress_10, mlkem_vec_compress_10_c. cbv zeta. split.
  - rewrite (length_concat_uniform 320).
    + by rewrite !length_map, length_take_le.
    + apply Forall_fmap, Forall_true. intros p. by apply (emit_length 5).
  - apply Forall_concat, Forall_fmap, Forall_forall. intros p _. apply emit_bytes. intros i.
    unfold pack_10. repeat constructor; apply u8_range.
Qed.

Lemma compress_4_bytes p : length (mlkem_compress_4 p) = 128%nat /\ is_byte_list (mlkem_compress_4 p).
Proof.
  unfold mlkem_compress_4, mlkem_compress_4_c. cbv zeta. split; [by apply (emit_length 4)|].
  apply emit_bytes. intros i. repeat constructor; apply u8_range.
Qed.

(** ** Encapsulation and decapsulation are total *)

Section KemLaws.
Context `{KL : KemHashLaws}.

(** The fuel is enough to sample the matrix of a seed. *)
Definition matrix_sampled (fuel : nat) (seed : list Z) : Prop :=
  forall i j, (i < 2)%nat -> (j < 2)%nat -> is_Some (gen_poly fuel (extSeed_ij seed false i j)).

Lemma matrix_sampled_gen fuel seed : matrix_sampled fuel seed ->
  exists Ahat, forall i j, (i < 2)%nat -> (j < 2)%nat -> gen_poly fuel (extSeed_ij seed false i j) = Some (Ahat i j).
Proof.
  intros Hs. exists (fun i j => default [] (gen_poly fuel (extSeed_ij seed false i j))).
  intros i j Hi Hj. destruct (Hs i j Hi Hj) as [a Ha]. by rewrite Ha.
Qed.

Lemma matrix_sampled_row fuel seed i tr : matrix_sampled fuel seed -> (i < 2)%nat ->
  exists row, mlkem_gen_matrix_i fuel true 2 seed i tr = Some (0, row).
Proof. intros Hs Hi. destruct (matrix_sampled_gen _ _ Hs) as [Ahat Hg]. eexists. by apply (gen_row fuel seed Ahat Hg). Qed.

Lemma rows_loop_length row rows t r t' : rows_loop row rows t = Some (r, t') -> length t' = length t.
Proof.
  revert t. induction rows as [|i rows IH]; intros t E; cbn [rows_loop] in E; [by simplify_eq|].
  destruct (row i (vpoly t i)) as [[ri ti]|]; [|done]. cbv zeta in E.
  destruct (ri =? 0); [by rewrite (IH _ E), length_insert|]. injection E as _ <-. by rewrite length_insert.
Qed.

Lemma rows_loop_total row rows t :
  (forall i ti, i ∈ rows -> exists ti', row i ti = Some (0, ti')) -> exists t', rows_loop row rows t = Some (0, t').
Proof.
  revert t. induction rows as [|i rows IH]; intros t Hr; cbn [rows_loop]; [eauto|].
  destruct (Hr i (vpoly t i)) as [ti' ->]; [by constructor|]. cbn [Z.eqb].
  apply IH. intros j tj Hj. apply Hr. by constructor.
Qed.

Lemma encapsulate_seeds_total fuel pub u tp y msg seed coins : matrix_sampled fuel seed ->
  exists u' v, mlkem_encapsulate_seeds fuel (fun _ => true) pub u tp y 2 msg seed coins = Some (0, u', v) /\
  length u' = length u.
Proof.
  intros Hs. unfold mlkem_encapsulate_seeds. cbv zeta. set (y' := ntt_vec 2 y). clearbody y'.
  destruct (rows_loop_total (encapsulate_row fuel (fun _ => true) 2 y' seed coins) (seq 0 2) u) as [u' Hu].
  { intros i ti Hi%elem_of_seq. unfold encapsulate_row.
    destruct (matrix_sampled_row fuel seed i true Hs) as [row ->]; [lia|]. cbn [Z.eqb]. eauto. }
  rewrite Hu. do 2 eexists. split; [reflexivity|]. exact (rows_loop_length _ _ _ _ _ Hu).
Qed.

(** Encapsulation with an ML-KEM-512 key writes 768 bytes. *)
Lemma encapsulate_total fuel heap key m r : key_type key = WC_ML_KEM_512 -> length heap = 6%nat ->
  matrix_sampled fuel (key_pubSeed key) ->
  exists c, mlkemkey_encapsulate fuel no_failure heap key m r = Some (0, c) /\
  length c = 768%nat /\ is_byte_list c.
Proof.
  intros Ht Hh Hs. unfold mlkemkey_encapsulate. rewrite Ht. cbn [type_k WC_ML_KEM_512 Z.eqb no_failure al_y al_rand].
  change (mlkem_get_noise WC_ML_KEM_512_K false false r) with (0, mlkem_get_noise_c 2 MLKEM_CBD_ETA3 false MLKEM_CBD_ETA3 false r).
  unfold mlkem_get_noise_c. cbv zeta. cbn [Z.eqb].
  destruct (encapsulate_seeds_total fuel (key_pub key) (slice (2 * WC_ML_KEM_512_K) WC_ML_KEM_512_K heap)
    (vpoly (slice WC_ML_KEM_512_K WC_ML_KEM_512_K heap) 0) (noise_vec r MLKEM_CBD_ETA3 0 WC_ML_KEM_512_K) m
    (key_pubSeed key) (seed_index r (2 * Z.of_nat 2)) Hs) as (u & v & E & Hu).
  change 2%nat with WC_ML_KEM_512_K in E |- *. rewrite E. cbn [Z.eqb].
  eexists. split; [reflexivity|]. rewrite length_slice in Hu by (rewrite Hh; unfold WC_ML_KEM_512_K; lia). change WC_ML_KEM_512_K with 2%nat in Hu.
  change WC_ML_KEM_512_K with 2%nat. change ((2 =? WC_ML_KEM_1024_K)%nat) with false. cbv iota.
  destruct (compress_10_bytes u 2) as [L1 B1]; [lia|]. destruct (compress_4_bytes v) as [L2 B2].
  split; [rewrite length_app, L1, L2; done|]. by apply Forall_app.
Qed.

Lemma map_nth_seq (l : list Z) n : length l = n -> map (fun i => nth i l 0) (seq 0 n) = l.
Proof.
  intros <-. apply (nth_ext _ _ 0 0); rewrite length_map, length_seq; [done|]. intros i Hi.
  rewrite (nth_indep _ 0 (nth 0 l 0)) by (by rewrite length_map, length_seq).
  rewrite (map_nth (fun i => nth i l 0)), seq_nth by done. done.
Qed.

Lemma select_secret kr alt (b : bool) : is_byte_list kr -> is_byte_list alt ->
  (32 <= length kr)%nat -> length alt = 32%nat ->
  map (fun i => u8 (Z.lxor (nth i kr 0) (Z.land (Z.lxor (nth i kr 0) (nth i alt 0)) (if b then 0 else -1))))
    (seq 0 WC_ML_KEM_SYM_SZ) = if b then take 32 kr else alt.
Proof.
  intros Hk Ha Lk La. rewrite (map_ext _ (fun i => if b then nth i kr 0 else nth i alt 0))
    by (intros i; apply select_byte; by apply nth_byte).
  destruct b; [|by apply map_nth_seq]. rewrite <- (map_nth_seq (take 32 kr) 32) by (rewrite length_take; lia).
  apply map_ext_in. intros i Hi%in_seq. rewrite !nth_lookup, lookup_take_lt by lia. done.
Qed.

Lemma sha3_512_kr s : is_byte_list (sha3_512 s ++ [0]) /\ length (sha3_512 s ++ [0]) = 65%nat.
Proof.
  destruct (sha3_512_bytes s) as [L B]. split; [|by rewrite length_app, L].
  apply Forall_app. split; [exact B|]. by repeat constructor.
Qed.

Lemma decapsulate_spec fuel heap key ct c' m : key_type key = WC_ML_KEM_512 ->
  is_byte_list ct -> length ct = 768%nat -> is_byte_list c' -> length c' = 768%nat ->
  mlkemkey_decapsulate no_failure key ct = (0, m) ->
  let kr := sha3_512 (take 32 m ++ take 32 (key_h key)) ++ [0] in
  mlkemkey_encapsulate fuel no_failure heap key m (drop 32 kr) = Some (0, c') ->
  wc_MlKemKey_Decapsulate fuel no_failure heap key (Some ct) 768 =
    Some (0, if decide (ct = c') then take 32 kr else shake256 (take 32 (key_z key) ++ ct) 32).
Proof.
  intros Ht Hc Lc Hc' Lc' Hm. cbv zeta. intros He. unfold wc_MlKemKey_Decapsulate. rewrite Ht.
  change (type_k WC_ML_KEM_512) with (Some 2%nat). cbv zeta.
  change (negb (768 =? CIPHER_TEXT_SIZE 2)) with false. change (negb (al_cmp no_failure)) with false. cbv iota.
  rewrite Hm. cbn [Z.eqb]. change WC_ML_KEM_SYM_SZ with 32%nat at 1 2 3. rewrite He. cbn [Z.eqb].
  change (Z.to_nat (CIPHER_TEXT_SIZE 2)) with 768%nat. rewrite mlkem_cmp_spec by done.
  destruct (sha3_512_kr (take 32 m ++ take 32 (key_h key))) as [Bk Lk].
  set (kr := sha3_512 _ ++ [0]) in *. clearbody kr.
  assert (Ha : length (mlkem_derive_secret (key_z key) ct (CIPHER_TEXT_SIZE 2)) = 32%nat /\
    is_byte_list (mlkem_derive_secret (key_z key) ct (CIPHER_TEXT_SIZE 2))) by apply shake256_bytes.
  assert (Hd : mlkem_derive_secret (key_z key) ct (CIPHER_TEXT_SIZE 2) = shake256 (take 32 (key_z key) ++ ct) 32).
  { unfold mlkem_derive_secret. change (Z.to_nat (CIPHER_TEXT_SIZE 2)) with 768%nat. by rewrite (take_ge ct) by lia. }
  rewrite Hd in Ha |- *. destruct Ha as [La Ba]. set (alt := shake256 _ _) in *. clearbody alt.
  assert (Lk32 : (32 <= length kr)%nat) by lia.
  destruct (decide (ct = c')).
  - by rewrite (select_secret kr alt true Bk Ba Lk32 La).
  - by rewrite (select_secret kr alt false Bk Ba Lk32 La).
Qed.

(** C14: decapsulation rejects implicitly, as FIPS 203 (algorithm 18) has it: it
    never reports an error for a ciphertext of the right length; it decrypts it,
    encrypts the message found again with the coins derived from it, and returns
    the secret derived from the message when that gives the same ciphertext, and
    otherwise the hash of the key's secret value z and the ciphertext.  The
    comparison and the selection are the code's, on masks. *)
Theorem decapsulation_rejects_implicitly fuel heap key ct
    (Htype : key_type key = WC_ML_KEM_512) (Hheap : length heap = 6%nat)
    (Hgen : matrix_sampled fuel (key_pubSeed key)) (Hbytes : is_byte_list ct) (Hlen : length ct = 768%nat) :
  exists m c',
    mlkemkey_decapsulate no_failure key ct = (0, m) /\
    let kr := sha3_512 (take 32 m ++ take 32 (key_h key)) ++ [0] in
    mlkemkey_encapsulate fuel no_failure heap key m (drop 32 kr) = Some (0, c') /\
    wc_MlKemKey_Decapsulate fuel no_failure heap key (Some ct) 768 =
      Some (0, if decide (ct = c') then take 32 kr else shake256 (take 32 (key_z key) ++ ct) 32).
Proof.
  assert (Hd : exists m, mlkemkey_decapsulate no_failure key ct = (0, m)).
  { unfold mlkemkey_decapsulate. rewrite Htype. eexists. reflexivity. }
  destruct Hd as [m Hm]. cbv zeta.
  destruct (encapsulate_total fuel heap key m (drop 32 (sha3_512 (take 32 m ++ take 32 (key_h key)) ++ [0]))
    Htype Hheap Hgen) as (c' & He & Lc & Bc).
  exists m, c'. split; [done|]. split; [exact He|]. by apply decapsulate_spec.
Qed.

(** ** Keys and their encodings *)

(** An initialised key of type ML-KEM-512 with its arrays in memory. *)
Definition fresh_key (key : MlKemKey) : Prop :=
  key_type key = WC_ML_KEM_512 /\ key_flags key = 0 /\
  length (key_priv key) = 4%nat /\ length (key_pub key) = 4%nat /\ Forall is_poly (key_priv key ++ key_pub key).

Lemma fresh_key_shape key : fresh_key key -> exists p0 p1 ps t0 t1 ts rho h z,
  key = MkMlKemKey 0 0 (p0 :: p1 :: ps) (t0 :: t1 :: ts) rho h z /\ is_poly t0 /\ is_poly t1.
Proof.
  destruct key as [ty fl priv pub rho h z]. unfold fresh_key. cbn [key_type key_flags key_priv key_pub].
  intros (-> & -> & Lp & Lt & Hp). destruct priv as [|p0 [|p1 ps]]; [done..|]. destruct pub as [|t0 [|t1 ts]]; [done..|].
  apply Forall_app in Hp as [_ Ht]. rewrite !Forall_cons in Ht. destruct_and!. by do 9 eexists.
Qed.

(** The 12-bit packing of two polynomials. *)
Definition two_bytes (t0 t1 : list Z) : list Z :=
  poly_bytes_12 (mlkem_csubq_c t0) ++ poly_bytes_12 (mlkem_csubq_c t1).

Lemma two_bytes_length t0 t1 : length (two_bytes t0 t1) = 768%nat.
Proof. unfold two_bytes. by rewrite length_app, !poly_bytes_12_length. Qed.

Lemma to_bytes_two t0 t1 ts : mlkem_to_bytes (t0 :: t1 :: ts) 2 =
  (two_bytes t0 t1, mlkem_csubq_c t0 :: mlkem_csubq_c t1 :: ts).
Proof.
  change (mlkem_to_bytes (t0 :: t1 :: ts) 2) with
    (poly_bytes_12 (mlkem_csubq_c t0) ++ poly_bytes_12 (mlkem_csubq_c t1) ++ [], mlkem_csubq_c t0 :: mlkem_csubq_c t1 :: ts).
  by rewrite app_nil_r.
Qed.

Lemma from_bytes_two t0 t1 rest : nearly_reduced t0 -> nearly_reduced t1 ->
  mlkem_from_bytes (two_bytes t0 t1 ++ rest) 2 = [mlkem_csubq_c t0; mlkem_csubq_c t1].
Proof.
  intros [L0 R0] [L1 R1]. destruct (csubq_reduced t0 L0 R0) as [Q0 _], (csubq_reduced t1 L1 R1) as [Q1 _].
  assert (Hr : Forall reduced [mlkem_csubq_c t0; mlkem_csubq_c t1])
    by (constructor; [exact Q0|constructor; [exact Q1|constructor]]).
  pose proof (from_to_bytes [mlkem_csubq_c t0; mlkem_csubq_c t1] rest Hr) as E.
  change (concat (map poly_bytes_12 [?a; ?b])) with (poly_bytes_12 a ++ poly_bytes_12 b ++ []) in E.
  rewrite app_nil_r in E. exact E.
Qed.

Lemma csubq_idem t : nearly_reduced t -> mlkem_csubq_c (mlkem_csubq_c t) = mlkem_csubq_c t.
Proof.
  intros [L R]. destruct (csubq_reduced t L R) as [[_ Q] _]. unfold mlkem_csubq_c at 1.
  rewrite <- (map_id (mlkem_csubq_c t)) at 2. apply map_ext_in. intros x Hx%list_elem_of_In.
  rewrite Forall_forall in Q. specialize (Q x Hx). rewrite csubq_spec by lia.
  destruct (Z.ltb_spec x MLKEM_Q); [done|lia].
Qed.

Lemma csubq_nearly t : nearly_reduced t -> nearly_reduced (mlkem_csubq_c t).
Proof.
  intros [L R]. destruct (csubq_reduced t L R) as [[L' Q] _]. split; [done|].
  eapply Forall_impl; [exact Q|]. intros x Hx. cbn in Hx. lia.
Qed.

Lemma encode_public_two fl p t0 t1 ts rho h z : Z.land fl 2 = 2 -> length rho = 32%nat ->
  wc_MlKemKey_EncodePublicKey (MkMlKemKey 0 fl p (t0 :: t1 :: ts) rho h z) 800 =
  (0, two_bytes t0 t1 ++ rho,
   MkMlKemKey 0 (Z.lor fl 4) p (mlkem_csubq_c t0 :: mlkem_csubq_c t1 :: ts) rho
     (if Z.land fl 4 =? 0 then sha3_256 (two_bytes t0 t1 ++ rho) else h) z).
Proof.
  intros Hf Hr. unfold wc_MlKemKey_EncodePublicKey. cbn [key_flags key_type key_pub].
  change MLKEM_FLAG_PUB_SET with 2. rewrite Hf. change (negb (2 =? 2)) with false.
  change (type_k 0) with (Some 2%nat). change (negb (800 =? PUBLIC_KEY_SIZE 2)) with false. cbv iota.
  rewrite to_bytes_two. cbv zeta. unfold set_pub, set_h, set_flags, flag_clear. change WC_ML_KEM_SYM_SZ with 32%nat.
  cbn [key_type key_flags key_priv key_pub key_pubSeed key_h key_z]. rewrite (take_ge rho) by lia.
  change MLKEM_FLAG_H_SET with 4. by destruct (Z.land fl 4 =? 0).
Qed.

Lemma encode_private_two s0 s1 ss t0 t1 ts rho h z : length rho = 32%nat -> length h = 32%nat -> 
  wc_MlKemKey_EncodePrivateKey (MkMlKemKey 0 7 (s0 :: s1 :: ss) (t0 :: t1 :: ts) rho h z) 1632 =
  (0, two_bytes s0 s1 ++ (two_bytes t0 t1 ++ rho) ++ h ++ z,
   MkMlKemKey 0 7 (mlkem_csubq_c s0 :: mlkem_csubq_c s1 :: ss) (mlkem_csubq_c t0 :: mlkem_csubq_c t1 :: ts) rho h z).
Proof.
  intros Hr Hh. unfold wc_MlKemKey_EncodePrivateKey. cbn [key_flags key_type key_priv].
  change (negb (Z.land 7 MLKEM_FLAG_BOTH_SET =? MLKEM_FLAG_BOTH_SET)) with false.
  change (type_k 0) with (Some 2%nat). change (negb (1632 =? PRIVATE_KEY_SIZE 2)) with false. cbv iota.
  rewrite to_bytes_two. cbv zeta. unfold set_priv. cbn [key_type key_flags key_priv key_pub key_pubSeed key_h key_z].
  change (PUBLIC_KEY_SIZE 2) with 800. rewrite encode_public_two by done. reflexivity.
Qed.

Lemma decode_private_two p0 p1 ps q0 q1 qs rho0 h0 z0 s0 s1 t0 t1 rho h z :
  nearly_reduced s0 -> nearly_reduced s1 -> nearly_reduced t0 -> nearly_reduced t1 ->
  length rho = 32%nat -> length h = 32%nat -> length z = 32%nat ->
  wc_MlKemKey_DecodePrivateKey (MkMlKemKey 0 0 (p0 :: p1 :: ps) (q0 :: q1 :: qs) rho0 h0 z0)
    (Some (two_bytes s0 s1 ++ (two_bytes t0 t1 ++ rho) ++ h ++ z)) 1632 =
  (0, MkMlKemKey 0 7 (mlkem_csubq_c s0 :: mlkem_csubq_c s1 :: ps) (mlkem_csubq_c t0 :: mlkem_csubq_c t1 :: qs) rho h z).
Proof.
  intros Rs0 Rs1 Rt0 Rt1 Lr Lh Lz. unfold wc_MlKemKey_DecodePrivateKey. cbn [key_type].
  change (type_k 0) with (Some 2%nat). change (negb (1632 =? PRIVATE_KEY_SIZE 2)) with false. cbv iota zeta.
  rewrite from_bytes_two by done. change (2 * WC_ML_KEM_POLY_SIZE)%nat with 768%nat.
  rewrite (drop_app_length' (two_bytes s0 s1)) by (by rewrite two_bytes_length).
  unfold mlkemkey_decode_public. change (2 * WC_ML_KEM_POLY_SIZE)%nat with 768%nat. change WC_ML_KEM_SYM_SZ with 32%nat.
  rewrite <- (app_assoc (two_bytes t0 t1)), from_bytes_two by done.
  change (Z.to_nat (PUBLIC_KEY_SIZE 2)) with 800%nat.
  assert (E1 : slice 768 32 (two_bytes t0 t1 ++ rho ++ h ++ z) = rho).
  { unfold slice. rewrite (drop_app_length' (two_bytes t0 t1)) by (by rewrite two_bytes_length). by apply take_app_length'. }
  assert (E2 : drop 800 (two_bytes t0 t1 ++ rho ++ h ++ z) = h ++ z).
  { rewrite app_assoc. apply drop_app_length'. rewrite length_app, two_bytes_length. lia. }
  unfold set_priv, set_pub, set_pubSeed, set_h, set_z, set_flags. cbn [key_type key_flags key_priv key_pub key_pubSeed key_h key_z].
  rewrite E1, E2. rewrite (take_app_length' h), (drop_app_length' h), (take_ge z) by lia. reflexivity.
Qed.

Lemma decode_public_two p q0 q1 qs rho0 h0 z0 t0 t1 rho : nearly_reduced t0 -> nearly_reduced t1 -> length rho = 32%nat ->
  wc_MlKemKey_DecodePublicKey (MkMlKemKey 0 0 p (q0 :: q1 :: qs) rho0 h0 z0) (Some (two_bytes t0 t1 ++ rho)) 800 =
  (0, MkMlKemKey 0 6 p (mlkem_csubq_c t0 :: mlkem_csubq_c t1 :: qs) rho (sha3_256 (two_bytes t0 t1 ++ rho)) z0).
Proof.
  intros Rt0 Rt1 Lr. unfold wc_MlKemKey_DecodePublicKey. cbn [key_type].
  change (type_k 0) with (Some 2%nat). change (negb (800 =? PUBLIC_KEY_SIZE 2)) with false. cbv iota zeta.
  unfold mlkemkey_decode_public. rewrite from_bytes_two by done. change (2 * WC_ML_KEM_POLY_SIZE)%nat with 768%nat.
  change WC_ML_KEM_SYM_SZ with 32%nat. unfold slice. rewrite (drop_app_length' (two_bytes t0 t1)) by (by rewrite two_bytes_length).
  rewrite !take_ge by (rewrite ?length_app, ?two_bytes_length; change (Z.to_nat 800) with 800%nat; lia).
  reflexivity.
Qed.

(** ** One exchange *)

Lemma represents_peq h h' f : peq h' h -> represents h f -> represents h' f.
Proof.
  intros Hp [Hl Hr]. split; [by rewrite (Forall2_length _ _ _ Hp)|]. intros i Hi.
  assert (Hn : forall j, nth j h' 0 == nth j h 0).
  { clear -Hp. induction Hp as [|x y h' h Hxy _ IH]; intros [|j]; cbn; try done. }
  rewrite !Hn. by apply Hr.
Qed.

Lemma csubq_represents h f : Forall (fun x => 0 <= x <= MLKEM_Q) h -> represents h f ->
  represents (mlkem_csubq_c h) f /\ within MLKEM_Q (mlkem_csubq_c h).
Proof.
  intros Hr Hf. assert (Hn : Forall (fun x => 0 <= x < 2 * MLKEM_Q) h).
  { eapply Forall_impl; [exact Hr|]. unfold MLKEM_Q. cbn. lia. }
  destruct (csubq_reduced h (proj1 Hf) Hn) as [[L Q] E]. split; [by apply (represents_peq h)|].
  split; [done|]. eapply Forall_impl; [exact Q|]. cbn. lia.
Qed.

(** The rows and products depend on the polynomials in use only. *)
Lemma basemul_mont_heap r r' a b : is_poly r -> is_poly r' -> mlkem_basemul_mont r a b = mlkem_basemul_mont r' a b.
Proof.
  intros Hr Hr'. apply (nth_ext _ _ 0 0); rewrite !basemul_mont_length; [congruence|].
  intros i Hi. rewrite Hr in Hi. unfold MLKEM_N in Hi.
  pose proof (Nat.div_mod i 4 ltac:(lia)) as E. pose proof (Nat.mod_upper_bound i 4 ltac:(lia)) as Hm.
  rewrite E, !basemul_mont_nth by (done || lia). done.
Qed.

Lemma pointwise_heap r r' a b b' : is_poly r -> is_poly r' -> vpoly b 0 = vpoly b' 0 -> vpoly b 1 = vpoly b' 1 ->
  mlkem_pointwise_acc_mont r b a 2 = mlkem_pointwise_acc_mont r' b' a 2.
Proof.
  intros Hr Hr' E0 E1. unfold mlkem_pointwise_acc_mont. change (seq 1 (2 - 2)) with (@nil nat).
  change (2 - 1)%nat with 1%nat. cbv zeta. cbn [fold_left]. rewrite E0, E1. by rewrite (basemul_mont_heap r r').
Qed.

Lemma encapsulate_row_value fuel y seed coins i : matrix_sampled fuel seed -> (i < 2)%nat ->
  exists x, forall ui, is_poly ui -> encapsulate_row fuel (fun _ => true) 2 y seed coins i ui = Some (0, x).
Proof.
  intros Hs Hi. destruct (matrix_sampled_row fuel seed i true Hs Hi) as [row Hrow].
  eexists. intros ui Hu. unfold encapsulate_row. rewrite Hrow. cbn [Z.eqb].
  by rewrite (pointwise_heap ui (replicate MLKEM_N 0) y row row).
Qed.

Lemma encapsulate_rows_value fuel y seed coins : matrix_sampled fuel seed ->
  exists u, forall a b, is_poly a -> is_poly b ->
  rows_loop (encapsulate_row fuel (fun _ => true) 2 y seed coins) (seq 0 2) [a; b] = Some (0, u).
Proof.
  intros Hs. destruct (encapsulate_row_value fuel y seed coins 0 Hs ltac:(lia)) as [x0 H0].
  destruct (encapsulate_row_value fuel y seed coins 1 Hs ltac:(lia)) as [x1 H1].
  exists [x0; x1]. intros a b Ha Hb. cbn [seq rows_loop vpoly nth]. rewrite H0 by done. cbn [Z.eqb].
  change (vpoly (<[0%nat := x0]> [a; b]) 1) with b. by rewrite H1.
Qed.

Lemma encapsulate_same fuel heap heap' key key' m r : length heap = 6%nat -> length heap' = 6%nat ->
  Forall is_poly heap -> Forall is_poly heap' ->
  key_type key = WC_ML_KEM_512 -> key_type key' = WC_ML_KEM_512 -> key_pubSeed key = key_pubSeed key' ->
  vpoly (key_pub key) 0 = vpoly (key_pub key') 0 -> vpoly (key_pub key) 1 = vpoly (key_pub key') 1 ->
  matrix_sampled fuel (key_pubSeed key) ->
  mlkemkey_encapsulate fuel no_failure heap key m r = mlkemkey_encapsulate fuel no_failure heap' key' m r.
Proof.
  intros Lh Lh' Ph Ph' T T' ES E0 E1 Hs.
  destruct heap as [|h0 [|h1 [|h2 [|h3 [|h4 [|h5 [|]]]]]]]; try done.
  destruct heap' as [|g0 [|g1 [|g2 [|g3 [|g4 [|g5 [|]]]]]]]; try done.
  rewrite !Forall_cons in Ph, Ph'. destruct_and!.
  unfold mlkemkey_encapsulate. rewrite T, T', <- ES. change (type_k WC_ML_KEM_512) with (Some 2%nat). cbv iota.
  change (al_y no_failure) with true. change (al_rand no_failure) with (fun _ : nat => true). cbv iota.
  destruct (mlkem_get_noise 2 false false r) as [ret [[[y v2] p] r']]. destruct (ret =? 0); [|done].
  cbv zeta. change (slice 2 2 ?l) with (take 2 (drop 2 l)). change (slice (2 * 2) 2 ?l) with (take 2 (drop 4 l)).
  cbn [take drop vpoly nth]. replace (mlkem_encapsulate_seeds fuel (fun _ => true) (key_pub key') [g4; g5] g2 y 2 m (key_pubSeed key) r')
    with (mlkem_encapsulate_seeds fuel (fun _ => true) (key_pub key) [h4; h5] h2 y 2 m (key_pubSeed key) r'); [done|].
  unfold mlkem_encapsulate_seeds. cbv zeta. set (y' := ntt_vec 2 y). clearbody y'.
  rewrite (pointwise_heap h2 g2 y' (key_pub key) (key_pub key')) by done.
  destruct (encapsulate_rows_value fuel y' (key_pubSeed key) r' Hs) as [u Hu]. by rewrite !Hu.
Qed.

Lemma comp_10_range x : 0 <= x < MLKEM_Q -> 0 <= comp_10 x <= MLKEM_Q.
Proof.
  intros Hx. pose proof (TO_COMP_WORD_10_range x Hx) as Ht. unfold comp_10, is_10 in *.
  rewrite DECOMP_10_eq by done. unfold MLKEM_Q. lia_mod.
Qed.

Lemma comp_4_range x : 0 <= x < MLKEM_Q -> 0 <= comp_4 x <= MLKEM_Q.
Proof.
  intros Hx. pose proof (TO_COMP_WORD_4_range x Hx) as Ht. unfold comp_4.
  rewrite DECOMP_4_eq by done. unfold MLKEM_Q. lia_mod.
Qed.

Lemma comp_within (f : Z -> Z) p : (forall x, 0 <= x < MLKEM_Q -> 0 <= f x <= MLKEM_Q) -> nearly_reduced p ->
  within 15000 (map f (mlkem_csubq_c p)).
Proof.
  intros Hf [L R]. destruct (csubq_reduced p L R) as [[L' Q] _]. split; [by rewrite length_map|].
  apply Forall_fmap. eapply Forall_impl; [exact Q|]. intros x Hx. specialize (Hf x Hx). cbn. unfold MLKEM_Q in *. lia.
Qed.

(** The seeds of key generation: G(d || k), split. *)
Definition keygen_rho (rand : list Z) : list Z := take 32 (sha3_512 (take 32 rand ++ [2]) ++ [0]).
Definition keygen_sigma (rand : list Z) : list Z := seed_index (drop 32 (sha3_512 (take 32 rand ++ [2]) ++ [0])) 4.

(** The secret vector; the noise is [mlkem_get_noise_i 2 (keygen_sigma rand) i true]. *)
Definition keygen_secret (rand : list Z) (i : nat) : list Z :=
  vpoly (noise_vec (drop 32 (sha3_512 (take 32 rand ++ [2]) ++ [0])) MLKEM_CBD_ETA3 0 2) i.

Lemma noise_vec_two seed eta : noise_vec seed eta 0 2 = [vpoly (noise_vec seed eta 0 2) 0; vpoly (noise_vec seed eta 0 2) 1].
Proof. reflexivity. Qed.

Lemma noise_vec_within seed eta i : (i < 2)%nat -> within 3 (vpoly (noise_vec seed eta 0 2) i).
Proof. intros Hi. destruct i as [|[|i]]; [apply noise_eta1_within..|lia]. Qed.

(** A residue of small absolute value: -832..831. *)
Definition centred (x : Z) : bool := (x + 832) mod MLKEM_Q <? 1664.

(** The coins of an encapsulation of [m] with a key. *)
Definition encaps_coins (key : MlKemKey) (m : list Z) : list Z :=
  drop 32 (sha3_512 (take 32 m ++ take 32 (key_h key)) ++ [0]).

(** What is left beside the message when a ciphertext made with [key] is
    decrypted: noise of the key, of the ciphertext, and of its compression. *)
Definition exchange_noise (fuel : nat) (heap : list (list Z)) (rand m : list Z) (key : MlKemKey) : option (list Z) :=
  let s := keygen_secret rand in
  let e i := mlkem_get_noise_i 2 (keygen_sigma rand) i true in
  let r := seed_index (encaps_coins key m) 4 in
  let y := noise_vec (encaps_coins key m) MLKEM_CBD_ETA3 0 2 in
  let f i := mlkem_get_noise_i 2 r i false in
  let h := mlkem_get_noise_eta2_c (seed_index r 4) in
  match mlkem_encapsulate_seeds fuel (fun _ => true) (key_pub key) (slice 4 2 heap) (vpoly (slice 2 2 heap) 0) y 2 m
    (key_pubSeed key) r with
  | Some (_, u, v) =>
      Some (pke_noise (s 0%nat) (s 1%nat) (e 0%nat) (e 1%nat) (vpoly y 0) (vpoly y 1) (f 0%nat) (f 1%nat) h
        (psub (map comp_10 (mlkem_csubq_c (vpoly u 0))) (vpoly u 0))
        (psub (map comp_10 (mlkem_csubq_c (vpoly u 1))) (vpoly u 1))
        (psub (map comp_4 (mlkem_csubq_c v)) v))
  | None => None
  end.

(** The noise of every coefficient leaves the nearer of 0 and q/2 the right one. *)
Definition decryptable (fuel : nat) (heap : list (list Z)) (rand m : list Z) (key : MlKemKey) : bool :=
  match exchange_noise fuel heap rand m key with
  | Some n => forallb centred n
  | None => false
  end.

Lemma encapsulate_512 fuel al heap key m r : key_type key = WC_ML_KEM_512 -> al_y al = true ->
  mlkemkey_encapsulate fuel al heap key m r =
  match mlkem_encapsulate_seeds fuel (al_rand al) (key_pub key) (slice 4 2 heap) (vpoly (slice 2 2 heap) 0)
    (noise_vec r MLKEM_CBD_ETA3 0 2) 2 m (key_pubSeed key) (seed_index r 4) with
  | Some (ret, u, v) => if ret =? 0 then Some (0, mlkem_vec_compress_10 u 2 ++ mlkem_compress_4 v) else Some (ret, [])
  | None => None
  end.
Proof.
  intros Ht Hy. unfold mlkemkey_encapsulate. rewrite Ht, Hy. change (type_k WC_ML_KEM_512) with (Some 2%nat). cbv iota.
  change (mlkem_get_noise 2 false false r) with (0, (noise_vec r MLKEM_CBD_ETA3 0 2, @nil (list Z), @nil Z, seed_index r 4)).
  cbv iota zeta. cbn [Z.eqb]. change (2 * 2)%nat with 4%nat. change ((2 =? WC_ML_KEM_1024_K)%nat) with false. reflexivity.
Qed.

Lemma decapsulate_512 key c : key_type key = WC_ML_KEM_512 ->
  mlkemkey_decapsulate no_failure key c =
  (0, mlkem_to_msg (mlkem_decapsulate_c (key_priv key) (mlkem_vec_decompress_10 c 2) (mlkem_decompress_4 (drop 640 c)) 2)).
Proof. intros Ht. unfold mlkemkey_decapsulate. rewrite Ht. reflexivity. Qed.

(** What encapsulation returns for a key whose hash is set. *)
Lemma encapsulate_with_random fuel al heap key m c : Z.land (key_flags key) 4 <> 0 ->
  mlkemkey_encapsulate fuel al heap key m (encaps_coins key m) = Some (0, c) ->
  wc_MlKemKey_EncapsulateWithRandom fuel al heap key (Some m) 32 =
  Some (0, c, take 32 (sha3_512 (take 32 m ++ take 32 (key_h key)) ++ [0]), key).
Proof.
  intros Hf He. unfold wc_MlKemKey_EncapsulateWithRandom. change (negb (32 =? WC_ML_KEM_ENC_RAND_SZ)) with false.
  assert (Hc : flag_clear key MLKEM_FLAG_H_SET = false) by (unfold flag_clear; by apply Z.eqb_neq).
  cbv iota. rewrite Hc. cbv iota zeta. rewrite Hc. change ((0 =? 0) && false) with false. cbv iota. cbn [Z.eqb].
  change WC_ML_KEM_SYM_SZ with 32%nat. change WC_ML_KEM_SS_SZ with 32%nat. fold (encaps_coins key m). by rewrite He.
Qed.

Section Exchange.
Variables (fuel : nat) (rand : list Z) (Ahat A : nat -> nat -> list Z).
Hypothesis rand_len : length rand = 64%nat.
Hypothesis gen : forall i j, (i < 2)%nat -> (j < 2)%nat ->
  gen_poly fuel (extSeed_ij (keygen_rho rand) false i j) = Some (Ahat i j).
Hypothesis A_hat : forall i j, (i < 2)%nat -> (j < 2)%nat ->
  is_poly (A i j) /\ represents (Ahat i j) (A i j) /\ within MLKEM_Q (Ahat i j).

Let s := keygen_secret rand.
Let e i := mlkem_get_noise_i 2 (keygen_sigma rand) i true.
Let rho := keygen_rho rand.

(** The public key in the ring. *)
Let t i := padd (psum [A i 0; A i 1] [s 0%nat; s 1%nat] 2) (e i).

Lemma make_key_two p0 p1 ps q0 q1 qs rho0 h0 z0 : is_poly q0 -> is_poly q1 ->
  exists t0 t1,
    wc_MlKemKey_MakeKeyWithRandom fuel no_failure (MkMlKemKey 0 0 (p0 :: p1 :: ps) (q0 :: q1 :: qs) rho0 h0 z0)
      (Some rand) 64 =
    Some (0, MkMlKemKey 0 3 (mlkem_ntt (s 0%nat) :: mlkem_ntt (s 1%nat) :: ps) (t0 :: t1 :: qs) rho h0 (drop 32 rand)) /\
    represents t0 (t 0%nat) /\ represents t1 (t 1%nat) /\
    Forall (Forall (fun x => 0 <= x <= MLKEM_Q)) [t0; t1].
Proof.
  intros Hq0 Hq1. unfold wc_MlKemKey_MakeKeyWithRandom. change (negb (64 =? WC_ML_KEM_MAKEKEY_RAND_SZ)) with false.
  unfold set_flags. cbn [key_type key_flags key_priv key_pub key_pubSeed key_h key_z].
  change (type_k 0) with (Some 2%nat). change (al_e no_failure) with true. cbv iota.
  change WC_ML_KEM_SYM_SZ with 32%nat. change (u8 (Z.of_nat 2)) with 2. cbv zeta.
  change (mlkem_get_noise 2 false false ?sg) with (0, mlkem_get_noise_c 2 MLKEM_CBD_ETA3 false MLKEM_CBD_ETA3 false sg).
  unfold mlkem_get_noise_c. cbv zeta. unfold set_z, set_pubSeed, set_priv, set_pub. cbn [Z.eqb key_type key_flags key_priv key_pub key_pubSeed key_h key_z].
  fold (keygen_rho rand). fold rho. change (2 * Z.of_nat 2) with 4. fold (keygen_sigma rand).
  change (al_rand no_failure) with (fun _ : nat => true).
  rewrite noise_vec_two. fold (keygen_secret rand 0). fold (keygen_secret rand 1). fold s. cbn [drop app].
  destruct (keygen_two fuel rho Ahat gen A A_hat (fun _ => true) (s 0%nat) (s 1%nat) ps q0 q1 qs (keygen_sigma rand)
    ltac:(done) (noise_vec_within _ _ 0 ltac:(lia)) (noise_vec_within _ _ 1 ltac:(lia)) Hq0 Hq1) as (t0 & t1 & E & R0 & R1 & B).
  change (drop 0 ps) with ps. rewrite E. exists t0, t1. split; [|by split_and!].
  replace (slice 32 32 rand) with (drop 32 rand); [reflexivity|].
  unfold slice. rewrite take_ge by (rewrite length_drop; lia). done.
Qed.

Lemma to_msg_centred w msg n : is_poly w -> Forall (fun x => 0 <= x <= MLKEM_Q) w ->
  length msg = 32%nat -> is_byte_list msg -> peq w (padd (mlkem_from_msg msg) n) -> forallb centred n = true ->
  mlkem_to_msg w = msg.
Proof.
  intros Hl Hw Hm Hb Hp Hn. apply to_msg_noise; [done| |done|done|].
  { eapply Forall_impl; [exact Hw|]. unfold MLKEM_Q. cbn. lia. }
  intros i Hi. destruct (lookup_lt_is_Some_2 w i) as [x Hx]; [by rewrite Hl|].
  destruct (Forall2_lookup_l _ _ _ _ _ Hp Hx) as (z & Hz & Hxz).
  apply lookup_zip_with_Some in Hz as (a & c & -> & Ha & Hc).
  rewrite (nth_lookup_Some _ _ _ _ Hx). rewrite <- mlkem_from_msg_nth by done.
  rewrite (nth_lookup_Some _ _ _ _ Ha). exists ((c + 832) mod MLKEM_Q - 832). split.
  - rewrite forallb_forall in Hn. specialize (Hn c ltac:(apply list_elem_of_In; by eapply list_elem_of_lookup_2)).
    unfold centred in Hn. pose proof (Z.mod_pos_bound (c + 832) MLKEM_Q ltac:(done)). lia.
  - rewrite Hxz, eqq_mod. apply (eqq_diff _ _ 0). lia.
Qed.

Lemma within_poly B f : within B f -> is_poly f.
Proof. by intros [L _]. Qed.

Lemma ciphertext_decrypts heap key priv m : length heap = 6%nat -> Forall is_poly heap ->
  key_type key = WC_ML_KEM_512 -> key_pubSeed key = rho -> vrepresents 2 (key_pub key) [t 0%nat; t 1%nat] ->
  vrepresents 2 priv [s 0%nat; s 1%nat] -> length m = 32%nat -> is_byte_list m ->
  decryptable fuel heap rand m key = true ->
  exists c, mlkemkey_encapsulate fuel no_failure heap key m (encaps_coins key m) = Some (0, c) /\
  forall key', key_type key' = WC_ML_KEM_512 -> key_priv key' = priv ->
    mlkemkey_decapsulate no_failure key' c = (0, m).
Proof.
  intros Lh Ph Ht Hrho Hpub Hpriv Lm Bm Hdec.
  destruct heap as [|h0 [|h1 [|h2 [|h3 [|h4 [|h5 [|]]]]]]]; try done.
  rewrite !Forall_cons in Ph. destruct_and!.
  unfold decryptable, exchange_noise in Hdec. cbv zeta in Hdec. rewrite Hrho in Hdec.
  change (slice 4 2 [h0; h1; h2; h3; h4; h5]) with [h4; h5] in Hdec.
  change (vpoly (slice 2 2 [h0; h1; h2; h3; h4; h5]) 0) with h2 in Hdec.
  set (r := encaps_coins key m) in *. set (r' := seed_index r 4) in *.
  set (y := noise_vec r MLKEM_CBD_ETA3 0 2) in *.
  destruct (encapsulate_two fuel rho Ahat gen A A_hat (fun _ => true) (key_pub key) (t 0%nat) (t 1%nat)
    (vpoly y 0) (vpoly y 1) h4 h5 h2 m r' ltac:(done) Hpub (noise_vec_within _ _ 0 ltac:(lia)) (noise_vec_within _ _ 1 ltac:(lia)))
    as (u0 & u1 & v & E & U0 & U1 & V & B); [done..|].
  assert (Hy : [vpoly y 0; vpoly y 1] = y) by reflexivity. rewrite Hy in E. rewrite E in Hdec.
  rewrite !Forall_cons in B. destruct B as ((Lu0 & Bu0) & (Lu1 & Bu1) & (Lv & Bv) & _).
  assert (Hnr : forall p, is_poly p -> Forall (fun x => 0 <= x <= MLKEM_Q) p -> nearly_reduced p).
  { intros p Lp Bp. split; [done|]. eapply Forall_impl; [exact Bp|]. unfold MLKEM_Q. cbn. lia. }
  eexists. split.
  - rewrite encapsulate_512, Hrho by done. change (al_rand no_failure) with (fun _ : nat => true).
    change (slice 4 2 [h0; h1; h2; h3; h4; h5]) with [h4; h5].
    change (vpoly (slice 2 2 [h0; h1; h2; h3; h4; h5]) 0) with h2. fold r'. fold y. rewrite E. reflexivity.
  - intros key' Ht' Hp'. rewrite decapsulate_512, Hp' by done.
    rewrite vec_compress_10_roundtrip by (done || (constructor; [by apply Hnr|constructor; [by apply Hnr|constructor]])).
    rewrite drop_app_length' by (by destruct (compress_10_bytes [u0; u1] 2 ltac:(done)) as [-> _]).
    rewrite <- (app_nil_r (mlkem_compress_4 v)), compress_4_roundtrip by (done || apply Hnr; done).
    cbn [map]. f_equal.
    set (u0' := map comp_10 (mlkem_csubq_c u0)) in *. set (u1' := map comp_10 (mlkem_csubq_c u1)) in *.
    set (v' := map comp_4 (mlkem_csubq_c v)) in *.
    assert (W0 : within 15000 u0') by (apply comp_within; [apply comp_10_range|by apply Hnr]).
    assert (W1 : within 15000 u1') by (apply comp_within; [apply comp_10_range|by apply Hnr]).
    assert (Wv : within 15000 v') by (apply comp_within; [apply comp_4_range|by apply Hnr]).
    destruct (decapsulate_two priv (s 0%nat) (s 1%nat) u0' u1' v' Hpriv W0 W1 (within_weaken 15000 20000 _ ltac:(done) Wv)) as (_ & Bw & Lw).
    refine (to_msg_centred _ _ _ Lw Bw Lm Bm _ Hdec).
    change (vpoly [u0; u1] 0) with u0. change (vpoly [u0; u1] 1) with u1.
    pose proof (fun i => within_poly _ _ (noise_i_within 2 (keygen_sigma rand) i true)) as Le.
    pose proof (fun i => within_poly _ _ (noise_i_within 2 r' i false)) as Lf.
    pose proof (fun i Hi => within_poly _ _ (noise_vec_within (drop 32 (sha3_512 (take 32 rand ++ [2]) ++ [0])) MLKEM_CBD_ETA3 i Hi)) as Ls.
    pose proof (fun i Hi => within_poly _ _ (noise_vec_within r MLKEM_CBD_ETA3 i Hi)) as Ly.
    apply (decryption_noise A _ _ (e 0%nat) (e 1%nat) _ _ _ _ _ _ _ _ _ _ _ _ (t 0%nat) (t 1%nat) priv);
      [|done|done|done|by apply (within_weaken 15000)|done..].
    rewrite !Forall_cons. split_and!; [apply Ls; lia|apply Ls; lia|exact (Le _)|exact (Le _)|apply Ly; lia|apply Ly; lia
      |exact (Lf _)|exact (Lf _)|exact (within_poly 2 _ (noise_eta2_within _))|apply mlkem_from_msg_length
      |exact Lu0|exact Lu1|exact Lv|constructor].
Qed.

Lemma ntt_reduced i : (i < 2)%nat -> nearly_reduced (mlkem_ntt (s i)).
Proof.
  intros Hi. destruct (ntt_correct (s i)) as [R B]; [by apply (within_weaken 3), noise_vec_within|].
  split; [apply R|]. eapply Forall_impl; [exact B|]. unfold MLKEM_Q. cbn. lia.
Qed.

(** The two sides share the public key, its seed and its hash; the client has the secret. *)
Lemma exchange_secret heap heap' server client m :
  length heap = 6%nat -> Forall is_poly heap -> length heap' = 6%nat -> Forall is_poly heap' ->
  key_type server = WC_ML_KEM_512 -> key_type client = WC_ML_KEM_512 ->
  key_pubSeed server = rho -> key_pubSeed client = rho -> key_h client = key_h server -> 
  vpoly (key_pub server) 0 = vpoly (key_pub client) 0 -> vpoly (key_pub server) 1 = vpoly (key_pub client) 1 ->
  vrepresents 2 (key_pub server) [t 0%nat; t 1%nat] -> vrepresents 2 (key_priv client) [s 0%nat; s 1%nat] ->
  Z.land (key_flags server) 4 <> 0 -> length m = 32%nat -> is_byte_list m ->
  decryptable fuel heap rand m server = true ->
  exists c K, wc_MlKemKey_EncapsulateWithRandom fuel no_failure heap server (Some m) 32 = Some (0, c, K, server) /\
    length c = 768%nat /\ length K = 32%nat /\
    wc_MlKemKey_Decapsulate fuel no_failure heap' client (Some c) 768 = Some (0, K).
Proof.
  intros Lh Ph Lh' Ph' Ts Tc Rs Rc Eh E0 E1 Hpub Hpriv Hf Lm Bm Hdec.
  assert (Hs : matrix_sampled fuel (key_pubSeed server)).
  { rewrite Rs. intros i j Hi Hj. exists (Ahat i j). by apply gen. }
  destruct (ciphertext_decrypts heap server (key_priv client) m Lh Ph Ts Rs Hpub Hpriv Lm Bm Hdec) as (c & He & Hd).
  destruct (encapsulate_total fuel heap server m (encaps_coins server m) Ts Lh Hs) as (c' & He' & Lc & Bc).
  rewrite He in He'. injection He' as <-.
  exists c, (take 32 (sha3_512 (take 32 m ++ take 32 (key_h server)) ++ [0])).
  split; [by apply encapsulate_with_random|]. split; [done|].
  split; [rewrite length_take; destruct (sha3_512_kr (take 32 m ++ take 32 (key_h server))) as [_ ->]; lia|].
  rewrite (decapsulate_spec fuel heap' client c c m Tc Bc Lc Bc Lc (Hd client Tc eq_refl)).
  - rewrite decide_True, Eh by done. done.
  - cbv zeta. rewrite Eh. fold (encaps_coins server m). rewrite <- He. symmetry. apply encapsulate_same; congruence || done.
Qed.

End Exchange.

(** The matrix sampled from a seed is the transform of a matrix of polynomials. *)
Lemma matrix_onto fuel seed : matrix_sampled fuel seed ->
  exists Ahat A, (forall i j, (i < 2)%nat -> (j < 2)%nat -> gen_poly fuel (extSeed_ij seed false i j) = Some (Ahat i j)) /\
  forall i j, (i < 2)%nat -> (j < 2)%nat -> is_poly (A i j) /\ represents (Ahat i j) (A i j) /\ within MLKEM_Q (Ahat i j).
Proof.
  intros Hs. destruct (matrix_sampled_gen fuel seed Hs) as [Ahat gen].
  destruct (Ahat_onto fuel seed Ahat gen 0 0) as [a00 H00]; [lia..|].
  destruct (Ahat_onto fuel seed Ahat gen 0 1) as [a01 H01]; [lia..|].
  destruct (Ahat_onto fuel seed Ahat gen 1 0) as [a10 H10]; [lia..|].
  destruct (Ahat_onto fuel seed Ahat gen 1 1) as [a11 H11]; [lia..|].
  exists Ahat, (fun i j => if (i =? 0)%nat then (if (j =? 0)%nat then a00 else a01) else (if (j =? 0)%nat then a10 else a11)).
  split; [done|]. intros i j Hi Hj. destruct i as [|[|i]], j as [|[|j]]; cbn [Nat.eqb]; done || lia.
Qed.

Lemma keygen_rho_length rand : length (keygen_rho rand) = 32%nat.
Proof. unfold keygen_rho. rewrite length_take. destruct (sha3_512_kr (take 32 rand ++ [2])) as [_ ->]. lia. Qed.

Lemma small_nearly t : Forall (fun x => 0 <= x <= MLKEM_Q) t -> is_poly t -> nearly_reduced t.
Proof. intros Hr Hl. split; [done|]. eapply Forall_impl; [exact Hr|]. unfold MLKEM_Q. cbn. lia. Qed.

(** The two encodings and decodings, after key generation. *)
Lemma keys_exchanged s0 s1 ss t0 t1 ts rho h0 z p0 p1 ps q0 q1 qs rho' h' z' sp sq0 sq1 sqs rho'' h'' z'' :
  nearly_reduced s0 -> nearly_reduced s1 -> nearly_reduced t0 -> nearly_reduced t1 ->
  length rho = 32%nat -> length z = 32%nat ->
  exists pk client2 sk client3 h,
    let pub := [mlkem_csubq_c t0; mlkem_csubq_c t1] in
    wc_MlKemKey_EncodePublicKey (MkMlKemKey 0 3 (s0 :: s1 :: ss) (t0 :: t1 :: ts) rho h0 z) 800 = (0, pk, client2) /\
    wc_MlKemKey_EncodePrivateKey client2 1632 = (0, sk, client3) /\
    wc_MlKemKey_DecodePrivateKey (MkMlKemKey 0 0 (p0 :: p1 :: ps) (q0 :: q1 :: qs) rho' h' z') (Some sk) 1632 =
      (0, MkMlKemKey 0 7 (mlkem_csubq_c s0 :: mlkem_csubq_c s1 :: ps) (pub ++ qs) rho h z) /\
    wc_MlKemKey_DecodePublicKey (MkMlKemKey 0 0 sp (sq0 :: sq1 :: sqs) rho'' h'' z'') (Some pk) 800 =
      (0, MkMlKemKey 0 6 sp (pub ++ sqs) rho h z'').
Proof.
  intros S0 S1 N0 N1 Lr Lz. set (pk := two_bytes t0 t1 ++ rho). set (h := sha3_256 pk).
  assert (Lh : length h = 32%nat) by apply sha3_256_bytes.
  assert (Epk : two_bytes (mlkem_csubq_c t0) (mlkem_csubq_c t1) = two_bytes t0 t1)
    by (unfold two_bytes; by rewrite !csubq_idem).
  exists pk, (MkMlKemKey 0 7 (s0 :: s1 :: ss) (mlkem_csubq_c t0 :: mlkem_csubq_c t1 :: ts) rho h z),
    (two_bytes s0 s1 ++ pk ++ h ++ z),
    (MkMlKemKey 0 7 (mlkem_csubq_c s0 :: mlkem_csubq_c s1 :: ss) (mlkem_csubq_c t0 :: mlkem_csubq_c t1 :: ts) rho h z), h.
  cbv zeta. split; [by rewrite (encode_public_two 3)|]. split.
  - rewrite encode_private_two, Epk, !csubq_idem by done. done.
  - split; [by apply (decode_private_two p0 p1 ps q0 q1 qs)|by apply (decode_public_two sp)].
Qed.

(** C3: an exchange with ML-KEM-512 agrees on a secret.  A client makes a key and
    encodes the public key for the server and the private key for itself; the
    server decodes the public key and encapsulates a message; the client
    decodes its private key and decapsulates.  Every step succeeds (memory is
    there, and the fuel samples the matrix), and both sides have the same
    32-byte secret whenever the message can be decrypted, that is, the noise of
    every coefficient is in -832..831.  Key generation, encryption and
    decryption are the code's 16-bit arithmetic; the memory the two calls of
    encapsulation get from the allocator may differ. *)
Theorem kem_exchange_agrees fuel heap heap' client client' server rand m
    (Hclient : fresh_key client) (Hclient' : fresh_key client') (Hserver : fresh_key server)
    (Hheap : length heap = 6%nat /\ Forall is_poly heap) (Hheap' : length heap' = 6%nat /\ Forall is_poly heap')
    (Hrand : length rand = 64%nat) (Hm : length m = 32%nat /\ is_byte_list m)
    (Hgen : matrix_sampled fuel (keygen_rho rand)) :
  exists client1 pk client2 sk client3 client4 server1,
    wc_MlKemKey_MakeKeyWithRandom fuel no_failure client (Some rand) 64 = Some (0, client1) /\
    wc_MlKemKey_EncodePublicKey client1 800 = (0, pk, client2) /\
    wc_MlKemKey_EncodePrivateKey client2 1632 = (0, sk, client3) /\
    wc_MlKemKey_DecodePrivateKey client' (Some sk) 1632 = (0, client4) /\
    wc_MlKemKey_DecodePublicKey server (Some pk) 800 = (0, server1) /\
    (decryptable fuel heap rand m server1 = true ->
     exists c K,
       wc_MlKemKey_EncapsulateWithRandom fuel no_failure heap server1 (Some m) 32 = Some (0, c, K, server1) /\
       length c = 768%nat /\ length K = 32%nat /\
       wc_MlKemKey_Decapsulate fuel no_failure heap' client4 (Some c) 768 = Some (0, K)).
Proof.
  destruct (matrix_onto fuel _ Hgen) as (Ahat & A & gen & A_hat).
  destruct (fresh_key_shape client Hclient) as (p0 & p1 & ps & q0 & q1 & qs & rho0 & h0 & z0 & -> & Lq0 & Lq1).
  destruct (fresh_key_shape client' Hclient') as (p0' & p1' & ps' & q0' & q1' & qs' & rho0' & h0' & z0' & -> & _ & _).
  destruct (fresh_key_shape server Hserver) as (sp0 & sp1 & sps & sq0 & sq1 & sqs & rho1 & h1 & z1 & -> & _ & _).
  destruct (make_key_two fuel rand Ahat A Hrand gen A_hat p0 p1 ps q0 q1 qs rho0 h0 z0 Lq0 Lq1)
    as (t0 & t1 & Emake & R0 & R1 & B).
  rewrite !Forall_cons in B. destruct B as (B0 & B1 & _).
  pose proof (small_nearly _ B0 (proj1 R0)) as N0. pose proof (small_nearly _ B1 (proj1 R1)) as N1.
  pose proof (ntt_reduced rand Hrand 0 ltac:(lia)) as S0. pose proof (ntt_reduced rand Hrand 1 ltac:(lia)) as S1.
  assert (Lz : length (drop 32 rand) = 32%nat) by (rewrite length_drop; lia).
  destruct (keys_exchanged _ _ ps t0 t1 qs (keygen_rho rand) h0 (drop 32 rand) p0' p1' ps' q0' q1' qs' rho0' h0' z0'
    (sp0 :: sp1 :: sps) sq0 sq1 sqs rho1 h1 z1 S0 S1 N0 N1 (keygen_rho_length rand) Lz)
    as (pk & client2 & sk & client3 & h & E1 & E2 & E3 & E4).
  do 7 eexists. split; [exact Emake|]. split; [exact E1|]. split; [exact E2|]. split; [exact E3|]. split; [exact E4|].
  intros Hdec. destruct Hheap as [Lh Ph], Hheap' as [Lh' Ph'], Hm as [Lm Bm].
  destruct (csubq_represents t0 _ B0 R0) as [R0' W0], (csubq_represents t1 _ B1 R1) as [R1' W1].
  pose proof (noise_vec_within (drop 32 (sha3_512 (take 32 rand ++ [2]) ++ [0])) MLKEM_CBD_ETA3) as Ws.
  refine (exchange_secret fuel rand Ahat A Hrand gen A_hat heap heap'
    (MkMlKemKey 0 6 (sp0 :: sp1 :: sps) ([mlkem_csubq_c t0; mlkem_csubq_c t1] ++ sqs) (keygen_rho rand) h z1)
    (MkMlKemKey 0 7 (_ :: _ :: ps') ([mlkem_csubq_c t0; mlkem_csubq_c t1] ++ qs') (keygen_rho rand) h (drop 32 rand)) m Lh Ph Lh' Ph' eq_refl eq_refl eq_refl eq_refl
    eq_refl eq_refl eq_refl _ _ _ Lm Bm Hdec).
  - apply vrepresents2; [exact R0'|exact R1'|exact W0|exact W1| |];
      (apply padd_length; [apply psum2_poly|]); eapply within_poly; (apply noise_i_within || (apply Ws; lia)).
  - destruct (ntt_correct (keygen_secret rand 0) (within_weaken 3 15000 _ ltac:(lia) (Ws 0%nat ltac:(lia)))) as [Rs0 Bs0].
    destruct (ntt_correct (keygen_secret rand 1) (within_weaken 3 15000 _ ltac:(lia) (Ws 1%nat ltac:(lia)))) as [Rs1 Bs1].
    destruct (csubq_represents _ _ Bs0 Rs0) as [Q0 V0], (csubq_represents _ _ Bs1 Rs1) as [Q1 V1].
    apply vrepresents2; [exact Q0|exact Q1|exact V0|exact V1|exact (within_poly _ _ (Ws 0%nat ltac:(lia)))|exact (within_poly _ _ (Ws 1%nat ltac:(lia)))].
  - done.
Qed.

End KemLaws.

(** ** A concrete exchange *)

Definition toy_memory : MlKemKey :=
  MkMlKemKey 0 0 (replicate 4 (replicate 256 0)) (replicate 4 (replicate 256 0)) (replicate 32 0) (replicate 32 0) (replicate 32 0).
Definition toy_rand : list Z := replicate 64 17.
Definition toy_msg : list Z := map (fun i => u8 (Z.of_nat i * 37)) (seq 0 32).
Definition toy_heap : list (list Z) := replicate 6 (replicate 256 7).

Definition toy_server1 : MlKemKey :=
  match wc_MlKemKey_MakeKeyWithRandom (H := toy_hash) 1 no_failure toy_memory (Some toy_rand) 64 with
  | Some (_, client1) =>
      let '(_, pk, _) := wc_MlKemKey_EncodePublicKey (H := toy_hash) client1 800 in
      (wc_MlKemKey_DecodePublicKey (H := toy_hash) toy_memory (Some pk) 800).2
  | None => toy_memory
  end.

Lemma toy_fresh : fresh_key toy_memory.
Proof. repeat split. by repeat constructor. Qed.

Lemma toy_sampled seed : matrix_sampled (H := toy_hash) 1 seed.
Proof.
  intros i j _ _. eexists. vm_compute. reflexivity.
Qed.

Lemma toy_decryptable : decryptable (H := toy_hash) 1 toy_heap toy_rand toy_msg toy_server1 = true.
Proof. vm_compute. reflexivity. Qed.

Lemma toy_memory_ok : length toy_heap = 6%nat /\ Forall is_poly toy_heap.
Proof. split; [done|]. by repeat constructor. Qed.

Lemma toy_msg_ok : length toy_msg = 32%nat /\ is_byte_list toy_msg.
Proof. split; [done|]. apply Forall_fmap, Forall_forall. intros i _. apply u8_range. Qed.

Lemma kem_exchange_agrees_witness :
  exists server1 client4 c K,
    decryptable (H := toy_hash) 1 toy_heap toy_rand toy_msg server1 = true /\
    wc_MlKemKey_EncapsulateWithRandom (H := toy_hash) 1 no_failure toy_heap server1 (Some toy_msg) 32 =
      Some (0, c, K, server1) /\
    wc_MlKemKey_Decapsulate (H := toy_hash) 1 no_failure toy_heap client4 (Some c) 768 = Some (0, K).
Proof.
  destruct (kem_exchange_agrees (H := toy_hash) 1 toy_heap toy_heap toy_memory toy_memory toy_memory toy_rand toy_msg
    toy_fresh toy_fresh toy_fresh toy_memory_ok toy_memory_ok eq_refl toy_msg_ok (toy_sampled _))
    as (client1 & pk & client2 & sk & client3 & client4 & server1 & E1 & E2 & E3 & E4 & E5 & Hagree).
  assert (Es : server1 = toy_server1) by (unfold toy_server1; rewrite E1, E2, E5; reflexivity).
  assert (Hd : decryptable (H := toy_hash) 1 toy_heap toy_rand toy_msg server1 = true)
    by (rewrite Es; exact toy_decryptable).
  destruct (Hagree Hd) as (c & K & Ec & _ & _ & Ed).
  exists server1, client4, c, K. split; [exact Hd|]. split; [exact Ec|exact Ed].
Defined.

Lemma decapsulation_rejects_implicitly_witness :
  exists m ss, mlkemkey_decapsulate no_failure toy_memory (replicate 768 9) = (0, m) /\
  wc_MlKemKey_Decapsulate (H := toy_hash) 1 no_failure toy_heap toy_memory (Some (replicate 768 9)) 768 = Some (0, ss).
Proof.
  assert (Hb : is_byte_list (replicate 768 9)) by (apply Forall_replicate; done).
  destruct (decapsulation_rejects_implicitly (H := toy_hash) 1 toy_heap toy_memory (replicate 768 9)
    eq_refl eq_refl (toy_sampled _) Hb eq_refl) as (m & c' & E1 & E2 & E3).
  eexists _, _. split; [exact E1|exact E3].
Defined.

(** ** A failed allocation that is not reported *)

(** C22: encapsulation loses an allocation failure.  When the memory for the
    random data of the first matrix row is refused, the loop over the rows ends
    with MEMORY_E, which the call that samples the last noise polynomial then
    overwrites with 0: the encapsulation reports success, returns the usual
    secret, and its ciphertext is the compression of what the allocator left in
    memory instead of an encryption.  (The documentation of the function
    promises MEMORY_E when dynamic memory allocation failed.) *)
Theorem encapsulation_hides_allocation_failure `{KemHash} fuel al heap key m
    (Htype : key_type key = WC_ML_KEM_512) (Hset : Z.land (key_flags key) 4 <> 0)
    (Hy : al_y al = true) (Hrow : al_rand al 0%nat = false) (Hheap : length heap = 6%nat) :
  mlkem_gen_matrix_i fuel (al_rand al 0%nat) 2 (key_pubSeed key) 0 true = Some (MEMORY_E, []) /\
  exists c, wc_MlKemKey_EncapsulateWithRandom fuel al heap key (Some m) 32 =
    Some (0, c, take 32 (sha3_512 (take 32 m ++ take 32 (key_h key)) ++ [0]), key) /\
  take 640 c = mlkem_vec_compress_10 (slice 4 2 heap) 2.
Proof.
  split; [by rewrite Hrow|]. destruct heap as [|h0 [|h1 [|h2 [|h3 [|h4 [|h5 [|]]]]]]]; try done.
  change (slice 4 2 [h0; h1; h2; h3; h4; h5]) with [h4; h5].
  assert (He : exists c, mlkemkey_encapsulate fuel al [h0; h1; h2; h3; h4; h5] key m (encaps_coins key m) = Some (0, c) /\
    take 640 c = mlkem_vec_compress_10 [h4; h5] 2).
  { rewrite encapsulate_512 by done. change (slice 4 2 [h0; h1; h2; h3; h4; h5]) with [h4; h5].
    unfold mlkem_encapsulate_seeds. cbv zeta. cbn [seq rows_loop vpoly nth].
    unfold encapsulate_row at 1. rewrite Hrow. change (mlkem_gen_matrix_i fuel false ?k ?s ?i ?t) with (Some (MEMORY_E, @nil (list Z))).
    cbv iota. change (MEMORY_E =? 0) with false. cbv iota zeta. cbn [Z.eqb].
    eexists. split; [reflexivity|]. apply take_app_length'. by destruct (compress_10_bytes [h4; h5] 2 ltac:(done)). }
  destruct He as (c & He & Hc). exists c. split; [by apply encapsulate_with_random|exact Hc].
Qed.

Lemma encapsulation_hides_allocation_failure_witness :
  let al := Allocs true true true true true (fun i => negb (i =? 0)%nat) in
  let key := set_flags toy_memory 7 in
  exists c K, wc_MlKemKey_EncapsulateWithRandom (H := toy_hash) 1 al toy_heap key (Some toy_msg) 32 = Some (0, c, K, key) /\
  take 640 c = mlkem_vec_compress_10 [replicate 256 7; replicate 256 7] 2.
Proof.
  cbv zeta. assert (Hf : Z.land (key_flags (set_flags toy_memory 7)) 4 <> 0) by (vm_compute; discriminate).
  destruct (encapsulation_hides_allocation_failure (H := toy_hash) 1 (Allocs true true true true true (fun i => negb (i =? 0)%nat))
    toy_heap (set_flags toy_memory 7) toy_msg eq_refl Hf eq_refl eq_refl eq_refl) as (_ & c & E & Hc).
  eexists c, _. split; [exact E|exact Hc].
Defined.
