(* ===== verification/MlkemHash.v ===== *)
(** * The hashes of ML-KEM (src/boot/wolfcrypt/src/wc_mlkem_poly.c over sha3.c)

    The functions that drive the SHA-3 and SHAKE objects of a key, as they call
    sha3.c; the functions of FIPS 202 as an instance of [KemHash]; and the proof
    that the calls compute that instance, whatever was hashed before with the
    same object.  So the theorems on sampling and on the key encapsulation, proved
    for any [KemHash], hold of the code with its own SHA-3. *)

From S2P Require Import Prelude.
From S2P Require Import Misc.
From S2P Require Import DtlsDefs.
From S2P Require Import Keccak.
From S2P Require Import Sha3.
From S2P Require Import MlkemReduce.
From S2P Require Import MlkemRing.
From S2P Require Import MlkemCodec.
From S2P Require Import MlkemSample.
From S2P Require Import MlkemKem.

(** ** The calls *)

Definition mlkem_hash_new (hash : wc_Sha3) : Z * wc_Sha3 := wc_InitSha3_256 hash.

Definition mlkem_hash256 (hash : wc_Sha3) (data : option (list Z)) (dataLen : nat) : Z * list Z * wc_Sha3 :=
  let '(ret, hash) := wc_Sha3_256_Update hash data dataLen in
  if ret =? 0 then wc_Sha3_256_Final hash else (ret, [], hash).

Definition mlkem_hash512 (hash : wc_Sha3) (data1 : option (list Z)) (data1Len : nat)
    (data2 : option (list Z)) (data2Len : nat) : Z * list Z * wc_Sha3 :=
  let '(ret, hash) := wc_Sha3_512_Update hash data1 data1Len in
  let '(ret, hash) :=
    if (ret =? 0) && (0 <? data2Len)%nat then wc_Sha3_512_Update hash data2 data2Len else (ret, hash) in
  if ret =? 0 then wc_Sha3_512_Final hash else (ret, [], hash).

Definition mlkem_prf_init (prf : wc_Sha3) : wc_Sha3 := snd (wc_InitShake256 prf).
Definition mlkem_prf_new (prf : wc_Sha3) : Z * wc_Sha3 := wc_InitShake256 prf.

Definition mlkem_xof_absorb (shake128 : wc_Sha3) (seed : list Z) (len : nat) : Z * wc_Sha3 :=
  let '(ret, shake128) := wc_InitShake128 shake128 in
  if ret =? 0 then wc_Shake128_Absorb shake128 (Some seed) len else (ret, shake128).

Definition mlkem_xof_squeezeblocks (shake128 : wc_Sha3) (blocks : nat) : Z * list Z * wc_Sha3 :=
  wc_Shake128_SqueezeBlocks shake128 blocks.

(** [mlkem_prf] on its object. *)
Definition mlkem_prf_obj (shake256 : wc_Sha3) (outLen : nat) (key : list Z) : Z * list Z * wc_Sha3 :=
  let '(ret, shake256) := wc_Shake256_Update shake256 (Some key) (WC_ML_KEM_SYM_SZ + 1) in
  if ret =? 0 then wc_Shake256_Final shake256 outLen else (ret, [], shake256).

(** [mlkem_derive_secret] on its object. *)
Definition mlkem_derive_secret_obj (shake256 : wc_Sha3) (z ct : list Z) (ctSz : nat) : Z * list Z * wc_Sha3 :=
  let '(ret, shake256) := wc_InitShake256 shake256 in
  let '(ret, shake256) :=
    if ret =? 0 then wc_Shake256_Update shake256 (Some z) WC_ML_KEM_SYM_SZ else (ret, shake256) in
  let '(ret, shake256) :=
    if ret =? 0 then wc_Shake256_Update shake256 (Some ct) ctSz else (ret, shake256) in
  if ret =? 0 then wc_Shake256_Final shake256 WC_ML_KEM_SS_SZ else (ret, [], shake256).

(** ** FIPS 202 as the interface *)

Definition sha3_hash : KemHash := {|
  shake128_block s i := squeezed 168 (absorb 168 (s ++ pad 0x1f 168 (length s))) i;
  shake256 s n := KECCAK 136 0x1f s n;
  sha3_256 s := KECCAK 136 0x06 s 32;
  sha3_512 s := KECCAK 72 0x06 s 64 |}.

#[export] Instance sha3_hash_laws : KemHashLaws sha3_hash.
Proof.
  split; intros s; [intros i|intros n|..]; cbn [shake128_block shake256 sha3_256 sha3_512 sha3_hash].
  - apply squeezed_spec; [apply absorb_bstate|lia].
  - apply KECCAK_bytes. lia.
  - apply KECCAK_bytes. lia.
  - apply KECCAK_bytes. lia.
Qed.

(** ** The calls compute the interface *)

(** An object initialised, or reset by a final function. *)
Definition ready (st : wc_Sha3) : Prop :=
  sha3_s st = replicate 25 0 /\ sha3_i st = 0 /\ length (sha3_t st) = 200%nat.

Lemma ready_absorbed p st : (0 < p <= 25)%nat -> ready st -> absorbed p [] st.
Proof.
  intros Hp (Es & Ei & Et).
  replace st with (InitSha3 st) by (destruct st; cbn in *; by subst). by apply InitSha3_absorbed.
Qed.

Lemma InitSha3_ready st : length (sha3_t st) = 200%nat -> ready (InitSha3 st).
Proof. intros L. by split; [|split]. Qed.

Section Calls.
Context (p : nat) (Hp : (0 < p <= 25)%nat).

Lemma update_call m st data n : absorbed p m st -> bytes m -> bytes data ->
  exists st', wc_Sha3Update st (Some data) n p = (0, st') /\ absorbed p (m ++ take n data) st' /\ bytes (m ++ take n data).
Proof.
  intros A Hm Hd. cbn [wc_Sha3Update]. eexists. split; [done|].
  assert (bytes (take n data)) by (by apply Forall_take).
  split; [by apply Update_absorbed|by apply Forall_app].
Qed.

Lemma final_call m st l : absorbed p m st -> bytes m ->
  exists st', wc_Sha3Final st p l = (0, KECCAK (p * 8) 0x06 m l, st') /\ ready st'.
Proof.
  intros A Hm. destruct (Final_spec p Hp m st 0x06 l A Hm) as (st1 & E & L); [unfold is_byte; lia|].
  unfold wc_Sha3Final. rewrite E. eexists. split; [done|by apply InitSha3_ready].
Qed.

Lemma shake_call m st l : absorbed p m st -> bytes m ->
  exists st', shake_final p st l = (0, KECCAK (p * 8) 0x1f m l, st') /\ ready st'.
Proof.
  intros A Hm. destruct (Final_spec p Hp m st 0x1f l A Hm) as (st1 & E & L); [unfold is_byte; lia|].
  unfold shake_final. rewrite E. eexists. split; [done|by apply InitSha3_ready].
Qed.
End Calls.

Lemma count_256 : (0 < WC_SHA3_256_COUNT <= 25)%nat. Proof. unfold WC_SHA3_256_COUNT. lia. Qed.
Lemma count_512 : (0 < WC_SHA3_512_COUNT <= 25)%nat. Proof. unfold WC_SHA3_512_COUNT. lia. Qed.

Lemma hash256_call st data n : ready st -> bytes data ->
  exists st', mlkem_hash256 st (Some data) n = (0, sha3_256 (KemHash := sha3_hash) (take n data), st') /\ ready st'.
Proof.
  intros R Hd. unfold mlkem_hash256, wc_Sha3_256_Update, wc_Sha3_256_Final.
  destruct (update_call WC_SHA3_256_COUNT count_256 [] st data n) as (st1 & -> & A & Hm);
    [apply ready_absorbed; [apply count_256 || apply count_512|done]|constructor|done|].
  cbn [Z.eqb]. by apply (final_call WC_SHA3_256_COUNT count_256 (take n data)).
Qed.

Lemma hash512_call st d1 n1 d2 n2 : ready st -> bytes d1 -> bytes d2 ->
  exists st', mlkem_hash512 st (Some d1) n1 (Some d2) n2 =
    (0, sha3_512 (KemHash := sha3_hash) (take n1 d1 ++ take n2 d2), st') /\ ready st'.
Proof.
  intros R H1 H2. unfold mlkem_hash512, wc_Sha3_512_Update, wc_Sha3_512_Final.
  destruct (update_call WC_SHA3_512_COUNT count_512 [] st d1 n1) as (st1 & -> & A & Hm);
    [apply ready_absorbed; [apply count_256 || apply count_512|done]|constructor|done|].
  destruct (Nat.ltb_spec 0 n2) as [Hn|Hn]; cbn [Z.eqb andb app] in *.
  - destruct (update_call WC_SHA3_512_COUNT count_512 (take n1 d1) st1 d2 n2 A Hm H2) as (st2 & -> & A2 & Hm2).
    cbn [Z.eqb]. by apply (final_call WC_SHA3_512_COUNT count_512 _ st2).
  - replace n2 with 0%nat by lia. rewrite take_0, app_nil_r. by apply (final_call WC_SHA3_512_COUNT count_512 (take n1 d1)).
Qed.

Lemma prf_call st n key : ready st -> bytes key ->
  exists st', mlkem_prf_obj st n key = (0, mlkem_prf (H := sha3_hash) n key, st') /\ ready st'.
Proof.
  intros R Hd. unfold mlkem_prf_obj, wc_Shake256_Update, wc_Shake256_Final.
  destruct (update_call WC_SHA3_256_COUNT count_256 [] st key (WC_ML_KEM_SYM_SZ + 1)) as (st1 & -> & A & Hm);
    [apply ready_absorbed; [apply count_256 || apply count_512|done]|constructor|done|].
  cbn [Z.eqb]. by apply (shake_call WC_SHA3_256_COUNT count_256 (take (WC_ML_KEM_SYM_SZ + 1) key)).
Qed.

Lemma derive_secret_call st z ct ctSz : length (sha3_t st) = 200%nat -> bytes z -> bytes ct ->
  exists st', mlkem_derive_secret_obj st z ct (Z.to_nat ctSz) =
    (0, mlkem_derive_secret (H := sha3_hash) z ct ctSz, st') /\ ready st'.
Proof.
  intros L Hz Hct. unfold mlkem_derive_secret_obj, wc_InitShake256, wc_InitSha3, wc_Shake256_Update, wc_Shake256_Final.
  cbn [Z.eqb].
  destruct (update_call WC_SHA3_256_COUNT count_256 [] (InitSha3 st) z WC_ML_KEM_SYM_SZ) as (st1 & -> & A & Hm);
    [by apply InitSha3_absorbed; [apply count_256|]|constructor|done|]. cbn [Z.eqb app] in *.
  destruct (update_call WC_SHA3_256_COUNT count_256 _ st1 ct (Z.to_nat ctSz) A Hm Hct) as (st2 & -> & A2 & Hm2). cbn [Z.eqb].
  by apply (shake_call WC_SHA3_256_COUNT count_256 _ st2).
Qed.

(** C28: The hash calls of ML-KEM compute the functions of FIPS 202 the scheme is
    proved with.  SHA3-256, SHA3-512 (of one or two pieces) and the pseudo-random
    function, on an initialised object, return the hash of their input and leave
    the object initialised for the next call, so that calls compose in any order;
    the matrix expansion absorbs a seed and squeezes its blocks in portions of any
    size without gap; the rejection secret is SHAKE-256 of [z] and the ciphertext. *)
Theorem kem_hash_calls_are_fips202 st seed ns data1 n1 data2 n2 out ctSz
    (R : ready st) (Hs : bytes seed) (H1 : bytes data1) (H2 : bytes data2) :
  (exists st', mlkem_hash256 st (Some data1) n1 = (0, sha3_256 (KemHash := sha3_hash) (take n1 data1), st') /\ ready st') /\
  (exists st', mlkem_hash512 st (Some data1) n1 (Some data2) n2 =
     (0, sha3_512 (KemHash := sha3_hash) (take n1 data1 ++ take n2 data2), st') /\ ready st') /\
  (exists st', mlkem_prf_obj st out seed = (0, mlkem_prf (H := sha3_hash) out seed, st') /\ ready st') /\
  (exists st', mlkem_xof_absorb st seed (length seed) = (0, st') /\
     squeezes WC_SHA3_128_COUNT ns st' = squeezeblocks (H := sha3_hash) seed 0 (list_sum ns)) /\
  (exists st', mlkem_derive_secret_obj st data1 data2 (Z.to_nat ctSz) =
     (0, mlkem_derive_secret (H := sha3_hash) data1 data2 ctSz, st') /\ ready st').
Proof.
  split; [by apply hash256_call|]. split; [by apply hash512_call|]. split; [by apply prf_call|].
  split; [|by apply derive_secret_call; [apply R|..]].
  unfold mlkem_xof_absorb, wc_InitShake128, wc_InitSha3, wc_Shake128_Absorb, squeezeblocks. cbn [Z.eqb].
  destruct (shake_absorb_spec 21 st seed) as (st' & E & K & Ea); [lia|apply R|done|].
  exists st'. split; [exact E|]. cbn [shake128_block sha3_hash]. unfold WC_SHA3_128_COUNT.
  rewrite (squeezes_spec 21 ns st' (state_bytes (sha3_s st')) 0) by (done || lia). by rewrite Ea.
Qed.

Lemma kem_hash_calls_are_fips202_witness :
  ready (InitSha3 demo_sha3) /\
  exists st', mlkem_hash256 (InitSha3 demo_sha3) (Some [0x61; 0x62; 0x63]) 3 = (0, KECCAK 136 0x06 [0x61; 0x62; 0x63] 32, st').
Proof.
  assert (ready (InitSha3 demo_sha3)) as R by (split; [|split]; reflexivity).
  split; [exact R|].
  destruct (kem_hash_calls_are_fips202 (InitSha3 demo_sha3) [] [] [0x61; 0x62; 0x63] 3 [] 0 0 0 R) as [(st' & E & _) _].
  - constructor.
  - repeat constructor; unfold is_byte; lia.
  - constructor.
  - exists st'. exact E.
Defined.
