(* ===== verification/Firmware.v ===== *)
(** * The firmware's main program (src/boot/main.c)

    The random generator fed by the timer, the start of the network, the
    handshake loop with its retransmission timer and time limit, and the exchange
    of one message.  The driver and the transport are those of EthUdp.v and
    DtlsIo.v; the calls of wolfSSL are the interface [Library], with the time
    they take: they may run any protocol code, poll [LowResTimer], take
    interrupts.  The prints are left out, except that some of them read the
    clock.  The polled and the interrupt-driven builds are the argument [rx_irq]. *)

From S2P Require Import Prelude.
From S2P Require Import EthUdp.
From S2P Require Import DtlsIo.
From S2P Require Import DtlsMsg.

Definition MY_IP : Z := 0xC0A80132.
Definition SERVER_IP : Z := 0xC0A80164.
Definition MY_MAC : list Z := [2; 0; 0; 0; 0; 1].
Definition CLIENT_PORT : Z := 5555.
Definition SERVER_PORT : Z := 11111.
Definition HANDSHAKE_TIMEOUT_S : Z := 120.
(** ssl.h *)
Definition WOLFSSL_SUCCESS : Z := 1.
Definition WOLFSSL_ERROR_WANT_READ : Z := 2.
Definition WOLFSSL_ERROR_WANT_WRITE : Z := 3.
Definition WOLFSSL_ML_KEM_512 : Z := 512.

(** ** Random bytes *)

Definition rng_init : Z := 0x2545F491.

(** One step: the static state mixed with the timer value read. *)
Definition rng_step (s v : Z) : Z := u32 (Z.lxor s v * 1664525 + 1013904223).

(** [vs]: the timer values read, one per byte.  The bytes and the state. *)
Fixpoint CustomRngGenerateBlock (s : Z) (vs : list Z) : list Z * Z :=
  match vs with
  | [] => ([], s)
  | v :: vs =>
      let s := rng_step s v in
      let '(output, s') := CustomRngGenerateBlock s vs in
      (u8 (Z.shiftr s 24) :: output, s')
  end.

(** ** The machine and the library *)

Section Program.
Context {E : Type}.

(** Driver, transport, the ticks since the timer was started, and the rest. *)
Record world : Type := World { w_eth : eth; w_io : io; w_time : Z; w_env : E }.

Definition set_w_io (s : io) (w : world) : world := World (w_eth w) s (w_time w) (w_env w).

Class Library : Type := {
  wolfSSL_connect : world -> Z * world;
  wolfSSL_get_error : Z -> world -> Z;
  wolfSSL_dtls_get_current_timeout : world -> Z;
  wolfSSL_dtls_got_timeout : world -> Z * world;
  wolfSSL_write : list Z -> world -> Z * world;
  wolfSSL_read : Z -> world -> Z * list Z * world }.

Context {lib : Library}.

(** [dtls_uptime_seconds] with the value the timer has now. *)
Definition uptime (w : world) : Z * world :=
  let '(s, i) := dtls_uptime_seconds (hw_value (w_time w)) (w_io w) in (s, set_w_io i w).

(** [dtls_io_pump] *)
Definition pump (rx_irq : bool) (w : world) : world :=
  let '(e, i) := dtls_io_pump rx_irq (w_eth w, w_io w) in World e i (w_time w) (w_env w).

(** ** The handshake *)

(** The local variables of the loop. *)
Record hs : Type := Hs { t_start : Z; rtx_mark : Z; last_err : Z; pumps : Z }.

Inductive verdict : Type := Connected | TimedOut (seconds : Z) | Failed (err : Z).

(** One iteration of [for (;;)]: a verdict when the loop is left. *)
Definition hs_iteration (rx_irq : bool) (l : hs) (w : world) : option verdict * hs * world :=
  let '(ret, w) := wolfSSL_connect w in
  if ret =? WOLFSSL_SUCCESS then (Some Connected, l, w)
  else
    let err := wolfSSL_get_error ret w in
    let '(l, w) := if negb (err =? last_err l)
                   then (Hs (t_start l) (rtx_mark l) err (pumps l), snd (uptime w)) else (l, w) in
    if (err =? WOLFSSL_ERROR_WANT_READ) || (err =? WOLFSSL_ERROR_WANT_WRITE) then
      let w := pump rx_irq w in
      let l := Hs (t_start l) (rtx_mark l) (last_err l) (u32 (pumps l + 1)) in
      let w := if pumps l mod 20000 =? 0 then snd (uptime w) else w in
      let '(now, w) := uptime w in
      let to := wolfSSL_dtls_get_current_timeout w in
      let '(l, w) :=
        if (0 <? to) && (to <=? s32 (u32 (now - rtx_mark l)))
        then (Hs (t_start l) now (last_err l) (pumps l), snd (wolfSSL_dtls_got_timeout w))
        else (l, w) in
      if HANDSHAKE_TIMEOUT_S <=? u32 (now - t_start l)
      then (Some (TimedOut (u32 (now - t_start l))), l, w)
      else (None, l, w)
    else (Some (Failed err), l, w).

Fixpoint hs_loop (fuel : nat) (rx_irq : bool) (l : hs) (w : world) : option (verdict * hs * world) :=
  match fuel with
  | O => None
  | S fuel =>
      let '(v, l, w) := hs_iteration rx_irq l w in
      match v with
      | Some v => Some (v, l, w)
      | None => hs_loop fuel rx_irq l w
      end
  end.

(** Clock readings that are only printed are left out. *)
Definition handshake (fuel : nat) (rx_irq : bool) (w : world) : option (verdict * hs * world) :=
  let '(t, w) := uptime w in
  hs_loop fuel rx_irq (Hs t t 0 0) w.

(** ** The message exchange *)

Inductive reply : Type := Said (bytes_read : list Z) | ReadError (err : Z) | NoReply.

Fixpoint read_loop (fuel : nat) (rx_irq : bool) (rd_start : Z) (w : world) : option (reply * world) :=
  match fuel with
  | O => None
  | S fuel =>
      let '(got, data, w) := wolfSSL_read 127 w in
      if 0 <? got then Some (Said data, w)
      else
        let err := wolfSSL_get_error got w in
        if err =? WOLFSSL_ERROR_WANT_READ then
          let w := pump rx_irq w in
          let '(now, w) := uptime w in
          if u32 (now - rd_start) <? 10 then read_loop fuel rx_irq rd_start w else Some (NoReply, w)
        else Some (ReadError err, w)
  end.

Definition exchange (fuel : nat) (rx_irq : bool) (msg : list Z) (w : world) : option (reply * world) :=
  let '(_, w) := wolfSSL_write msg w in
  let '(rd_start, w) := uptime w in
  read_loop fuel rx_irq rd_start w.

(** ** The program *)

(** [while (udp_arp_resolve(SERVER_IP) == 0) udp_service();] *)
Fixpoint resolve_loop (fuel arp_timeout : nat) (e : eth) : option eth :=
  match fuel with
  | O => None
  | S fuel =>
      let '(ok, e) := udp_arp_resolve arp_timeout SERVER_IP e in
      if ok =? 0 then resolve_loop fuel arp_timeout (udp_service e) else Some e
  end.

(** From reset to the registered transport; [v] is the timer's first value. *)
Definition bring_up (fuel arp_timeout : nat) (rx_irq : bool) (v : Z) (e : eth) (i : io) : option (eth * io) :=
  match resolve_loop fuel arp_timeout (udp_start MY_MAC MY_IP e) with
  | None => None
  | Some e =>
      let '(i, e) := dtls_io_init CLIENT_PORT SERVER_PORT v i e in
      Some (e, if rx_irq then dtls_io_enable_irq i else i)
  end.

(** Either -1, or the verdict of the handshake and the answer of the server; the
    program then serves the network forever. *)
Inductive outcome : Type := Fatal | Session (v : verdict) (r : option reply) (w : world).

(** The context, the trust anchor, the connection and the key share: their
    results. *)
Definition main_session (fuel : nat) (rx_irq : bool) (ctx_new : bool) (load_verify : Z) (ssl_new : bool)
    (use_key_share : Z -> Z) (msg : list Z) (w : world) : option outcome :=
  if negb ctx_new then Some Fatal
  else if negb (load_verify =? WOLFSSL_SUCCESS) then Some Fatal
  else if negb ssl_new then Some Fatal
  else if negb (use_key_share WOLFSSL_ML_KEM_512 =? WOLFSSL_SUCCESS) then Some Fatal
  else
    match handshake fuel rx_irq w with
    | None => None
    | Some (Connected, _, w) =>
        match exchange fuel rx_irq msg w with
        | None => None
        | Some (r, w) => Some (Session Connected (Some r) w)
        end
    | Some (v, _, w) => Some (Session v None w)
    end.
End Program.
Arguments world : clear implicits.
Arguments Library : clear implicits.

(** ** Time passes in the library

    Every call of the library lasts at most [D] ticks, [wolfSSL_connect] and
    [wolfSSL_read] at least one, and they use the timer through [LowResTimer]
    only, so that it stays consistent. *)

(** The last read of the timer was at most [g] ticks ago, and was exact. *)
Definition ticking {E} (w : world E) (g : Z) : Prop :=
  exists t, 0 <= t /\ t <= w_time w <= t + g /\ timer_at t (w_io w).

Class LibraryTime {E} (L : Library E) (D : Z) : Prop := {
  duration : 0 < D < 2 ^ 29;
  connect_time : forall w g, ticking w g ->
    w_time w < w_time (snd (wolfSSL_connect w)) <= w_time w + D /\ ticking (snd (wolfSSL_connect w)) (g + D);
  got_timeout_time : forall w g, ticking w g ->
    w_time w <= w_time (snd (wolfSSL_dtls_got_timeout w)) <= w_time w + D /\
    ticking (snd (wolfSSL_dtls_got_timeout w)) (g + D);
  write_time : forall msg w g, ticking w g ->
    w_time w <= w_time (snd (wolfSSL_write msg w)) <= w_time w + D /\ ticking (snd (wolfSSL_write msg w)) (g + D);
  read_time : forall sz w g, ticking w g ->
    w_time w < w_time (snd (wolfSSL_read sz w)) <= w_time w + D /\ ticking (snd (wolfSSL_read sz w)) (g + D) }.

Lemma rx_cb_timer us s : let s' := foldl (fun s u => dtls_rx_cb (up_data u) (up_length u) s) s us in
  timer_last_val s' = timer_last_val s /\ timer_wrap_acc s' = timer_wrap_acc s.
Proof.
  revert s. induction us as [|u us IH]; intros s; [done|]. cbn [foldl].
  destruct (IH (dtls_rx_cb (up_data u) (up_length u) s)) as [-> ->].
  unfold dtls_rx_cb. by destruct (_ =? rx_tail s).
Qed.

Section Timing.
Context {E : Type} (L : Library E) (D : Z) `{!LibraryTime L D}.

Lemma pump_time rx_irq (w : world E) g : ticking w g -> w_time (pump rx_irq w) = w_time w /\ ticking (pump rx_irq w) g.
Proof.
  intros (t & H0 & Ht & A). unfold pump, dtls_io_pump. destruct rx_irq; [by split; [|exists t]|].
  unfold udp_service_io. split; [done|]. exists t. cbn [w_time w_io]. split; [done|]. split; [done|].
  unfold timer_at in *.
  match goal with |- context [foldl ?f ?s ?us] => destruct (rx_cb_timer us s) as [-> ->] end. done.
Qed.

(** A read of the clock is exact and makes the timer fresh. *)
Lemma uptime_spec (w : world E) g : ticking w g -> g < 2 ^ 32 -> w_time w < 2 ^ 64 ->
  fst (uptime w) = u32 (w_time w / 1000000) /\ w_time (snd (uptime w)) = w_time w /\ ticking (snd (uptime w)) 0.
Proof.
  intros (t & H0 & Ht & A) Hg Hb. unfold uptime, dtls_uptime_seconds.
  destruct (timer_ticks_exact t (w_time w) (w_io w) A) as [E1 A1]; [lia..|].
  destruct (dtls_timer_ticks (hw_value (w_time w)) (w_io w)) as [k i]. cbn [fst snd] in *. subst k.
  split; [done|]. split; [done|]. exists (w_time w). cbn [set_w_io w_time w_io]. split; [lia|]. split; [lia|done].
Qed.

Lemma ticking_weaken (w : world E) g g' : ticking w g -> g <= g' -> ticking w g'.
Proof. intros (t & H0 & Ht & A) Hg. exists t. split; [done|]. split; [lia|done]. Qed.

Lemma u32_elapsed a b : u32 (u32 a - u32 b) = u32 (a - b).
Proof. etransitivity; [apply wrap_sub_l|apply wrap_sub_r]. Qed.

(** What one iteration does, the time at which it reads the clock being [T]. *)
Definition iterated (rx_irq : bool) (l : hs) (w : world E) (v : option verdict) (l' : hs) (w' : world E) : Prop :=
  t_start l' = t_start l /\ w_time w < w_time w' <= w_time w + 2 * D /\
  match v with
  | None => ticking w' D /\ exists T, w_time w < T <= w_time w' /\ w_time w' <= T + D /\
      u32 (u32 (T / 1000000) - t_start l) < HANDSHAKE_TIMEOUT_S
  | Some (TimedOut s) => HANDSHAKE_TIMEOUT_S <= s /\
      exists T, w_time w < T <= w_time w' /\ s = u32 (u32 (T / 1000000) - t_start l)
  | Some (Failed err) => err <> WOLFSSL_ERROR_WANT_READ /\ err <> WOLFSSL_ERROR_WANT_WRITE
  | Some Connected => True
  end.

Lemma optional_uptime (b : bool) (w : world E) g : ticking w g -> g < 2 ^ 32 -> w_time w < 2 ^ 64 ->
  let w' := if b then snd (uptime w) else w in w_time w' = w_time w /\ ticking w' (Z.max 0 g).
Proof.
  intros K Hg Hb. destruct b; cbv zeta; [|split; [done|apply (ticking_weaken _ g); [done|lia]]].
  destruct (uptime_spec w g K Hg Hb) as (_ & E1 & E2). split; [done|]. apply (ticking_weaken _ 0); [done|lia].
Qed.

Lemma hs_iteration_spec rx_irq l (w : world E) : ticking w D -> w_time w + 2 ^ 32 < 2 ^ 64 ->
  let '(v, l', w') := hs_iteration rx_irq l w in iterated rx_irq l w v l' w'.
Proof.
  intros K Hb. pose proof duration as HD. unfold hs_iteration.
  destruct (connect_time w D K) as [T1 K1]. destruct (wolfSSL_connect w) as [ret w1]. cbn [snd] in *.
  destruct (ret =? WOLFSSL_SUCCESS); [split; [done|]; split; [lia|done]|].
  set (err := wolfSSL_get_error ret w1).
  destruct (optional_uptime (negb (err =? last_err l)) w1 (D + D) K1) as [T2 K2]; [lia..|].
  set (w2 := if negb (err =? last_err l) then snd (uptime w1) else w1) in *.
  set (l2 := if negb (err =? last_err l) then Hs (t_start l) (rtx_mark l) err (pumps l) else l).
  assert (t_start l2 = t_start l) as Es by (subst l2; by destruct (negb _)).
  replace (if negb (err =? last_err l) then _ else _) with (l2, w2) by (subst l2 w2; by destruct (negb _)).
  clearbody l2 w2. rewrite Z.max_r in K2 by lia.
  destruct ((err =? WOLFSSL_ERROR_WANT_READ) || (err =? WOLFSSL_ERROR_WANT_WRITE)) eqn:Ew.
  2:{ apply orb_false_iff in Ew as [?%Z.eqb_neq ?%Z.eqb_neq]. split; [done|]. split; [lia|done]. }
  destruct (pump_time rx_irq w2 (D + D) K2) as [T3 K3]. set (w3 := pump rx_irq w2) in *. clearbody w3.
  cbn [pumps t_start rtx_mark last_err].
  destruct (optional_uptime (u32 (pumps l2 + 1) mod 20000 =? 0) w3 (D + D) K3) as [T4 K4]; [lia..|].
  set (w4 := if _ =? 0 then snd (uptime w3) else w3) in *. clearbody w4. rewrite Z.max_r in K4 by lia.
  destruct (uptime_spec w4 (D + D) K4) as (En & T5 & K5); [lia..|].
  destruct (uptime w4) as [now w5]. cbn [fst snd] in *.
  set (tm := w_time w5) in *. assert (now = u32 (tm / 1000000)) as Enow by (by rewrite En, T5).
  assert (forall l6 (w6 : world E), t_start l6 = t_start l -> tm <= w_time w6 <= tm + D -> ticking w6 D ->
    let '(v, l', w') := if HANDSHAKE_TIMEOUT_S <=? u32 (now - t_start l6)
      then (Some (TimedOut (u32 (now - t_start l6))), l6, w6) else (None, l6, w6) in
    iterated rx_irq l w v l' w') as Hend.
  { intros l6 w6 El Ht6 K6. destruct (Z.leb_spec HANDSHAKE_TIMEOUT_S (u32 (now - t_start l6))) as [Hs|Hs];
      (split; [done|]; split; [lia|]); rewrite El, Enow in *.
    - split; [done|]. exists tm. split; [lia|done].
    - split; [done|]. exists tm. split; [lia|]. split; [lia|done]. }
  destruct (_ && _).
  - destruct (got_timeout_time w5 0 K5) as [T6 K6]. by apply Hend.
  - apply Hend; [done|unfold tm; lia|]. apply (ticking_weaken _ 0); [done|lia].
Qed.

(** The seconds between two reads of the clock. *)
Lemma elapsed_seconds t0 T n : 0 <= t0 <= T -> T < t0 + n * 1000000 -> n < 2 ^ 32 ->
  u32 (u32 (T / 1000000) - u32 (t0 / 1000000)) = T / 1000000 - t0 / 1000000.
Proof.
  intros H1 H2 H3. rewrite u32_elapsed. apply wrap_small. unfold in_word. lia_mod.
Qed.

Lemma hs_loop_ends fuel rx_irq l (w : world E) t0 : 0 <= t0 <= w_time w -> t_start l = u32 (t0 / 1000000) ->
  ticking w D -> w_time w <= t0 + 121000000 + D -> t0 + 121000000 + D - w_time w < Z.of_nat fuel ->
  t0 + 2 ^ 33 < 2 ^ 64 ->
  exists v l' w', hs_loop fuel rx_irq l w = Some (v, l', w') /\
    w_time w' <= t0 + 121000000 + 3 * D /\
    match v with
    | TimedOut s => HANDSHAKE_TIMEOUT_S <= s /\ t0 + 119000000 < w_time w'
    | Failed err => err <> WOLFSSL_ERROR_WANT_READ /\ err <> WOLFSSL_ERROR_WANT_WRITE
    | Connected => True
    end.
Proof.
  pose proof duration as HD. revert l w. induction fuel as [|fuel IH]; intros l w H0 Hs K Hw Hf Hb; [lia|].
  cbn [hs_loop]. pose proof (hs_iteration_spec rx_irq l w K) as I.
  destruct (hs_iteration rx_irq l w) as [[v l'] w']. destruct I as (Es & Ht & I); [lia|].
  destruct v as [v|].
  - exists v, l', w'. split; [done|]. split; [lia|]. destruct v as [|s|err]; [done| |done].
    destruct I as (Is & T & HT & ->). split; [done|]. rewrite Hs, (elapsed_seconds t0 T 3000) in Is by lia.
    unfold HANDSHAKE_TIMEOUT_S in Is. lia_mod.
  - destruct I as (K' & T & HT & HD' & Is). apply IH; try done; [lia|by rewrite Es|..].
    + rewrite Hs, (elapsed_seconds t0 T 3000) in Is by lia. unfold HANDSHAKE_TIMEOUT_S in Is.
      assert (T < t0 + 121000000) by lia_mod. lia.
    + lia.
Qed.

Lemma read_loop_ends fuel rx_irq rd_start (w : world E) t0 : 0 <= t0 <= w_time w -> rd_start = u32 (t0 / 1000000) ->
  ticking w D -> w_time w <= t0 + 11000000 -> t0 + 11000000 - w_time w < Z.of_nat fuel ->
  t0 + 2 ^ 33 < 2 ^ 64 ->
  exists r w', read_loop fuel rx_irq rd_start w = Some (r, w') /\ w_time w' <= t0 + 11000000 + D.
Proof.
  pose proof duration as HD. revert w. induction fuel as [|fuel IH]; intros w H0 Hs K Hw Hf Hb; [lia|].
  cbn [read_loop]. destruct (read_time 127 w D K) as [T1 K1].
  destruct (wolfSSL_read 127 w) as [[got data] w1]. cbn [snd] in *.
  destruct (0 <? got); [eexists _, _; split; [done|lia]|].
  destruct (_ =? WOLFSSL_ERROR_WANT_READ); [|eexists _, _; split; [done|lia]].
  destruct (pump_time rx_irq w1 (D + D) K1) as [T2 K2]. set (w2 := pump rx_irq w1) in *. clearbody w2.
  destruct (uptime_spec w2 (D + D) K2) as (En & T3 & K3); [lia..|].
  destruct (uptime w2) as [now w3]. cbn [fst snd] in *. subst now rd_start.
  rewrite (elapsed_seconds t0 (w_time w2) 3000) by lia.
  destruct (Z.ltb_spec (w_time w2 / 1000000 - t0 / 1000000) 10); [|eexists _, _; split; [done|lia]].
  apply IH; try done; [lia| |lia_mod|lia]. apply (ticking_weaken _ 0); [done|lia].
Qed.
End Timing.

(** C21: The handshake loop of the firmware ends.  Whatever the library does
    within its time bounds, and however the timer wraps, [for (;;)] is left within
    121 seconds of the first read of the clock and three library calls: with the
    connection, with an error other than "try again", or timed out, and then only
    after more than 119 seconds and with at least 120 counted.  One iteration per
    tick is fuel enough. *)
Theorem handshake_terminates {E} (L : Library E) D `{!LibraryTime L D} fuel rx_irq (w : world E)
    (K : ticking w D) (Hb : 0 <= w_time w < 2 ^ 63) (Hf : 121000000 + D < Z.of_nat fuel) :
  exists v l w', handshake fuel rx_irq w = Some (v, l, w') /\
    w_time w' <= w_time w + 121000000 + 3 * D /\
    match v with
    | TimedOut s => HANDSHAKE_TIMEOUT_S <= s /\ w_time w + 119000000 < w_time w'
    | Failed err => err <> WOLFSSL_ERROR_WANT_READ /\ err <> WOLFSSL_ERROR_WANT_WRITE
    | Connected => True
    end.
Proof.
  pose proof (duration (D := D)) as HD. unfold handshake.
  destruct (uptime_spec w D K) as (En & Et & K1); [lia..|].
  destruct (uptime w) as [t w1]. cbn [fst snd] in *. rewrite <- Et.
  apply (hs_loop_ends L D); [lia|by rewrite En, Et| |lia..].
  apply (ticking_weaken _ 0); [done|lia].
Qed.

(** The exchange of the message ends within eleven seconds and two calls. *)
Theorem exchange_terminates {E} (L : Library E) D `{!LibraryTime L D} fuel rx_irq msg (w : world E)
    (K : ticking w D) (Hb : 0 <= w_time w < 2 ^ 63) (Hf : 11000000 < Z.of_nat fuel) :
  exists r w', exchange fuel rx_irq msg w = Some (r, w') /\ w_time w' <= w_time w + 11000000 + 2 * D.
Proof.
  pose proof (duration (D := D)) as HD. unfold exchange.
  destruct (write_time msg w D K) as [T1 K1]. destruct (wolfSSL_write msg w) as [r0 w1]. cbn [snd] in *.
  destruct (uptime_spec w1 (D + D) K1) as (En & Et & K2); [lia..|].
  destruct (uptime w1) as [t w2]. cbn [fst snd] in *.
  destruct (read_loop_ends L D fuel rx_irq t w2 (w_time w1)) as (r & w' & Er & Ht); [lia|exact En| |lia..|].
  - apply (ticking_weaken _ 0); [done|lia].
  - exists r, w'. split; [done|lia].
Qed.

(** ** A peer that never answers *)

(** The retransmission timeout of the connection, and the times at which the
    firmware reported a timeout. *)
Record silent := Silent { si_timeout : Z; si_reported : list Z }.

Definition silent_pass (d : Z) (w : world silent) : world silent :=
  World (w_eth w) (w_io w) (w_time w + d) (w_env w).

(** Half a second per call; the timeout grows as [DtlsMsgPoolTimeout] makes it. *)
Definition silent_library : Library silent := {|
  wolfSSL_connect w := (-1, silent_pass 500000 w);
  wolfSSL_get_error _ _ := WOLFSSL_ERROR_WANT_READ;
  wolfSSL_dtls_get_current_timeout w := si_timeout (w_env w);
  wolfSSL_dtls_got_timeout w :=
    let '(ret, t) := DtlsMsgPoolTimeout (si_timeout (w_env w)) 64 in
    (ret, World (w_eth w) (w_io w) (w_time w)
       (Silent t (if ret =? 0 then si_reported (w_env w) ++ [w_time w] else si_reported (w_env w))));
  wolfSSL_write _ w := (-1, w);
  wolfSSL_read _ w := (-1, [], silent_pass 500000 w) |}.

Lemma silent_pass_time d (w : world silent) g : 0 <= d -> ticking w g -> ticking (silent_pass d w) (g + d).
Proof. intros Hd (t & H0 & Ht & A). exists t. cbn. split; [done|]. split; [lia|done]. Qed.

Lemma silent_time : LibraryTime silent_library 500000.
Proof.
  constructor.
  - lia.
  - intros w g K. cbn. split; [lia|]. by apply silent_pass_time.
  - intros w g (t & H0 & Ht & A). cbn. destruct (DtlsMsgPoolTimeout _ _) as [ret k]. cbn.
    split; [lia|]. exists t. cbn. split; [done|]. split; [lia|done].
  - intros msg w g K. cbn. split; [lia|]. by apply (ticking_weaken _ g); [|lia].
  - intros sz w g K. cbn. split; [lia|]. by apply silent_pass_time.
Qed.

Definition silent_world : world silent :=
  World (demo_eth 1 1) (dtls_timer_init (hw_value 0) demo_io) 0 (Silent 1 []).

(** Retransmissions after 1, 3, 7, 15, 31 and 63 seconds; none when the timeout
    has reached its maximum; then the time limit. *)
Lemma handshake_terminates_witness :
  (forall fuel, 121000000 + 500000 < Z.of_nat fuel ->
     exists v l w', handshake (lib := silent_library) fuel true silent_world = Some (v, l, w')) /\
  match handshake (lib := silent_library) 300 true silent_world with
  | Some (TimedOut s, l, w') => s = 120 /\
      si_reported (w_env w') = map (Z.mul 1000000) [1; 3; 7; 15; 31; 63]
  | _ => False
  end.
Proof.
  split.
  - intros fuel Hf.
    destruct (handshake_terminates silent_library 500000 (LibraryTime0 := silent_time) fuel true silent_world)
      as (v & l & w' & E & _).
    + exists 0. split; [lia|]. split; [cbn; lia|]. split; reflexivity.
    + cbn. lia.
    + exact Hf.
    + exists v, l, w'. exact E.
  - vm_compute. split; reflexivity.
Defined.

(** ** Random bytes *)

(** The inverse of the multiplier modulo 2^32. *)
Definition rng_unstep (s' v : Z) : Z := Z.lxor (u32 ((s' - 1013904223) * 4276115653)) v.

Lemma rng_unstep_step s v : is_u32 s -> is_u32 v -> rng_unstep (rng_step s v) v = s.
Proof.
  intros Hs Hv. unfold rng_unstep, rng_step. assert (is_u32 (Z.lxor s v)) as Hx by (apply lxor_range; [lia|done..]).
  set (x := Z.lxor s v) in *.
  assert (u32 ((u32 (x * 1664525 + 1013904223) - 1013904223) * 4276115653) = x) as ->.
  { rewrite <- wrap_mul_l, wrap_sub_l, wrap_mul_l.
    replace ((x * 1664525 + 1013904223 - 1013904223) * 4276115653) with (x + (x * 1657219) * 2 ^ 32) by lia.
    unfold wrap. rewrite Z.mod_add by lia. by apply Z.mod_small. }
  subst x. by rewrite Z.lxor_assoc, Z.lxor_nilpotent, Z.lxor_0_r.
Qed.

(** Running the generator backwards from a state. *)
Fixpoint rng_past (s' : Z) (vs_rev : list Z) : list Z * Z :=
  match vs_rev with
  | [] => ([], s')
  | v :: vs => let '(bs, s) := rng_past (rng_unstep s' v) vs in (bs ++ [u8 (Z.shiftr s' 24)], s)
  end.

Lemma rng_past_snoc s' vs v : rng_past s' (vs ++ [v]) =
  let '(bs, s) := rng_past s' vs in (u8 (Z.shiftr s 24) :: bs, rng_unstep s v).
Proof.
  revert s'. induction vs as [|v0 vs IH]; intros s'; [done|]. cbn [app rng_past]. rewrite IH.
  by destruct (rng_past (rng_unstep s' v0) vs).
Qed.

(** The generator does not protect its past: from the state after any block,
    and the timer values read during it, the state before the block and every
    byte of it follow.  (main.c says it is a placeholder.) *)
Theorem rng_reveals_past s vs (Hs : is_u32 s) (Hv : Forall is_u32 vs) :
  let '(output, s') := CustomRngGenerateBlock s vs in rng_past s' (rev vs) = (output, s).
Proof.
  revert s Hs. induction Hv as [|v vs Hv0 Hv IH]; intros s Hs; [done|]. cbn [CustomRngGenerateBlock rev].
  specialize (IH (rng_step s v)). destruct (CustomRngGenerateBlock (rng_step s v) vs) as [out s'].
  rewrite rng_past_snoc, IH by (apply wrap_range; lia). by rewrite rng_unstep_step.
Qed.

Lemma rng_reveals_past_witness :
  let '(output, s') := CustomRngGenerateBlock rng_init [0xFFFFFFF0; 0xFFFFFF00; 0xFFFFF000] in
  rng_past s' [0xFFFFF000; 0xFFFFFF00; 0xFFFFFFF0] = (output, rng_init).
Proof.
  apply (rng_reveals_past rng_init [0xFFFFFFF0; 0xFFFFFF00; 0xFFFFF000]).
  - unfold in_word, rng_init. lia.
  - repeat constructor; unfold in_word; lia.
Defined.

(** ** Bringing the network up *)

Lemma arp_poll_my n s : my_mac (snd (arp_poll n s)) = my_mac s /\ my_ip (snd (arp_poll n s)) = my_ip s.
Proof.
  revert s. induction n as [|n IH]; intros s; [done|]. cbn [arp_poll].
  destruct (udp_service_identity s) as (A & B & _).
  destruct (mac_is_zero _); [|done]. destruct (IH (udp_service s)) as [-> ->]. done.
Qed.

Lemma arp_tries_my n t ip s : my_mac (snd (arp_tries n t ip s)) = my_mac s /\ my_ip (snd (arp_tries n t ip s)) = my_ip s.
Proof.
  revert s. induction n as [|n IH]; intros s; [done|]. cbn [arp_tries].
  pose proof (arp_poll_my t (send_arp_request ip s)) as P.
  destruct (arp_poll t (send_arp_request ip s)) as [[] s1]; cbn [snd] in *; [done|].
  destruct (IH s1) as [-> ->]. done.
Qed.

Lemma resolve_my t ip s : my_mac (snd (udp_arp_resolve t ip s)) = my_mac s /\ my_ip (snd (udp_arp_resolve t ip s)) = my_ip s.
Proof. unfold udp_arp_resolve. destruct (_ && _); [done|]. exact (arp_tries_my 8 t ip (set_cache (repeat 0 6) ip s)). Qed.

Lemma arp_tries_result n t ip s : fst (arp_tries n t ip s) = 0 \/ fst (arp_tries n t ip s) = 1.
Proof.
  revert s. induction n as [|n IH]; intros s; [by left|]. cbn [arp_tries].
  destruct (arp_poll t (send_arp_request ip s)) as [[] s1]; [by right|apply IH].
Qed.

Lemma resolve_result t ip s : fst (udp_arp_resolve t ip s) = 0 \/ fst (udp_arp_resolve t ip s) = 1 /\
  cached_ip (snd (udp_arp_resolve t ip s)) = ip /\ mac_is_zero (cached_mac (snd (udp_arp_resolve t ip s))) = false.
Proof.
  unfold udp_arp_resolve. destruct ((cached_ip s =? ip) && negb (mac_is_zero (cached_mac s))) eqn:E.
  - apply andb_true_iff in E as [E1%Z.eqb_eq E2%negb_true_iff]. by right.
  - destruct (arp_tries_result 8 t ip (set_cache (repeat 0 6) ip s)) as [R|R]; [by left|right].
    split; [exact R|]. by apply arp_tries_sound.
Qed.

Lemma resolve_loop_ready fuel t e e' : resolve_loop fuel t e = Some e' ->
  cached_ip e' = SERVER_IP /\ mac_is_zero (cached_mac e') = false /\ my_mac e' = my_mac e /\ my_ip e' = my_ip e.
Proof.
  revert e. induction fuel as [|fuel IH]; intros e He; [done|]. cbn [resolve_loop] in He.
  pose proof (resolve_my t SERVER_IP e) as [M I]. pose proof (resolve_result t SERVER_IP e) as R.
  destruct (udp_arp_resolve t SERVER_IP e) as [ok e1]. cbn [fst snd] in *.
  destruct (Z.eqb_spec ok 0) as [->|Hn].
  - destruct (IH _ He) as (A & B & C & D). destruct (udp_service_identity e1) as (E1 & E2 & _).
    rewrite C, D, E1, E2, M, I. done.
  - injection He as <-. destruct R as [->|(-> & A & B)]; done.
Qed.

(** When the start-up sequence leaves its ARP loop, the transport is usable:
    the server's MAC is known and not zero, the own identity is the configured
    one, the receive ring is empty, the callback is installed on the configured
    ports, the interrupt handler is attached exactly in the interrupt-driven
    build, and a datagram of 1 to 1536 bytes given to the send callback is sent,
    never refused for want of an address.  An ARP reply from the server among
    the first polls is enough for the loop to end at its first try. *)
Theorem bring_up_ready fuel t rx_irq v e i :
  (forall j fr mac, rxq e !! j = Some (Some fr) -> (j < t)%nat -> arp_reply SERVER_IP mac fr ->
     mac_is_zero mac = false -> is_Some (bring_up (S fuel) t rx_irq v e i)) /\
  (forall e' i', bring_up fuel t rx_irq v e i = Some (e', i') ->
     cached_ip e' = SERVER_IP /\ mac_is_zero (cached_mac e') = false /\ my_mac e' = MY_MAC /\ my_ip e' = MY_IP /\
     rx_head i' = 0 /\ rx_tail i' = 0 /\ g_local_port i' = CLIENT_PORT /\ g_peer_port i' = SERVER_PORT /\
     rx_callback e' = true /\ (rx_irq = true -> isr_attached i' = true /\ ev_enabled i' = true) /\
     (rx_irq = false -> isr_attached i' = isr_attached i) /\
     forall buf sz, 0 < sz <= 1536 -> fst (dtls_send_cb buf sz i' e') = sz).
Proof.
  split.
  - intros j fr mac Hj Hjt R Hz. unfold bring_up. cbn [resolve_loop].
    assert (fst (udp_arp_resolve t SERVER_IP (udp_start MY_MAC MY_IP e)) = 1) as E1.
    { unfold udp_arp_resolve. change (cached_ip (udp_start MY_MAC MY_IP e) =? SERVER_IP) with false. cbn [andb].
      by apply (arp_tries_reply 7 t SERVER_IP _ j fr mac). }
    destruct (udp_arp_resolve t SERVER_IP (udp_start MY_MAC MY_IP e)) as [ok e1]. cbn [fst] in E1. subst ok.
    cbn [Z.eqb]. destruct (dtls_io_init _ _ _ _ _). by eexists.
  - intros e' i' He. unfold bring_up in He.
    destruct (resolve_loop fuel t (udp_start MY_MAC MY_IP e)) as [e1|] eqn:El; [|done].
    destruct (resolve_loop_ready _ _ _ _ El) as (A & B & C & D). unfold dtls_io_init in He. injection He as <- <-.
    split_and!; try done; try (destruct rx_irq; done).
    intros buf sz Hsz. unfold dtls_send_cb, DTLS_MAX_DGRAM.
    destruct (Z.leb_spec sz 0); [lia|]. destruct (Z.ltb_spec 1536 sz); [lia|].
    unfold send_transmit, udp_send. cbn [cached_mac send_copy set_mem udp_set_callback]. rewrite B.
    by destruct (Z.odd (u32 sz)).
Qed.

Definition demo_server_reply : rxframe :=
  RxFrame 0 60 (repeat 1 12 ++ [8; 6; 0; 1; 8; 0; 6; 4; 0; 2; 9; 9; 9; 9; 9; 9; 192; 168; 1; 100] ++ repeat 0 28).

(** The reply is found by the second poll; the transport then sends. *)
Lemma bring_up_ready_witness :
  exists e' i', bring_up 1 3 true 7 (set_rx 0 0 0 [None; Some demo_server_reply] (demo_eth 1 1)) demo_io = Some (e', i') /\
    fst (dtls_send_cb [1; 2; 3] 3 i' e') = 3.
Proof.
  destruct (bring_up_ready 0 3 true 7 (set_rx 0 0 0 [None; Some demo_server_reply] (demo_eth 1 1)) demo_io) as [R _].
  destruct (R 1%nat demo_server_reply (repeat 9 6)) as [[e' i'] E]; [reflexivity|lia| |reflexivity|].
  - split; [discriminate|]. split; [cbn; lia|]. repeat split.
  - exists e', i'. split; [exact E|].
    apply (bring_up_ready 1 3 true 7 (set_rx 0 0 0 [None; Some demo_server_reply] (demo_eth 1 1)) demo_io); [exact E|lia].
Defined.
