(* ===== verification/MldsaHint.v ===== *)
(** * Hints and high bits of ML-DSA (src/boot/wolfcrypt/src/dilithium.c)

    What verification does with the hint of a signature: the check that it is
    well formed, the decomposition of a coefficient into high and low bits, the
    application of the hint and the encoding of the result, against the
    algorithms HintBitUnpack, Decompose, UseHint and w1Encode of FIPS 204.  The
    first two of the theorems say where the code departs from them. *)

From S2P Require Import Prelude.
From S2P Require Import MlkemCodec.

Definition DILITHIUM_Q : Z := 0x7fe001.
Definition DILITHIUM_N : nat := 256.
Definition DILITHIUM_Q_LOW_88 : Z := (DILITHIUM_Q - 1) / 88.
Definition DILITHIUM_Q_LOW_88_2 : Z := ((DILITHIUM_Q - 1) / 88) * 2.
Definition DILITHIUM_Q_HI_88_ENC_BITS : nat := 6.
Definition PARAMS_ML_DSA_44_K : nat := 4.
Definition PARAMS_ML_DSA_44_OMEGA : nat := 80.
Definition SIG_VERIFY_E : Z := -229.

(** ** The check of the hint *)

Section CheckHint.
Context (h : list Z) (k omega : nat).

(** [while ((o < k) && (i == h[omega + o])) o++]. *)
Fixpoint skip_counts (fuel i o : nat) : nat :=
  match fuel with
  | O => o
  | S fuel => if (o <? k)%nat && (Z.of_nat i =? at_ h (omega + o)) then skip_counts fuel i (S o) else o
  end.

(** The loop over all possible hints: [ret], [i] and [o] at its end. *)
Fixpoint hint_loop (fuel i o : nat) : Z * nat * nat :=
  match fuel with
  | O => (0, i, o)
  | S fuel =>
      if (o <? k)%nat && (i <? omega)%nat then
        if Z.of_nat i =? at_ h (omega + o) then
          let o := skip_counts k i (S o) in
          if (o =? k)%nat then (0, i, o) else hint_loop fuel (S i) o
        else if at_ h i <=? at_ h (i - 1) then (SIG_VERIFY_E, i, o)
        else hint_loop fuel (S i) o
      else (0, i, o)
  end.

(** The remaining hints are zero. *)
Fixpoint zero_loop (fuel : nat) (ret : Z) (i : nat) : Z :=
  match fuel with
  | O => ret
  | S fuel =>
      if (ret =? 0) && (i <? omega)%nat
      then zero_loop fuel (if at_ h i =? 0 then ret else SIG_VERIFY_E) (S i) else ret
  end.

(** What follows the loop over the hints. *)
Definition hint_finish (r : Z * nat * nat) : Z :=
  let '(ret, i, o) := r in
  let ret := if ret =? 0
             then if (skip_counts k i o =? k)%nat then 0 else SIG_VERIFY_E
             else ret in
  zero_loop omega ret i.

Definition dilithium_check_hint : Z :=
  hint_finish (hint_loop omega 1 (skip_counts k 0 0)).

End CheckHint.

(** ** Decomposition and use of the hint *)

(** The sign bit of a 32-bit value: [((word32)x) >> 31]. *)
Definition sign32 (x : Z) : Z := Z.shiftr (u32 x) 31.

(** The low and the high part of [r]. *)
Definition dilithium_decompose_q88 (r : Z) : Z * Z :=
  let t1 := Z.shiftr (s32 (s32 (r * 44) + (DILITHIUM_Q_LOW_88 - 1) * 44)) 23 in
  let t0 := s32 (r - s32 (t1 * DILITHIUM_Q_LOW_88_2)) in
  let t1 := s32 (t1 + sign32 (s32 (DILITHIUM_Q_LOW_88 - t0))) in
  let t0 := s32 (r - s32 (t1 * DILITHIUM_Q_LOW_88_2)) in
  let t0 := s32 (t0 - sign32 (s32 (43 - t1))) in
  let t1 := s32 (Z.land (u32 t1) (u32 (0 - sign32 (s32 (t1 - 44))))) in
  (t0, t1).

(** One coefficient: the new value, and the offset of the next hint. *)
Definition use_hint_coeff (h : list Z) (i j : nat) (w : Z) (o : nat) : Z * nat :=
  let r := s32 (w + s32 (Z.land (u32 (0 - sign32 w)) DILITHIUM_Q)) in
  let '(r0, r1) := dilithium_decompose_q88 r in
  let '(r1, o) :=
    if (Z.of_nat o <? at_ h (PARAMS_ML_DSA_44_OMEGA + i)) && (at_ h o =? u8 (Z.of_nat j))
    then (s32 (u32 (r1 + u32 (1 - u32 (2 * sign32 r0)))), Z.to_nat (u8 (Z.of_nat (S o))))
    else (r1, o) in
  let r1 := s32 (Z.land (u32 r1) (u32 (0 - sign32 (s32 (r1 - 44))))) in
  let r1 := s32 (u32 (r1 + Z.land (u32 (0 - sign32 r1)) 44)) in
  (r1, o).

Fixpoint use_hint_loop (h : list Z) (i j : nat) (w : list Z) (o : nat) : list Z * nat :=
  match w with
  | [] => ([], o)
  | x :: w =>
      let '(x, o) := use_hint_coeff h i j x o in
      let '(w, o) := use_hint_loop h i (S j) w o in
      (x :: w, o)
  end.

Definition dilithium_use_hint_88 (w1 h : list Z) (i : nat) (op : nat) : list Z * nat :=
  let '(w, o) := use_hint_loop h i 0 (take DILITHIUM_N w1) op in
  (w ++ drop DILITHIUM_N w1, o).

(** ** Range check and encoding *)

Definition dilithium_check_low (a : list Z) (hi : Z) : Z :=
  if forallb (fun x => negb ((x <=? s32 (- hi)) || (hi <=? x))) (take DILITHIUM_N a) then 1 else 0.

Fixpoint vec_check_low_loop (a : list Z) (l : nat) (hi ret : Z) : Z :=
  match l with
  | O => ret
  | S l =>
      if ret =? 1 then
        let ret := dilithium_check_low a hi in
        if ret =? 0 then ret else vec_check_low_loop (drop DILITHIUM_N a) l hi ret
      else ret
  end.

Definition dilithium_vec_check_low_c (a : list Z) (l : nat) (hi : Z) : Z :=
  vec_check_low_loop a l hi 1.

Definition dilithium_vec_check_low : list Z -> nat -> Z -> Z := dilithium_vec_check_low_c.

(** The bytes of a 32-bit word in memory. *)
Definition le_word (x : Z) : list Z :=
  [u8 x; u8 (Z.shiftr x 8); u8 (Z.shiftr x 16); u8 (Z.shiftr x 24)].

(** A left shift of a signed value, and the bitwise or of a row of them. *)
Definition shl32 (x n : Z) : Z := s32 (Z.shiftl x n).
Definition ors (l : list Z) : Z := fold_left Z.lor l 0.

Definition encode_w1_words (w : nat -> Z) : list Z :=
  le_word (u32 (ors [w 0%nat; shl32 (w 1%nat) 6; shl32 (w 2%nat) 12; shl32 (w 3%nat) 18;
                     shl32 (w 4%nat) 24; shl32 (w 5%nat) 30])) ++
  le_word (u32 (ors [Z.shiftr (w 5%nat) 2; shl32 (w 6%nat) 4; shl32 (w 7%nat) 10; shl32 (w 8%nat) 16;
                     shl32 (w 9%nat) 22; shl32 (w 10%nat) 28])) ++
  le_word (u32 (ors [Z.shiftr (w 10%nat) 4; shl32 (w 11%nat) 2; shl32 (w 12%nat) 8; shl32 (w 13%nat) 14;
                     shl32 (w 14%nat) 20; shl32 (w 15%nat) 26])).

Definition dilithium_encode_w1_88_c (w1 : list Z) : list Z :=
  emit 16 DILITHIUM_N (fun j => encode_w1_words (fun i => nth (j + i) w1 0)).

Definition dilithium_encode_w1_88 : list Z -> list Z := dilithium_encode_w1_88_c.

(** ** FIPS 204 *)

Section HintBitUnpack.
Context (y : list Z) (omega : nat).

(** The coefficients that are 1, polynomial by polynomial, from the
    polynomial [o] on whose hints start at [index]. *)
Fixpoint hint_bit_unpack (k o index : nat) : option (list (list Z)) :=
  match k with
  | O => if forallb (fun i => at_ y i =? 0) (seq index (omega - index)) then Some [] else None
  | S k =>
      let c := Z.to_nat (at_ y (omega + o)) in
      if (c <? index)%nat || (omega <? c)%nat then None
      else if forallb (fun i => at_ y (i - 1) <? at_ y i) (seq (S index) (c - S index))
      then option_map (cons (slice index (c - index) y)) (hint_bit_unpack k (S o) c)
      else None
  end.

End HintBitUnpack.

Definition HintBitUnpack (y : list Z) (k omega : nat) : option (list (list Z)) :=
  hint_bit_unpack y omega k 0 0.

(** The representative of [r] in (-a/2, a/2]. *)
Definition mod_pm (r a : Z) : Z := let m := r mod a in if m <=? a / 2 then m else m - a.

(** High and low part of a residue. *)
Definition Decompose (r : Z) : Z * Z :=
  let r := r mod DILITHIUM_Q in
  let r0 := mod_pm r DILITHIUM_Q_LOW_88_2 in
  if r - r0 =? DILITHIUM_Q - 1 then (0, r0 - 1) else ((r - r0) / DILITHIUM_Q_LOW_88_2, r0).

Definition UseHint (hint : bool) (r : Z) : Z :=
  let m := (DILITHIUM_Q - 1) / DILITHIUM_Q_LOW_88_2 in
  let '(r1, r0) := Decompose r in
  if hint then if 0 <? r0 then (r1 + 1) mod m else (r1 - 1) mod m else r1.

(** The bits of a byte string, and of values of [w] bits one after the other. *)
Definition stream_bit (w : nat) (l : list Z) (i : nat) : bool :=
  Z.testbit (nth (i / w) l 0) (Z.of_nat (i mod w)).

Lemma at_byte l i : bytes l -> 0 <= at_ l i < 256.
Proof.
  intros Hb. unfold at_. destruct (nth_in_or_default i l 0) as [H | ->]; [|lia].
  rewrite Forall_forall in Hb. apply (Hb _), list_elem_of_In, H.
Qed.

(** ** The check of the hint is HintBitUnpack, but for the first byte *)

Section CheckHintSpec.
Context (h : list Z) (k omega : nat).

Abbreviation count o := (at_ h (omega + o)).

Definition zeros_from (i : nat) : Prop := forall j, (i <= j < omega)%nat -> at_ h j = 0.
Definition increasing (a b : nat) : Prop := forall j, (a < j < b)%nat -> at_ h (j - 1) < at_ h j.

(** HintBitUnpack succeeds from polynomial [o] on. *)
Definition unpacks (o index : nat) : Prop := is_Some (hint_bit_unpack h omega (k - o) o index).

Lemma forallb_seq (P : nat -> bool) a n :
  forallb P (seq a n) = true <-> forall j, (a <= j < a + n)%nat -> P j = true.
Proof.
  rewrite forallb_forall. split; intros H j; [intros Hj; apply H, in_seq; lia|].
  intros Hj%in_seq. apply H. lia.
Qed.

Lemma unpacks_end index : unpacks k index <-> zeros_from index.
Proof.
  unfold unpacks. rewrite Nat.sub_diag. simpl.
  destruct (forallb _ _) eqn:E.
  - rewrite forallb_seq in E. split; [|done]. intros _ j Hj. apply Z.eqb_eq, E. lia.
  - split; [intros [? ?]; done|]. intros H. exfalso. apply Bool.not_true_iff_false in E. apply E.
    apply forallb_seq. intros j Hj. apply Z.eqb_eq, H. lia.
Qed.

Lemma unpacks_step o index : (o < k)%nat ->
  unpacks o index <->
  (index <= Z.to_nat (count o) <= omega)%nat /\ increasing index (Z.to_nat (count o)) /\
  unpacks (S o) (Z.to_nat (count o)).
Proof.
  intros Ho. unfold unpacks. replace (k - o)%nat with (S (k - S o)) by lia. simpl.
  set (c := Z.to_nat (count o)).
  destruct (Nat.ltb_spec c index); [split; [intros [? ?]; done|lia]|].
  destruct (Nat.ltb_spec omega c); [split; [intros [? ?]; done|lia]|]. simpl.
  assert (forallb (fun i => at_ h (i - 1) <? at_ h i) (seq (S index) (c - S index)) = true
          <-> increasing index c) as Hinc.
  { rewrite forallb_seq. unfold increasing.
    split; intros H1 j Hj; apply Z.ltb_lt, H1; lia. }
  destruct (forallb _ _) eqn:E.
  - rewrite fmap_is_Some. split; [|tauto]. intros H1. split; [lia|]. split; [by apply Hinc|done].
  - split; [intros [? ?]; done|]. intros (_ & H1 & _). apply Hinc in H1. done.
Qed.

Hypothesis Hb : bytes h.

Lemma count_nonneg o : 0 <= count o.
Proof. by apply at_byte. Qed.

Lemma count_eq i o : Z.of_nat i = count o <-> i = Z.to_nat (count o).
Proof. pose proof (count_nonneg o). lia. Qed.

(** Polynomials without hints are skipped. *)
Lemma skip_counts_spec fuel i o : (o <= k)%nat -> (k - o <= fuel)%nat -> (i <= omega)%nat ->
  let o' := skip_counts h k omega fuel i o in
  (o <= o' <= k)%nat /\ ((o' < k)%nat -> Z.of_nat i <> count o') /\ (unpacks o i <-> unpacks o' i).
Proof.
  revert o. induction fuel as [|fuel IH]; simpl; intros o Ho Hf Hi.
  { replace o with k by lia. repeat split; lia || tauto. }
  destruct (Nat.ltb_spec o k) as [Hlt|]; simpl; [|repeat split; lia || tauto].
  destruct (Z.eqb_spec (Z.of_nat i) (count o)) as [E|]; [|repeat split; lia || tauto].
  destruct (IH (S o)) as (H1 & H2 & H3); [lia..|]. split; [lia|]. split; [done|].
  rewrite <- H3, (unpacks_step o) by done. apply count_eq in E. rewrite <- E.
  split; [tauto|]. intros H. split; [lia|]. split; [|done]. intros j Hj. lia.
Qed.

Lemma zero_loop_spec fuel i : (omega - i <= fuel)%nat ->
  (zero_loop h omega fuel 0 i = 0 <-> zeros_from i) /\
  (zero_loop h omega fuel 0 i = 0 \/ zero_loop h omega fuel 0 i = SIG_VERIFY_E).
Proof.
  revert i. induction fuel as [|fuel IH]; simpl; intros i Hf.
  { split; [|tauto]. split; [|done]. intros _ j Hj. lia. }
  destruct (Nat.ltb_spec i omega); [|split; [|tauto]; split; [|done]; intros _ j Hj; lia].
  destruct (Z.eqb_spec (at_ h i) 0) as [E|E].
  - destruct (IH (S i)) as [H1 H2]; [lia|]. split; [|done]. rewrite H1. split; intros Hz j Hj.
    + destruct (decide (j = i)) as [-> |]; [done|]. apply Hz. lia.
    + apply Hz. lia.
  - assert (zero_loop h omega fuel SIG_VERIFY_E (S i) = SIG_VERIFY_E) as -> by (by destruct fuel).
    split; [|tauto]. split; [done|]. intros Hz. destruct E. apply Hz. lia.
Qed.

(** What is left to check when the loop is at hint [i] of polynomial [o]. *)
Definition rest_valid (i o : nat) : Prop :=
  let c := Z.to_nat (count o) in
  (i <= c <= omega)%nat /\ increasing (i - 1) c /\ unpacks (S o) c.

Definition zero_iff (r : Z) (P : Prop) : Prop := (r = 0 <-> P) /\ (r = 0 \/ r = SIG_VERIFY_E).

Lemma zero_iff_error (P : Prop) : ~ P -> zero_iff SIG_VERIFY_E P.
Proof. intros HP. split; [split; done|]. by right. Qed.

Lemma zero_iff_ext r P Q : (P <-> Q) -> zero_iff r P -> zero_iff r Q.
Proof. unfold zero_iff. tauto. Qed.

Lemma zero_loop_error i : zero_loop h omega omega SIG_VERIFY_E i = SIG_VERIFY_E.
Proof. by destruct omega. Qed.

(** After the loop: every polynomial is done, and the rest is zero. *)
Lemma hint_finish_spec i o : (o <= k)%nat -> (i <= omega)%nat ->
  zero_iff (hint_finish h k omega (0, i, o))
    (skip_counts h k omega k i o = k /\ zeros_from i).
Proof.
  intros Ho Hi. simpl. destruct (Nat.eqb_spec (skip_counts h k omega k i o) k).
  - destruct (zero_loop_spec omega i ltac:(lia)) as [H1 H2]. split; tauto.
  - rewrite zero_loop_error. apply zero_iff_error. tauto.
Qed.

Lemma skip_end i : skip_counts h k omega k i k = k.
Proof. destruct k as [|k']; [done|]. simpl. by rewrite Nat.ltb_irrefl. Qed.

(** All hints used: the polynomials left have none. *)
Lemma rest_valid_end o : (o < k)%nat ->
  skip_counts h k omega k omega o = k /\ zeros_from omega <-> rest_valid omega o.
Proof.
  intros Ho. destruct (skip_counts_spec k omega o) as (H1 & H2 & H3); [lia..|].
  unfold rest_valid. split.
  - intros [E Hz]. rewrite E, unpacks_end in H3.
    rewrite (unpacks_step o) in H3 by done. destruct H3 as [_ H3]. specialize (H3 Hz).
    destruct H3 as (? & ? & ?). split; [lia|]. split; [intros j Hj; lia|done].
  - intros (Ha & _ & Hu). assert (omega = Z.to_nat (count o)) as Hc' by lia.
    assert (unpacks o omega) as Hv.
    { apply unpacks_step; [done|]. rewrite <- Hc'. split; [lia|]. split; [intros j Hj; lia|].
      by rewrite Hc'. }
    split; [|intros j Hj; lia]. rewrite H3 in Hv.
    destruct (decide (skip_counts h k omega k omega o = k)) as [|Hn]; [done|].
    exfalso. apply unpacks_step in Hv; [|lia]. apply H2; [lia|]. apply count_eq. lia.
Qed.

Lemma hint_loop_spec fuel i o : (1 <= i <= omega)%nat -> (o < k)%nat -> (omega - i < fuel)%nat ->
  zero_iff (hint_finish h k omega (hint_loop h k omega fuel i o)) (rest_valid i o).
Proof.
  revert i o. induction fuel as [|fuel IH]; [lia|]. intros i o Hi Ho Hf. cbn [hint_loop].
  rewrite (proj2 (Nat.ltb_lt o k)) by done. simpl andb. pose proof (count_nonneg o) as Hc.
  destruct (Nat.ltb_spec i omega) as [Hlt|].
  - destruct (Z.eqb_spec (Z.of_nat i) (count o)) as [E|E].
    + destruct (skip_counts_spec k i (S o)) as (H1 & H2 & H3); [lia..|].
      eapply (zero_iff_ext _ (unpacks (skip_counts h k omega k i (S o)) i)).
      { unfold rest_valid. apply count_eq in E. rewrite <- E, <- H3. split; [|tauto].
        intros H. split; [lia|]. split; [|done]. intros j Hj. lia. }
      cbv zeta. destruct (Nat.eqb_spec (skip_counts h k omega k i (S o)) k) as [Ek|Ek].
      * eapply zero_iff_ext; [|apply hint_finish_spec; lia].
        rewrite Ek, unpacks_end, skip_end. tauto.
      * eapply zero_iff_ext; [|apply IH; lia].
        rewrite (unpacks_step _ i) by lia. unfold rest_valid. rewrite Nat.sub_succ, Nat.sub_0_r.
        assert (i <> Z.to_nat (count (skip_counts h k omega k i (S o)))) by
          (rewrite <- count_eq; apply H2; lia).
        split; intros (? & ? & ?); (split; [lia|done]).
    + destruct (Z.leb_spec (at_ h i) (at_ h (i - 1))) as [Hle|Hgt].
      * unfold hint_finish. change (SIG_VERIFY_E =? 0) with false. cbv iota.
        rewrite zero_loop_error. apply zero_iff_error. intros (H1 & H2 & _).
        specialize (H2 i ltac:(lia)). lia.
      * eapply zero_iff_ext; [|apply IH; lia]. unfold rest_valid. rewrite Nat.sub_succ, Nat.sub_0_r.
        split; intros (H1 & H2 & H3); (split; [lia|]); (split; [|done]); intros j Hj.
        -- destruct (decide (j = i)) as [-> |]; [done|]. apply H2. lia.
        -- apply H2. lia.
  - replace i with omega in * by lia. eapply zero_iff_ext; [|apply hint_finish_spec; lia].
    by apply rest_valid_end.
Qed.

(** The first byte of the hint is not looked at when no polynomial has hints. *)
Definition no_hints : Prop :=
  (forall o, (o < k)%nat -> count o = 0) /\ forall j, (1 <= j < omega)%nat -> at_ h j = 0.

Lemma skip_zero_counts : skip_counts h k omega k 0 0 = k -> forall o, (o < k)%nat -> count o = 0.
Proof.
  assert (forall fuel o, skip_counts h k omega fuel 0 o = k ->
    forall o', (o <= o' < k)%nat -> count o' = 0) as H; [|intros E o Ho; eapply H; [done|lia]].
  induction fuel as [|fuel IH]; intros o E o' Ho'; [simpl in E; lia|].
  cbn [skip_counts] in E. destruct (Nat.ltb_spec o k); rewrite ?andb_true_l in E; [|lia].
  change (Z.of_nat 0) with 0 in E.
  destruct (Z.eqb_spec 0 (count o)) as [E0|]; [|lia].
  destruct (decide (o' = o)) as [-> |]; [lia|]. eapply IH; [done|lia].
Qed.

Lemma check_hint_spec : (1 <= omega)%nat ->
  zero_iff (dilithium_check_hint h k omega) (is_Some (HintBitUnpack h k omega) \/ no_hints).
Proof.
  intros Hw. unfold dilithium_check_hint.
  destruct (skip_counts_spec k 0 0) as (H1 & H2 & H3); [lia..|].
  replace (is_Some (HintBitUnpack h k omega)) with (unpacks 0 0)
    by (unfold unpacks, HintBitUnpack; by rewrite Nat.sub_0_r).
  destruct (decide (skip_counts h k omega k 0 0 = k)) as [E|Hn].
  - rewrite E in H3 |- *. rewrite unpacks_end in H3. pose proof (skip_zero_counts E).
    assert (hint_loop h k omega omega 1 k = (0, 1%nat, k)) as ->
      by (destruct omega; [lia|]; simpl; by rewrite Nat.ltb_irrefl).
    eapply zero_iff_ext; [|apply hint_finish_spec; lia]. rewrite skip_end, H3. unfold no_hints.
    split; [intros [_ Hz]; right; split; [done|]; intros j Hj; apply Hz; lia|].
    intros [Hz|[_ Hz]]; (split; [done|]); intros j Hj; apply Hz; lia.
  - eapply zero_iff_ext; [|apply hint_loop_spec; lia]. rewrite H3, (unpacks_step _ 0) by lia.
    specialize (H2 ltac:(lia)). rewrite count_eq in H2. unfold rest_valid. simpl Nat.sub.
    split; [intros (? & ? & ?); left; (split; [lia|]); done|].
    intros [(? & ? & ?)|[Hz _]]; [by split; [lia|]|].
    destruct H2. by rewrite Hz by lia.
Qed.

End CheckHintSpec.

(** C12: the check of the hint of a signature accepts what HintBitUnpack of FIPS
    204 accepts and, when no polynomial has a hint, also a first byte that is
    not zero; everything else is SIG_VERIFY_E. *)
Theorem check_hint_is_HintBitUnpack h k omega : bytes h -> (1 <= omega)%nat ->
  (dilithium_check_hint h k omega = 0 <->
   is_Some (HintBitUnpack h k omega) \/
   (forall o, (o < k)%nat -> at_ h (omega + o) = 0) /\
   (forall j, (1 <= j < omega)%nat -> at_ h j = 0)) /\
  (dilithium_check_hint h k omega = 0 \/ dilithium_check_hint h k omega = SIG_VERIFY_E).
Proof. intros Hb Hw. by apply check_hint_spec. Qed.

Lemma check_hint_is_HintBitUnpack_witness :
  let good := [3; 7; 1; 0; 0; 2; 2; 3] in
  let free := [9; 0; 0; 0; 0; 0; 0; 0] in
  dilithium_check_hint good 3 5 = 0 /\
  HintBitUnpack good 3 5 = Some [[3; 7]; []; [1]] /\
  dilithium_check_hint free 3 5 = 0 /\ HintBitUnpack free 3 5 = None.
Proof.
  split; [|split; [reflexivity|split; [|reflexivity]]].
  - apply (check_hint_is_HintBitUnpack [3; 7; 1; 0; 0; 2; 2; 3] 3 5);
      [repeat constructor; lia|lia|]. left. eexists. reflexivity.
  - apply (check_hint_is_HintBitUnpack [9; 0; 0; 0; 0; 0; 0; 0] 3 5);
      [repeat constructor; lia|lia|]. right.
    split; intros j Hj; do 8 (destruct j as [|j]; [try reflexivity; lia|]); lia.
Defined.

(** ** Decompose and UseHint *)

Lemma sign32_eq x : - 2 ^ 31 <= x < 2 ^ 31 -> sign32 x = if x <? 0 then 1 else 0.
Proof.
  intros Hx. unfold sign32. rewrite Z.shiftr_div_pow2 by lia. unfold wrap.
  destruct (Z.ltb_spec x 0); lia_mod.
Qed.

Lemma s32_wrap x : s32 (u32 x) = s32 x.
Proof. unfold sext. by rewrite wrap_idem by lia. Qed.

(** A mask made of a sign bit. *)
Lemma sign32_mask x y : - 2 ^ 31 <= x < 2 ^ 31 -> is_u32 y ->
  Z.land y (u32 (0 - sign32 x)) = if x <? 0 then y else 0.
Proof.
  intros Hx Hy. rewrite sign32_eq by done. destruct (x <? 0).
  - change (u32 (0 - 1)) with (Z.ones 32). rewrite <- wrap_land_ones by lia. by apply wrap_small.
  - apply Z.land_0_r.
Qed.

Lemma sign32_mask_l x y : - 2 ^ 31 <= x < 2 ^ 31 -> is_u32 y ->
  Z.land (u32 (0 - sign32 x)) y = if x <? 0 then y else 0.
Proof. intros. rewrite Z.land_comm. by apply sign32_mask. Qed.

(** A value kept, or cleared, by the mask of the sign of [x]. *)
Lemma sign32_keep x y : - 2 ^ 31 <= x < 2 ^ 31 -> - 2 ^ 31 <= y < 2 ^ 31 ->
  s32 (Z.land (u32 y) (u32 (0 - sign32 x))) = if x <? 0 then y else 0.
Proof.
  intros Hx Hy. rewrite sign32_mask by (done || apply wrap_range; lia).
  destruct (x <? 0); [|done]. by rewrite s32_wrap, (sext_small 32) by lia.
Qed.

(** The high part by multiplication is at most one too low. *)
Lemma approx_high x : 0 <= x < 8475648 ->
  let T := x / 190464 in T - 1 <= x * 44 / 2 ^ 23 <= T /\ (x * 44 / 2 ^ 23 = T - 1 -> 1 <= T).
Proof. intros Hx. cbv zeta. lia_mod. Qed.

Lemma decompose_high r : 0 <= r < DILITHIUM_Q ->
  let t1 := Z.shiftr (s32 (s32 (r * 44) + (DILITHIUM_Q_LOW_88 - 1) * 44)) 23 in
  let t0 := s32 (r - s32 (t1 * DILITHIUM_Q_LOW_88_2)) in
  s32 (t1 + sign32 (s32 (DILITHIUM_Q_LOW_88 - t0))) = (r + 95231) / 190464.
Proof.
  intros Hr. cbv zeta. unfold DILITHIUM_Q in Hr.
  change DILITHIUM_Q_LOW_88 with 95232. change DILITHIUM_Q_LOW_88_2 with 190464.
  rewrite !(sext_small 32 (r * 44)), (sext_small 32 (r * 44 + _)), Z.shiftr_div_pow2 by lia.
  replace (r * 44 + (95232 - 1) * 44) with ((r + 95231) * 44) by lia.
  pose proof (approx_high (r + 95231) ltac:(lia)) as [H1 H2]. cbv zeta in H1, H2.
  set (a := (r + 95231) * 44 / 2 ^ 23) in *.
  assert (0 <= (r + 95231) / 190464 <= 44) as HT by lia_mod.
  pose proof (Z.div_mod (r + 95231) 190464 ltac:(lia)) as Hd.
  pose proof (Z.mod_pos_bound (r + 95231) 190464 ltac:(lia)) as Hm.
  set (T := (r + 95231) / 190464) in *.
  rewrite (sext_small 32 (a * 190464)) by lia.
  rewrite (sext_small 32 (r - a * 190464)) by lia.
  rewrite (sext_small 32 (95232 - _)), sign32_eq by lia.
  destruct (Z.ltb_spec (95232 - (r - a * 190464)) 0); rewrite sext_small by lia; lia.
Qed.

(** Decompose in terms of the quotient that the code computes. *)
Lemma Decompose_eq r : 0 <= r < DILITHIUM_Q ->
  let T := (r + 95231) / 190464 in
  - 95231 <= r - T * 190464 <= 95232 /\ 0 <= T <= 44 /\
  Decompose r = if T =? 44 then (0, r - T * 190464 - 1) else (T, r - T * 190464).
Proof.
  intros Hr. cbv zeta. unfold DILITHIUM_Q in Hr. unfold Decompose.
  rewrite (Z.mod_small r) by done. change DILITHIUM_Q_LOW_88_2 with 190464.
  change (DILITHIUM_Q - 1) with (44 * 190464).
  assert (mod_pm r 190464 = r - (r + 95231) / 190464 * 190464) as ->.
  { unfold mod_pm. destruct (Z.leb_spec (r mod 190464) (190464 / 2)); lia_mod. }
  pose proof (Z.div_mod (r + 95231) 190464 ltac:(lia)) as Hd.
  pose proof (Z.mod_pos_bound (r + 95231) 190464 ltac:(lia)) as Hm.
  set (T := (r + 95231) / 190464) in *.
  split; [lia|]. split; [lia|].
  replace (r - (r - T * 190464)) with (T * 190464) by lia. rewrite Z_div_mult by lia.
  destruct (Z.eqb_spec T 44), (Z.eqb_spec (T * 190464) (44 * 190464)); done || lia.
Qed.

Lemma decompose_eq r : 0 <= r < DILITHIUM_Q ->
  dilithium_decompose_q88 r = (snd (Decompose r), fst (Decompose r)).
Proof.
  intros Hr. unfold dilithium_decompose_q88. cbv zeta. rewrite (decompose_high r Hr).
  destruct (Decompose_eq r Hr) as (H1 & H2 & ->).
  change DILITHIUM_Q_LOW_88_2 with 190464. set (T := (r + 95231) / 190464) in *.
  rewrite (sext_small 32 (T * 190464)), (sext_small 32 (43 - T)), (sext_small 32 (T - 44)) by lia.
  rewrite (sext_small 32 (r - T * 190464)) by lia.
  rewrite sign32_keep, (sign32_eq (43 - T)) by lia.
  destruct (Z.eqb_spec T 44), (Z.ltb_spec (43 - T) 0), (Z.ltb_spec (T - 44) 0); try lia; simpl;
    rewrite sext_small by lia; f_equal; lia.
Qed.

(** [UseHint] as the code computes it: a low part of zero counts as positive. *)
Definition use_hint_value (hint : bool) (r : Z) : Z :=
  let '(r1, r0) := Decompose r in
  if hint then if 0 <=? r0 then (r1 + 1) mod 44 else (r1 - 1) mod 44 else r1.

Lemma use_hint_value_UseHint hint r : ~ (hint = true /\ snd (Decompose r) = 0) ->
  use_hint_value hint r = UseHint hint r.
Proof.
  unfold use_hint_value, UseHint. change ((DILITHIUM_Q - 1) / DILITHIUM_Q_LOW_88_2) with 44.
  destruct (Decompose r) as [r1 r0]. simpl. intros H. destruct hint; [|done].
  destruct (Z.leb_spec 0 r0), (Z.ltb_spec 0 r0); try done; [|lia]. exfalso. apply H. split; [done|lia].
Qed.

Lemma Decompose_range r : 0 <= fst (Decompose r) < 44 /\ - 95232 <= snd (Decompose r) <= 95232.
Proof.
  assert (Decompose r = Decompose (r mod DILITHIUM_Q)) as ->
    by (unfold Decompose; by rewrite Zmod_mod).
  destruct (Decompose_eq (r mod DILITHIUM_Q)) as (H1 & H2 & ->);
    [apply Z.mod_pos_bound; done|].
  destruct (Z.eqb_spec ((r mod DILITHIUM_Q + 95231) / 190464) 44); simpl; lia.
Qed.

(** The correction of the high part after the hint. *)
Lemma fix_up r1 : - 1 <= r1 <= 44 ->
  let r1' := s32 (Z.land (u32 r1) (u32 (0 - sign32 (s32 (r1 - 44))))) in
  s32 (u32 (r1' + Z.land (u32 (0 - sign32 r1')) 44)) = r1 mod 44.
Proof.
  intros H. cbv zeta. rewrite (sext_small 32 (r1 - 44)), sign32_keep by lia.
  assert (is_u32 44) by done.
  rewrite s32_wrap, sign32_mask_l by (destruct (r1 - 44 <? 0); done || lia).
  destruct (Z.ltb_spec (r1 - 44) 0).
  - destruct (Z.ltb_spec r1 0); rewrite sext_small by lia; lia_mod.
  - replace r1 with 44 by lia. reflexivity.
Qed.

Lemma use_hint_coeff_spec h i j w o : - DILITHIUM_Q < w < DILITHIUM_Q -> (o < 255)%nat ->
  let hint := (Z.of_nat o <? at_ h (PARAMS_ML_DSA_44_OMEGA + i)) && (at_ h o =? u8 (Z.of_nat j)) in
  use_hint_coeff h i j w o = (use_hint_value hint w, if hint then S o else o).
Proof.
  intros Hw Ho. cbv zeta. unfold use_hint_coeff.
  assert (is_u32 DILITHIUM_Q) by done. pose proof Hw as Hw'. unfold DILITHIUM_Q in Hw'.
  rewrite sign32_mask_l by (done || lia).
  assert (s32 (w + s32 (if w <? 0 then DILITHIUM_Q else 0)) = w mod DILITHIUM_Q) as ->.
  { unfold DILITHIUM_Q. destruct (Z.ltb_spec w 0);
      rewrite !(sext_small 32) by (try rewrite (sext_small 32); lia); lia_mod. }
  rewrite decompose_eq by (apply Z.mod_pos_bound; done).
  assert (Decompose (w mod DILITHIUM_Q) = Decompose w) as ->
    by (unfold Decompose; by rewrite Zmod_mod).
  pose proof (Decompose_range w) as [H1 H2]. unfold use_hint_value.
  destruct (Decompose w) as [r1 r0]. cbn [fst snd] in *.
  destruct (_ && _).
  - rewrite (sign32_eq r0), (s32_wrap (r1 + _)) by lia.
    assert (s32 (r1 + u32 (1 - u32 (2 * (if r0 <? 0 then 1 else 0)))) =
            if 0 <=? r0 then r1 + 1 else r1 - 1) as ->.
    { destruct (Z.ltb_spec r0 0), (Z.leb_spec 0 r0); try lia.
      - rewrite <- s32_wrap, wrap_add_r, s32_wrap. simpl. apply sext_small; lia.
      - apply (sext_small 32); simpl; lia. }
    rewrite (wrap_small 8) by (unfold in_word; lia). rewrite Nat2Z.id.
    rewrite fix_up by (destruct (0 <=? r0); lia). by destruct (0 <=? r0).
  - rewrite fix_up by lia. rewrite Z.mod_small by lia. done.
Qed.

(** ** The hints of a polynomial *)

(** Where the hints of polynomial [i] start and end. *)
Definition hint_stop (h : list Z) (omega i : nat) : nat := Z.to_nat (at_ h (omega + i)).
Definition hint_start (h : list Z) (omega i : nat) : nat :=
  match i with O => 0%nat | S i => hint_stop h omega i end.
Definition poly_hints (h : list Z) (omega i : nat) : list Z :=
  slice (hint_start h omega i) (hint_stop h omega i - hint_start h omega i) h.

Lemma HintBitUnpack_hints h k omega hs i : HintBitUnpack h k omega = Some hs -> (i < k)%nat ->
  hs !! i = Some (poly_hints h omega i).
Proof.
  assert (forall k o index hs, index = hint_start h omega o ->
    hint_bit_unpack h omega k o index = Some hs -> forall m, (m < k)%nat ->
    hs !! m = Some (poly_hints h omega (o + m))) as H.
  { clear. induction k as [|k IH]; simpl; intros o index hs Hi E m Hm; [lia|].
    destruct (_ || _); [done|]. destruct (forallb _ _); [|done].
    destruct (hint_bit_unpack h omega k (S o) _) as [hs'|] eqn:E'; [|done]. simpl in E.
    injection E as <-. destruct m as [|m]; simpl.
    - rewrite Nat.add_0_r. unfold poly_hints, hint_stop. by rewrite <- Hi.
    - rewrite <- Nat.add_succ_comm. eapply IH; [|done|lia]. done. }
  intros E Hi. by apply (H k 0%nat 0%nat).
Qed.

Section Hints.
Context (h : list Z) (k omega : nat).
Hypothesis Hb : bytes h.
Hypothesis Hw : (1 <= omega)%nat.
Hypothesis Hok : dilithium_check_hint h k omega = 0.

Lemma checked_hints i : (i < k)%nat ->
  (hint_start h omega i <= hint_stop h omega i <= omega)%nat /\
  increasing h (hint_start h omega i) (hint_stop h omega i).
Proof.
  intros Hi. apply check_hint_spec in Hok; [|done..]. destruct Hok as [Hu|[Hz _]].
  - assert (forall i, (i <= k)%nat -> unpacks h k omega i (hint_start h omega i)) as H.
    { clear i Hi. induction i as [|i IH]; intros Hi.
      - unfold unpacks. by rewrite Nat.sub_0_r.
      - specialize (IH ltac:(lia)). apply unpacks_step in IH; [tauto|lia]. }
    specialize (H i ltac:(lia)). apply unpacks_step in H; [|done]. unfold hint_stop. tauto.
  - assert (forall i, (i < k)%nat -> hint_stop h omega i = 0%nat) as H.
    { intros j Hj. unfold hint_stop. by rewrite Hz. }
    assert (hint_start h omega i = 0%nat) as -> by (destruct i; [done|]; apply H; lia).
    rewrite H by done. split; [lia|]. intros j Hj. lia.
Qed.

End Hints.

Lemma increasing_le h a b : increasing h a b -> forall t, (a <= t < b)%nat -> at_ h a <= at_ h t.
Proof.
  intros Hi t [Ha Hb]. induction Ha as [|t Ha IH]; [lia|].
  specialize (Hi (S t) ltac:(lia)). simpl in Hi. rewrite Nat.sub_0_r in Hi.
  specialize (IH ltac:(lia)). lia.
Qed.

Definition hint_at (h : list Z) (a b j : nat) : bool :=
  existsb (fun t => at_ h t =? Z.of_nat j) (seq a (b - a)).

Lemma hint_at_slice h a b j : (b <= length h)%nat ->
  hint_at h a b j = bool_decide (Z.of_nat j ∈ slice a (b - a) h).
Proof.
  intros Hb. apply Bool.eq_true_iff_eq. rewrite bool_decide_eq_true. unfold hint_at.
  rewrite existsb_exists, list_elem_of_lookup. unfold slice, at_. split.
  - intros (t & Ht%in_seq & E%Z.eqb_eq). exists (t - a)%nat.
    rewrite lookup_take_lt, lookup_drop by lia. replace (a + (t - a))%nat with t by lia.
    rewrite <- E. destruct (nth_lookup_or_length h t 0); [done|lia].
  - intros (t & Ht). pose proof (lookup_lt_Some _ _ _ Ht) as Hl. rewrite length_take in Hl.
    rewrite lookup_take_lt, lookup_drop in Ht by lia.
    exists (a + t)%nat. split; [apply in_seq; lia|].
    rewrite (nth_lookup_Some _ _ _ _ Ht). apply Z.eqb_refl.
Qed.

Lemma hint_at_next h a b j : increasing h a b -> (a < b)%nat -> at_ h a <> Z.of_nat j ->
  Z.of_nat j <= at_ h a -> hint_at h a b j = false.
Proof.
  intros Hi Hab Hn Hj. apply Bool.not_true_iff_false. unfold hint_at.
  rewrite existsb_exists. intros (t & Ht%in_seq & E%Z.eqb_eq).
  pose proof (increasing_le h a b Hi t). lia.
Qed.

Lemma hint_at_tail h a b j : (a < b)%nat -> at_ h a <> Z.of_nat j ->
  hint_at h a b j = hint_at h (S a) b j.
Proof.
  intros Hab Hn. unfold hint_at. replace (b - a)%nat with (S (b - S a)) by lia. simpl.
  by apply Z.eqb_neq in Hn as ->.
Qed.

(** The loop over the coefficients from [j], with the hints from [o] to [c] left. *)
Lemma use_hint_loop_spec h i w : bytes h ->
  let c := hint_stop h PARAMS_ML_DSA_44_OMEGA i in
  forall j o, (j + length w = 256)%nat -> Forall (fun x => - DILITHIUM_Q < x < DILITHIUM_Q) w ->
  (o <= c <= 80)%nat -> increasing h o c -> ((o < c)%nat -> Z.of_nat j <= at_ h o) ->
  use_hint_loop h i j w o =
  (zip_with (fun x t => use_hint_value (hint_at h o c t) x) w (seq j (length w)), c).
Proof.
  intros Hb c. assert (at_ h (PARAMS_ML_DSA_44_OMEGA + i) = Z.of_nat c) as Hc.
  { unfold c, hint_stop. rewrite Z2Nat.id; [done|]. by apply count_nonneg. }
  induction w as [|x w IH]; intros j o Hj Hw Ho Hi Hn.
  { simpl. f_equal. destruct (decide (o = c)); [done|]. exfalso.
    pose proof (Hn ltac:(lia)). simpl in Hj. pose proof (at_byte h o Hb). lia. }
  apply Forall_cons in Hw as [Hx Hw]. simpl in Hj. cbn [use_hint_loop].
  rewrite use_hint_coeff_spec by (done || lia). cbn [length seq zip_with].
  rewrite Hc, (wrap_small 8) by (unfold in_word; lia).
  destruct (Z.ltb_spec (Z.of_nat o) (Z.of_nat c)) as [Hlt|Hge]; simpl andb.
  - destruct (Z.eqb_spec (at_ h o) (Z.of_nat j)) as [E|E].
    + rewrite IH; [|lia|done|lia|intros t Ht; apply Hi; lia|].
      2: { intros Ht. specialize (Hi (S o) ltac:(lia)). simpl in Hi. rewrite Nat.sub_0_r in Hi. lia. }
      f_equal. f_equal.
      * f_equal. unfold hint_at. replace (c - o)%nat with (S (c - S o)) by lia. simpl.
        by rewrite E, Z.eqb_refl.
      * apply Forall_zip_with_ext_r; [done|]. apply Forall_forall.
        intros t Ht%list_elem_of_In%in_seq y. f_equal. symmetry. apply hint_at_tail; lia.
    + rewrite IH; [|lia|done|lia|done|specialize (Hn ltac:(lia)); lia].
      f_equal. f_equal. f_equal. symmetry. apply hint_at_next; try done; [lia|apply Hn; lia].
  - rewrite IH; [|lia|done|lia|done|lia]. do 3 f_equal.
    unfold hint_at. by replace (c - o)%nat with 0%nat by lia.
Qed.

(** Polynomial [i] with a hint that passes the check. *)
Lemma use_hint_88_spec h w i : bytes h -> (PARAMS_ML_DSA_44_OMEGA <= length h)%nat ->
  dilithium_check_hint h PARAMS_ML_DSA_44_K PARAMS_ML_DSA_44_OMEGA = 0 -> (i < PARAMS_ML_DSA_44_K)%nat ->
  length w = DILITHIUM_N -> Forall (fun x => - DILITHIUM_Q < x < DILITHIUM_Q) w ->
  dilithium_use_hint_88 w h i (hint_start h PARAMS_ML_DSA_44_OMEGA i) =
  (zip_with (fun x t => use_hint_value (bool_decide (Z.of_nat t ∈ poly_hints h PARAMS_ML_DSA_44_OMEGA i)) x)
     w (seq 0 DILITHIUM_N), hint_start h PARAMS_ML_DSA_44_OMEGA (S i)).
Proof.
  intros Hb Hl Hok Hi Hlen Hw.
  destruct (checked_hints h _ PARAMS_ML_DSA_44_OMEGA Hb ltac:(compute; lia) Hok i Hi) as [H1 H2].
  unfold dilithium_use_hint_88, DILITHIUM_N in *. rewrite take_ge, drop_ge by lia.
  rewrite use_hint_loop_spec; [|done|lia|done|done|done|].
  2: { intros _. by apply at_byte. }
  rewrite app_nil_r, Hlen. f_equal. apply Forall_zip_with_ext_r; [done|].
  apply Forall_forall. intros t _ x. by rewrite hint_at_slice by lia.
Qed.

(** C16: for a hint that passes the check, a polynomial is changed coefficient by
    coefficient as UseHint of FIPS 204 says, and the offset moves to the hints of
    the next polynomial; the exception is a hint on a coefficient whose low part
    is zero, which the code rounds up where UseHint rounds down. *)
Theorem use_hint_is_UseHint h w i : bytes h ->
  (PARAMS_ML_DSA_44_OMEGA <= length h)%nat ->
  dilithium_check_hint h PARAMS_ML_DSA_44_K PARAMS_ML_DSA_44_OMEGA = 0 ->
  (i < PARAMS_ML_DSA_44_K)%nat ->
  length w = DILITHIUM_N -> Forall (fun x => - DILITHIUM_Q < x < DILITHIUM_Q) w ->
  let hints := poly_hints h PARAMS_ML_DSA_44_OMEGA i in
  (forall hs, HintBitUnpack h PARAMS_ML_DSA_44_K PARAMS_ML_DSA_44_OMEGA = Some hs -> hs !! i = Some hints) /\
  exists w', dilithium_use_hint_88 w h i (hint_start h PARAMS_ML_DSA_44_OMEGA i) =
             (w', hint_start h PARAMS_ML_DSA_44_OMEGA (S i)) /\
    length w' = DILITHIUM_N /\
    forall j x, w !! j = Some x ->
      let hint := bool_decide (Z.of_nat j ∈ hints) in
      let '(r1, r0) := Decompose x in
      w' !! j = Some (if hint && (r0 =? 0) then (r1 + 1) mod 44 else UseHint hint x).
Proof.
  intros Hb Hl Hok Hi Hlen Hw hints. split; [intros hs E; by eapply HintBitUnpack_hints|].
  rewrite use_hint_88_spec by done. eexists. split; [done|].
  split; [rewrite length_zip_with, length_seq; lia|].
  intros j x Hx. pose proof (lookup_lt_Some _ _ _ Hx). cbv zeta.
  rewrite lookup_zip_with, Hx, lookup_seq_lt by lia. simpl. fold hints.
  destruct (Decompose x) as [r1 r0] eqn:E. f_equal.
  destruct (bool_decide _), (Z.eqb_spec r0 0); simpl;
    try (rewrite use_hint_value_UseHint; [done|]; rewrite E; simpl; intros [??]; done).
  unfold use_hint_value. rewrite E. by subst r0.
Qed.

(** The offset of the hint is zero in the first polynomial. *)
Lemma use_hint_is_UseHint_witness :
  let h := [3; 7] ++ repeat 0 78 ++ [2; 2; 2; 2] in
  let w := 5 :: repeat 0 255 in
  dilithium_check_hint h 4 80 = 0 /\
  (exists w', dilithium_use_hint_88 w h 0 0 = (w', 2%nat) /\ w' !! 3%nat = Some 1) /\
  UseHint true 0 = 43.
Proof.
  intros h w. split; [reflexivity|]. split; [|reflexivity].
  destruct (use_hint_is_UseHint h w 0) as (_ & w' & E & _ & Hw').
  - apply Forall_forall. intros x Hx%list_elem_of_In. vm_compute in Hx.
    unfold is_byte. repeat (destruct Hx as [<-|Hx]; [lia|]). done.
  - vm_compute. lia.
  - reflexivity.
  - unfold PARAMS_ML_DSA_44_K. lia.
  - reflexivity.
  - apply Forall_forall. intros x Hx%list_elem_of_In. unfold DILITHIUM_Q. simpl in Hx. lia.
  - exists w'. split; [exact E|]. exact (Hw' 3%nat 0 eq_refl).
Defined.

(** ** The encoding of the high bits *)

Lemma testbit_s32 x p : 0 <= p < 32 -> Z.testbit (s32 x) p = Z.testbit x p.
Proof.
  intros Hp. pose proof (testbit_wrap 32 (s32 x) p ltac:(lia)) as H.
  rewrite wrap_sext, testbit_wrap in H by lia. by rewrite (proj2 (Z.ltb_lt p 32)) in H by lia.
Qed.

Lemma shl32_bit x s p : 0 <= x < 64 -> 0 <= s -> 0 <= p < 32 ->
  Z.testbit (shl32 x s) p = (s <=? p) && (p <? s + 6) && Z.testbit x (p - s).
Proof.
  intros Hx Hs Hp. unfold shl32.
  rewrite testbit_s32, Z.shiftl_spec by lia.
  destruct (Z.leb_spec s p); simpl; [|apply Z.testbit_neg_r; lia].
  destruct (Z.ltb_spec p (s + 6)); simpl; [done|]. apply (testbit_high 6); [done|lia].
Qed.

Lemma shr6_bit x s p : 0 <= x < 64 -> 0 <= s -> 0 <= p ->
  Z.testbit (Z.shiftr x s) p = (p <? 6 - s) && Z.testbit x (p + s).
Proof.
  intros Hx Hs Hp. rewrite Z.shiftr_spec by lia.
  destruct (Z.ltb_spec p (6 - s)); simpl; [done|]. apply (testbit_high 6); [done|lia].
Qed.

(** Bit [n] of the bytes of a word. *)
Lemma le_word_bit x n : (n < 32)%nat -> stream_bit 8 (le_word (u32 x)) n = Z.testbit x (Z.of_nat n).
Proof.
  intros Hn. unfold stream_bit, le_word.
  do 32 (destruct n as [|n];
    [cbn -[Z.testbit wrap Z.shiftr]; rewrite testbit_wrap, ?Z.shiftr_spec, testbit_wrap by lia; reflexivity|]).
  lia.
Qed.

Lemma stream_bit_app w l l' n : (w <> 0)%nat -> stream_bit w (l ++ l') n =
  if (n <? w * length l)%nat then stream_bit w l n else stream_bit w l' (n - w * length l).
Proof.
  intros Hw. unfold stream_bit. destruct (Nat.ltb_spec n (w * length l)).
  - rewrite app_nth1; [done|]. apply Nat.Div0.div_lt_upper_bound. lia.
  - replace n with ((n - w * length l) + length l * w)%nat at 1 2 by lia.
    rewrite Nat.div_add, Nat.Div0.mod_add, app_nth2 by lia. do 2 f_equal. lia.
Qed.

Definition is_6 (x : Z) : Prop := 0 <= x < 64.

Lemma ors_bit l p : Z.testbit (ors l) p = existsb (fun x => Z.testbit x p) l.
Proof.
  unfold ors. assert (forall a, Z.testbit (fold_left Z.lor l a) p =
    Z.testbit a p || existsb (fun x => Z.testbit x p) l) as H; [|rewrite H, Z.bits_0; done].
  induction l as [|x l IH]; intros a; simpl; [by rewrite orb_false_r|].
  rewrite IH, Z.lor_spec, orb_assoc. done.
Qed.

(** Sixteen values of six bits in twelve bytes. *)
Lemma encode_w1_words_bit w n : (forall i, (i < 16)%nat -> is_6 (w i)) -> (n < 96)%nat ->
  stream_bit 8 (encode_w1_words w) n = Z.testbit (w (n / 6)%nat) (Z.of_nat (n mod 6)).
Proof.
  intros Hw Hn. unfold encode_w1_words. rewrite !stream_bit_app by done.
  assert (forall x, length (le_word x) = 4%nat) as Hl by done. rewrite !Hl. clear Hl.
  do 96 (destruct n as [|n];
    [cbn -[stream_bit le_word wrap ors Z.testbit shl32 Z.shiftr]; rewrite le_word_bit, ors_bit by lia;
     cbn -[Z.testbit shl32 Z.shiftr];
     rewrite ?shl32_bit, ?shr6_bit, ?(testbit_high 6 (w 0%nat)) by (first [apply Hw; lia|lia]);
     cbn -[Z.testbit]; rewrite ?orb_false_r; done|]).
  lia.
Qed.

Lemma encode_w1_length w1 : length (dilithium_encode_w1_88 w1) = 192%nat.
Proof. unfold dilithium_encode_w1_88, dilithium_encode_w1_88_c. by rewrite (emit_length 12). Qed.

Lemma encode_w1_bit w1 n : length w1 = DILITHIUM_N -> Forall is_6 w1 -> (n < 1536)%nat ->
  stream_bit 8 (dilithium_encode_w1_88 w1) n = stream_bit 6 w1 n.
Proof.
  intros Hl Hw Hn. unfold dilithium_encode_w1_88, dilithium_encode_w1_88_c, DILITHIUM_N in *.
  assert (exists k m, (n = k * 96 + m /\ k < 16 /\ m < 96)%nat) as (k & m & -> & Hk & Hm).
  { exists (n / 96)%nat, (n mod 96)%nat. split; [|split].
    - pose proof (Nat.div_mod n 96). lia.
    - apply Nat.Div0.div_lt_upper_bound. lia.
    - apply Nat.mod_upper_bound. lia. }
  transitivity (stream_bit 8 (encode_w1_words (fun i => nth (k * 16 + i) w1 0)) m).
  - unfold stream_bit. replace (k * 96 + m)%nat with (m + k * 12 * 8)%nat by lia.
    rewrite Nat.Div0.mod_add, Nat.div_add by lia. rewrite Nat.add_comm, (nth_emit 12);
      [done|done|done|]. apply Nat.Div0.div_lt_upper_bound. lia.
  - rewrite encode_w1_words_bit; [|intros i Hi|done].
    + unfold stream_bit. replace (k * 96 + m)%nat with (m + k * 16 * 6)%nat by lia.
      rewrite Nat.Div0.mod_add, Nat.div_add by lia. do 2 f_equal. lia.
    + rewrite Forall_forall in Hw. apply Hw, list_elem_of_In, nth_In. lia.
Qed.

Lemma encode_w1_bytes w1 : Forall is_u8 (dilithium_encode_w1_88 w1).
Proof.
  unfold dilithium_encode_w1_88, dilithium_encode_w1_88_c, emit.
  apply Forall_concat, Forall_fmap, Forall_forall. intros k _. simpl.
  repeat constructor; apply wrap_range; lia.
Qed.

(** The high bits are encoded as w1Encode of FIPS 204 says: bit [n] of the
    192 bytes is bit [n mod 6] of value [n / 6]. *)
Theorem encode_w1_is_w1Encode w1 : length w1 = DILITHIUM_N -> Forall (fun x => 0 <= x < 64) w1 ->
  length (dilithium_encode_w1_88 w1) = 192%nat /\ Forall is_u8 (dilithium_encode_w1_88 w1) /\
  forall n, (n < 1536)%nat -> stream_bit 8 (dilithium_encode_w1_88 w1) n = stream_bit 6 w1 n.
Proof.
  intros Hl Hw. split; [apply encode_w1_length|]. split; [apply encode_w1_bytes|].
  intros n Hn. by apply encode_w1_bit.
Qed.

Lemma encode_w1_is_w1Encode_witness :
  let w1 := 43 :: repeat 1 255 in
  take 3 (dilithium_encode_w1_88 w1) = [107; 16; 4] /\
  stream_bit 8 (dilithium_encode_w1_88 w1) 6 = true.
Proof.
  intros w1. split; [reflexivity|].
  destruct (encode_w1_is_w1Encode w1) as (_ & _ & H); [reflexivity| |].
  - apply Forall_forall. intros x Hx%list_elem_of_In. simpl in Hx.
    repeat (destruct Hx as [<-|Hx]; [lia|]). done.
  - rewrite H by lia. reflexivity.
Defined.

(** ** The range check *)

Lemma check_low_spec a hi : length a = DILITHIUM_N -> - 2 ^ 31 < hi < 2 ^ 31 ->
  dilithium_check_low a hi = if forallb (fun x => Z.abs x <? hi) a then 1 else 0.
Proof.
  intros Hl Hh. unfold dilithium_check_low. rewrite take_ge by (unfold DILITHIUM_N in *; lia).
  rewrite (sext_small 32) by lia.
  assert (forallb (fun x => negb ((x <=? - hi) || (hi <=? x))) a = forallb (fun x => Z.abs x <? hi) a) as ->;
    [|done].
  apply Bool.eq_true_iff_eq. rewrite !forallb_forall.
  split; intros H x Hx; specialize (H x Hx); lia.
Qed.

Lemma vec_check_low_spec vs hi : Forall (fun v => length v = DILITHIUM_N) vs -> - 2 ^ 31 < hi < 2 ^ 31 ->
  dilithium_vec_check_low (concat vs) (length vs) hi =
  if forallb (forallb (fun x => Z.abs x <? hi)) vs then 1 else 0.
Proof.
  intros Hl Hh. unfold dilithium_vec_check_low, dilithium_vec_check_low_c.
  induction Hl as [|v vs Hv Hl IH]; [done|]. cbn [length concat vec_check_low_loop forallb].
  assert (dilithium_check_low (v ++ concat vs) hi = dilithium_check_low v hi) as ->.
  { unfold dilithium_check_low. by rewrite take_app_length', take_ge by lia. }
  rewrite check_low_spec by done. destruct (forallb (fun x => Z.abs x <? hi) v); [|done].
  simpl. by rewrite drop_app_length' by done.
Qed.
