(* ===== verification/MldsaNtt.v ===== *)
(** * The number-theoretic transform of ML-DSA (src/boot/wolfcrypt/src/dilithium.c)

    [dilithium_ntt_c], [dilithium_ntt_small_c] and [dilithium_invntt_c] in the
    variant for 32-bit processors (two layers at a time), written once over the
    operations they perform on a coefficient and run on five kinds of
    coefficients: the 32-bit integers of the code, the same with signed overflow
    detected, bounds, integers modulo q and linear forms.  Bounds show that the
    forward transform does not overflow, linear forms give its matrix, and the
    inverse undoes it whenever it does not overflow. *)

From S2P Require Import Prelude.
From S2P Require Import MlkemNtt.
From S2P Require Import MlkemRing.
From S2P Require Import MldsaHint.
From Stdlib Require Import Zdiv Setoid Morphisms.

Definition DILITHIUM_QINV : Z := 58728449.

(** [dilithium_mont_red(a)], [a] a 64-bit value. *)
Definition dilithium_mont_red (a : Z) : Z :=
  let t := s32 (s32 a * DILITHIUM_QINV) in
  s32 (Z.shiftr (a - t * DILITHIUM_Q) 32).

Definition dilithium_red (a : Z) : Z :=
  let t := Z.shiftr (s32 (a + Z.shiftl 1 22)) 23 in
  s32 (a - s32 (t * DILITHIUM_Q)).

(** [zetas] and [zetas_inv] of dilithium.c; MlkemNtt has those of ML-KEM. *)
Definition dsa_zetas : list Z :=
  [(-41978); 25847; (-2608894); (-518909); 237124; (-777960); (-876248); 466468; 1826347; 2353451;
   (-359251); (-2091905); 3119733; (-2884855); 3111497; 2680103; 2725464; 1024112; (-1079900); 3585928;
   (-549488); (-1119584); 2619752; (-2108549); (-2118186); (-3859737); (-1399561); (-3277672); 1757237; (-19422);
   4010497; 280005; 2706023; 95776; 3077325; 3530437; (-1661693); (-3592148); (-2537516); 3915439;
   (-3861115); (-3043716); 3574422; (-2867647); 3539968; (-300467); 2348700; (-539299); (-1699267); (-1643818);
   3505694; (-3821735); 3507263; (-2140649); (-1600420); 3699596; 811944; 531354; 954230; 3881043;
   3900724; (-2556880); 2071892; (-2797779); (-3930395); (-1528703); (-3677745); (-3041255); (-1452451); 3475950;
   2176455; (-1585221); (-1257611); 1939314; (-4083598); (-1000202); (-3190144); (-3157330); (-3632928); 126922;
   3412210; (-983419); 2147896; 2715295; (-2967645); (-3693493); (-411027); (-2477047); (-671102); (-1228525);
   (-22981); (-1308169); (-381987); 1349076; 1852771; (-1430430); (-3343383); 264944; 508951; 3097992;
   44288; (-1100098); 904516; 3958618; (-3724342); (-8578); 1653064; (-3249728); 2389356; (-210977);
   759969; (-1316856); 189548; (-3553272); 3159746; (-1851402); (-2409325); (-177440); 1315589; 1341330;
   1285669; (-1584928); (-812732); (-1439742); (-3019102); (-3881060); (-3628969); 3839961; 2091667; 3407706;
   2316500; 3817976; (-3342478); 2244091; (-2446433); (-3562462); 266997; 2434439; (-1235728); 3513181;
   (-3520352); (-3759364); (-1197226); (-3193378); 900702; 1859098; 909542; 819034; 495491; (-1613174);
   (-43260); (-522500); (-655327); (-3122442); 2031748; 3207046; (-3556995); (-525098); (-768622); (-3595838);
   342297; 286988; (-2437823); 4108315; 3437287; (-3342277); 1735879; 203044; 2842341; 2691481;
   (-2590150); 1265009; 4055324; 1247620; 2486353; 1595974; (-3767016); 1250494; 2635921; (-3548272);
   (-2994039); 1869119; 1903435; (-1050970); (-1333058); 1237275; (-3318210); (-1430225); (-451100); 1312455;
   3306115; (-1962642); (-1279661); 1917081; (-2546312); (-1374803); 1500165; 777191; 2235880; 3406031;
   (-542412); (-2831860); (-1671176); (-1846953); (-2584293); (-3724270); 594136; (-3776993); (-2013608); 2432395;
   2454455; (-164721); 1957272; 3369112; 185531; (-1207385); (-3183426); 162844; 1616392; 3014001;
   810149; 1652634; (-3694233); (-1799107); (-3038916); 3523897; 3866901; 269760; 2213111; (-975884);
   1717735; 472078; (-426683); 1723600; (-1803090); 1910376; (-1667432); (-1104333); (-260646); (-3833893);
   (-2939036); (-2235985); (-420899); (-2286327); 183443; (-976891); 1612842; (-3545687); (-554416); 3919660;
   (-48306); (-1362209); 3937738; 1400424; (-846154); 1976782].

Definition dsa_zetas_inv : list Z :=
  [(-1976782); 846154; (-1400424); (-3937738); 1362209; 48306; (-3919660); 554416; 3545687; (-1612842);
   976891; (-183443); 2286327; 420899; 2235985; 2939036; 3833893; 260646; 1104333; 1667432;
   (-1910376); 1803090; (-1723600); 426683; (-472078); (-1717735); 975884; (-2213111); (-269760); (-3866901);
   (-3523897); 3038916; 1799107; 3694233; (-1652634); (-810149); (-3014001); (-1616392); (-162844); 3183426;
   1207385; (-185531); (-3369112); (-1957272); 164721; (-2454455); (-2432395); 2013608; 3776993; (-594136);
   3724270; 2584293; 1846953; 1671176; 2831860; 542412; (-3406031); (-2235880); (-777191); (-1500165);
   1374803; 2546312; (-1917081); 1279661; 1962642; (-3306115); (-1312455); 451100; 1430225; 3318210;
   (-1237275); 1333058; 1050970; (-1903435); (-1869119); 2994039; 3548272; (-2635921); (-1250494); 3767016;
   (-1595974); (-2486353); (-1247620); (-4055324); (-1265009); 2590150; (-2691481); (-2842341); (-203044); (-1735879);
   3342277; (-3437287); (-4108315); 2437823; (-286988); (-342297); 3595838; 768622; 525098; 3556995;
   (-3207046); (-2031748); 3122442; 655327; 522500; 43260; 1613174; (-495491); (-819034); (-909542);
   (-1859098); (-900702); 3193378; 1197226; 3759364; 3520352; (-3513181); 1235728; (-2434439); (-266997);
   3562462; 2446433; (-2244091); 3342478; (-3817976); (-2316500); (-3407706); (-2091667); (-3839961); 3628969;
   3881060; 3019102; 1439742; 812732; 1584928; (-1285669); (-1341330); (-1315589); 177440; 2409325;
   1851402; (-3159746); 3553272; (-189548); 1316856; (-759969); 210977; (-2389356); 3249728; (-1653064);
   8578; 3724342; (-3958618); (-904516); 1100098; (-44288); (-3097992); (-508951); (-264944); 3343383;
   1430430; (-1852771); (-1349076); 381987; 1308169; 22981; 1228525; 671102; 2477047; 411027;
   3693493; 2967645; (-2715295); (-2147896); 983419; (-3412210); (-126922); 3632928; 3157330; 3190144;
   1000202; 4083598; (-1939314); 1257611; 1585221; (-2176455); (-3475950); 1452451; 3041255; 3677745;
   1528703; 3930395; 2797779; (-2071892); 2556880; (-3900724); (-3881043); (-954230); (-531354); (-811944);
   (-3699596); 1600420; 2140649; (-3507263); 3821735; (-3505694); 1643818; 1699267; 539299; (-2348700);
   300467; (-3539968); 2867647; (-3574422); 3043716; 3861115; (-3915439); 2537516; 3592148; 1661693;
   (-3530437); (-3077325); (-95776); (-2706023); (-280005); (-4010497); 19422; (-1757237); 3277672; 1399561;
   3859737; 2118186; 2108549; (-2619752); 1119584; 549488; (-3585928); 1079900; (-1024112); (-2725464);
   (-2680103); (-3111497); 2884855; (-3119733); 2091905; 359251; (-2353451); (-1826347); (-466468); 876248;
   777960; (-237124); 518909; 2608894; (-25847); 41978].

Definition DILITHIUM_NTT_ZETA_1 : Z := -3572223.

(** ** The operations on a coefficient *)

Class Coeff32 (T : Type) : Type := {
  add32 : T -> T -> T;
  sub32 : T -> T -> T;
  mont32 : Z -> T -> T;
  red1 : T -> T }.

(** [sword32] coefficients: the product with a table entry is 64 bits wide and
    Montgomery reduced; [red1] multiplies with [DILITHIUM_NTT_ZETA_1] in 32 bits. *)
#[export] Instance c_coeff32 : Coeff32 Z := {|
  add32 := fun a b => s32 (a + b);
  sub32 := fun a b => s32 (a - b);
  mont32 := fun zeta a => dilithium_mont_red (zeta * a);
  red1 := fun a => dilithium_red (s32 (DILITHIUM_NTT_ZETA_1 * a)) |}.

Section Code.
Context {T : Type} `{!Inhabited T, !Coeff32 T}.
Local Open Scope nat_scope.

(** Four coefficients through two layers: the body common to the loops. *)
Definition ntt_quad (zeta zeta_0 zeta_1 : Z) (i0 i2 i4 i6 : nat) (r : list T) : list T :=
  let r0 := r !!! i0 in
  let r2 := r !!! i2 in
  let r4 := r !!! i4 in
  let r6 := r !!! i6 in
  let t0 := mont32 zeta r4 in
  let t2 := mont32 zeta r6 in
  let r4 := sub32 r0 t0 in
  let r6 := sub32 r2 t2 in
  let r0 := add32 r0 t0 in
  let r2 := add32 r2 t2 in
  let t0 := mont32 zeta_0 r2 in
  let t2 := mont32 zeta_1 r6 in
  let r2 := sub32 r0 t0 in
  let r6 := sub32 r4 t2 in
  let r0 := add32 r0 t0 in
  let r4 := add32 r4 t2 in
  let r := <[i0 := r0]> r in
  let r := <[i2 := r2]> r in
  let r := <[i4 := r4]> r in
  let r := <[i6 := r6]> r in
  r.

(** Body of the first loop of [dilithium_ntt_small_c]. *)
Definition ntt_small_quad (zeta_0 zeta_1 : Z) (i0 i2 i4 i6 : nat) (r : list T) : list T :=
  let r0 := r !!! i0 in
  let r2 := r !!! i2 in
  let r4 := r !!! i4 in
  let r6 := r !!! i6 in
  let t0 := red1 r4 in
  let t2 := red1 r6 in
  let r4 := sub32 r0 t0 in
  let r6 := sub32 r2 t2 in
  let r0 := add32 r0 t0 in
  let r2 := add32 r2 t2 in
  let t0 := mont32 zeta_0 r2 in
  let t2 := mont32 zeta_1 r6 in
  let r2 := sub32 r0 t0 in
  let r6 := sub32 r4 t2 in
  let r0 := add32 r0 t0 in
  let r4 := add32 r4 t2 in
  let r := <[i0 := r0]> r in
  let r := <[i2 := r2]> r in
  let r := <[i4 := r4]> r in
  let r := <[i6 := r6]> r in
  r.

(** The body of the loops of the inverse. *)
Definition invntt_quad (zeta_0 zeta_1 zeta : Z) (i0 i2 i4 i6 : nat) (r : list T) : list T :=
  let r0 := r !!! i0 in
  let r2 := r !!! i2 in
  let r4 := r !!! i4 in
  let r6 := r !!! i6 in
  let t0 := mont32 zeta_0 (sub32 r0 r2) in
  let t2 := mont32 zeta_1 (sub32 r4 r6) in
  let r0 := add32 r0 r2 in
  let r4 := add32 r4 r6 in
  let r2 := t0 in
  let r6 := t2 in
  let t0 := mont32 zeta (sub32 r0 r4) in
  let t2 := mont32 zeta (sub32 r2 r6) in
  let r0 := add32 r0 r4 in
  let r2 := add32 r2 r6 in
  let r4 := t0 in
  let r6 := t2 in
  let r := <[i0 := r0]> r in
  let r := <[i2 := r2]> r in
  let r := <[i4 := r4]> r in
  let r := <[i6 := r6]> r in
  r.

(** The body of the last loop of the inverse, with the final scaling. *)
Definition invntt_last_quad (zeta_0 zeta_1 zeta zeta256 : Z) (i0 i2 i4 i6 : nat) (r : list T) : list T :=
  let r0 := r !!! i0 in
  let r2 := r !!! i2 in
  let r4 := r !!! i4 in
  let r6 := r !!! i6 in
  let t0 := mont32 zeta_0 (sub32 r0 r2) in
  let t2 := mont32 zeta_1 (sub32 r4 r6) in
  let r0 := add32 r0 r2 in
  let r4 := add32 r4 r6 in
  let r2 := t0 in
  let r6 := t2 in
  let t0 := mont32 zeta (sub32 r0 r4) in
  let t2 := mont32 zeta (sub32 r2 r6) in
  let r0 := add32 r0 r4 in
  let r2 := add32 r2 r6 in
  let r4 := t0 in
  let r6 := t2 in
  let r0 := mont32 zeta256 r0 in
  let r2 := mont32 zeta256 r2 in
  let r4 := mont32 zeta256 r4 in
  let r6 := mont32 zeta256 r6 in
  let r := <[i0 := r0]> r in
  let r := <[i2 := r2]> r in
  let r := <[i4 := r4]> r in
  let r := <[i6 := r6]> r in
  r.

Definition dsa_ntt_128_64 (j : nat) (r : list T) : list T :=
  ntt_quad (dsa_zetas !!! 1) (dsa_zetas !!! 2) (dsa_zetas !!! 3) j (j + 64) (j + 128) (j + 192) r.

Definition ntt_small_128_64 (j : nat) (r : list T) : list T :=
  ntt_small_quad (dsa_zetas !!! 2) (dsa_zetas !!! 3) j (j + 64) (j + 128) (j + 192) r.

Definition ntt_32_16 (j i : nat) (r : list T) : list T :=
  ntt_quad (dsa_zetas !!! (4 + j / 64 + 0)) (dsa_zetas !!! (8 + j / 32 + 0)) (dsa_zetas !!! (8 + j / 32 + 1))
    (j + i) (j + i + 16) (j + i + 32) (j + i + 48) r.

Definition ntt_8_4 (j i : nat) (r : list T) : list T :=
  ntt_quad (dsa_zetas !!! (16 + j / 16)) (dsa_zetas !!! (32 + j / 8 + 0)) (dsa_zetas !!! (32 + j / 8 + 1))
    (j + i) (j + i + 4) (j + i + 8) (j + i + 12) r.

(** The last loop counts the table index [k] besides [j]. *)
Definition ntt_2_1 (j : nat) (kr : nat * list T) : nat * list T :=
  let '(k, r) := kr in
  (S (S k), ntt_quad (dsa_zetas !!! (64 + j / 4)) (dsa_zetas !!! k) (dsa_zetas !!! (S k))
    j (j + 1) (j + 2) (j + 3) r).

(** The loops. *)
Definition ntt_loop_1 (r : list T) : list T := for_by 1 (DILITHIUM_N / 4) dsa_ntt_128_64 r.
Definition ntt_small_loop_1 (r : list T) : list T := for_by 1 (DILITHIUM_N / 4) ntt_small_128_64 r.
Definition ntt_loop_2 (r : list T) : list T :=
  for_by 64 DILITHIUM_N (fun j r => for_by 1 16 (ntt_32_16 j) r) r.
Definition ntt_loop_3 (r : list T) : list T :=
  for_by 16 DILITHIUM_N (fun j r => for_by 1 4 (ntt_8_4 j) r) r.
Definition ntt_loop_4 (r : list T) : list T := snd (for_by 4 DILITHIUM_N ntt_2_1 (128, r)).

Definition dsa_ntt (r : list T) : list T := ntt_loop_4 (ntt_loop_3 (ntt_loop_2 (ntt_loop_1 r))).

Definition ntt_small (r : list T) : list T :=
  ntt_loop_4 (ntt_loop_3 (ntt_loop_2 (ntt_small_loop_1 r))).

Definition invntt_1_2 (j : nat) (kr : nat * list T) : nat * list T :=
  let '(k, r) := kr in
  (S (S k), invntt_quad (dsa_zetas_inv !!! k) (dsa_zetas_inv !!! (S k)) (dsa_zetas_inv !!! (128 + j / 4))
    j (j + 1) (j + 2) (j + 3) r).

Definition invntt_4_8 (j i : nat) (r : list T) : list T :=
  invntt_quad (dsa_zetas_inv !!! (192 + j / 8 + 0)) (dsa_zetas_inv !!! (192 + j / 8 + 1))
    (dsa_zetas_inv !!! (224 + j / 16 + 0)) (j + i) (j + i + 4) (j + i + 8) (j + i + 12) r.

Definition invntt_16_32 (j i : nat) (r : list T) : list T :=
  invntt_quad (dsa_zetas_inv !!! (240 + j / 32 + 0)) (dsa_zetas_inv !!! (240 + j / 32 + 1))
    (dsa_zetas_inv !!! (248 + j / 64 + 0)) (j + i) (j + i + 16) (j + i + 32) (j + i + 48) r.

Definition dsa_invntt_64_128 (j : nat) (r : list T) : list T :=
  invntt_last_quad (dsa_zetas_inv !!! 252) (dsa_zetas_inv !!! 253) (dsa_zetas_inv !!! 254) (dsa_zetas_inv !!! 255)
    j (j + 64) (j + 128) (j + 192) r.

Definition invntt_loop_1 (r : list T) : list T := snd (for_by 4 DILITHIUM_N invntt_1_2 (0, r)).
Definition invntt_loop_2 (r : list T) : list T :=
  for_by 16 DILITHIUM_N (fun j r => for_by 1 4 (invntt_4_8 j) r) r.
Definition invntt_loop_3 (r : list T) : list T :=
  for_by 64 DILITHIUM_N (fun j r => for_by 1 16 (invntt_16_32 j) r) r.
Definition invntt_loop_4 (r : list T) : list T := for_by 1 (DILITHIUM_N / 4) dsa_invntt_64_128 r.

Definition dsa_invntt (r : list T) : list T :=
  invntt_loop_4 (invntt_loop_3 (invntt_loop_2 (invntt_loop_1 r))).

End Code.

Definition dilithium_ntt_c : list Z -> list Z := dsa_ntt (T := Z).
Definition dilithium_ntt_full : list Z -> list Z := dilithium_ntt_c.
Definition dilithium_ntt_small_c : list Z -> list Z := ntt_small (T := Z).
Definition dilithium_ntt_small_full : list Z -> list Z := dilithium_ntt_small_c.
Definition dilithium_invntt_c : list Z -> list Z := dsa_invntt (T := Z).
Definition dilithium_invntt_full : list Z -> list Z := dilithium_invntt_c.

(** ** Two instances of the code are related when their operations are *)

Definition factor (z : Z) : Prop := Z.abs z <= 4190208.

Lemma dsa_zetas_factor i : factor (dsa_zetas !!! i).
Proof.
  rewrite list_lookup_total_alt. destruct (dsa_zetas !! i) as [z|] eqn:E; [|done].
  revert i z E. apply (Forall_lookup factor). apply (bool_decide_eq_true_1 _). vm_compute. done.
Qed.

Lemma dsa_zetas_inv_factor i : factor (dsa_zetas_inv !!! i).
Proof.
  rewrite list_lookup_total_alt. destruct (dsa_zetas_inv !! i) as [z|] eqn:E; [|done].
  revert i z E. apply (Forall_lookup factor). apply (bool_decide_eq_true_1 _). vm_compute. done.
Qed.

Section Relate.
Context {A B : Type} `{!Inhabited A, !Coeff32 A, !Inhabited B, !Coeff32 B}.
Variable R : A -> B -> Prop.
Hypothesis R_default : R inhabitant inhabitant.
Hypothesis R_add32 : forall a a' b b', R a b -> R a' b' -> R (add32 a a') (add32 b b').
Hypothesis R_sub32 : forall a a' b b', R a b -> R a' b' -> R (sub32 a a') (sub32 b b').
Hypothesis R_mont32 : forall z a b, factor z -> R a b -> R (mont32 z a) (mont32 z b).
Hypothesis R_red1 : forall a b, R a b -> R (red1 a) (red1 b).

Lemma lookup_rel32 i r r' : Forall2 R r r' -> R (r !!! i) (r' !!! i).
Proof. apply lookup_rel, R_default. Qed.

Lemma for_by_snd_rel step bound (f : nat -> nat * list A -> nat * list A)
    (f' : nat -> nat * list B -> nat * list B) k r r' :
  (forall j k r r', Forall2 R r r' ->
    fst (f j (k, r)) = fst (f' j (k, r')) /\ Forall2 R (snd (f j (k, r))) (snd (f' j (k, r')))) ->
  Forall2 R r r' -> Forall2 R (snd (for_by step bound f (k, r))) (snd (for_by step bound f' (k, r'))).
Proof.
  intros Hf. unfold for_by. generalize (seq 0 (bound / step)). intros l.
  revert k r r'. induction l as [|x l IH]; intros k r r' H; cbn; [done|].
  destruct (Hf (x * step)%nat k r r' H) as [H1 H2].
  destruct (f _ (k, r)) as [k1 r1], (f' _ (k, r')) as [k2 r2]. cbn in H1, H2. subst k2. by apply IH.
Qed.

Create HintDb rel.
#[local] Hint Resolve R_add32 R_sub32 R_mont32 R_red1 lookup_rel32 Forall2_insert
  dsa_zetas_factor dsa_zetas_inv_factor : rel.

Ltac relate_lets :=
  repeat lazymatch goal with
  | |- ?P (let x : list _ := ?e in @?f x) (let y : list _ := ?e' in @?f' y) =>
      refine (let_rel (Forall2 R) P e e' f f' _ _); [solve [eauto with rel]|intros ? ? ?]
  | |- ?P (let x := ?e in @?f x) (let y := ?e' in @?f' y) =>
      refine (let_rel R P e e' f f' _ _); [solve [eauto with rel]|intros ? ? ?]
  end; cbv beta; try assumption.

Lemma ntt_quad_rel z z0 z1 i0 i2 i4 i6 r r' : factor z -> factor z0 -> factor z1 ->
  Forall2 R r r' -> Forall2 R (ntt_quad z z0 z1 i0 i2 i4 i6 r) (ntt_quad z z0 z1 i0 i2 i4 i6 r').
Proof. intros Hz Hz0 Hz1 H. cbv delta [ntt_quad] beta. relate_lets. Qed.

Lemma ntt_small_quad_rel z0 z1 i0 i2 i4 i6 r r' : factor z0 -> factor z1 ->
  Forall2 R r r' -> Forall2 R (ntt_small_quad z0 z1 i0 i2 i4 i6 r) (ntt_small_quad z0 z1 i0 i2 i4 i6 r').
Proof. intros Hz0 Hz1 H. cbv delta [ntt_small_quad] beta. relate_lets. Qed.

Lemma invntt_quad_rel z0 z1 z i0 i2 i4 i6 r r' : factor z0 -> factor z1 -> factor z ->
  Forall2 R r r' -> Forall2 R (invntt_quad z0 z1 z i0 i2 i4 i6 r) (invntt_quad z0 z1 z i0 i2 i4 i6 r').
Proof. intros Hz0 Hz1 Hz H. cbv delta [invntt_quad] beta. relate_lets. Qed.

Lemma invntt_last_quad_rel z0 z1 z z' i0 i2 i4 i6 r r' :
  factor z0 -> factor z1 -> factor z -> factor z' -> Forall2 R r r' ->
  Forall2 R (invntt_last_quad z0 z1 z z' i0 i2 i4 i6 r) (invntt_last_quad z0 z1 z z' i0 i2 i4 i6 r').
Proof. intros Hz0 Hz1 Hz Hz' H. cbv delta [invntt_last_quad] beta. relate_lets. Qed.

#[local] Hint Resolve ntt_quad_rel ntt_small_quad_rel invntt_quad_rel invntt_last_quad_rel
  for_by_rel : rel.

Lemma ntt_loop_1_rel r r' : Forall2 R r r' -> Forall2 R (ntt_loop_1 r) (ntt_loop_1 r').
Proof. unfold ntt_loop_1, dsa_ntt_128_64. auto 10 with rel. Qed.

Lemma ntt_small_loop_1_rel r r' : Forall2 R r r' -> Forall2 R (ntt_small_loop_1 r) (ntt_small_loop_1 r').
Proof. unfold ntt_small_loop_1, ntt_small_128_64. auto 10 with rel. Qed.

Lemma ntt_loop_2_rel r r' : Forall2 R r r' -> Forall2 R (ntt_loop_2 r) (ntt_loop_2 r').
Proof. unfold ntt_loop_2, ntt_32_16. auto 12 with rel. Qed.

Lemma ntt_loop_3_rel r r' : Forall2 R r r' -> Forall2 R (ntt_loop_3 r) (ntt_loop_3 r').
Proof. unfold ntt_loop_3, ntt_8_4. auto 12 with rel. Qed.

Lemma ntt_loop_4_rel r r' : Forall2 R r r' -> Forall2 R (ntt_loop_4 r) (ntt_loop_4 r').
Proof. apply for_by_snd_rel. intros j k s s' Hs. cbn [ntt_2_1 fst snd]. auto with rel. Qed.

Lemma invntt_loop_1_rel r r' : Forall2 R r r' -> Forall2 R (invntt_loop_1 r) (invntt_loop_1 r').
Proof. apply for_by_snd_rel. intros j k s s' Hs. cbn [invntt_1_2 fst snd]. auto with rel. Qed.

Lemma invntt_loop_2_rel r r' : Forall2 R r r' -> Forall2 R (invntt_loop_2 r) (invntt_loop_2 r').
Proof. unfold invntt_loop_2, invntt_4_8. auto 12 with rel. Qed.

Lemma invntt_loop_3_rel r r' : Forall2 R r r' -> Forall2 R (invntt_loop_3 r) (invntt_loop_3 r').
Proof. unfold invntt_loop_3, invntt_16_32. auto 12 with rel. Qed.

Lemma invntt_loop_4_rel r r' : Forall2 R r r' -> Forall2 R (invntt_loop_4 r) (invntt_loop_4 r').
Proof. unfold invntt_loop_4, dsa_invntt_64_128. auto 12 with rel. Qed.

#[local] Hint Resolve ntt_loop_1_rel ntt_small_loop_1_rel ntt_loop_2_rel ntt_loop_3_rel ntt_loop_4_rel
  invntt_loop_1_rel invntt_loop_2_rel invntt_loop_3_rel invntt_loop_4_rel : rel.

Lemma dsa_ntt_rel r r' : Forall2 R r r' -> Forall2 R (dsa_ntt r) (dsa_ntt r').
Proof. unfold dsa_ntt. auto with rel. Qed.

Lemma ntt_small_rel r r' : Forall2 R r r' -> Forall2 R (ntt_small r) (ntt_small r').
Proof. unfold ntt_small. auto with rel. Qed.

Lemma dsa_invntt_rel r r' : Forall2 R r r' -> Forall2 R (dsa_invntt r) (dsa_invntt r').
Proof. unfold dsa_invntt. auto with rel. Qed.

End Relate.

(** ** Congruence modulo q *)

Definition eqd : Z -> Z -> Prop := eqm DILITHIUM_Q.

Infix "=q" := eqd (at level 70, no associativity) : Z_scope.

#[export] Instance eqd_equiv : Equivalence eqd := eqm_setoid DILITHIUM_Q.
#[export] Instance eqd_add : Proper (eqd ==> eqd ==> eqd) Z.add := Zplus_eqm DILITHIUM_Q.
#[export] Instance eqd_sub : Proper (eqd ==> eqd ==> eqd) Z.sub := Zminus_eqm DILITHIUM_Q.
#[export] Instance eqd_mul : Proper (eqd ==> eqd ==> eqd) Z.mul := Zmult_eqm DILITHIUM_Q.
#[export] Instance eqd_opp : Proper (eqd ==> eqd) Z.opp := Zopp_eqm DILITHIUM_Q.

#[export] Instance eqd_pow : Proper (eqd ==> eq ==> eqd) Z.pow.
Proof.
  intros x y H n ? <-. destruct (Z.le_gt_cases 0 n) as [Hn|Hn]; [|by rewrite !Z.pow_neg_r].
  revert n Hn. apply natlike_ind; [done|]. intros n Hn IH. by rewrite !Z.pow_succ_r, IH, H.
Qed.

Lemma eqd_mod x : x mod DILITHIUM_Q =q x.
Proof. apply Zmod_mod. Qed.

Lemma eqd_diff x y k : x - y = k * DILITHIUM_Q -> x =q y.
Proof.
  intros H. replace x with (y + k * DILITHIUM_Q) by lia. unfold eqd, eqm. apply Z_mod_plus_full.
Qed.

Lemma eqd_cancel c c' x y : c' * c =q 1 -> c * x =q c * y -> x =q y.
Proof.
  intros Hc H. rewrite <- (Z.mul_1_l x), <- (Z.mul_1_l y), <- Hc.
  rewrite <- !Z.mul_assoc, H. done.
Qed.

(** 2^32 modulo q and its inverse: the Montgomery factor. *)
Definition DSA_R : Z := 2 ^ 32 mod DILITHIUM_Q.
Definition DSA_RINV : Z := 8265825.

Lemma dsa_r_inv : DSA_RINV * DSA_R =q 1.
Proof. reflexivity. Qed.

(** ** The reductions *)

Section MontRed32.
Variable a : Z.
Definition mont_factor : Z := s32 (s32 a * DILITHIUM_QINV).

Lemma dsa_factor_range : - 2 ^ 31 <= mont_factor < 2 ^ 31.
Proof. apply (sext_range 32). lia. Qed.

Lemma dsa_mont_exact : (a - mont_factor * DILITHIUM_Q) mod 2 ^ 32 = 0.
Proof.
  change (wrap 32 (a - mont_factor * DILITHIUM_Q) = 0).
  assert (u32 mont_factor = u32 (a * DILITHIUM_QINV)) as Hf.
  { unfold mont_factor. by rewrite wrap_sext, <- (wrap_mul_l 32 (s32 a)), wrap_sext, wrap_mul_l by lia. }
  rewrite <- (wrap_sub_r 32 a), <- (wrap_mul_l 32 mont_factor), Hf, wrap_mul_l, wrap_sub_r.
  rewrite <- Z.mul_assoc.
  change (DILITHIUM_QINV * DILITHIUM_Q) with (1 + 114592 * 2 ^ 32).
  unfold wrap. replace (a - a * (1 + 114592 * 2 ^ 32)) with ((a * - 114592) * 2 ^ 32) by lia.
  apply Z_mod_mult.
Qed.

Lemma mont_red_eq : Z.abs a <= 2 ^ 62 ->
  dilithium_mont_red a = (a - mont_factor * DILITHIUM_Q) / 2 ^ 32.
Proof.
  intros Ha. unfold dilithium_mont_red. fold mont_factor. cbv zeta.
  pose proof dsa_factor_range. rewrite Z.shiftr_div_pow2 by lia.
  apply sext_small; [lia|]. unfold DILITHIUM_Q.
  split; [apply Z.div_le_lower_bound|apply Z.div_lt_upper_bound]; lia.
Qed.

Lemma mont_red_cong : Z.abs a <= 2 ^ 62 -> dilithium_mont_red a =q DSA_RINV * a.
Proof.
  intros Ha. rewrite mont_red_eq by done.
  apply (eqd_cancel (2 ^ 32) DSA_RINV); [reflexivity|].
  rewrite <- Z_div_exact_full_2 by (lia || apply dsa_mont_exact).
  rewrite Z.mul_assoc. apply (eqd_diff _ _ (- mont_factor - (2 ^ 32 * DSA_RINV - 1) / DILITHIUM_Q * a)).
  change ((2 ^ 32 * DSA_RINV - 1) / DILITHIUM_Q) with 4236238847.
  change (2 ^ 32 * DSA_RINV) with (1 + 4236238847 * DILITHIUM_Q). lia.
Qed.

Lemma mont_red_bound A : Z.abs a <= A -> A <= 2 ^ 62 ->
  Z.abs (dilithium_mont_red a) <= (A + DILITHIUM_Q * 2 ^ 31) / 2 ^ 32.
Proof.
  intros Ha HA. rewrite mont_red_eq by lia. pose proof dsa_factor_range.
  pose proof (Z_div_exact_full_2 _ (2 ^ 32) ltac:(lia) dsa_mont_exact) as Hx.
  apply Z.div_le_lower_bound; [lia|]. unfold DILITHIUM_Q in *. lia.
Qed.
End MontRed32.

(** [dilithium_red] near zero. *)
Lemma red_cong a : Z.abs a <= 2 ^ 30 ->
  dilithium_red a =q a /\ Z.abs (dilithium_red a) <= Z.abs a / 2 ^ 10 + 2 ^ 22 + 8191.
Proof.
  intros Ha. unfold dilithium_red. change (Z.shiftl 1 22) with (2 ^ 22). cbv zeta.
  rewrite (sext_small 32 (a + _)), Z.shiftr_div_pow2 by lia.
  pose proof (Z.div_mod (a + 2 ^ 22) (2 ^ 23) ltac:(lia)) as Hd.
  pose proof (Z.mod_pos_bound (a + 2 ^ 22) (2 ^ 23) ltac:(lia)) as Hm.
  set (t := (a + 2 ^ 22) / 2 ^ 23) in *.
  assert (- 129 <= t <= 129) by lia.
  rewrite (sext_small 32 (t * _)) by (unfold DILITHIUM_Q; lia).
  rewrite sext_small by (unfold DILITHIUM_Q; lia).
  split; [apply (eqd_diff _ _ (- t)); lia|].
  assert (Z.abs (a - t * DILITHIUM_Q) <= 8191 * Z.abs t + 2 ^ 22) by (unfold DILITHIUM_Q; lia).
  assert (8191 * Z.abs t <= Z.abs a / 2 ^ 10 + 8191); [|lia].
  assert (Z.abs t * 2 ^ 23 <= Z.abs a + 2 ^ 23) by lia.
  pose proof (Z.div_mod (Z.abs a) (2 ^ 10) ltac:(lia)).
  pose proof (Z.mod_pos_bound (Z.abs a) (2 ^ 10) ltac:(lia)). lia.
Qed.

(** ** Integers with overflow detected *)

Definition fits32 (x : Z) : option Z := if (- 2 ^ 31 <=? x) && (x <? 2 ^ 31) then Some x else None.

#[export] Instance checked_coeff32 : Coeff32 (option Z) := {|
  add32 := fun a b => match a, b with Some a, Some b => fits32 (a + b) | _, _ => None end;
  sub32 := fun a b => match a, b with Some a, Some b => fits32 (a - b) | _, _ => None end;
  mont32 := fun zeta a => option_map (fun a => dilithium_mont_red (zeta * a)) a;
  red1 := fun a => match a with
    | Some a => if Z.abs (DILITHIUM_NTT_ZETA_1 * a) <=? 2 ^ 30
                then Some (dilithium_red (DILITHIUM_NTT_ZETA_1 * a)) else None
    | None => None end |}.

Lemma fits32_Some x y : fits32 x = Some y -> x = y /\ - 2 ^ 31 <= y < 2 ^ 31.
Proof. unfold fits32. destruct (_ && _) eqn:E; [|done]. injection 1 as <-. lia. Qed.

Lemma fits32_in x : - 2 ^ 31 <= x < 2 ^ 31 -> fits32 x = Some x.
Proof. intros H. unfold fits32. destruct (_ && _) eqn:E; [done|]. lia. Qed.

(** What the code computes when nothing overflows. *)
Definition checks (x : Z) (o : option Z) : Prop := forall y, o = Some y -> x = y.

Lemma checks_add a a' b b' : checks a b -> checks a' b' -> checks (add32 a a') (add32 b b').
Proof.
  intros H H' y. destruct b as [b|], b' as [b'|]; try done. cbn. intros E.
  rewrite (H b), (H' b') by done. apply fits32_Some in E as [-> Hy]. by apply sext_small.
Qed.

Lemma checks_sub a a' b b' : checks a b -> checks a' b' -> checks (sub32 a a') (sub32 b b').
Proof.
  intros H H' y. destruct b as [b|], b' as [b'|]; try done. cbn. intros E.
  rewrite (H b), (H' b') by done. apply fits32_Some in E as [-> Hy]. by apply sext_small.
Qed.

Lemma checks_mont z a b : factor z -> checks a b -> checks (mont32 z a) (mont32 z b).
Proof. intros _ H y. destruct b as [b|]; [|done]. cbn. injection 1 as <-. by rewrite (H b). Qed.

Lemma checks_red a b : checks a b -> checks (red1 a) (red1 b).
Proof.
  intros H y. destruct b as [b|]; [|done]. cbn [red1 checked_coeff32 c_coeff32].
  destruct (Z.leb_spec (Z.abs (DILITHIUM_NTT_ZETA_1 * b)) (2 ^ 30)); [|done]. injection 1 as <-.
  rewrite (H b), sext_small by (done || lia). done.
Qed.

Lemma checks_default : checks inhabitant inhabitant.
Proof. done. Qed.

(** ** Bounds *)

(** Whether the value is sure not to have overflowed, and a bound of it if so. *)
Record bnd := Bnd { known : bool; lim : N }.

#[export] Instance bnd_inhabited : Inhabited bnd := populate (Bnd false 2147483648).

Definition bnd_sum (a b : bnd) : bnd :=
  let s := (lim a + lim b)%N in
  Bnd (known a && known b && (s <=? 2147483647)%N) (N.min s 2147483648).

#[export] Instance bound_coeff32 : Coeff32 bnd := {|
  add32 := bnd_sum;
  sub32 := bnd_sum;
  mont32 := fun zeta a =>
    Bnd (known a) ((Z.abs_N zeta * lim a + 8380417 * 2147483648) / 4294967296)%N;
  red1 := fun a =>
    Bnd (known a && (3572223 * lim a <=? 1073741824)%N) ((3572223 * lim a) / 1024 + 4202495)%N |}.

Definition bounded (o : option Z) (b : bnd) : Prop :=
  (known b = true -> is_Some o) /\ forall x, o = Some x -> Z.abs x <= Z.of_N (lim b) /\ Z.abs x <= 2 ^ 31.

Lemma bounded_sum x x' z b b' : bounded x b -> bounded x' b' ->
  (forall v v', x = Some v -> x' = Some v' -> Z.abs (z v v') <= Z.abs v + Z.abs v') ->
  bounded (match x, x' with Some v, Some v' => fits32 (z v v') | _, _ => None end) (bnd_sum b b').
Proof.
  intros [H1 H2] [H1' H2'] Hz. unfold bnd_sum. split; cbn [known lim].
  - intros [[[v ->]%H1 [v' ->]%H1']%andb_true_iff Hs%N.leb_le]%andb_true_iff.
    specialize (Hz v v' eq_refl eq_refl). pose proof (H2 v eq_refl). pose proof (H2' v' eq_refl).
    rewrite fits32_in by lia. eauto.
  - intros y. destruct x as [v|], x' as [v'|]; try done. intros [<- Hy]%fits32_Some.
    specialize (Hz v v' eq_refl eq_refl). pose proof (H2 v eq_refl). pose proof (H2' v' eq_refl). lia.
Qed.

Lemma bounded_add a a' b b' : bounded a b -> bounded a' b' -> bounded (add32 a a') (add32 b b').
Proof. intros H H'. apply (bounded_sum _ _ Z.add); [done..|]. intros. lia. Qed.

Lemma bounded_sub a a' b b' : bounded a b -> bounded a' b' -> bounded (sub32 a a') (sub32 b b').
Proof. intros H H'. apply (bounded_sum _ _ Z.sub); [done..|]. intros. lia. Qed.

Lemma bounded_mont z a b : factor z -> bounded a b -> bounded (mont32 z a) (mont32 z b).
Proof.
  intros Hz [H1 H2]. unfold factor in Hz. cbn [mont32 checked_coeff32 bound_coeff32].
  split; cbn [known lim].
  - intros [x ->]%H1. eexists. done.
  - intros y. destruct a as [x|]; [|done]. cbn [option_map]. injection 1 as <-.
    destruct (H2 x eq_refl) as [Hx Hx'].
    assert (Z.abs (z * x) <= Z.of_N (Z.abs_N z * lim b)) as Hp by (rewrite Z.abs_mul; nia).
    assert (Z.abs (z * x) <= 2 ^ 54) as Hq by (rewrite Z.abs_mul; nia).
    pose proof (mont_red_bound (z * x) _ ltac:(reflexivity) ltac:(lia)) as H. unfold DILITHIUM_Q in H.
    pose proof (mont_red_bound (z * x) _ Hq ltac:(lia)) as H'. unfold DILITHIUM_Q in H'.
    change ((2 ^ 54 + 8380417 * 2 ^ 31) / 2 ^ 32) with 8384512 in H'.
    rewrite N2Z.inj_div, N2Z.inj_add. split; [|lia]. etransitivity; [exact H|].
    apply Z.div_le_mono; lia.
Qed.

Lemma bounded_red a b : bounded a b -> bounded (red1 a) (red1 b).
Proof.
  intros [H1 H2]. cbn [red1 checked_coeff32 bound_coeff32]. split; cbn [known lim].
  - intros [[x ->]%H1 Hb%N.leb_le]%andb_true_iff. destruct (H2 x eq_refl) as [Hx _].
    destruct (Z.leb_spec (Z.abs (DILITHIUM_NTT_ZETA_1 * x)) (2 ^ 30)); [eauto|].
    rewrite Z.abs_mul in *. unfold DILITHIUM_NTT_ZETA_1 in *. lia.
  - intros y. destruct a as [x|]; [|done]. destruct (H2 x eq_refl) as [Hx _].
    destruct (Z.leb_spec (Z.abs (DILITHIUM_NTT_ZETA_1 * x)) (2 ^ 30)) as [Hp|]; [|done].
    injection 1 as <-. destruct (red_cong _ Hp) as [_ Hr].
    pose proof (Z.div_le_mono _ _ (2 ^ 10) ltac:(lia) Hp) as Hd. change (2 ^ 30 / 2 ^ 10) with (2 ^ 20) in Hd.
    assert (Z.abs (DILITHIUM_NTT_ZETA_1 * x) <= Z.of_N (3572223 * lim b)) as Hm
      by (rewrite Z.abs_mul; unfold DILITHIUM_NTT_ZETA_1; lia).
    pose proof (Z.div_le_mono _ _ (2 ^ 10) ltac:(lia) Hm) as Hd'.
    rewrite N2Z.inj_add, N2Z.inj_div. change (Z.of_N 1024) with (2 ^ 10). lia.
Qed.

Lemma bounded_default : bounded inhabitant inhabitant.
Proof. done. Qed.

(** ** Linear forms *)

(** Sums, differences and multiples of residues. *)
Definition addq (x y : Z) : Z := (x + y) mod DILITHIUM_Q.
Definition subq (x y : Z) : Z := (x - y) mod DILITHIUM_Q.
Definition mulq (c x y : Z) : Z := (x + c * y) mod DILITHIUM_Q.

(** A form: the coefficients of the variables it mentions, by their index. *)
Abbreviation form := (list (N * Z)).

Definition val (v : form) (f : list Z) : Z :=
  fold_right (fun '(i, c) s => c * nth (N.to_nat i) f 0 + s) 0 v.

(** [v + c * w], given that [op x y] is [x + c * y]. *)
Fixpoint merge (op : Z -> Z -> Z) (v : form) : form -> form :=
  match v with
  | [] => map (fun '(j, y) => (j, op 0 y))
  | (i, x) :: v' =>
      fix merge_w (w : form) : form :=
        match w with
        | [] => v
        | (j, y) :: w' =>
            match (i ?= j)%N with
            | Lt => (i, x) :: merge op v' w
            | Eq => (i, op x y) :: merge op v' w'
            | Gt => (j, op 0 y) :: merge_w w'
            end
        end
  end.

Definition form_add : form -> form -> form := merge addq.
Definition form_sub : form -> form -> form := merge subq.
Definition form_scale (c : Z) : form -> form := merge (mulq c) [].

#[export] Instance form_coeff32 : Coeff32 form := {|
  add32 := form_add;
  sub32 := form_sub;
  mont32 := fun zeta v => form_scale (zeta * DSA_RINV mod DILITHIUM_Q) v;
  red1 := form_scale DILITHIUM_NTT_ZETA_1 |}.

Lemma val_merge op c v w f : (forall x y, op x y =q x + c * y) ->
  val (merge op v w) f =q val v f + c * val w f.
Proof.
  intros Hop.
  assert (forall w, val (map (fun '(j, y) => (j, op 0 y)) w) f =q c * val w f) as H0.
  { clear w. induction w as [|[j y] w IH]; cbn; [apply (eqd_diff _ _ 0); lia|].
    unfold val in IH. rewrite IH, Hop. apply (eqd_diff _ _ 0). lia. }
  revert w. induction v as [|[i x] v IHv]; intros w; [cbn [merge]; rewrite H0; done|].
  induction w as [|[j y] w IHw].
  - cbn. apply (eqd_diff _ _ 0). lia.
  - cbn [merge]. destruct (i ?= j)%N eqn:E.
    + apply N.compare_eq in E as ->. cbn. unfold val in IHv. rewrite IHv, Hop.
      apply (eqd_diff _ _ 0). lia.
    + cbn. unfold val in IHv. rewrite IHv. apply (eqd_diff _ _ 0). cbn. lia.
    + cbn. cbn in IHw. unfold val in IHw. rewrite IHw, Hop. apply (eqd_diff _ _ 0). lia.
Qed.

Lemma form_add_val v w f : val (form_add v w) f =q val v f + val w f.
Proof.
  rewrite <- (Z.mul_1_l (val w f)). apply val_merge. intros x y. unfold addq. rewrite eqd_mod.
  apply (eqd_diff _ _ 0). lia.
Qed.

Lemma form_sub_val v w f : val (form_sub v w) f =q val v f - val w f.
Proof.
  rewrite <- Z.add_opp_r, Z.opp_eq_mul_m1, Z.mul_comm. apply val_merge. intros x y. unfold subq.
  rewrite eqd_mod. apply (eqd_diff _ _ 0). lia.
Qed.

Lemma form_scale_val c v f : val (form_scale c v) f =q c * val v f.
Proof.
  unfold form_scale. rewrite (val_merge _ c); [done|]. intros x y. unfold mulq. apply eqd_mod.
Qed.

(** The value of [v] at [f] is [c] times that of [w] at [g]. *)
Definition scaled (c : Z) (f g : list Z) (v w : form) : Prop := val v f =q c * val w g.

Section Scaled.
Context (c : Z) (f g : list Z).

Lemma scaled_add v v' w w' : scaled c f g v v' -> scaled c f g w w' ->
  scaled c f g (add32 v w) (add32 v' w').
Proof.
  unfold scaled. intros H H'. cbn [add32 form_coeff32]. rewrite !form_add_val, H, H'.
  apply (eqd_diff _ _ 0). lia.
Qed.

Lemma scaled_sub v v' w w' : scaled c f g v v' -> scaled c f g w w' ->
  scaled c f g (sub32 v w) (sub32 v' w').
Proof.
  unfold scaled. intros H H'. cbn [sub32 form_coeff32]. rewrite !form_sub_val, H, H'.
  apply (eqd_diff _ _ 0). lia.
Qed.

Lemma scaled_scale k v w : scaled c f g v w -> scaled c f g (form_scale k v) (form_scale k w).
Proof.
  unfold scaled. intros H. rewrite !form_scale_val, H. apply (eqd_diff _ _ 0). lia.
Qed.

Lemma scaled_mont z v w : factor z -> scaled c f g v w -> scaled c f g (mont32 z v) (mont32 z w).
Proof. intros _. apply scaled_scale. Qed.

Lemma scaled_red v w : scaled c f g v w -> scaled c f g (red1 v) (red1 w).
Proof. apply scaled_scale. Qed.

Lemma scaled_default : scaled c f g inhabitant inhabitant.
Proof. unfold scaled. cbn. by rewrite Z.mul_0_r. Qed.
End Scaled.

(** A value that did not overflow is that of the form. *)
Definition has_form (f : list Z) (o : option Z) (v : form) : Prop :=
  forall x, o = Some x -> x =q val v f /\ - 2 ^ 31 <= x < 2 ^ 31.

Section HasForm.
Context (f : list Z).

Lemma has_form_fits x v : x =q val v f -> has_form f (fits32 x) v.
Proof. intros H y E. apply fits32_Some in E as [-> Hy]. done. Qed.

Lemma has_form_add a a' v v' : has_form f a v -> has_form f a' v' -> has_form f (add32 a a') (add32 v v').
Proof.
  destruct a as [a|], a' as [a'|]; try done. intros H H'. apply has_form_fits.
  cbn [add32 form_coeff32]. by rewrite form_add_val, (proj1 (H a eq_refl)), (proj1 (H' a' eq_refl)).
Qed.

Lemma has_form_sub a a' v v' : has_form f a v -> has_form f a' v' -> has_form f (sub32 a a') (sub32 v v').
Proof.
  destruct a as [a|], a' as [a'|]; try done. intros H H'. apply has_form_fits.
  cbn [sub32 form_coeff32]. by rewrite form_sub_val, (proj1 (H a eq_refl)), (proj1 (H' a' eq_refl)).
Qed.

Lemma has_form_mont z a v : factor z -> has_form f a v -> has_form f (mont32 z a) (mont32 z v).
Proof.
  destruct a as [a|]; [|done]. intros Hz H x. cbn [mont32 checked_coeff32 form_coeff32 option_map].
  injection 1 as <-. destruct (H a eq_refl) as [Ha Hr]. unfold factor in Hz.
  assert (Z.abs (z * a) <= 2 ^ 54) as Hp by (rewrite Z.abs_mul; nia).
  pose proof (mont_red_bound _ _ Hp ltac:(lia)) as Hb. unfold DILITHIUM_Q in Hb.
  change ((2 ^ 54 + 8380417 * 2 ^ 31) / 2 ^ 32) with 8384512 in Hb.
  split; [|lia]. rewrite mont_red_cong, form_scale_val, eqd_mod, Ha by lia.
  apply (eqd_diff _ _ 0). lia.
Qed.

Lemma has_form_red a v : has_form f a v -> has_form f (red1 a) (red1 v).
Proof.
  destruct a as [a|]; [|done]. intros H x. cbn [red1 checked_coeff32 form_coeff32].
  destruct (Z.leb_spec (Z.abs (DILITHIUM_NTT_ZETA_1 * a)) (2 ^ 30)) as [Hp|]; [|done].
  injection 1 as <-. destruct (red_cong _ Hp) as [Hc Hb].
  pose proof (Z.div_le_mono _ _ (2 ^ 10) ltac:(lia) Hp) as Hd.
  change (2 ^ 30 / 2 ^ 10) with (2 ^ 20) in Hd. split; [|lia].
  by rewrite Hc, form_scale_val, (proj1 (H a eq_refl)).
Qed.

Lemma has_form_default : has_form f inhabitant inhabitant.
Proof. done. Qed.
End HasForm.

Lemma forallb_lookup {A} (P : A -> bool) l i b : forallb P l = true -> l !! i = Some b -> P b = true.
Proof. rewrite forallb_forall. intros H Hb. apply H, list_elem_of_In, (list_elem_of_lookup_2 _ i), Hb. Qed.

(** ** Evaluation at the roots of X^256 + 1 *)

Fixpoint eval (g : Z) (f : list Z) : Z :=
  match f with [] => 0 | a :: f => a + g * eval g f end.

(** Powers modulo q by repeated squaring. *)
Fixpoint powq (b : Z) (p : positive) : Z :=
  match p with
  | xH => b
  | xO p => let c := powq b p in c * c mod DILITHIUM_Q
  | xI p => let c := powq b p in (c * c mod DILITHIUM_Q) * b mod DILITHIUM_Q
  end.

Lemma powq_cong b p : powq b p =q b ^ Zpos p.
Proof.
  induction p as [p IH|p IH|]; cbn [powq].
  - rewrite !eqd_mod, IH, Pos2Z.inj_xI, Z.pow_add_r, Z.pow_1_r, (Z.mul_comm 2), Z.pow_mul_r by lia.
    by rewrite Z.pow_2_r.
  - rewrite eqd_mod, IH, Pos2Z.inj_xO, (Z.mul_comm 2), Z.pow_mul_r by lia. by rewrite Z.pow_2_r.
  - by rewrite Z.pow_1_r.
Qed.

(** zeta^(2 BitRev_8(i) + 1), zeta = 1753, as in FIPS 204. *)
Definition dsa_root (i : nat) : Z := powq 1753 (Pos.of_nat (2 * bitrev 8 i + 1)).

(** [h] is the transform of [f]: NTT of FIPS 204. *)
Definition transform (h f : list Z) : Prop :=
  length h = DILITHIUM_N /\
  forall i, (i < DILITHIUM_N)%nat -> nth i h 0 =q eval (dsa_root i) f.

Lemma eval_app g l l' : eval g (l ++ l') = eval g l + g ^ Z.of_nat (length l) * eval g l'.
Proof.
  induction l as [|a l IH]; [cbn; lia|]. cbn [app eval length].
  rewrite IH, Nat2Z.inj_succ, Z.pow_succ_r by lia. lia.
Qed.

(** A polynomial that is a combination of four, coefficient by coefficient. *)
Lemma eval_comb g G c b0 b1 b2 b3 : length b0 = length c -> length b1 = length c ->
  length b2 = length c -> length b3 = length c ->
  (forall j, (j < length c)%nat ->
     nth j c 0 =q nth j b0 0 + G * nth j b1 0 + G ^ 2 * nth j b2 0 + G ^ 3 * nth j b3 0) ->
  eval g c =q eval g b0 + G * eval g b1 + G ^ 2 * eval g b2 + G ^ 3 * eval g b3.
Proof.
  revert b0 b1 b2 b3. induction c as [|x c IH]; intros b0 b1 b2 b3 H0 H1 H2 H3 H.
  - destruct b0, b1, b2, b3; try done. apply (eqd_diff _ _ 0). cbn [eval]. lia.
  - destruct b0 as [|y0 b0], b1 as [|y1 b1], b2 as [|y2 b2], b3 as [|y3 b3]; try done. cbn [eval].
    rewrite (IH b0 b1 b2 b3) by (cbn in *; first [lia|intros j Hj; apply (H (S j)); lia]).
    pose proof (H 0%nat ltac:(cbn; lia)) as Hx. cbn in Hx. rewrite Hx. apply (eqd_diff _ _ 0). lia.
Qed.

(** ** The matrices of the loops *)

Definition dsa_units : list form := map (fun i => [(N.of_nat i, 1)]) (seq 0 DILITHIUM_N).

(** Rows equal modulo q. *)
Definition same_rows (vs ws : list form) : bool :=
  forallb (fun '(v, w) => forallb (fun '(_, c) => c =? 0) (form_sub v w)) (zip vs ws).

Lemma same_rows_sound vs ws i v w f : same_rows vs ws = true -> vs !! i = Some v -> ws !! i = Some w ->
  val v f =q val w f.
Proof.
  unfold same_rows. intros H Hv Hw.
  assert (zip vs ws !! i = Some (v, w)) as Hz by (apply lookup_zip_with_Some; eauto).
  apply (forallb_lookup _ _ _ _ H) in Hz. cbn beta iota in Hz.
  assert (val (form_sub v w) f = 0) as H0.
  { induction (form_sub v w) as [|[j c] u IH]; [done|]. cbn in Hz |- *.
    apply andb_true_iff in Hz as [Hc Hu]. apply Z.eqb_eq in Hc as ->. unfold val in IH. rewrite IH; done. }
  pose proof (form_sub_val v w f) as Hd. rewrite H0 in Hd.
  rewrite <- (Z.add_0_l (val w f)), Hd. apply (eqd_diff _ _ 0). lia.
Qed.

(** Coefficient [p] of a polynomial of blocks of [4 m], reduced to blocks of [m]. *)
Definition block_start (m p : nat) : nat := p / m / 4 * (4 * m).

Definition loop_row (m p : nat) : form :=
  let a := (block_start m p + p mod m)%nat in
  let G := powq (dsa_root (p / m * m)) (Pos.of_nat m) in
  [(N.of_nat a, 1); (N.of_nat (a + m), G); (N.of_nat (a + 2 * m), mulq G 0 G);
   (N.of_nat (a + 3 * m), mulq G 0 (mulq G 0 G))].

Definition loop_rows (m : nat) : list form := map (loop_row m) (seq 0 256).

Lemma ntt_loops_rows :
  same_rows (ntt_loop_1 dsa_units) (loop_rows 64) = true /\
  same_rows (ntt_small_loop_1 dsa_units) (loop_rows 64) = true /\
  same_rows (ntt_loop_2 dsa_units) (loop_rows 16) = true /\
  same_rows (ntt_loop_3 dsa_units) (loop_rows 4) = true /\
  same_rows (ntt_loop_4 dsa_units) (loop_rows 1) = true.
Proof. split_and!; vm_cast_no_check (eq_refl true). Qed.

(** The first index of a block has the same power of the root. *)
Definition roots_agree (m : nat) : bool :=
  forallb (fun i => powq (dsa_root i) (Pos.of_nat m) =? powq (dsa_root (i / m * m)) (Pos.of_nat m)) (seq 0 256).

Lemma roots_checked : roots_agree 64 = true /\ roots_agree 16 = true /\ roots_agree 4 = true /\ roots_agree 1 = true.
Proof. split_and!; vm_cast_no_check (eq_refl true). Qed.

(** Each loop of the inverse is undone by the loop of the transform. *)
Definition scaled_units (c : Z) : list form := map (form_scale c) dsa_units.

Definition c_last : Z := 4 * (41978 * DSA_RINV) mod DILITHIUM_Q.

Lemma loops_undo :
  same_rows (ntt_loop_1 (invntt_loop_4 dsa_units)) (scaled_units c_last) = true /\
  same_rows (ntt_loop_2 (invntt_loop_3 dsa_units)) (scaled_units 4) = true /\
  same_rows (ntt_loop_3 (invntt_loop_2 dsa_units)) (scaled_units 4) = true /\
  same_rows (ntt_loop_4 (invntt_loop_1 dsa_units)) (scaled_units 4) = true.
Proof. split_and!; vm_cast_no_check (eq_refl true). Qed.

Lemma c_last_scale : c_last * 4 * 4 * 4 =q DSA_R.
Proof. reflexivity. Qed.

Section Lengths.
Context {T : Type} `{!Inhabited T, !Coeff32 T}.

Lemma for_by_snd_length {A} step bound (f : nat -> nat * list A -> nat * list A) k r :
  (forall j k r, length (snd (f j (k, r))) = length r) ->
  length (snd (for_by step bound f (k, r))) = length r.
Proof.
  intros Hf. unfold for_by. generalize (seq 0 (bound / step)). intros l. revert k r.
  induction l as [|x l IH]; intros k r; cbn; [done|].
  pose proof (Hf (x * step)%nat k r) as H. destruct (f _ (k, r)) as [k' r']. cbn in H. by rewrite IH.
Qed.

Ltac quad_length := intros; cbv delta [dsa_ntt_128_64 ntt_small_128_64 ntt_32_16 ntt_8_4 ntt_2_1
  invntt_1_2 invntt_4_8 invntt_16_32 dsa_invntt_64_128 ntt_quad ntt_small_quad invntt_quad
  invntt_last_quad] beta zeta iota; cbn [snd]; by rewrite !length_insert.

Lemma ntt_loop_1_length (r : list T) : length (ntt_loop_1 r) = length r.
Proof. apply for_by_length. quad_length. Qed.

Lemma ntt_small_loop_1_length (r : list T) : length (ntt_small_loop_1 r) = length r.
Proof. apply for_by_length. quad_length. Qed.

Lemma ntt_loop_2_length (r : list T) : length (ntt_loop_2 r) = length r.
Proof. apply for_by_length. intros. apply for_by_length. quad_length. Qed.

Lemma ntt_loop_3_length (r : list T) : length (ntt_loop_3 r) = length r.
Proof. apply for_by_length. intros. apply for_by_length. quad_length. Qed.

Lemma ntt_loop_4_length (r : list T) : length (ntt_loop_4 r) = length r.
Proof. apply for_by_snd_length. quad_length. Qed.

Lemma invntt_loop_1_length (r : list T) : length (invntt_loop_1 r) = length r.
Proof. apply for_by_snd_length. quad_length. Qed.

Lemma invntt_loop_2_length (r : list T) : length (invntt_loop_2 r) = length r.
Proof. apply for_by_length. intros. apply for_by_length. quad_length. Qed.

Lemma invntt_loop_3_length (r : list T) : length (invntt_loop_3 r) = length r.
Proof. apply for_by_length. intros. apply for_by_length. quad_length. Qed.

Lemma invntt_loop_4_length (r : list T) : length (invntt_loop_4 r) = length r.
Proof. apply for_by_length. quad_length. Qed.

Lemma dsa_ntt_length (r : list T) : length (dsa_ntt r) = length r.
Proof. unfold dsa_ntt. by rewrite ntt_loop_4_length, ntt_loop_3_length, ntt_loop_2_length, ntt_loop_1_length. Qed.

Lemma ntt_small_length (r : list T) : length (ntt_small r) = length r.
Proof.
  unfold ntt_small.
  by rewrite ntt_loop_4_length, ntt_loop_3_length, ntt_loop_2_length, ntt_small_loop_1_length.
Qed.

Lemma dsa_invntt_length (r : list T) : length (dsa_invntt r) = length r.
Proof.
  unfold dsa_invntt.
  by rewrite invntt_loop_4_length, invntt_loop_3_length, invntt_loop_2_length, invntt_loop_1_length.
Qed.
End Lengths.

Create HintDb coeff32.
#[export] Hint Resolve checks_add checks_sub checks_mont checks_red checks_default
  bounded_add bounded_sub bounded_mont bounded_red bounded_default
  scaled_add scaled_sub scaled_mont scaled_red scaled_default
  has_form_add has_form_sub has_form_mont has_form_red has_form_default : coeff32.

(** ** Linear loops *)

Lemma dsa_units_length : length dsa_units = DILITHIUM_N.
Proof. unfold dsa_units. by rewrite length_map, length_seq. Qed.

Lemma dsa_units_lookup i : (i < DILITHIUM_N)%nat -> dsa_units !! i = Some [(N.of_nat i, 1)].
Proof. intros Hi. unfold dsa_units. by rewrite list_lookup_fmap, lookup_seq_lt. Qed.

Lemma val_unit i f : val [(N.of_nat i, 1)] f = nth i f 0.
Proof. cbn. rewrite Nat2N.id. lia. Qed.

(** A loop that does the same to values at every point. *)
Definition linear (S : list form -> list form) : Prop := forall c f g vs ws,
  Forall2 (scaled c f g) vs ws -> Forall2 (scaled c f g) (S vs) (S ws).

Ltac loop_linear rel := intros c f g vs ws H; apply rel; auto with coeff32.

Lemma ntt_loop_1_linear : linear ntt_loop_1.
Proof. loop_linear @ntt_loop_1_rel. Qed.
Lemma ntt_small_loop_1_linear : linear ntt_small_loop_1.
Proof. loop_linear @ntt_small_loop_1_rel. Qed.
Lemma ntt_loop_2_linear : linear ntt_loop_2.
Proof. loop_linear @ntt_loop_2_rel. Qed.
Lemma ntt_loop_3_linear : linear ntt_loop_3.
Proof. loop_linear @ntt_loop_3_rel. Qed.
Lemma ntt_loop_4_linear : linear ntt_loop_4.
Proof. loop_linear @ntt_loop_4_rel. Qed.
Lemma invntt_loop_1_linear : linear invntt_loop_1.
Proof. loop_linear @invntt_loop_1_rel. Qed.
Lemma invntt_loop_2_linear : linear invntt_loop_2.
Proof. loop_linear @invntt_loop_2_rel. Qed.
Lemma invntt_loop_3_linear : linear invntt_loop_3.
Proof. loop_linear @invntt_loop_3_rel. Qed.
Lemma invntt_loop_4_linear : linear invntt_loop_4.
Proof. loop_linear @invntt_loop_4_rel. Qed.

Lemma linear_compose S S' : linear S -> linear S' -> linear (fun vs => S (S' vs)).
Proof. intros H H' c f g vs ws Hv. by apply H, H'. Qed.

(** The values of forms at a point. *)
Definition vals (f : list Z) (vs : list form) : list Z := map (fun v => val v f) vs.

Lemma nth_vals f vs i v : vs !! i = Some v -> nth i (vals f vs) 0 = val v f.
Proof. intros H. apply nth_lookup_Some. unfold vals. by rewrite list_lookup_fmap, H. Qed.

(** A loop whose rows are known, applied to any forms. *)
Lemma loop_apply S rows f vs : linear S -> length vs = DILITHIUM_N -> same_rows (S dsa_units) rows = true ->
  forall i v row, S vs !! i = Some v -> rows !! i = Some row -> val v f =q val row (vals f vs).
Proof.
  intros HS Hl HR i v row Hv Hrow.
  assert (Forall2 (scaled 1 (vals f vs) f) dsa_units vs) as H.
  { apply Forall2_same_length_lookup_2; [by rewrite dsa_units_length|].
    intros j u w Hu Hw. pose proof (lookup_lt_Some _ _ _ Hw) as Hj. rewrite Hl in Hj.
    rewrite dsa_units_lookup in Hu by done. injection Hu as <-. unfold scaled.
    by rewrite val_unit, Z.mul_1_l, (nth_vals _ _ _ _ Hw). }
  apply HS in H. destruct (Forall2_lookup_r _ _ _ _ _ H Hv) as (u & Hu & Huv).
  unfold scaled in Huv. rewrite Z.mul_1_l in Huv. rewrite <- Huv.
  exact (same_rows_sound _ _ i u row _ HR Hu Hrow).
Qed.

(** Values below a block of [n] as one value. *)
Definition block_eval (n i : nat) (w : list Z) : Z := eval (dsa_root i) (slice (i / n * n) n w).

Lemma dsa_root_power m i : roots_agree m = true -> (0 < m)%nat -> (i < 256)%nat ->
  powq (dsa_root (i / m * m)) (Pos.of_nat m) =q dsa_root i ^ Z.of_nat m.
Proof.
  intros H Hm Hi. unfold roots_agree in H. rewrite forallb_forall in H.
  specialize (H i ltac:(apply in_seq; lia)). apply Z.eqb_eq in H. rewrite <- H, powq_cong.
  rewrite <- positive_nat_Z, Nat2Pos.id by lia. done.
Qed.

Lemma nth_slice_in off n (w : list Z) j : (j < n)%nat -> nth j (slice off n w) 0 = nth (off + j) w 0.
Proof.
  intros Hj. unfold slice. rewrite !nth_lookup, lookup_take_lt, lookup_drop by done. done.
Qed.

Lemma slice_four b m (w : list Z) :
  slice b (4 * m) w = slice b m w ++ slice (b + m) m w ++ slice (b + 2 * m) m w ++ slice (b + 3 * m) m w.
Proof.
  replace (4 * m)%nat with (m + (m + (m + m)))%nat by lia. rewrite !slice_split.
  do 3 f_equal; f_equal; lia.
Qed.

Section LoopEval.
Context (m : nat) (w w' : list Z).
Hypothesis Hm : (0 < m)%nat.
Hypothesis Hdiv : exists d, (256 = d * (4 * m))%nat.
Hypothesis Hroots : roots_agree m = true.
Hypothesis Hw : length w = 256%nat.
Hypothesis Hw' : length w' = 256%nat.
Hypothesis Hrows : forall p, (p < 256)%nat -> nth p w' 0 =q val (loop_row m p) w.

(** Indices inside the block of [i]. *)
Lemma block_index i j : (i < 256)%nat -> (j < m)%nat ->
  let p := (i / m * m + j)%nat in
  (p < 256 /\ p / m * m = i / m * m /\ block_start m p = block_start m i /\ p mod m = j)%nat.
Proof.
  intros Hi Hj. cbv zeta. destruct Hdiv as [d Hd].
  assert ((i / m * m + j) / m = i / m)%nat as E by (symmetry; apply (Nat.div_unique _ m _ j); lia).
  split; [|split; [by rewrite E|split]].
  - assert (i / m < d * 4)%nat by (apply Nat.Div0.div_lt_upper_bound; lia). nia.
  - unfold block_start. by rewrite E.
  - symmetry. apply (Nat.mod_unique _ m (i / m) j); lia.
Qed.

Lemma block_start_eq i : (i / (4 * m) * (4 * m) = block_start m i)%nat.
Proof. unfold block_start. by rewrite (Nat.mul_comm 4 m), <- Nat.Div0.div_div. Qed.

Lemma loop_row_val p : (p < 256)%nat ->
  let a := (block_start m p + p mod m)%nat in
  let G := dsa_root p ^ Z.of_nat m in
  val (loop_row m p) w =q nth a w 0 + G * nth (a + m) w 0 + G ^ 2 * nth (a + 2 * m) w 0 +
    G ^ 3 * nth (a + 3 * m) w 0.
Proof.
  intros Hp. cbv zeta. pose proof (dsa_root_power m p Hroots Hm Hp) as HG.
  unfold loop_row, mulq. cbn -[Nat.mul Z.mul Z.add Z.pow].
  rewrite !Nat2N.id, !Z.add_0_l, (eqd_mod (_ * (_ mod _))), eqd_mod, HG. apply (eqd_diff _ _ 0).
  rewrite !Z.add_0_r, Z.pow_2_r. replace 3 with (2 + 1) by lia.
  rewrite Z.pow_add_r, Z.pow_2_r, Z.pow_1_r by lia. lia.
Qed.

Lemma loop_eval i : (i < 256)%nat -> block_eval m i w' =q block_eval (4 * m) i w.
Proof.
  intros Hi. unfold block_eval. rewrite block_start_eq, slice_four, !eval_app.
  destruct Hdiv as [d Hd].
  assert (block_start m i + 4 * m <= 256)%nat as Hb.
  { unfold block_start. rewrite Nat.Div0.div_div. rewrite (Nat.mul_comm m 4).
    assert (i / (4 * m) < d)%nat by (apply Nat.Div0.div_lt_upper_bound; lia). nia. }
  assert (i / m * m + m <= 256)%nat as Hs.
  { destruct (block_index i (m - 1) Hi ltac:(lia)) as [Hx _]. lia. }
  rewrite !length_slice by lia. set (g := dsa_root i).
  rewrite (eval_comb g (g ^ Z.of_nat m) _ (slice (block_start m i) m w)
    (slice (block_start m i + m) m w) (slice (block_start m i + 2 * m) m w)
    (slice (block_start m i + 3 * m) m w)); rewrite ?length_slice by lia; try done.
  - apply (eqd_diff _ _ 0). rewrite Z.pow_2_r. replace 3 with (2 + 1) by lia.
    rewrite Z.pow_add_r, Z.pow_2_r, Z.pow_1_r by lia. lia.
  - intros j Hj. rewrite !nth_slice_in by done.
    destruct (block_index i j Hi Hj) as (Hp & E1 & E2 & E3).
    rewrite (Hrows _ Hp), loop_row_val, E2, E3 by done. cbv zeta.
    rewrite <- (dsa_root_power m (i / m * m + j)%nat Hroots Hm Hp), E1, (dsa_root_power m i Hroots Hm Hi). fold g.
    apply (eqd_diff _ _ 0). replace (block_start m i + j + m)%nat with (block_start m i + m + j)%nat by lia.
    replace (block_start m i + j + 2 * m)%nat with (block_start m i + 2 * m + j)%nat by lia.
    replace (block_start m i + j + 3 * m)%nat with (block_start m i + 3 * m + j)%nat by lia. lia.
Qed.
End LoopEval.

Lemma vals_length f vs : length (vals f vs) = length vs.
Proof. apply length_map. Qed.

(** One loop of the transform on the values of forms. *)
Lemma ntt_step m S f vs : (0 < m)%nat -> (exists d, 256 = d * (4 * m))%nat -> roots_agree m = true ->
  linear S -> (forall vs, length (S vs) = length vs) -> same_rows (S dsa_units) (loop_rows m) = true ->
  length vs = 256%nat ->
  length (S vs) = 256%nat /\
  forall i, (i < 256)%nat -> block_eval m i (vals f (S vs)) =q block_eval (4 * m) i (vals f vs).
Proof.
  intros Hm Hd Hr HS Hlen HR Hl. split; [by rewrite Hlen|].
  apply loop_eval; try done; rewrite ?vals_length, ?Hlen; try done.
  intros p Hp. destruct (lookup_lt_is_Some_2 (S vs) p) as [v Hv]; [by rewrite Hlen, Hl|].
  rewrite (nth_vals _ _ _ _ Hv).
  apply (loop_apply S (loop_rows m) f vs HS Hl HR p v); [done|].
  unfold loop_rows. by rewrite list_lookup_fmap, lookup_seq_lt.
Qed.

Lemma block_eval_1 i w : (i < length w)%nat -> block_eval 1 i w = nth i w 0.
Proof.
  intros Hi. unfold block_eval. rewrite Nat.div_1_r, Nat.mul_1_r.
  rewrite <- (Nat.add_0_r i) at 3. rewrite <- (nth_slice_in i 1) by lia.
  pose proof (length_slice i 1 w ltac:(lia)) as Hl.
  destruct (slice i 1 w) as [|x [|y l]]; try done. cbn [eval nth]. lia.
Qed.

Lemma block_eval_256 i w : (i < 256)%nat -> length w = 256%nat ->
  block_eval 256 i w = eval (dsa_root i) w.
Proof.
  intros Hi Hw. unfold block_eval. rewrite (Nat.div_small i) by done.
  by rewrite Nat.mul_0_l, slice_all.
Qed.

(** The last three loops, after the first one. *)
Lemma ntt_rest_evaluates f vs : length vs = 256%nat -> forall i, (i < 256)%nat ->
  nth i (vals f (ntt_loop_4 (ntt_loop_3 (ntt_loop_2 vs)))) 0 =q block_eval 64 i (vals f vs).
Proof.
  intros Hl i Hi. destruct ntt_loops_rows as (_ & _ & R2 & R3 & R4).
  destruct roots_checked as (_ & P2 & P3 & P4).
  destruct (ntt_step 16 ntt_loop_2 f vs ltac:(lia) ltac:(by exists 4%nat) P2
    ntt_loop_2_linear ntt_loop_2_length R2 Hl) as [L2 E2].
  destruct (ntt_step 4 ntt_loop_3 f _ ltac:(lia) ltac:(by exists 16%nat) P3
    ntt_loop_3_linear ntt_loop_3_length R3 L2) as [L3 E3].
  destruct (ntt_step 1 ntt_loop_4 f _ ltac:(lia) ltac:(by exists 64%nat) P4
    ntt_loop_4_linear ntt_loop_4_length R4 L3) as [L4 E4].
  rewrite <- (block_eval_1 i) by (rewrite vals_length, L4; done).
  rewrite E4, E3, E2 by done. done.
Qed.

Lemma ntt_evaluates f vs : length vs = 256%nat -> forall i, (i < 256)%nat ->
  nth i (vals f (dsa_ntt vs)) 0 =q eval (dsa_root i) (vals f vs).
Proof.
  intros Hl i Hi. destruct ntt_loops_rows as (R1 & _). destruct roots_checked as (P1 & _).
  destruct (ntt_step 64 ntt_loop_1 f vs ltac:(lia) ltac:(by exists 1%nat) P1
    ntt_loop_1_linear ntt_loop_1_length R1 Hl) as [L1 E1].
  unfold dsa_ntt. rewrite ntt_rest_evaluates, E1 by done. by rewrite block_eval_256 by (rewrite ?vals_length; done).
Qed.

Lemma ntt_small_evaluates f vs : length vs = 256%nat -> forall i, (i < 256)%nat ->
  nth i (vals f (ntt_small vs)) 0 =q eval (dsa_root i) (vals f vs).
Proof.
  intros Hl i Hi. destruct ntt_loops_rows as (_ & R1 & _). destruct roots_checked as (P1 & _).
  destruct (ntt_step 64 ntt_small_loop_1 f vs ltac:(lia) ltac:(by exists 1%nat) P1
    ntt_small_loop_1_linear ntt_small_loop_1_length R1 Hl) as [L1 E1].
  unfold ntt_small. rewrite ntt_rest_evaluates, E1 by done.
  by rewrite block_eval_256 by (rewrite ?vals_length; done).
Qed.

(** ** The inverse on forms *)

(** A pair of loops that undo each other up to a factor, inside other loops. *)
Lemma undo_scaled S S' k f vs : linear S -> linear S' -> length vs = 256%nat ->
  (forall vs, length (S (S' vs)) = length vs) ->
  same_rows (S (S' dsa_units)) (scaled_units k) = true ->
  Forall2 (scaled k f f) (S (S' vs)) vs.
Proof.
  intros HS HS' Hl Hlen HR. apply Forall2_same_length_lookup_2; [apply Hlen|].
  intros i v w Hv Hw. pose proof (lookup_lt_Some _ _ _ Hw) as Hi. rewrite Hl in Hi.
  assert (scaled_units k !! i = Some (form_scale k [(N.of_nat i, 1)])) as Hu
    by (unfold scaled_units; rewrite list_lookup_fmap, dsa_units_lookup by done; done).
  unfold scaled.
  rewrite (loop_apply _ _ f vs (linear_compose S S' HS HS') Hl HR i v _ Hv Hu).
  by rewrite form_scale_val, val_unit, (nth_vals _ _ _ _ Hw).
Qed.

Lemma scaled_trans c c' f us vs ws : Forall2 (scaled c f f) us vs -> Forall2 (scaled c' f f) vs ws ->
  Forall2 (scaled (c * c') f f) us ws.
Proof.
  intros H. revert ws. induction H as [|u v us vs Huv _ IH]; intros ws H';
    inversion H' as [|v' w vs' ws' Hvw Hr]; subst; constructor.
  - unfold scaled in *. rewrite Huv, Hvw. apply (eqd_diff _ _ 0). lia.
  - by apply IH.
Qed.

Lemma invntt_undone f vs : length vs = 256%nat ->
  Forall2 (scaled (c_last * 4 * 4 * 4) f f) (dsa_ntt (dsa_invntt vs)) vs.
Proof.
  intros Hl. destruct loops_undo as (U1 & U2 & U3 & U4). unfold dsa_ntt, dsa_invntt.
  eapply scaled_trans; [eapply scaled_trans; [eapply scaled_trans|]|].
  - apply ntt_loop_4_linear, ntt_loop_3_linear, ntt_loop_2_linear.
    apply undo_scaled; auto using ntt_loop_1_linear, invntt_loop_4_linear.
    + by rewrite invntt_loop_3_length, invntt_loop_2_length, invntt_loop_1_length.
    + intros. by rewrite ntt_loop_1_length, invntt_loop_4_length.
  - apply ntt_loop_4_linear, ntt_loop_3_linear.
    apply undo_scaled; auto using ntt_loop_2_linear, invntt_loop_3_linear.
    + by rewrite invntt_loop_2_length, invntt_loop_1_length.
    + intros. by rewrite ntt_loop_2_length, invntt_loop_3_length.
  - apply ntt_loop_4_linear.
    apply undo_scaled; auto using ntt_loop_3_linear, invntt_loop_2_linear.
    + by rewrite invntt_loop_1_length.
    + intros. by rewrite ntt_loop_3_length, invntt_loop_2_length.
  - apply undo_scaled; auto using ntt_loop_4_linear, invntt_loop_1_linear.
    intros. by rewrite ntt_loop_4_length, invntt_loop_1_length.
Qed.

(** ** From the runs to the transforms *)

Definition limit (B : N) (n : nat) : list bnd := replicate n (Bnd true B).

(** Every value known and at most [B]. *)
Definition all_within (B : N) (bs : list bnd) : bool :=
  forallb (fun b => known b && (lim b <=? B)%N) bs.

Definition dsa_within (B : Z) (r : list Z) : Prop := length r = DILITHIUM_N /\ Forall (fun x => Z.abs x <= B) r.

Lemma some_checks r : Forall2 checks r (map Some r).
Proof. induction r; constructor; [|done]. intros y. by injection 1. Qed.

Lemma some_bounded (B : N) r : Forall (fun x => Z.abs x <= Z.of_N B) r -> (B <= 2147483647)%N ->
  Forall2 bounded (map Some r) (limit B (length r)).
Proof.
  intros Hr HB. unfold limit. induction Hr as [|x r Hx Hr IH]; cbn; constructor; [|done].
  split; [by eexists|]. intros y. injection 1 as <-. cbn. lia.
Qed.

Lemma some_has_form r : length r = DILITHIUM_N -> Forall (fun x => Z.abs x < 2 ^ 31) r ->
  Forall2 (has_form r) (map Some r) dsa_units.
Proof.
  intros Hl Hr. apply Forall2_same_length_lookup_2; [by rewrite length_map, dsa_units_length|].
  intros i o v Ho Hv. rewrite list_lookup_fmap in Ho. destruct (r !! i) as [x|] eqn:Hx; [|done].
  injection Ho as <-. pose proof (lookup_lt_Some _ _ _ Hx) as Hi. rewrite Hl in Hi.
  rewrite dsa_units_lookup in Hv by done. injection Hv as <-.
  intros y. injection 1 as <-. rewrite val_unit, (nth_lookup_Some _ _ _ _ Hx). split; [done|].
  rewrite Forall_lookup in Hr. specialize (Hr i x Hx). lia.
Qed.

Lemma vals_units r : length r = DILITHIUM_N -> vals r dsa_units = r.
Proof.
  intros Hl. apply list_eq. intros i. unfold vals. rewrite list_lookup_fmap.
  destruct (r !! i) as [x|] eqn:Hx.
  - pose proof (lookup_lt_Some _ _ _ Hx) as Hi. rewrite Hl in Hi.
    rewrite dsa_units_lookup by done. cbn [option_fmap option_map]. unfold fmap, option_fmap, option_map.
    by rewrite val_unit, (nth_lookup_Some _ _ _ _ Hx).
  - apply lookup_ge_None_1 in Hx. rewrite lookup_ge_None_2; [done|]. by rewrite dsa_units_length, <- Hl.
Qed.

(** A run of the code beside the runs on bounds and on forms. *)
Lemma forward_run (vs : list form) h os bs r B : length r = DILITHIUM_N -> length h = DILITHIUM_N ->
  Forall2 checks h os -> Forall2 bounded os bs -> Forall2 (has_form r) os vs ->
  all_within B bs = true ->
  (forall i, (i < 256)%nat -> nth i (vals r vs) 0 =q eval (dsa_root i) (vals r dsa_units)) ->
  transform h r /\ dsa_within (Z.of_N B) h.
Proof.
  intros Hr Hh H1 H2 H3 HB HR.
  assert (forall i x, h !! i = Some x -> os !! i = Some (Some x) /\ Z.abs x <= Z.of_N B) as Hx.
  { intros i x Hx. destruct (Forall2_lookup_l _ _ _ _ _ H1 Hx) as (o & Ho & Hc).
    destruct (Forall2_lookup_l _ _ _ _ _ H2 Ho) as (b & Hb & Hs & Hl).
    apply (forallb_lookup _ _ i b HB), andb_true_iff in Hb as [Hk Hle%N.leb_le].
    destruct (Hs Hk) as [y ->]. rewrite (Hc y eq_refl). destruct (Hl y eq_refl). split; [done|lia]. }
  split; split; [done| |done|].
  - intros i Hi. destruct (lookup_lt_is_Some_2 h i) as [x Hxi]; [by rewrite Hh|].
    destruct (Hx i x Hxi) as [Ho _]. destruct (Forall2_lookup_l _ _ _ _ _ H3 Ho) as (v & Hv & Hf).
    rewrite (nth_lookup_Some _ _ _ _ Hxi), (proj1 (Hf x eq_refl)).
    rewrite <- (vals_units r Hr) at 2. by rewrite <- HR, (nth_vals _ _ _ _ Hv) by done.
  - apply Forall_lookup. intros i x Hxi. by apply (Hx i x).
Qed.

Lemma ntt_bound : all_within 42035253 (dsa_ntt (limit 8380416 256)) = true.
Proof. vm_cast_no_check (eq_refl true). Qed.

Lemma ntt_bound_17 : all_within 33747502 (dsa_ntt (limit 131072 256)) = true.
Proof. vm_cast_no_check (eq_refl true). Qed.

Lemma ntt_small_bound : all_within 33631669 (ntt_small (limit 1 256)) = true.
Proof. vm_cast_no_check (eq_refl true). Qed.

Lemma ntt_transforms B B' r : all_within B' (dsa_ntt (limit B 256)) = true -> (B <= 2147483647)%N ->
  dsa_within (Z.of_N B) r -> transform (dilithium_ntt_full r) r /\ dsa_within (Z.of_N B') (dilithium_ntt_full r).
Proof.
  intros Hc HB [Hl Hr].
  apply (forward_run (dsa_ntt dsa_units) _ (dsa_ntt (map Some r)) (dsa_ntt (limit B 256)) r); [done|..].
  - unfold dilithium_ntt_full, dilithium_ntt_c. by rewrite dsa_ntt_length.
  - apply dsa_ntt_rel; auto using some_checks with coeff32.
  - apply dsa_ntt_rel; auto with coeff32. change 256%nat with DILITHIUM_N. rewrite <- Hl. by apply some_bounded.
  - apply dsa_ntt_rel; auto with coeff32. apply some_has_form; [done|].
    eapply Forall_impl; [exact Hr|]. cbn. lia.
  - exact Hc.
  - apply ntt_evaluates, dsa_units_length.
Qed.

Lemma ntt_small_transforms r : dsa_within 1 r ->
  transform (dilithium_ntt_small_full r) r /\ dsa_within 33631669 (dilithium_ntt_small_full r).
Proof.
  intros [Hl Hr].
  apply (forward_run (ntt_small dsa_units) _ (ntt_small (map Some r)) (ntt_small (limit 1 256)) r 33631669);
    [done|..].
  - unfold dilithium_ntt_small_full, dilithium_ntt_small_c. by rewrite ntt_small_length.
  - apply ntt_small_rel; auto using some_checks with coeff32.
  - apply ntt_small_rel; auto with coeff32. change 256%nat with DILITHIUM_N. rewrite <- Hl.
    by apply some_bounded.
  - apply ntt_small_rel; auto with coeff32. apply some_has_form; [done|].
    eapply Forall_impl; [exact Hr|]. cbn. lia.
  - apply ntt_small_bound.
  - apply ntt_small_evaluates, dsa_units_length.
Qed.

(** ** The inverse *)

(** The inverse transform runs without signed overflow. *)
Definition invntt_fits (w : list Z) : Prop := Forall is_Some (dsa_invntt (map Some w)).

#[export] Instance invntt_fits_dec w : Decision (invntt_fits w).
Proof. unfold invntt_fits. apply _. Defined.

Lemma invntt_bound : all_within 4211197 (dsa_invntt (limit 8388607 256)) = true.
Proof. vm_cast_no_check (eq_refl true). Qed.

Lemma invntt_limit : forallb (fun b => (lim b <=? 4211197)%N) (dsa_invntt (replicate 256 inhabitant)) = true.
Proof. vm_cast_no_check (eq_refl true). Qed.

Lemma invntt_small_fits w : dsa_within 8388607 w -> invntt_fits w.
Proof.
  intros [Hl Hw].
  assert (Forall2 bounded (dsa_invntt (map Some w)) (dsa_invntt (limit 8388607 256))) as H2.
  { apply dsa_invntt_rel; auto with coeff32. change 256%nat with DILITHIUM_N. rewrite <- Hl. by apply some_bounded. }
  apply Forall_lookup. intros i o Ho. destruct (Forall2_lookup_l _ _ _ _ _ H2 Ho) as (b & Hb & Hs & _).
  apply Hs. by apply (forallb_lookup _ _ i b invntt_bound), andb_true_iff in Hb as [? _].
Qed.

(** The values of the inverse, as forms of its input, and their bound. *)
Lemma invntt_values w : length w = DILITHIUM_N -> Forall (fun x => Z.abs x < 2 ^ 31) w -> invntt_fits w ->
  Forall2 (fun x v => x =q val v w) (dilithium_invntt_full w) (dsa_invntt dsa_units) /\
  dsa_within 4211197 (dilithium_invntt_full w).
Proof.
  intros Hl Hw Hfit.
  assert (Forall2 checks (dilithium_invntt_full w) (dsa_invntt (map Some w))) as H1
    by (apply dsa_invntt_rel; auto using some_checks with coeff32).
  assert (Forall2 (has_form w) (dsa_invntt (map Some w)) (dsa_invntt dsa_units)) as H3
    by (apply dsa_invntt_rel; auto using some_has_form with coeff32).
  assert (Forall2 bounded (dsa_invntt (map Some w)) (dsa_invntt (replicate 256 inhabitant))) as H2.
  { apply dsa_invntt_rel; auto with coeff32. change 256%nat with DILITHIUM_N. rewrite <- Hl. clear -Hw.
    induction Hw as [|x w Hx _ IH]; constructor; [|done]. split; [done|].
    intros y. injection 1 as <-. cbn. lia. }
  assert (length (dilithium_invntt_full w) = DILITHIUM_N) as Hl'
    by (unfold dilithium_invntt_full, dilithium_invntt_c; by rewrite dsa_invntt_length).
  assert (forall i x, dilithium_invntt_full w !! i = Some x -> dsa_invntt (map Some w) !! i = Some (Some x)) as Hx.
  { intros i x Hx. destruct (Forall2_lookup_l _ _ _ _ _ H1 Hx) as (o & Ho & Hc).
    destruct (Forall_lookup_1 _ _ _ _ Hfit Ho) as [y ->]. by rewrite (Hc y eq_refl). }
  split; [|split; [done|]].
  - apply Forall2_same_length_lookup_2.
    { by rewrite dsa_invntt_length, Hl', dsa_units_length. }
    intros i x v Hi Hv. by apply (Forall2_lookup_lr _ _ _ _ _ _ H3 (Hx i x Hi) Hv).
  - apply Forall_lookup. intros i x Hi. specialize (Hx i x Hi).
    destruct (Forall2_lookup_l _ _ _ _ _ H2 Hx) as (b & Hb & _ & Hbd).
    apply (forallb_lookup _ _ i b invntt_limit), N.leb_le in Hb.
    destruct (Hbd x eq_refl). lia.
Qed.

Lemma invntt_inverts h : length h = DILITHIUM_N -> Forall (fun x => Z.abs x < 2 ^ 31) h -> invntt_fits h ->
  (forall i, (i < DILITHIUM_N)%nat -> eval (dsa_root i) (dilithium_invntt_full h) =q DSA_R * nth i h 0) /\
  dsa_within 4211197 (dilithium_invntt_full h).
Proof.
  intros Hl Hh Hfit. destruct (invntt_values h Hl Hh Hfit) as [Hv Hb]. split; [|done].
  intros i Hi. assert (length (dsa_invntt dsa_units) = 256%nat) as Hu
    by (by rewrite dsa_invntt_length, dsa_units_length).
  assert (eval (dsa_root i) (dilithium_invntt_full h) =q eval (dsa_root i) (vals h (dsa_invntt dsa_units))) as ->.
  { generalize (dsa_root i). clear -Hv. intros g. unfold vals.
    induction Hv as [|x v xs vs Hx _ IH]; [done|]. cbn [map eval]. by rewrite Hx, IH. }
  rewrite <- ntt_evaluates by done.
  pose proof (invntt_undone h dsa_units dsa_units_length) as Hs.
  destruct (Forall2_lookup_r _ _ _ _ _ Hs (dsa_units_lookup i Hi)) as (v & Hvi & Hval).
  unfold scaled in Hval. rewrite val_unit, c_last_scale in Hval. rewrite <- Hval.
  by rewrite (nth_vals _ _ _ _ Hvi).
Qed.

(** The transform of ML-DSA evaluates a polynomial at the 256 roots of
    X^256 + 1 in the order of FIPS 204 (algorithm 41), the variant for the
    challenge as well, and no value leaves 32 bits: coefficients below q give
    values below 42035254, coefficients of the response values below 33747503. *)
Theorem dsa_ntt_is_evaluation r :
  (dsa_within 8380416 r ->
   transform (dilithium_ntt_full r) r /\ dsa_within 42035253 (dilithium_ntt_full r)) /\
  (dsa_within 131072 r ->
   transform (dilithium_ntt_full r) r /\ dsa_within 33747502 (dilithium_ntt_full r)) /\
  (dsa_within 1 r ->
   transform (dilithium_ntt_small_full r) r /\ dsa_within 33631669 (dilithium_ntt_small_full r)).
Proof.
  split; [|split].
  - exact (ntt_transforms 8380416 42035253 r ntt_bound ltac:(lia)).
  - exact (ntt_transforms 131072 33747502 r ntt_bound_17 ltac:(lia)).
  - apply ntt_small_transforms.
Qed.

Lemma dsa_ntt_is_evaluation_witness :
  transform (dilithium_ntt_full (replicate 256 (-8380416))) (replicate 256 (-8380416)).
Proof.
  refine (proj1 (proj1 (dsa_ntt_is_evaluation (replicate 256 (-8380416))) _)).
  split; [reflexivity|]. apply Forall_replicate. lia.
Defined.

(** C34: the inverse transform, whenever its sums fit in 32 bits, gives the
    polynomial that has the values [2^32 h] at the roots; they fit when the
    values are below 2^23, and 256 equal values of 2^23 make them overflow, with
    a wrong first coefficient. *)
Theorem dsa_invntt_inverts h : length h = DILITHIUM_N -> Forall (fun x => Z.abs x < 2 ^ 31) h ->
  (invntt_fits h ->
   transform (map (Z.mul DSA_R) h) (dilithium_invntt_full h) /\
   dsa_within 4211197 (dilithium_invntt_full h)) /\
  (Forall (fun x => Z.abs x < 2 ^ 23) h -> invntt_fits h) /\
  (h = replicate 256 (2 ^ 23) ->
   ~ (nth 0 (dilithium_invntt_full h) 0 =q nth 0 (dilithium_invntt_full (replicate 256 (2 ^ 23 - DILITHIUM_Q))) 0)).
Proof.
  intros Hl Hh. split; [|split].
  - intros Hfit. destruct (invntt_inverts h Hl Hh Hfit) as [He Hb]. split; [|done].
    split; [by rewrite length_map|]. intros i Hi. rewrite (He i Hi).
    rewrite (nth_indep _ 0 (DSA_R * 0)), map_nth by (by rewrite length_map, Hl). done.
  - intros Hs. apply invntt_small_fits. split; [done|].
    eapply Forall_impl; [exact Hs|]. cbn. lia.
  - intros ->. vm_compute. done.
Qed.

Lemma dsa_invntt_inverts_witness :
  transform (map (Z.mul DSA_R) (replicate 256 5)) (dilithium_invntt_full (replicate 256 5)).
Proof.
  refine (proj1 (proj1 (dsa_invntt_inverts (replicate 256 5) _ _) _));
    [reflexivity|apply Forall_replicate; lia|].
  apply (bool_decide_eq_true_1 _). vm_compute. reflexivity.
Defined.
