(* ===== verification/MldsaCodec.v ===== *)
(** * Decoding keys and signatures of ML-DSA (src/boot/wolfcrypt/src/dilithium.c)

    [dilithium_decode_t1_c] and both branches of [dilithium_decode_gamma1_c], in
    the variants that read bytes, against SimpleBitUnpack and BitUnpack of FIPS
    204, which read fields of the little-endian integer of the bytes. *)

From S2P Require Import Prelude.
From S2P Require Import MlkemReduce.
From S2P Require Import MlkemCodec.
From S2P Require Import MlkemSample.
From S2P Require Import MldsaHint.

Definition DILITHIUM_D : Z := 13.
Definition DILITHIUM_U : nat := 10.
Definition DILITHIUM_GAMMA1_BITS_17 : nat := 17.
Definition DILITHIUM_GAMMA1_17 : Z := Z.shiftl 1 17.
Definition DILITHIUM_GAMMA1_17_ENC_BITS : nat := 18.
Definition DILITHIUM_GAMMA1_BITS_19 : nat := 19.
Definition DILITHIUM_GAMMA1_19 : Z := Z.shiftl 1 19.
Definition DILITHIUM_GAMMA1_19_ENC_BITS : nat := 20.

(** Four values of 10 bits, from the five bytes of [t1] at [o]. *)
Definition unpack_t1 (t1 : list Z) (o : nat) : list Z :=
  let b i := at_ t1 (o + i) in
  [ s32 (Z.shiftl (Z.lor (Z.shiftr (b 0%nat) 0) (Z.shiftl (Z.land (b 1%nat) 0x03) 8)) DILITHIUM_D);
    s32 (Z.shiftl (Z.lor (Z.shiftr (b 1%nat) 2) (Z.shiftl (Z.land (b 2%nat) 0x0f) 6)) DILITHIUM_D);
    s32 (Z.shiftl (Z.lor (Z.shiftr (b 2%nat) 4) (Z.shiftl (Z.land (b 3%nat) 0x3f) 4)) DILITHIUM_D);
    s32 (Z.shiftl (Z.lor (Z.shiftr (b 3%nat) 6) (Z.shiftl (b 4%nat) 2)) DILITHIUM_D) ].

Definition dilithium_decode_t1_c (t1 : list Z) : list Z :=
  emit 8 DILITHIUM_N (fun j =>
    let o := (j / 8 * DILITHIUM_U)%nat in unpack_t1 t1 o ++ unpack_t1 t1 (o + 5)).

Definition dilithium_decode_t1 : list Z -> list Z := dilithium_decode_t1_c.

(** Four values of 18 bits, from nine bytes. *)
Definition unpack_18 (s : list Z) (o : nat) : list Z :=
  let b i := at_ s (o + i) in
  let minus v := s32 (u32 (DILITHIUM_GAMMA1_17 - v)) in
  [ minus (Z.lor (b 0%nat) (Z.lor (Z.shiftl (b 1%nat) 8) (Z.shiftl (Z.land (b 2%nat) 0x03) 16)));
    minus (Z.lor (Z.shiftr (b 2%nat) 2) (Z.lor (Z.shiftl (b 3%nat) 6) (Z.shiftl (Z.land (b 4%nat) 0x0f) 14)));
    minus (Z.lor (Z.shiftr (b 4%nat) 4) (Z.lor (Z.shiftl (b 5%nat) 4) (Z.shiftl (Z.land (b 6%nat) 0x3f) 12)));
    minus (Z.lor (Z.shiftr (b 6%nat) 6) (Z.lor (Z.shiftl (b 7%nat) 2) (Z.shiftl (b 8%nat) 10))) ].

(** Two values of 20 bits, from five bytes. *)
Definition unpack_20 (s : list Z) (o : nat) : list Z :=
  let b i := at_ s (o + i) in
  let minus v := s32 (DILITHIUM_GAMMA1_19 - v) in
  [ minus (Z.lor (Z.lor (b 0%nat) (Z.shiftl (b 1%nat) 8)) (Z.shiftl (Z.land (b 2%nat) 0x0f) 16));
    minus (Z.lor (Z.lor (Z.shiftr (b 2%nat) 4) (Z.shiftl (b 3%nat) 4)) (Z.shiftl (b 4%nat) 12)) ].

(** [z] is the memory of the polynomial. *)
Definition dilithium_decode_gamma1_c (s : list Z) (bits : nat) (z : list Z) : list Z :=
  if (bits =? DILITHIUM_GAMMA1_BITS_17)%nat then
    emit 8 DILITHIUM_N (fun i =>
      let o := (i / 8 * DILITHIUM_GAMMA1_17_ENC_BITS)%nat in unpack_18 s o ++ unpack_18 s (o + 9))
  else if (bits =? DILITHIUM_GAMMA1_BITS_19)%nat then
    emit 8 DILITHIUM_N (fun i =>
      let o := (i / 8 * DILITHIUM_GAMMA1_19_ENC_BITS)%nat in
      unpack_20 s o ++ unpack_20 s (o + 5) ++ unpack_20 s (o + 10) ++ unpack_20 s (o + 15))
  else z.

Definition dilithium_decode_gamma1 : list Z -> nat -> list Z -> list Z := dilithium_decode_gamma1_c.

(** The polynomials of a vector, [zs] being their memory. *)
Fixpoint dilithium_vec_decode_gamma1 (x : list Z) (bits : nat) (zs : list (list Z)) : list (list Z) :=
  match zs with
  | [] => []
  | z :: zs =>
      dilithium_decode_gamma1 x bits z ::
      dilithium_vec_decode_gamma1 (drop (DILITHIUM_N / 8 * (bits + 1)) x) bits zs
  end.

(** ** FIPS 204 *)

(** Field [i] of [w] bits of an integer. *)
Definition field (w : nat) (x : Z) (i : nat) : Z :=
  Z.land (Z.shiftr x (Z.of_nat (w * i))) (Z.ones (Z.of_nat w)).

(** SimpleBitUnpack of a polynomial with values of [w] bits. *)
Definition SimpleBitUnpack (w : nat) (s : list Z) : list Z := map (field w (le_bytes s)) (seq 0 256).

(** BitUnpack with range [- 2^bits + 1 .. 2^bits]. *)
Definition BitUnpack (bits : nat) (s : list Z) : list Z :=
  map (fun v => 2 ^ Z.of_nat bits - v) (SimpleBitUnpack (S bits) s).

(** ** Fields of a byte string *)

Lemma bits_byte s n : bytes s -> Z.testbit (le_bytes s) (Z.of_nat n) = Z.testbit (at_ s (n / 8)) (Z.of_nat (n mod 8)).
Proof. intros Hs. apply Z.b2z_inj. by rewrite le_bytes_testbit. Qed.

(** Three bytes side by side. *)
Definition le3 (x y z : Z) : Z := Z.lor x (Z.lor (Z.shiftl y 8) (Z.shiftl z 16)).

Lemma le3_bit x y z n : is_byte x -> is_byte y -> is_byte z -> (n < 24)%nat ->
  Z.testbit (le3 x y z) (Z.of_nat n) = Z.testbit (nth (n / 8) [x; y; z] 0) (Z.of_nat (n mod 8)).
Proof.
  unfold is_byte. intros Hx Hy Hz Hn. unfold le3. rewrite !Z.lor_spec, !Z.shiftl_spec by lia.
  pose proof (Nat.div_mod_eq n 8) as E. pose proof (Nat.mod_upper_bound n 8 ltac:(lia)) as R.
  assert (n / 8 < 3)%nat as Hq by (apply Nat.Div0.div_lt_upper_bound; lia).
  destruct (n / 8)%nat as [|[|[|q]]]; [..|lia]; cbn [nth].
  - rewrite (Z.testbit_neg_r y), (Z.testbit_neg_r z), !orb_false_r by lia. f_equal. lia.
  - rewrite (testbit_high 8 x), (Z.testbit_neg_r z), orb_false_r by lia. cbn [orb]. f_equal. lia.
  - rewrite (testbit_high 8 x), (testbit_high 8 y) by lia. cbn [orb]. f_equal. lia.
Qed.

Lemma le3_nonneg x y z : is_byte x -> is_byte y -> is_byte z -> 0 <= le3 x y z.
Proof.
  unfold is_byte. intros. unfold le3. rewrite !Z.lor_nonneg, !Z.shiftl_nonneg. lia.
Qed.

(** A field lies in three bytes. *)
Lemma field_le3 w s i o a : bytes s -> (w * i = 8 * o + a)%nat -> (a + w <= 24)%nat ->
  field w (le_bytes s) i = le3 (at_ s o) (at_ s (o + 1)) (at_ s (o + 2)) / 2 ^ Z.of_nat a mod 2 ^ Z.of_nat w.
Proof.
  intros Hs E Ha. unfold field. rewrite <- Z.shiftr_div_pow2, <- Z.land_ones by lia.
  apply Z.bits_inj'. intros n Hn. rewrite !Z.land_spec, !Z.shiftr_spec by lia.
  destruct (Z.lt_ge_cases n (Z.of_nat w)) as [L|L].
  2: by rewrite !Z.ones_spec_high, !andb_false_r by lia.
  f_equal. replace (n + Z.of_nat (w * i)) with (Z.of_nat (a + Z.to_nat n + o * 8)) by lia.
  replace (n + Z.of_nat a) with (Z.of_nat (a + Z.to_nat n)) by lia.
  rewrite bits_byte, le3_bit by (done || lia || by apply at_byte).
  set (m := (a + Z.to_nat n)%nat). assert (m < 24)%nat by lia.
  rewrite Nat.div_add, Nat.Div0.mod_add by lia. f_equal.
  assert (m / 8 < 3)%nat as Hq by (apply Nat.Div0.div_lt_upper_bound; lia).
  unfold at_. destruct (m / 8)%nat as [|[|[|q]]]; [..|lia]; cbn [nth]; f_equal; lia.
Qed.

Lemma join3 x y z a c : is_byte x -> is_byte y -> is_byte z -> 0 <= a <= 8 -> 0 <= c <= 8 ->
  Z.lor (Z.shiftr x a) (Z.lor (Z.shiftl y (8 - a)) (Z.shiftl (Z.land z (Z.ones c)) (16 - a))) =
  le3 x y z / 2 ^ a mod 2 ^ (16 - a + c).
Proof.
  unfold is_byte. intros Hx Hy Hz Ha Hc. rewrite <- Z.shiftr_div_pow2, <- Z.land_ones by lia.
  apply Z.bits_inj'. intros n Hn.
  rewrite Z.land_spec, Z.shiftr_spec by lia. unfold le3.
  rewrite !Z.lor_spec, Z.shiftr_spec, !Z.shiftl_spec by lia.
  replace (n - (8 - a)) with (n + a - 8) by lia. replace (n - (16 - a)) with (n + a - 16) by lia.
  destruct (Z.lt_ge_cases (n + a) 16) as [L|L].
  - rewrite (Z.testbit_neg_r _ (n + a - 16)), (Z.testbit_neg_r z) by lia.
    rewrite Z.ones_spec_low by lia. by rewrite andb_true_r.
  - rewrite Z.land_spec, (testbit_high 8 x), (testbit_high 8 y) by lia. cbn [orb]. f_equal.
    destruct (Z.lt_ge_cases n (16 - a + c)); [by rewrite !Z.ones_spec_low by lia|by rewrite !Z.ones_spec_high by lia].
Qed.

Lemma join2 x y z a c : is_byte x -> is_byte y -> is_byte z -> 0 <= a <= 8 -> 0 <= c <= 8 ->
  Z.lor (Z.shiftr x a) (Z.shiftl (Z.land y (Z.ones c)) (8 - a)) = le3 x y z / 2 ^ a mod 2 ^ (8 - a + c).
Proof.
  unfold is_byte. intros Hx Hy Hz Ha Hc. rewrite <- Z.shiftr_div_pow2, <- Z.land_ones by lia.
  apply Z.bits_inj'. intros n Hn.
  rewrite Z.land_spec, Z.shiftr_spec by lia. unfold le3.
  rewrite !Z.lor_spec, Z.shiftr_spec, !Z.shiftl_spec by lia.
  replace (n - (8 - a)) with (n + a - 8) by lia.
  destruct (Z.lt_ge_cases (n + a) 8) as [L|L].
  - rewrite !(Z.testbit_neg_r _ (n + a - 8)), (Z.testbit_neg_r z) by lia.
    rewrite Z.ones_spec_low by lia. by rewrite andb_true_r, !orb_false_r.
  - rewrite Z.land_spec, (testbit_high 8 x) by lia. cbn [orb].
    destruct (Z.lt_ge_cases n (8 - a + c)); [|by rewrite !Z.ones_spec_high, !andb_false_r by lia].
    rewrite !Z.ones_spec_low, (Z.testbit_neg_r z), orb_false_r by lia. done.
Qed.

Lemma field_range w x i : 0 <= field w x i < 2 ^ Z.of_nat w.
Proof. unfold field. rewrite Z.land_ones by lia. apply Z.mod_pos_bound. lia. Qed.

(** ** Decoding reads the fields *)

Section Decode.
Context (s : list Z) (Hs : bytes s).

Let at_is_byte i : is_byte (at_ s i).
Proof. by apply at_byte. Qed.

Lemma t1_value i o a : (10 * i = 8 * o + a)%nat -> (a <= 6)%nat ->
  s32 (Z.shiftl (Z.lor (Z.shiftr (at_ s o) (Z.of_nat a))
    (Z.shiftl (Z.land (at_ s (o + 1)) (Z.ones (2 + Z.of_nat a))) (8 - Z.of_nat a))) DILITHIUM_D) =
  field 10 (le_bytes s) i * 2 ^ DILITHIUM_D.
Proof.
  intros E Ha. rewrite (join2 _ _ (at_ s (o + 2))) by (done || lia).
  replace (8 - Z.of_nat a + (2 + Z.of_nat a)) with (Z.of_nat 10) by lia.
  rewrite <- (field_le3 10 s i o a) by (done || lia). pose proof (field_range 10 (le_bytes s) i) as R.
  unfold DILITHIUM_D. rewrite Z.shiftl_mul_pow2 by lia. apply sext_small; [done|]. change (Z.of_nat 10) with 10 in R. lia.
Qed.

Lemma unpack_t1_fields i o : (10 * i = 8 * o)%nat ->
  unpack_t1 s o = map (fun c => field 10 (le_bytes s) (i + c) * 2 ^ DILITHIUM_D) (seq 0 4).
Proof.
  intros E. cbn [seq map].
  rewrite <- (t1_value (i + 0) (o + 0) 0), <- (t1_value (i + 1) (o + 1) 2),
    <- (t1_value (i + 2) (o + 2) 4), <- (t1_value (i + 3) (o + 3) 6) by lia.
  unfold unpack_t1. rewrite <- !Nat.add_assoc. repeat f_equal.
  symmetry. change (2 + Z.of_nat 6) with 8. rewrite Z.land_ones by lia. apply Z.mod_small, at_is_byte.
Qed.

Lemma gamma_value w i o a : (w * i = 8 * o + a)%nat -> (a <= 6)%nat -> (16 <= w + a <= 24)%nat ->
  Z.lor (Z.shiftr (at_ s o) (Z.of_nat a)) (Z.lor (Z.shiftl (at_ s (o + 1)) (8 - Z.of_nat a))
    (Z.shiftl (Z.land (at_ s (o + 2)) (Z.ones (Z.of_nat w + Z.of_nat a - 16))) (16 - Z.of_nat a))) =
  field w (le_bytes s) i.
Proof.
  intros E Ha Hw. rewrite join3 by (done || lia).
  replace (16 - Z.of_nat a + (Z.of_nat w + Z.of_nat a - 16)) with (Z.of_nat w) by lia.
  symmetry. apply field_le3; [done|done|lia].
Qed.

Lemma land_byte i : Z.land (at_ s i) (Z.ones 8) = at_ s i.
Proof. rewrite Z.land_ones by lia. apply Z.mod_small, at_is_byte. Qed.

Lemma unpack_18_fields i o : (18 * i = 8 * o)%nat ->
  unpack_18 s o = map (fun c => 2 ^ 17 - field 18 (le_bytes s) (i + c)) (seq 0 4).
Proof.
  intros E. transitivity (map (fun c => s32 (u32 (DILITHIUM_GAMMA1_17 - field 18 (le_bytes s) (i + c)))) (seq 0 4)).
  - cbn [seq map].
    rewrite <- (gamma_value 18 (i + 0) (o + 0) 0), <- (gamma_value 18 (i + 1) (o + 2) 2),
      <- (gamma_value 18 (i + 2) (o + 4) 4), <- (gamma_value 18 (i + 3) (o + 6) 6) by lia.
    change (Z.of_nat 0) with 0. rewrite Z.shiftr_0_r. unfold unpack_18. rewrite <- !Nat.add_assoc. repeat f_equal. symmetry. apply land_byte.
  - apply map_ext. intros c. pose proof (field_range 18 (le_bytes s) (i + c)) as R. change (2 ^ Z.of_nat 18) with 262144 in R.
    rewrite s32_wrap. apply sext_small; [done|]. unfold DILITHIUM_GAMMA1_17. cbn. lia.
Qed.

Lemma unpack_20_fields i o : (20 * i = 8 * o)%nat ->
  unpack_20 s o = map (fun c => 2 ^ 19 - field 20 (le_bytes s) (i + c)) (seq 0 2).
Proof.
  intros E. transitivity (map (fun c => s32 (DILITHIUM_GAMMA1_19 - field 20 (le_bytes s) (i + c))) (seq 0 2)).
  - cbn [seq map].
    rewrite <- (gamma_value 20 (i + 0) (o + 0) 0), <- (gamma_value 20 (i + 1) (o + 2) 4) by lia.
    change (Z.of_nat 0) with 0. rewrite Z.shiftr_0_r. unfold unpack_20. rewrite <- !Z.lor_assoc, <- !Nat.add_assoc. repeat f_equal. symmetry. apply land_byte.
  - apply map_ext. intros c. pose proof (field_range 20 (le_bytes s) (i + c)) as R. change (2 ^ Z.of_nat 20) with 1048576 in R.
    apply sext_small; [done|]. unfold DILITHIUM_GAMMA1_19. cbn. lia.
Qed.

End Decode.

(** A decoder that gives eight fields per turn. *)
Lemma emit_fields (f : nat -> list Z) (G : nat -> Z) :
  (forall k, (k < 32)%nat -> f (k * 8)%nat = map (fun c => G (k * 8 + c)%nat) (seq 0 8)) ->
  emit 8 DILITHIUM_N f = map G (seq 0 256).
Proof.
  intros Hf. change (seq 0 256) with (seq 0 (DILITHIUM_N / 8 * 8)). rewrite <- emit_pointwise.
  apply emit_ext; [done|]. intros k Hk. by apply Hf.
Qed.

Lemma map_seq_split {A} (G : nat -> A) i n m :
  map (fun c => G (i + c)%nat) (seq 0 n) ++ map (fun c => G (i + n + c)%nat) (seq 0 m) = map (fun c => G (i + c)%nat) (seq 0 (n + m)).
Proof.
  rewrite seq_app, List.map_app. f_equal. cbn [Nat.add].
  replace (seq n m) with (map (Nat.add n) (seq 0 m)); [|pose proof (fmap_add_seq n 0 m) as E; by rewrite Nat.add_0_r in E].
  rewrite map_map. apply map_ext. intros c. f_equal. lia.
Qed.

Lemma decode_t1_spec s : bytes s -> dilithium_decode_t1 s = map (fun v => v * 2 ^ DILITHIUM_D) (SimpleBitUnpack 10 s).
Proof.
  intros Hs. unfold SimpleBitUnpack. rewrite map_map. apply emit_fields. intros k Hk. cbv zeta. unfold DILITHIUM_U. rewrite Nat.div_mul by done.
  rewrite (unpack_t1_fields s Hs (k * 8)), (unpack_t1_fields s Hs (k * 8 + 4)) by lia.
  apply (map_seq_split (fun i => field 10 (le_bytes s) i * 2 ^ DILITHIUM_D) (k * 8) 4 4).
Qed.

Lemma decode_gamma1_17_spec s z : bytes s -> dilithium_decode_gamma1 s 17 z = BitUnpack 17 s.
Proof.
  intros Hs. unfold BitUnpack, SimpleBitUnpack. rewrite map_map. apply emit_fields. intros k Hk. cbv zeta. unfold DILITHIUM_GAMMA1_17_ENC_BITS. rewrite Nat.div_mul by done.
  rewrite (unpack_18_fields s Hs (k * 8)), (unpack_18_fields s Hs (k * 8 + 4)) by lia.
  apply (map_seq_split (fun i => 2 ^ 17 - field 18 (le_bytes s) i) (k * 8) 4 4).
Qed.

Lemma decode_gamma1_19_spec s z : bytes s -> dilithium_decode_gamma1 s 19 z = BitUnpack 19 s.
Proof.
  intros Hs. unfold BitUnpack, SimpleBitUnpack. rewrite map_map. apply emit_fields. intros k Hk. cbv zeta. unfold DILITHIUM_GAMMA1_19_ENC_BITS. rewrite Nat.div_mul by done.
  rewrite (unpack_20_fields s Hs (k * 8)), (unpack_20_fields s Hs (k * 8 + 2)),
    (unpack_20_fields s Hs (k * 8 + 2 + 2)), (unpack_20_fields s Hs (k * 8 + 2 + 2 + 2)) by lia.
  set (G i := 2 ^ 19 - field 20 (le_bytes s) i).
  pose proof (map_seq_split G (k * 8) 2 6) as E1. pose proof (map_seq_split G (k * 8 + 2) 2 4) as E2.
  pose proof (map_seq_split G (k * 8 + 2 + 2) 2 2) as E3. unfold G in *.
  change (2 + 2)%nat with 4%nat in E3. change (2 + 4)%nat with 6%nat in E2. by rewrite E3, E2, E1.
Qed.

(** The values of a decoded response and of a decoded public key. *)
Lemma BitUnpack_range bits s : Forall (fun v => - 2 ^ Z.of_nat bits < v <= 2 ^ Z.of_nat bits) (BitUnpack bits s).
Proof.
  unfold BitUnpack, SimpleBitUnpack. rewrite map_map. apply Forall_fmap, Forall_forall. intros i _. unfold compose.
  pose proof (field_range (S bits) (le_bytes s) i) as R. replace (Z.of_nat (S bits)) with (Z.succ (Z.of_nat bits)) in R by lia.
  rewrite Z.pow_succ_r in R by lia. lia.
Qed.

Lemma vec_decode_gamma1_17 x zs : bytes x -> dilithium_vec_decode_gamma1 x 17 zs =
  map (fun i => BitUnpack 17 (drop (576 * i) x)) (seq 0 (length zs)).
Proof.
  revert x. induction zs as [|z zs IH]; intros x Hx; [done|]. cbn [dilithium_vec_decode_gamma1 length seq map].
  rewrite decode_gamma1_17_spec, IH by (done || by apply Forall_drop). f_equal.
  rewrite <- seq_shift, map_map. apply map_ext. intros i. rewrite drop_drop.
  change (DILITHIUM_N / 8 * (17 + 1))%nat with 576%nat. do 2 f_equal. lia.
Qed.

(** The public key and the response of a signature are decoded as FIPS 204
    says: SimpleBitUnpack of the 10-bit values of [t1], multiplied by [2^13], and
    BitUnpack of the 18-bit or 20-bit values of [z]; the values of [z] are above
    [- gamma1] and at most [gamma1].  Any bytes decode to some polynomial, and the
    memory of the polynomial does not matter. *)
Theorem decoding_is_BitUnpack s z (Hs : bytes s) :
  dilithium_decode_t1 s = map (fun v => v * 2 ^ DILITHIUM_D) (SimpleBitUnpack 10 s) /\
  dilithium_decode_gamma1 s DILITHIUM_GAMMA1_BITS_17 z = BitUnpack 17 s /\
  dilithium_decode_gamma1 s DILITHIUM_GAMMA1_BITS_19 z = BitUnpack 19 s /\
  Forall (fun v => - DILITHIUM_GAMMA1_17 < v <= DILITHIUM_GAMMA1_17) (BitUnpack 17 s) /\
  Forall (fun v => - DILITHIUM_GAMMA1_19 < v <= DILITHIUM_GAMMA1_19) (BitUnpack 19 s).
Proof.
  rewrite decode_t1_spec, decode_gamma1_17_spec, decode_gamma1_19_spec by done.
  split_and!; [done|done|done|exact (BitUnpack_range 17 s)|exact (BitUnpack_range 19 s)].
Qed.

Lemma decoding_is_BitUnpack_witness :
  bytes [1; 2; 3; 255; 128; 7; 9; 200; 90; 33] /\
  take 4 (dilithium_decode_t1 [1; 2; 3; 255; 128; 7; 9; 200; 90; 33]) = map (fun v => v * 8192) [513; 192; 1008; 515] /\
  dilithium_decode_gamma1 [1; 2; 3; 255; 128; 7; 9; 200; 90; 33] 17 [] =
    BitUnpack 17 [1; 2; 3; 255; 128; 7; 9; 200; 90; 33].
Proof.
  assert (H : bytes [1; 2; 3; 255; 128; 7; 9; 200; 90; 33]) by (repeat constructor; done).
  split; [exact H|split; [vm_compute; reflexivity|apply (decoding_is_BitUnpack _ [] H)]].
Defined.
