(* ===== verification/MldsaSample.v ===== *)
(** * Sampling of ML-DSA (src/boot/wolfcrypt/src/dilithium.c)

    The hash calls of verification, the expansion of a matrix entry by rejection
    and the challenge polynomial, against RejNTTPoly and SampleInBall of FIPS
    204.  Hashing is the interface [DsaHash]: that of ML-KEM with what
    SHAKE-256 squeezes from an object that has been reset, because the challenge
    sampler goes on squeezing after the final call, which resets the object. *)

From S2P Require Import Prelude.
From S2P Require Import MlkemNtt.
From S2P Require Import MlkemMul.
From S2P Require Import MlkemCodec.
From S2P Require Import MlkemSample.
From S2P Require Import MldsaHint.

Definition DILITHIUM_SIGN_BYTES : nat := 8.
Definition DILITHIUM_GEN_A_SEED_SZ : nat := 34.
Definition DILITHIUM_GEN_A_NBLOCKS : nat := 5.
Definition DILITHIUM_GEN_A_BLOCK_BYTES : nat := 168.
Definition DILITHIUM_GEN_A_BYTES : nat := DILITHIUM_GEN_A_NBLOCKS * DILITHIUM_GEN_A_BLOCK_BYTES.
Definition DILITHIUM_GEN_C_BLOCK_BYTES : nat := 136.

Class DsaHash : Type := {
  dsa_kem :: KemHash;
  (** block [i] squeezed from a reset SHAKE-256 object *)
  reset256_block : nat -> list Z }.

Class DsaHashLaws (DH : DsaHash) : Prop := {
  dsa_kem_laws :: KemHashLaws dsa_kem;
  reset256_bytes : forall i,
    length (reset256_block i) = DILITHIUM_GEN_C_BLOCK_BYTES /\ is_byte_list (reset256_block i) }.

(** ** A matrix entry *)

(** The 23-bit value of three bytes of [h] from [c]. *)
Definition rej_value (h : list Z) (c : nat) : Z :=
  Z.land (at_ h c + Z.shiftl (at_ h (c + 1)) 8 + Z.shiftl (at_ h (c + 2)) 16) 0x7fffff.

(** [a[j] = t; j += (t < DILITHIUM_Q)]. *)
Definition rej_put (h : list Z) (st : list Z * nat) (c : nat) : list Z * nat :=
  let '(a, j) := st in
  let t := rej_value h c in
  (<[j := t]> a, if t <? DILITHIUM_Q then S j else j).

(** [for (; c < end; c += 3)] until there are enough values. *)
Fixpoint rej_scan (h : list Z) (cs : list nat) (a : list Z) (j : nat) : list Z * nat :=
  match cs with
  | [] => (a, j)
  | c :: cs =>
      let t := rej_value h c in
      if t <? DILITHIUM_Q then
        let a := <[j := t]> a in
        if (S j =? DILITHIUM_N)%nat then (a, S j) else rej_scan h cs a (S j)
      else rej_scan h cs a j
  end.

Definition triplets (from upto : nat) : list nat :=
  map (fun i => (from + 3 * i)%nat) (seq 0 ((upto - from) / 3)).

Section Expand.
Context {DH : DsaHash}.

(** [while (j < DILITHIUM_N)]: one more block per turn, [blk] blocks so far. *)
Fixpoint rej_while (fuel : nat) (seed h : list Z) (blk : nat) (a : list Z) (j : nat) : option (list Z) :=
  if (j <? DILITHIUM_N)%nat then
    match fuel with
    | O => None
    | S fuel =>
        let h := blit 0 (shake128_block seed blk) h in
        let '(a, j) := rej_scan h (triplets 0 DILITHIUM_GEN_A_BLOCK_BYTES) a j in
        rej_while fuel seed h (S blk) a j
    end
  else Some a.

Definition dilithium_squeeze128 (seed : list Z) (outBlocks : nat) : list Z :=
  concat (map (shake128_block seed) (seq 0 outBlocks)).

(** [a] holds what the memory of the polynomial held; the first 34 bytes of [seed]
    are hashed. *)
Definition dilithium_rej_ntt_poly_ex (fuel : nat) (seed a : list Z) : option (list Z) :=
  let seed := take DILITHIUM_GEN_A_SEED_SZ seed in
  let h := dilithium_squeeze128 seed DILITHIUM_GEN_A_NBLOCKS in
  let '(a, j) :=
    for_by 24 (DILITHIUM_N * 3)
      (fun c st => fold_left (rej_put h) [c; c + 3; c + 6; c + 9; c + 12; c + 15; c + 18; c + 21]%nat st)
      (a, 0%nat) in
  let '(a, j) :=
    if (j <? DILITHIUM_N)%nat
    then rej_scan h (triplets (DILITHIUM_N * 3) DILITHIUM_GEN_A_BYTES) a j else (a, j) in
  rej_while fuel seed h DILITHIUM_GEN_A_NBLOCKS a j.

(** ** The challenge *)

(** The block being read, the index in it, and how many blocks were squeezed
    since the object was reset. *)
Definition reader : Type := list Z * nat * nat.

Definition read_byte (s : reader) : Z * reader :=
  let '(block, k, n) := s in
  let '(block, k, n) :=
    if (k =? DILITHIUM_GEN_C_BLOCK_BYTES)%nat then (reset256_block n, 0%nat, S n) else (block, k, n) in
  (at_ block k, (block, S k, n)).

(** [do { j = block[k++]; } while (j > i)]. *)
Fixpoint read_index (fuel i : nat) (s : reader) : option (nat * reader) :=
  match fuel with
  | O => None
  | S fuel =>
      let '(j, s) := read_byte s in
      if Z.of_nat i <? j then read_index fuel i s else Some (Z.to_nat j, s)
  end.

(** The [n] turns of the loop from [i], with the sign bit [s]. *)
Fixpoint ball_loop (fuel : nat) (signs : list Z) (n i s : nat) (r : reader) (c : list Z) : option (list Z) :=
  match n with
  | O => Some c
  | S n =>
      match read_index fuel i r with
      | None => None
      | Some (j, r) =>
          let c := <[i := at_ c j]> c in
          let bit := Z.land (Z.shiftr (at_ signs (s / 8)) (Z.of_nat (s mod 8))) 1 in
          let c := <[j := 1 - Z.shiftl bit 1]> c in
          ball_loop fuel signs n (S i) (S s) r c
      end
  end.

Definition dilithium_sample_in_ball_ex (fuel : nat) (seed : list Z) (seedLen tau : nat) : option (list Z) :=
  let block := shake256 (take seedLen seed) DILITHIUM_GEN_C_BLOCK_BYTES in
  let signs := take DILITHIUM_SIGN_BYTES block in
  ball_loop fuel signs tau (DILITHIUM_N - tau) 0 (block, DILITHIUM_SIGN_BYTES, 0%nat)
    (replicate DILITHIUM_N 0).

End Expand.

(** ** FIPS 204 *)

(** CoeffFromThreeBytes on every three bytes; what is below [q] is kept. *)
Fixpoint dsa_candidates (r : list Z) : list Z :=
  match r with
  | b0 :: b1 :: b2 :: r =>
      let z := b2 mod 128 * 2 ^ 16 + b1 * 2 ^ 8 + b0 in
      if z <? DILITHIUM_Q then z :: dsa_candidates r else dsa_candidates r
  | _ => []
  end.

(** RejNTTPoly from the first [m] blocks of SHAKE-128. *)
Definition RejNTTPoly {DH : DsaHash} (seed : list Z) (m : nat) : list Z :=
  take DILITHIUM_N (dsa_candidates (squeezeblocks seed 0 m)).

(** SampleInBall: the bytes of the stream after the eight of the signs; [None]
    when the stream is too short. *)
Fixpoint next_index (i : nat) (stream : list Z) : option (nat * list Z) :=
  match stream with
  | [] => None
  | j :: stream => if Z.of_nat i <? j then next_index i stream else Some (Z.to_nat j, stream)
  end.

Fixpoint ball (signs : list Z) (tau n i : nat) (stream c : list Z) : option (list Z) :=
  match n with
  | O => Some c
  | S n =>
      match next_index i stream with
      | None => None
      | Some (j, stream) =>
          let c := <[i := at_ c j]> c in
          let c := <[j := if stream_bit 8 signs (i + tau - 256) then -1 else 1]> c in
          ball signs tau n (S i) stream c
      end
  end.

Definition SampleInBall (tau : nat) (output : list Z) : option (list Z) :=
  ball (take 8 output) tau tau (256 - tau) (drop 8 output) (replicate 256 0).

(** ** The matrix entries are RejNTTPoly *)

(** The values of [h] at the offsets [cs] that are kept. *)
Definition kept (h : list Z) (cs : list nat) : list Z :=
  filter (fun t => t < DILITHIUM_Q) (map (rej_value h) cs).

Lemma kept_app h cs ds : kept h (cs ++ ds) = kept h cs ++ kept h ds.
Proof. unfold kept. by rewrite List.map_app, filter_app. Qed.

Lemma kept_length h cs : (length (kept h cs) <= length cs)%nat.
Proof. unfold kept. rewrite <- (length_map (rej_value h) cs). apply length_filter. Qed.

(** The polynomial holds the values [v], and room after them. *)
Definition holds (v : list Z) (st : list Z * nat) : Prop :=
  let '(a, j) := st in
  length a = DILITHIUM_N /\ j = length v /\ (j <= DILITHIUM_N)%nat /\ take j a = v.

Lemma holds_push v a j t : holds v (a, j) -> (j < DILITHIUM_N)%nat -> holds (v ++ [t]) (<[j := t]> a, S j).
Proof.
  intros (L & E & Hj & T) Hlt. split_and!.
  - by rewrite length_insert.
  - rewrite length_app. cbn [length]. lia.
  - lia.
  - rewrite (take_S_r _ _ t) by (apply list_lookup_insert_eq; lia). by rewrite take_insert_ge, T by lia.
Qed.

Lemma holds_junk v a j t : holds v (a, j) -> holds v (<[j := t]> a, j).
Proof.
  intros (L & E & Hj & T). split_and!; [by rewrite length_insert|done|done|by rewrite take_insert_ge by lia].
Qed.

Lemma kept_one h c : kept h [c] = if rej_value h c <? DILITHIUM_Q then [rej_value h c] else [].
Proof.
  unfold kept. cbn [map]. rewrite filter_cons, filter_nil.
  destruct (Z.ltb_spec (rej_value h c) DILITHIUM_Q); [by rewrite decide_True|by rewrite decide_False by lia].
Qed.

Lemma rej_put_holds h v st c : holds v st -> (length v < DILITHIUM_N)%nat -> holds (v ++ kept h [c]) (rej_put h st c).
Proof.
  destruct st as [a j]. intros H L. cbn [rej_put]. rewrite kept_one.
  assert (j < DILITHIUM_N)%nat by (destruct H as (_ & -> & _); lia).
  destruct (_ <? _); [by apply holds_push|]. rewrite app_nil_r. by apply holds_junk.
Qed.

Lemma rej_puts_hold h cs v st : holds v st -> (length v + length cs <= DILITHIUM_N)%nat ->
  holds (v ++ kept h cs) (fold_left (rej_put h) cs st).
Proof.
  revert v st. induction cs as [|c cs IH]; intros v st H L; cbn [length fold_left] in *.
  - unfold kept. by rewrite app_nil_r.
  - change (c :: cs) with ([c] ++ cs). rewrite kept_app, app_assoc. pose proof (kept_length h [c]) as Hk.
    apply IH; [apply rej_put_holds; [done|lia]|]. rewrite length_app. cbn [length] in Hk. lia.
Qed.

Lemma rej_scan_holds h cs v a j : holds v (a, j) -> (j < DILITHIUM_N)%nat ->
  holds (take DILITHIUM_N (v ++ kept h cs)) (rej_scan h cs a j).
Proof.
  revert v a j. induction cs as [|c cs IH]; intros v a j H Hj; cbn [rej_scan].
  - unfold kept. rewrite app_nil_r. destruct H as (L & E & Hle & T). rewrite take_ge by lia. done.
  - change (c :: cs) with ([c] ++ cs). rewrite kept_app, app_assoc, kept_one.
    destruct (rej_value h c <? DILITHIUM_Q); [|rewrite app_nil_r; by apply IH].
    pose proof (holds_push _ _ _ (rej_value h c) H Hj) as H'.
    destruct (Nat.eqb_spec (S j) DILITHIUM_N) as [E|E]; [|apply IH; [done|lia]].
    rewrite take_app_le, take_ge by (destruct H' as (_ & <- & _); lia). done.
Qed.

Lemma rej_value_eq h c : 0 <= at_ h c < 256 -> 0 <= at_ h (c + 1) < 256 -> 0 <= at_ h (c + 2) < 256 ->
  rej_value h c = at_ h (c + 2) mod 128 * 2 ^ 16 + at_ h (c + 1) * 2 ^ 8 + at_ h c.
Proof.
  intros H0 H1 H2. unfold rej_value. change 0x7fffff with (Z.ones 23).
  rewrite !Z.shiftl_mul_pow2, <- wrap_land_ones by lia. unfold wrap. lia_mod.
Qed.

Lemma dsa_candidates_app r s n : length r = (3 * n)%nat -> dsa_candidates (r ++ s) = dsa_candidates r ++ dsa_candidates s.
Proof.
  revert r. induction n as [|n IH]; intros r Hr.
  - destruct r; [done|]. cbn in Hr. lia.
  - destruct r as [|a [|b [|c r]]]; cbn in Hr; [lia..|]. cbn [app dsa_candidates].
    rewrite IH by lia. by destruct (_ <? _).
Qed.

Lemma dsa_candidates_range r : bytes r -> Forall (fun v => 0 <= v < DILITHIUM_Q) (dsa_candidates r).
Proof.
  induction r as [|a|a b|a b c r IH] using list_ind3; intros Hr; [constructor..|].
  rewrite !Forall_cons in Hr. destruct Hr as (Ha & Hb & Hc & Hr). cbn [dsa_candidates].
  unfold is_byte in *. destruct (Z.ltb_spec (c mod 128 * 2 ^ 16 + b * 2 ^ 8 + a) DILITHIUM_Q); [|auto].
  constructor; [split; lia_mod|auto].
Qed.

Lemma slice_three (h : list Z) from n : (from + 3 <= length h)%nat ->
  slice from (3 * S n) h = at_ h from :: at_ h (from + 1) :: at_ h (from + 2) :: slice (from + 3) (3 * n) h.
Proof.
  intros L. unfold slice, at_. rewrite <- drop_drop.
  replace (3 * S n)%nat with (S (S (S (3 * n)))) by lia.
  assert (forall i, nth (from + i) h 0 = nth i (drop from h) 0) as E0 by (intros i; by rewrite !nth_lookup, lookup_drop).
  rewrite <- (Nat.add_0_r from) at 2. rewrite !E0.
  destruct (drop from h) as [|x [|y [|z r]]] eqn:E; pose proof (length_drop h from) as E'; rewrite E in E'; cbn in E'; [lia..|].
  done.
Qed.

Lemma kept_triplets h from n : bytes h -> (from + 3 * n <= length h)%nat ->
  kept h (map (fun i => (from + 3 * i)%nat) (seq 0 n)) = dsa_candidates (slice from (3 * n) h).
Proof.
  intros Hb. revert from. induction n as [|n IH]; intros from L; [by unfold slice; rewrite take_0|].
  rewrite slice_three by lia. cbn [seq map dsa_candidates]. rewrite <- seq_shift, map_map.
  rewrite (map_ext _ (fun i => (from + 3 + 3 * i)%nat)) by lia.
  change (?x :: ?l) with ([x] ++ l). rewrite kept_app, kept_one, IH, Nat.mul_0_r, Nat.add_0_r by lia.
  rewrite rej_value_eq by by apply at_byte. by destruct (_ <? _).
Qed.

Section ExpandLaws.
Context {DH : DsaHash} {DL : DsaHashLaws DH}.

Lemma RejNTTPoly_next seed m : RejNTTPoly seed (S m) =
  take DILITHIUM_N (RejNTTPoly seed m ++ dsa_candidates (shake128_block seed m)).
Proof.
  unfold RejNTTPoly. replace (S m) with (m + 1)%nat by lia. rewrite squeezeblocks_app, squeezeblocks_one.
  destruct (squeezeblocks_bytes seed 0 m) as [L _]. rewrite (dsa_candidates_app _ _ _ L).
  rewrite !take_app, take_take, Nat.min_id, length_take. f_equal. f_equal. lia.
Qed.

Lemma RejNTTPoly_stable seed m n : (DILITHIUM_N <= length (RejNTTPoly seed m))%nat ->
  RejNTTPoly seed (m + n) = RejNTTPoly seed m.
Proof.
  intros Hl. induction n as [|n IH]; [by rewrite Nat.add_0_r|].
  rewrite Nat.add_succ_r, RejNTTPoly_next, IH, take_app_le by done.
  apply take_ge. unfold RejNTTPoly. rewrite length_take. lia.
Qed.

Lemma holds_full v a j : holds v (a, j) -> (DILITHIUM_N <= j)%nat -> a = v.
Proof. intros (L & E & Hle & T) Hj. rewrite <- T. symmetry. apply take_ge. lia. Qed.

Lemma rej_while_spec fuel seed h m a j : (168 <= length h)%nat -> bytes h -> holds (RejNTTPoly seed m) (a, j) ->
  (DILITHIUM_N <= length (RejNTTPoly seed (m + fuel)))%nat ->
  rej_while fuel seed h m a j = Some (RejNTTPoly seed (m + fuel)).
Proof.
  revert h m a j. induction fuel as [|fuel IH]; intros h m a j Hh Hb H Hl; cbn [rej_while];
    destruct (Nat.ltb_spec j DILITHIUM_N) as [L|L].
  2, 4: rewrite (holds_full _ _ _ H L), RejNTTPoly_stable; [done|destruct H as (_ & <- & _); lia].
  - rewrite Nat.add_0_r in Hl. destruct H as (_ & -> & _). lia.
  - destruct (shake128_bytes seed m) as [L1 F1]. set (h' := blit 0 _ h).
    assert (h' = shake128_block seed m ++ drop 168 h) as Eh.
    { subst h'. unfold blit. rewrite take_0, take_ge by (rewrite L1; unfold XOF_BLOCK_SIZE; lia). by rewrite L1. }
    assert (bytes h') as Hb' by (rewrite Eh; apply Forall_app; split; [done|by apply Forall_drop]).
    assert (168 <= length h')%nat as Hh' by (rewrite Eh, length_app, L1; unfold XOF_BLOCK_SIZE; lia).
    pose proof (rej_scan_holds h' (triplets 0 DILITHIUM_GEN_A_BLOCK_BYTES) _ _ _ H L) as H'.
    destruct (rej_scan _ _ a j) as [a' j']. unfold triplets in H'.
    rewrite kept_triplets in H' by (done || exact Hh').
    replace (slice 0 _ h') with (shake128_block seed m) in H'.
    2: { rewrite Eh. unfold slice. rewrite drop_0. symmetry. by apply take_app_length'. }
    rewrite <- RejNTTPoly_next in H'. rewrite Nat.add_succ_r in *. by apply (IH h' (S m)).
Qed.

Lemma first_triplets h a : length a = DILITHIUM_N -> bytes h -> (840 <= length h)%nat ->
  holds (dsa_candidates (slice 0 768 h))
    (for_by 24 (DILITHIUM_N * 3)
      (fun c st => fold_left (rej_put h) [c; c + 3; c + 6; c + 9; c + 12; c + 15; c + 18; c + 21]%nat st) (a, 0%nat)).
Proof.
  intros La Hb Hh. change 768%nat with (3 * 256)%nat. rewrite <- (kept_triplets h 0 256) by (done || lia).
  apply (for_by_ind (fun k => holds (kept h (map (fun i => (0 + 3 * i)%nat) (seq 0 (8 * k)))))).
  { split_and!; [done|done|lia|done]. }
  intros k st Hk H. change (DILITHIUM_N * 3 / 24)%nat with 32%nat in Hk.
  replace (seq 0 (8 * S k)) with (seq 0 (8 * k) ++ seq (8 * k) 8) by (rewrite <- seq_app; f_equal; lia).
  rewrite List.map_app, kept_app.
  replace (map _ (seq (8 * k) 8)) with
    [k * 24; k * 24 + 3; k * 24 + 6; k * 24 + 9; k * 24 + 12; k * 24 + 15; k * 24 + 18; k * 24 + 21]%nat
    by (cbn [seq map]; repeat (f_equal; try lia)).
  apply rej_puts_hold; [done|].
  pose proof (kept_length h (map (fun i => (0 + 3 * i)%nat) (seq 0 (8 * k)))) as Hl.
  rewrite length_map, length_seq in Hl. cbn [length]. unfold DILITHIUM_N. lia.
Qed.

Lemma squeeze128_bytes seed n : length (dilithium_squeeze128 seed n) = (168 * n)%nat /\ bytes (dilithium_squeeze128 seed n).
Proof. destruct (squeezeblocks_bytes seed 0 n) as [L F]. unfold squeezeblocks in *. split; [etransitivity; [exact L|lia]|exact F]. Qed.

Lemma rej_ntt_poly_spec fuel seed a : length a = DILITHIUM_N ->
  let seed34 := take DILITHIUM_GEN_A_SEED_SZ seed in
  (DILITHIUM_N <= length (RejNTTPoly seed34 (DILITHIUM_GEN_A_NBLOCKS + fuel)))%nat ->
  dilithium_rej_ntt_poly_ex fuel seed a = Some (RejNTTPoly seed34 (DILITHIUM_GEN_A_NBLOCKS + fuel)).
Proof.
  intros La seed34 Hl. unfold dilithium_rej_ntt_poly_ex. fold seed34. generalize dependent seed34. clear seed. intros seed Hl. cbv zeta.
  destruct (squeeze128_bytes seed DILITHIUM_GEN_A_NBLOCKS) as [Lh Hb].
  set (h := dilithium_squeeze128 seed DILITHIUM_GEN_A_NBLOCKS) in *. unfold DILITHIUM_GEN_A_NBLOCKS in Lh.
  pose proof (first_triplets h a La Hb ltac:(lia)) as H. destruct (for_by _ _ _ _) as [a1 j1].
  assert (holds (RejNTTPoly seed DILITHIUM_GEN_A_NBLOCKS)
    (if (j1 <? DILITHIUM_N)%nat then rej_scan h (triplets (DILITHIUM_N * 3) DILITHIUM_GEN_A_BYTES) a1 j1 else (a1, j1))) as H'.
  { assert (RejNTTPoly seed DILITHIUM_GEN_A_NBLOCKS = take DILITHIUM_N
      (dsa_candidates (slice 0 768 h) ++ dsa_candidates (slice 768 72 h))) as ->.
    { unfold RejNTTPoly. rewrite <- (dsa_candidates_app _ _ 256) by (rewrite length_slice; lia). do 2 f_equal.
      rewrite <- slice_split. unfold slice. rewrite drop_0, take_ge by lia. done. }
    destruct (Nat.ltb_spec j1 DILITHIUM_N) as [L|L].
    - pose proof (rej_scan_holds h (map (fun i => (768 + 3 * i)%nat) (seq 0 24)) _ _ _ H L) as Hs.
      rewrite kept_triplets in Hs by (done || lia). exact Hs.
    - rewrite take_app_le, take_ge; try done; destruct H as (_ & <- & H & _); lia. }
  destruct (if (j1 <? DILITHIUM_N)%nat then _ else _) as [a2 j2]. apply rej_while_spec; [lia|done|done|done].
Qed.

Lemma RejNTTPoly_reduced seed m : Forall (fun v => 0 <= v < DILITHIUM_Q) (RejNTTPoly seed m).
Proof. apply Forall_take, dsa_candidates_range, squeezeblocks_bytes. Qed.

End ExpandLaws.

(** ** The challenge is SampleInBall *)

Section Ball.
Context {DH : DsaHash} {DL : DsaHashLaws DH}.

(** The bytes a reader has before it: the rest of its block and [m] blocks more. *)
Definition ahead (r : reader) (m : nat) : list Z :=
  let '(block, k, n) := r in drop k block ++ concat (map reset256_block (seq n m)).

Definition reads (r : reader) : Prop :=
  let '(block, k, n) := r in length block = DILITHIUM_GEN_C_BLOCK_BYTES /\ (k <= DILITHIUM_GEN_C_BLOCK_BYTES)%nat.

Lemma read_byte_spec r m x rest : reads r -> ahead r m = x :: rest ->
  exists r' m', read_byte r = (x, r') /\ reads r' /\ ahead r' m' = rest.
Proof.
  destruct r as [[block k] n]. intros [L Hk] E. unfold ahead in E. unfold read_byte.
  assert (Hstep : forall b i N M, length b = DILITHIUM_GEN_C_BLOCK_BYTES -> (i < DILITHIUM_GEN_C_BLOCK_BYTES)%nat ->
    drop i b ++ concat (map reset256_block (seq N M)) = x :: rest ->
    exists r' m', (at_ b i, (b, S i, N)) = (x, r') /\ reads r' /\ ahead r' m' = rest).
  { intros b i N M Lb Hi Eb. destruct (drop i b) as [|y l] eqn:Ed.
    - pose proof (length_drop b i) as Ld. rewrite Ed in Ld. cbn in Ld. lia.
    - injection Eb as -> <-. exists (b, S i, N), M. unfold at_. replace (nth i b 0) with x.
      2: { rewrite <- (Nat.add_0_r i), nth_lookup, <- lookup_drop, Ed. done. }
      split_and!; [done|split; [done|lia]|]. unfold ahead. replace (S i) with (i + 1)%nat by lia. by rewrite <- drop_drop, Ed. }
  destruct (Nat.eqb_spec k DILITHIUM_GEN_C_BLOCK_BYTES) as [->|N]; [|apply (Hstep _ _ _ m); [done|lia|done]].
  rewrite drop_ge in E by lia. destruct m as [|m]; [done|]. cbn [seq map concat app] in E.
  apply (Hstep _ _ _ m); [apply reset256_bytes|unfold DILITHIUM_GEN_C_BLOCK_BYTES; lia|done].
Qed.

Lemma read_index_spec i stream r m fuel j rest : reads r -> ahead r m = stream -> (length stream <= fuel)%nat ->
  next_index i stream = Some (j, rest) ->
  exists r' m', read_index fuel i r = Some (j, r') /\ reads r' /\ ahead r' m' = rest.
Proof.
  revert r m fuel. induction stream as [|x stream IH]; intros r m fuel R E Hf Hn; [done|].
  destruct fuel as [|fuel]; cbn [length next_index read_index] in *; [lia|].
  destruct (read_byte_spec r m x stream R E) as (r' & m' & -> & R' & E').
  destruct (Z.of_nat i <? x); [apply (IH _ m'); [done|done|lia|done]|].
  injection Hn as <- <-. by exists r', m'.
Qed.

Lemma next_index_length i stream j rest : next_index i stream = Some (j, rest) ->
  (length rest <= length stream)%nat /\ (j <= i)%nat.
Proof.
  induction stream as [|x stream IH]; cbn; [done|]. destruct (Z.ltb_spec (Z.of_nat i) x).
  - intros Hn%IH. lia.
  - intros [= <- <-]. lia.
Qed.

(** [1 - (bit << 1)] *)
Lemma sign_value signs s :
  1 - Z.shiftl (Z.land (Z.shiftr (at_ signs (s / 8)) (Z.of_nat (s mod 8))) 1) 1 = if stream_bit 8 signs s then -1 else 1.
Proof.
  assert (forall a, Z.land a 1 = Z.b2z (Z.testbit a 0)) as E.
  { intros a. change 1 with (Z.ones 1) at 1. rewrite Z.land_ones by lia. symmetry. apply Z.bit0_mod. }
  unfold stream_bit, at_. rewrite E, Z.shiftr_spec, Z.add_0_l by lia. by destruct (Z.testbit _ _).
Qed.

Lemma ball_loop_spec fuel signs tau n i stream r m c res : reads r -> ahead r m = stream -> (length stream <= fuel)%nat ->
  (256 <= i + tau)%nat ->
  ball signs tau n i stream c = Some res -> ball_loop fuel signs n i (i + tau - 256) r c = Some res.
Proof.
  revert i stream r m c. induction n as [|n IH]; intros i stream r m c R E Hf Hi Hb; cbn [ball ball_loop] in *; [done|].
  destruct (next_index i stream) as [[j rest]|] eqn:Hn; [|done].
  destruct (read_index_spec i stream r m fuel j rest R E Hf Hn) as (r' & m' & -> & R' & E').
  apply next_index_length in Hn as [Hl _].
  rewrite sign_value. replace (S (i + tau - 256)) with (S i + tau - 256)%nat by lia.
  apply (IH _ rest _ m'); [done|done|lia|lia|done].
Qed.

(** The coefficients are 0, 1 and -1. *)
Lemma ball_small signs tau n i stream c res : ball signs tau n i stream c = Some res ->
  length c = 256%nat -> Forall (fun x => Z.abs x <= 1) c -> length res = 256%nat /\ Forall (fun x => Z.abs x <= 1) res.
Proof.
  revert i stream c. induction n as [|n IH]; intros i stream c Hb L F; cbn [ball] in Hb; [by injection Hb as <-|].
  destruct (next_index i stream) as [[j rest]|]; [|done].
  apply IH in Hb; [done|by rewrite !length_insert|].
  apply Forall_insert; [apply Forall_insert; [done|]|by destruct (stream_bit _ _ _)].
  unfold at_. destruct (nth_in_or_default j c 0) as [H | ->]; [|done].
  rewrite Forall_forall in F. by apply F, list_elem_of_In.
Qed.

Lemma reset_blocks_length n m : length (concat (map reset256_block (seq n m))) = (136 * m)%nat.
Proof.
  revert n. induction m as [|m IH]; intros n; [done|]. cbn [seq map concat].
  rewrite length_app, IH, (proj1 (reset256_bytes n)). unfold DILITHIUM_GEN_C_BLOCK_BYTES. lia.
Qed.

Lemma sample_in_ball_spec fuel seed seedLen tau m c : (tau <= 256)%nat ->
  (136 * S m <= fuel)%nat ->
  SampleInBall tau (shake256 (take seedLen seed) DILITHIUM_GEN_C_BLOCK_BYTES ++
    concat (map reset256_block (seq 0 m))) = Some c ->
  dilithium_sample_in_ball_ex fuel seed seedLen tau = Some c.
Proof.
  intros Ht Hf. unfold SampleInBall, dilithium_sample_in_ball_ex.
  destruct (shake256_bytes (take seedLen seed) DILITHIUM_GEN_C_BLOCK_BYTES) as [L _].
  set (block := shake256 _ _) in *. unfold DILITHIUM_GEN_C_BLOCK_BYTES in L.
  rewrite take_app_le, drop_app_le by lia. intros Hb.
  replace 0%nat with (256 - tau + tau - 256)%nat at 1 by lia.
  eapply (ball_loop_spec _ _ tau); [split; [exact L|unfold DILITHIUM_GEN_C_BLOCK_BYTES, DILITHIUM_SIGN_BYTES; lia]|
    reflexivity| |unfold DILITHIUM_N; lia|exact Hb].
  unfold ahead. rewrite length_app, length_drop.
  rewrite reset_blocks_length. unfold DILITHIUM_SIGN_BYTES. lia.
Qed.

End Ball.

(** ** The properties *)

Section Sampling.
Context {DH : DsaHash} {DL : DsaHashLaws DH}.

Lemma rej_ntt_poly_enough fuel m seed a : length a = DILITHIUM_N -> (m <= DILITHIUM_GEN_A_NBLOCKS + fuel)%nat ->
  let seed34 := take DILITHIUM_GEN_A_SEED_SZ seed in
  (DILITHIUM_N <= length (dsa_candidates (squeezeblocks seed34 0 m)))%nat ->
  dilithium_rej_ntt_poly_ex fuel seed a = Some (RejNTTPoly seed34 m) /\
  length (RejNTTPoly seed34 m) = DILITHIUM_N /\
  Forall (fun v => 0 <= v < DILITHIUM_Q) (RejNTTPoly seed34 m).
Proof.
  intros Ha Hm seed34 Henough.
  assert (length (RejNTTPoly seed34 m) = DILITHIUM_N) as Hl by (unfold RejNTTPoly; rewrite length_take; lia).
  split; [|split; [done|apply RejNTTPoly_reduced]].
  pose proof (RejNTTPoly_stable seed34 m (DILITHIUM_GEN_A_NBLOCKS + fuel - m) ltac:(lia)) as E.
  replace (m + _)%nat with (DILITHIUM_GEN_A_NBLOCKS + fuel)%nat in E by lia.
  rewrite <- E. apply rej_ntt_poly_spec; [done|]. fold seed34. rewrite E. lia.
Qed.

Lemma SampleInBall_small tau output c : SampleInBall tau output = Some c ->
  length c = DILITHIUM_N /\ Forall (fun x => Z.abs x <= 1) c.
Proof.
  intros Hc. unfold SampleInBall in Hc.
  apply ball_small in Hc; [done|by rewrite length_replicate|by apply Forall_replicate].
Qed.

Lemma sample_in_ball_enough fuel seed seedLen tau m c : (tau <= 256)%nat -> (136 * S m <= fuel)%nat ->
  SampleInBall tau (shake256 (take seedLen seed) DILITHIUM_GEN_C_BLOCK_BYTES ++
    concat (map reset256_block (seq 0 m))) = Some c ->
  dilithium_sample_in_ball_ex fuel seed seedLen tau = Some c /\
  length c = DILITHIUM_N /\ Forall (fun x => Z.abs x <= 1) c.
Proof.
  intros Ht Hf Hc.
  split; [by apply (sample_in_ball_spec _ _ _ _ m)|]. exact (SampleInBall_small _ _ _ Hc).
Qed.

(** A matrix entry is RejNTTPoly of FIPS 204 for its seed: the first 256
    values below q among the 23-bit values of the extendable output, whatever
    the memory of the polynomial held and however many blocks beyond the first
    five it takes (all [m] blocks hold enough values and the fuel allows
    [m - 5] turns of the loop).  Every value is reduced. *)
Theorem rej_ntt_poly_is_RejNTTPoly fuel m seed a
    (Ha : length a = DILITHIUM_N)
    (Hm : (m <= DILITHIUM_GEN_A_NBLOCKS + fuel)%nat)
    (Henough : (DILITHIUM_N <= length (dsa_candidates (squeezeblocks (take 34 seed) 0 m)))%nat) :
  dilithium_rej_ntt_poly_ex fuel seed a = Some (RejNTTPoly (take 34 seed) m) /\
  length (RejNTTPoly (take 34 seed) m) = DILITHIUM_N /\
  Forall (fun v => 0 <= v < DILITHIUM_Q) (RejNTTPoly (take 34 seed) m).
Proof. by apply rej_ntt_poly_enough. Qed.

(** The challenge polynomial is SampleInBall of FIPS 204 when the first block
    of the hash is long enough.  When it is not, the code goes on with the blocks
    that the object gives after it was reset by the final call, which are the
    same for every seed.  The result has 256 coefficients 0, 1 or -1. *)
Theorem sample_in_ball_is_SampleInBall fuel seed seedLen tau m c
    (Ht : (tau <= 256)%nat) (Hf : (136 * S m <= fuel)%nat)
    (Hc : SampleInBall tau (shake256 (take seedLen seed) DILITHIUM_GEN_C_BLOCK_BYTES ++
       concat (map reset256_block (seq 0 m))) = Some c) :
  dilithium_sample_in_ball_ex fuel seed seedLen tau = Some c /\
  length c = DILITHIUM_N /\ Forall (fun x => Z.abs x <= 1) c.
Proof. by apply (sample_in_ball_enough _ _ _ _ m). Qed.

End Sampling.

(** Hash functions with the documented lengths; the first block of the extendable
    output is rejected as a whole, and what follows a reset is zero. *)
Definition toy_dsa_hash : DsaHash := {|
  dsa_kem := toy_hash;
  reset256_block _ := repeat 0 DILITHIUM_GEN_C_BLOCK_BYTES |}.

#[export] Instance toy_dsa_hash_laws : DsaHashLaws toy_dsa_hash.
Proof. split; [apply toy_hash_laws|]. intros i. by apply bytes_repeat. Qed.

Lemma rej_ntt_poly_is_RejNTTPoly_witness :
  exists a, dilithium_rej_ntt_poly_ex (DH := toy_dsa_hash) 1 (repeat 3 34) (repeat 7 256) = Some a /\
  length a = 256%nat /\ dilithium_rej_ntt_poly_ex (DH := toy_dsa_hash) 0 (repeat 3 34) (repeat 7 256) = None.
Proof.
  destruct (rej_ntt_poly_is_RejNTTPoly (DH := toy_dsa_hash) 1 6 (repeat 3 34) (repeat 7 256)) as (E & L & _).
  - reflexivity.
  - unfold DILITHIUM_GEN_A_NBLOCKS. lia.
  - apply Nat.leb_le. vm_compute. reflexivity.
  - eexists. split; [exact E|split; [exact L|vm_compute; reflexivity]].
Defined.

Lemma sample_in_ball_is_SampleInBall_witness :
  exists c, dilithium_sample_in_ball_ex (DH := toy_dsa_hash) 272 [200; 55] 2 39 = Some c /\ length c = 256%nat.
Proof.
  destruct (SampleInBall 39 (shake256 (KemHash := toy_hash) (take 2 [200; 55]) DILITHIUM_GEN_C_BLOCK_BYTES ++
    concat (map (reset256_block (DsaHash := toy_dsa_hash)) (seq 0 1)))) as [c|] eqn:E; [|vm_compute in E; discriminate].
  exists c. destruct (sample_in_ball_is_SampleInBall (DH := toy_dsa_hash) 272 [200; 55] 2 39 1 c) as (E1 & E2 & _).
  - lia.
  - lia.
  - exact E.
  - split; [exact E1|exact E2].
Defined.
