(* ===== verification/MldsaVerify.v ===== *)
(** * Verification of ML-DSA-44 signatures (src/boot/wolfcrypt/src/dilithium.c)

    The calls of the application, [dilithium_verify_ctx_msg] and
    [dilithium_verify_mu] in the variant that saves memory, which the project
    selects, composed of the parts in the other files, for a key of level
    ML-DSA-44; algorithms 3 and 8 of FIPS 204; and the proof that the code decides
    what the standard says, with the conditions under which it does. *)

From S2P Require Import Prelude.
From S2P Require Import DtlsDefs.
From S2P Require Import MlkemReduce.
From S2P Require Import MlkemNtt.
From S2P Require Import MlkemCodec.
From S2P Require Import MlkemSample.
From S2P Require Import MldsaHint.
From S2P Require Import MldsaNtt.
From S2P Require Import MldsaCodec.
From S2P Require Import MldsaSample.

Definition PARAMS_ML_DSA_44_L : nat := 4.
Definition PARAMS_ML_DSA_44_LAMBDA : nat := 128.
Definition PARAMS_ML_DSA_44_TAU : nat := 39.
Definition PARAMS_ML_DSA_44_BETA : Z := 39 * 2.
Definition PARAMS_ML_DSA_44_GAMMA1_BITS : nat := DILITHIUM_GAMMA1_BITS_17.
Definition PARAMS_ML_DSA_44_W1_ENC_SZ : nat := PARAMS_ML_DSA_44_K * DILITHIUM_N / 8 * 6.
Definition PARAMS_ML_DSA_44_Z_ENC_SIZE : nat :=
  PARAMS_ML_DSA_44_L * DILITHIUM_N / 8 * (PARAMS_ML_DSA_44_GAMMA1_BITS + 1).
Definition DILITHIUM_PUB_SEED_SZ : nat := 32.
Definition PARAMS_ML_DSA_44_PK_SIZE : nat :=
  DILITHIUM_PUB_SEED_SZ + PARAMS_ML_DSA_44_K * DILITHIUM_N * DILITHIUM_U / 8.
Definition PARAMS_ML_DSA_44_SIG_SIZE : nat :=
  PARAMS_ML_DSA_44_LAMBDA / 4 +
  PARAMS_ML_DSA_44_L * DILITHIUM_N / 8 * (PARAMS_ML_DSA_44_GAMMA1_BITS + 1) +
  PARAMS_ML_DSA_44_OMEGA + PARAMS_ML_DSA_44_K.
Definition DILITHIUM_TR_SZ : nat := 64.
Definition DILITHIUM_MU_SZ : nat := 64.
Definition WC_ML_DSA_44 : Z := 2.
Definition WC_ML_DSA_65 : Z := 3.
Definition WC_ML_DSA_87 : Z := 5.
Definition WC_ML_DSA_DRAFT : Z := 10.
Definition ML_DSA_LEVEL2_PUB_KEY_SIZE : nat := 1312.
Definition ML_DSA_LEVEL3_PUB_KEY_SIZE : nat := 1952.
Definition ML_DSA_LEVEL5_PUB_KEY_SIZE : nat := 2592.

(** ** Keys *)

Record dilithium_key : Type := {
  key_level : Z;
  key_p : list Z;             (** the memory of the public key *)
  key_pubKeySet : bool;
  key_prvKeySet : bool }.

(** The parameters exist for every level accepted. *)
Definition wc_dilithium_set_level (key : option dilithium_key) (level : Z) : Z * option dilithium_key :=
  match key with
  | None => (BAD_FUNC_ARG, None)
  | Some k =>
      if (level =? WC_ML_DSA_44) || (level =? WC_ML_DSA_65) || (level =? WC_ML_DSA_87) then
        (0, Some {| key_level := level mod WC_ML_DSA_DRAFT; key_p := key_p k;
                    key_pubKeySet := false; key_prvKeySet := false |})
      else (BAD_FUNC_ARG, key)
  end.

(** The level, when [level] is not a NULL pointer. *)
Definition wc_dilithium_get_level (key : option dilithium_key) (level : bool) : Z * Z :=
  match key with
  | Some k =>
      if negb level then (BAD_FUNC_ARG, 0)
      else if negb ((key_level k =? WC_ML_DSA_44) || (key_level k =? WC_ML_DSA_65) || (key_level k =? WC_ML_DSA_87))
      then (BAD_FUNC_ARG, 0) else (0, key_level k)
  | None => (BAD_FUNC_ARG, 0)
  end.

(** The size of a public key, by level. *)
Definition pub_key_size (level : Z) : option nat :=
  if level =? WC_ML_DSA_44 then Some ML_DSA_LEVEL2_PUB_KEY_SIZE
  else if level =? WC_ML_DSA_65 then Some ML_DSA_LEVEL3_PUB_KEY_SIZE
  else if level =? WC_ML_DSA_87 then Some ML_DSA_LEVEL5_PUB_KEY_SIZE
  else None.

Definition wc_dilithium_import_public (in_ : option (list Z)) (inLen : nat) (key : option dilithium_key) :
    Z * option dilithium_key :=
  match in_, key with
  | Some in_, Some k =>
      match pub_key_size (key_level k) with
      | None => (BAD_FUNC_ARG, key)
      | Some n =>
          if (inLen =? n)%nat then
            (0, Some {| key_level := key_level k; key_p := blit 0 (take inLen in_) (key_p k);
                        key_pubKeySet := true; key_prvKeySet := key_prvKeySet k |})
          else (BAD_FUNC_ARG, key)
      end
  | _, _ => (BAD_FUNC_ARG, key)
  end.

(** The result, the length stored and the bytes written. *)
Definition wc_dilithium_export_public (key : option dilithium_key) (out : bool) (outLen : option nat) :
    Z * option nat * list Z :=
  match key, out, outLen with
  | Some k, true, Some inLen =>
      match pub_key_size (key_level k) with
      | None => (BAD_FUNC_ARG, outLen, [])
      | Some n =>
          if (inLen <? n)%nat then (BUFFER_E, Some n, [])
          else if negb (key_pubKeySet k) then (BAD_FUNC_ARG, Some n, [])
          else (0, Some n, take n (key_p k))
      end
  | _, _, _ => (BAD_FUNC_ARG, outLen, [])
  end.

(** ** Verification *)

Section Verify.
Context {DH : DsaHash}.

Definition dilithium_shake256 (data : list Z) (dataLen hashLen : nat) : list Z :=
  shake256 (take dataLen data) hashLen.

Definition dilithium_hash256 (data1 : list Z) (data1Len : nat) (data2 : list Z) (data2Len hashLen : nat) : list Z :=
  shake256 (take data1Len data1 ++ take data2Len data2) hashLen.

Definition dilithium_hash256_ctx_msg (tr : list Z) (trLen : nat) (preHash : Z) (ctx : list Z) (ctxLen : Z)
    (msg : list Z) (msgLen hashLen : nat) : list Z :=
  let prefix := [preHash; ctxLen] in
  shake256 (take trLen tr ++ prefix ++ take (Z.to_nat ctxLen) ctx ++ take msgLen msg) hashLen.

(** [w[e] = -dilithium_mont_red((sword64)c[e] * w[e])] *)
Definition mul_neg (c w : list Z) : list Z :=
  zip_with (fun ce we => s32 (- dilithium_mont_red (ce * we))) c w.

(** [w[e] += dilithium_mont_red((sword64)a[e] * zt[e])] *)
Definition mul_acc (a zt w : list Z) : list Z :=
  zip_with (fun we p => s32 (we + dilithium_mont_red p)) w (zip_with Z.mul a zt).

(** The loop over the second dimension: the memory of [a], and [w]. *)
Fixpoint verify_cols (fuel : nat) (seed : list Z) (s : nat) (z : list (list Z)) (a w : list Z) :
    option (list Z * list Z) :=
  match z with
  | [] => Some (a, w)
  | zt :: z =>
      let seed := <[DILITHIUM_PUB_SEED_SZ := u8 (Z.of_nat s)]> seed in
      match dilithium_rej_ntt_poly_ex fuel seed a with
      | None => None
      | Some a => verify_cols fuel seed (S s) z a (mul_acc a zt w)
      end
  end.

(** The loop over the first dimension, with [n] turns left: the encoded [w1]. *)
Fixpoint verify_rows (fuel n r : nat) (t1p h c : list Z) (z : list (list Z)) (seed a : list Z)
    (o : nat) (w1e : list Z) : option (list Z) :=
  match n with
  | O => Some w1e
  | S n =>
      let w := dilithium_decode_t1 t1p in
      let t1p := drop (DILITHIUM_U * DILITHIUM_N / 8) t1p in
      let w := dilithium_ntt_full w in
      let w := mul_neg c w in
      let seed := <[S DILITHIUM_PUB_SEED_SZ := u8 (Z.of_nat r)]> seed in
      match verify_cols fuel seed 0 z a w with
      | None => None
      | Some (a, w) =>
          let w := dilithium_invntt_full w in
          let '(w, o) := dilithium_use_hint_88 w h r o in
          verify_rows fuel n (S r) t1p h c z seed a o (w1e ++ dilithium_encode_w1_88 w)
      end
  end.

(** The result and the verdict; [mem] is whether memory can be allocated, and
    [commit_calc] what the stack buffer holds. [None] when the fuel runs out. *)
Definition dilithium_verify_mu (fuel : nat) (mem : bool) (commit_calc : list Z) (p mu sig : list Z) (sigLen : nat) :
    option (Z * Z) :=
  let pub_seed := p in
  let t1p := drop DILITHIUM_PUB_SEED_SZ p in
  let commit := sig in
  let ze := drop (PARAMS_ML_DSA_44_LAMBDA / 4) sig in
  let h := drop PARAMS_ML_DSA_44_Z_ENC_SIZE ze in
  let ret := if (sigLen =? PARAMS_ML_DSA_44_SIG_SIZE)%nat then 0 else BUFFER_E in
  let ret := if ret =? 0 then dilithium_check_hint h PARAMS_ML_DSA_44_K PARAMS_ML_DSA_44_OMEGA else ret in
  let ret := if ret =? 0 then if mem then 0 else MEMORY_E else ret in
  if ret =? 0 then
    let z := dilithium_vec_decode_gamma1 ze PARAMS_ML_DSA_44_GAMMA1_BITS
               (replicate PARAMS_ML_DSA_44_L (replicate DILITHIUM_N 0)) in
    let hi := s32 (Z.shiftl 1 (Z.of_nat PARAMS_ML_DSA_44_GAMMA1_BITS) - PARAMS_ML_DSA_44_BETA) in
    let valid := dilithium_vec_check_low (concat z) PARAMS_ML_DSA_44_L hi in
    if valid =? 0 then Some (ret, valid) else
    let z := map dilithium_ntt_full z in
    match dilithium_sample_in_ball_ex fuel commit (PARAMS_ML_DSA_44_LAMBDA / 4) PARAMS_ML_DSA_44_TAU with
    | None => None
    | Some c =>
        let c := dilithium_ntt_small_full c in
        let seed := blit 0 (take DILITHIUM_PUB_SEED_SZ pub_seed) commit_calc in
        match verify_rows fuel PARAMS_ML_DSA_44_K 0 t1p h c z seed (replicate DILITHIUM_N 0) 0 [] with
        | None => None
        | Some w1e =>
            let commit_calc := dilithium_hash256 mu DILITHIUM_MU_SZ w1e PARAMS_ML_DSA_44_W1_ENC_SZ
                                 (PARAMS_ML_DSA_44_LAMBDA / 4) in
            Some (ret, if decide (take (PARAMS_ML_DSA_44_LAMBDA / 4) commit = commit_calc) then 1 else 0)
        end
    end
  else Some (ret, 0).

(** A NULL context is an empty one. The length is cut to a byte. *)
Definition dilithium_verify_ctx_msg (fuel : nat) (mem : bool) (stack : list Z) (key : option dilithium_key)
    (ctx : list Z) (ctxLen : Z) (msg : list Z) (msgLen : nat) (sig : list Z) (sigLen : nat) : option (Z * option Z) :=
  match key with
  | None => Some (BAD_FUNC_ARG, None)
  | Some k =>
      let tr := dilithium_shake256 (key_p k) PARAMS_ML_DSA_44_PK_SIZE DILITHIUM_TR_SZ in
      let mu := dilithium_hash256_ctx_msg tr DILITHIUM_TR_SZ 0 ctx (u8 ctxLen) msg msgLen DILITHIUM_MU_SZ in
      option_map (fun '(ret, valid) => (ret, Some valid)) (dilithium_verify_mu fuel mem stack (key_p k) mu sig sigLen)
  end.

(** The result and what is stored in [res], a pointer that may be NULL; without
    a crypto callback. *)
Definition wc_dilithium_verify_ctx_msg (fuel : nat) (mem : bool) (stack : list Z) (sig : option (list Z)) (sigLen : nat)
    (ctx : option (list Z)) (ctxLen : Z) (msg : option (list Z)) (msgLen : nat) (res : bool)
    (key : option dilithium_key) : option (Z * option Z) :=
  match key, sig, msg, res with
  | Some k, Some sig, Some msg, true =>
      match ctx with
      | None => if 0 <? ctxLen then Some (BAD_FUNC_ARG, None)
                else dilithium_verify_ctx_msg fuel mem stack key [] ctxLen msg msgLen sig sigLen
      | Some ctx => dilithium_verify_ctx_msg fuel mem stack key ctx ctxLen msg msgLen sig sigLen
      end
  | _, _, _, _ => Some (BAD_FUNC_ARG, None)
  end.

End Verify.

(** ** Values at the roots determine a polynomial *)

(** The quotient by [X - r], and the remainder is the value at [r]. *)
Fixpoint quot_at (r : Z) (p : list Z) : list Z :=
  match p with
  | [] => []
  | [_] => []
  | _ :: p => eval r p :: quot_at r p
  end.

Lemma quot_at_length r a p : length (quot_at r (a :: p)) = length p.
Proof. revert a. induction p as [|b p IH]; intros a; [done|]. cbn [quot_at length]. f_equal. exact (IH b). Qed.

Lemma eval_quot r x p : eval x p = eval r p + (x - r) * eval x (quot_at r p).
Proof.
  induction p as [|a [|b p] IH]; [cbn; lia|cbn; lia|].
  change (eval x (a :: b :: p)) with (a + x * eval x (b :: p)).
  change (eval r (a :: b :: p)) with (a + r * eval r (b :: p)).
  change (quot_at r (a :: b :: p)) with (eval r (b :: p) :: quot_at r (b :: p)).
  change (eval x (eval r (b :: p) :: quot_at r (b :: p))) with (eval r (b :: p) + x * eval x (quot_at r (b :: p))).
  rewrite IH. lia.
Qed.

Lemma quot_zero r p : eval r p =q 0 -> Forall (fun x => x =q 0) (quot_at r p) -> Forall (fun x => x =q 0) p.
Proof.
  induction p as [|a [|b p] IH]; intros E H; [constructor| |].
  - constructor; [|constructor]. cbn [eval] in E. rewrite <- E. apply (eqd_diff _ _ 0). lia.
  - cbn [quot_at] in H. apply Forall_cons in H as [H0 H]. constructor; [|by apply IH].
    cbn [eval] in E, H0. rewrite H0 in E. rewrite <- E. apply (eqd_diff _ _ 0). lia.
Qed.

Lemma eqd_gauss a x : Z.gcd DILITHIUM_Q a = 1 -> a * x =q 0 -> x =q 0.
Proof.
  unfold eqd, eqm. rewrite !Zmod_0_l. intros G H.
  apply Z.mod_divide in H; [|done]. apply Z.mod_divide; [done|]. exact (Z.gauss _ _ _ H G).
Qed.

Definition coprime_roots : list Z -> Prop := ForallOrdPairs (fun r x => Z.gcd DILITHIUM_Q (x - r) = 1).

Lemma roots_zero rs p : coprime_roots rs -> (length p <= length rs)%nat ->
  Forall (fun r => eval r p =q 0) rs -> Forall (fun x => x =q 0) p.
Proof.
  intros C. revert p. induction C as [|r rs Hr C IH]; intros p L H; [by destruct p; [|cbn in L; lia]|].
  apply Forall_cons in H as [H0 H]. apply (quot_zero r); [done|].
  destruct p as [|a p]; [constructor|]. apply IH; [rewrite quot_at_length; cbn in L; lia|].
  rewrite Forall_forall in *. intros x Hx. apply (eqd_gauss (x - r)); [by apply Hr|].
  specialize (H x Hx). rewrite (eval_quot r x), H0 in H. rewrite <- H. apply (eqd_diff _ _ 0). lia.
Qed.

Fixpoint coprime_rootsb (rs : list Z) : bool :=
  match rs with
  | [] => true
  | r :: rs => forallb (fun x => Z.gcd DILITHIUM_Q (x - r) =? 1) rs && coprime_rootsb rs
  end.

Lemma coprime_rootsb_spec rs : coprime_rootsb rs = true -> coprime_roots rs.
Proof.
  induction rs as [|r rs IH]; cbn [coprime_rootsb]; [constructor|].
  intros [H0 H]%andb_prop. constructor; [|by apply IH].
  apply Forall_forall. intros x Hx. rewrite forallb_forall in H0. apply Z.eqb_eq, H0. by apply list_elem_of_In.
Qed.

Lemma dsa_roots_coprime : coprime_rootsb (map dsa_root (seq 0 256)) = true.
Proof. vm_cast_no_check (eq_refl true). Qed.

Lemma eval_sub g f f' : length f = length f' -> eval g (zip_with Z.sub f f') = eval g f - eval g f'.
Proof.
  revert f'. induction f as [|a f IH]; intros [|b f'] L; try done. cbn [zip_with eval]. rewrite IH by (by injection L). lia.
Qed.

(** Polynomials with the same values have the same coefficients modulo q. *)
Lemma values_determine f f' : length f = DILITHIUM_N -> length f' = DILITHIUM_N ->
  (forall i, (i < DILITHIUM_N)%nat -> eval (dsa_root i) f =q eval (dsa_root i) f') -> Forall2 eqd f f'.
Proof.
  intros L L' H.
  assert (Forall (fun x => x =q 0) (zip_with Z.sub f f')) as Hz.
  { apply (roots_zero (map dsa_root (seq 0 256))); [apply coprime_rootsb_spec, dsa_roots_coprime| |].
    - rewrite length_zip_with, L, L'. unfold DILITHIUM_N. rewrite length_map, length_seq. lia.
    - apply Forall_fmap, Forall_forall. intros i Hi%elem_of_seq. unfold compose.
      rewrite eval_sub, H by (unfold DILITHIUM_N in *; lia). apply (eqd_diff _ _ 0). lia. }
  apply Forall2_same_length_lookup_2; [lia|]. intros i x y Hx Hy.
  assert (zip_with Z.sub f f' !! i = Some (x - y)) as E by (by rewrite lookup_zip_with, Hx, Hy).
  pose proof (Forall_lookup_1 _ _ _ _ Hz E) as E0. cbv beta in E0.
  replace x with (x - y + y) by lia. rewrite E0. done.
Qed.

(** ** FIPS 204 *)

Section Fips.
Context {DH : DsaHash}.

(** The parts of a public key and of a signature. *)
Definition pk_rho (pk : list Z) : list Z := take 32 pk.
Definition pk_t1 (pk : list Z) (r : nat) : list Z := SimpleBitUnpack 10 (drop (32 + 320 * r) pk).
Definition sig_commit (sig : list Z) : list Z := take 32 sig.
Definition sig_z (sig : list Z) (s : nat) : list Z := BitUnpack 17 (drop (32 + 576 * s) sig).
Definition sig_hint (sig : list Z) : list Z := drop (32 + 2304) sig.

(** Entry [r, s] of the matrix, from [m] blocks. *)
Definition ExpandA (rho : list Z) (m r s : nat) : list Z :=
  RejNTTPoly (rho ++ [Z.of_nat s; Z.of_nat r]) m.

(** [w] is polynomial [r] of NTT^-1 (A o NTT(z) - NTT(c) o NTT(t1 * 2^d)), by its
    values at the roots. *)
Definition wApprox (pk sig : list Z) (m : nat) (c : list Z) (r : nat) (w : list Z) : Prop :=
  length w = DILITHIUM_N /\
  forall i, (i < DILITHIUM_N)%nat ->
    eval (dsa_root i) w =q
    foldr Z.add 0 (map (fun s => nth i (ExpandA (pk_rho pk) m r s) 0 * eval (dsa_root i) (sig_z sig s)) (seq 0 4)) -
    eval (dsa_root i) c * eval (dsa_root i) (map (fun v => v * 2 ^ 13) (pk_t1 pk r)).

(** The hint of polynomial [r] applied to [w]. *)
Definition w1_poly (hint w : list Z) : list Z :=
  zip_with (fun x j => UseHint (bool_decide (Z.of_nat j ∈ hint)) x) w (seq 0 DILITHIUM_N).

(** SimpleBitPack with 6 bits: BitsToBytes of the bits of the values. *)
Definition w1Encode (w1 : list Z) : list Z :=
  map (fun n => foldr (fun b acc => Z.b2z (stream_bit 6 w1 (8 * n + b)) + 2 * acc) 0 (seq 0 8)) (seq 0 192).

(** The verdict of Verify_internal, given the hints [hs] and the vector [ws]. *)
Definition verdict (mu sig : list Z) (hs ws : list (list Z)) : bool :=
  let w1e := concat (zip_with (fun hint w => w1Encode (w1_poly hint w)) hs ws) in
  forallb (fun s => forallb (fun x => Z.abs x <? 2 ^ 17 - 78) (sig_z sig s)) (seq 0 4) &&
  bool_decide (sig_commit sig = shake256 (take 64 mu ++ w1e) 32).

End Fips.

(** ** Encoding is w1Encode *)

Lemma byte_bits x : 0 <= x < 256 ->
  foldr (fun b acc => Z.b2z (Z.testbit x (Z.of_nat b)) + 2 * acc) 0 (seq 0 8) = x.
Proof.
  intros Hx. assert (forallb (fun n => foldr (fun b acc => Z.b2z (Z.testbit (Z.of_nat n) (Z.of_nat b)) + 2 * acc) 0 (seq 0 8)
    =? Z.of_nat n) (seq 0 256) = true) as H by reflexivity.
  rewrite forallb_forall in H. specialize (H (Z.to_nat x) ltac:(apply in_seq; lia)).
  apply Z.eqb_eq in H. by rewrite Z2Nat.id in H by lia.
Qed.

Lemma encode_w1_eq w1 : length w1 = DILITHIUM_N -> Forall is_6 w1 -> dilithium_encode_w1_88 w1 = w1Encode w1.
Proof.
  intros L F. apply (nth_ext _ _ 0 0); [by rewrite encode_w1_length|].
  rewrite encode_w1_length. intros n Hn. unfold w1Encode.
  rewrite (nth_indep (map _ _) 0 (foldr (fun b acc => Z.b2z (stream_bit 6 w1 (8 * 0 + b)) + 2 * acc) 0 (seq 0 8)))
    by (rewrite length_map, length_seq; lia).
  rewrite (map_nth (fun n => foldr (fun b acc => Z.b2z (stream_bit 6 w1 (8 * n + b)) + 2 * acc) 0 (seq 0 8))), seq_nth by done.
  pose proof (nth_byte _ n (encode_w1_bytes w1)) as Hb. rewrite <- (byte_bits _ Hb) at 1.
  assert (forall b, (b < 8)%nat -> Z.testbit (nth n (dilithium_encode_w1_88 w1) 0) (Z.of_nat b) =
    stream_bit 6 w1 (8 * (0 + n) + b)) as E.
  { intros b Hb8. rewrite <- encode_w1_bit by (done || lia). unfold stream_bit.
    replace (8 * (0 + n) + b)%nat with (b + n * 8)%nat by lia.
    rewrite Nat.div_add, Nat.Div0.mod_add, Nat.div_small, Nat.mod_small by lia. done. }
  cbn [seq foldr]. by rewrite !E by lia.
Qed.

(** ** One row *)

(** What the loop over the second dimension leaves in [w]. *)
Definition row_sum (A z : list (list Z)) (w : list Z) : list Z :=
  fold_left (fun w az => mul_acc (fst az) (snd az) w) (combine A z) w.

Lemma mul_neg_spec c w : dsa_within 33631669 c -> dsa_within 42035253 w ->
  dsa_within 4519364 (mul_neg c w) /\
  forall i, (i < DILITHIUM_N)%nat -> nth i (mul_neg c w) 0 =q - (DSA_RINV * (nth i c 0 * nth i w 0)).
Proof.
  intros [Lc Fc] [Lw Fw]. rewrite Forall_lookup in Fc, Fw.
  assert (forall i x y, c !! i = Some x -> w !! i = Some y ->
    Z.abs (s32 (- dilithium_mont_red (x * y))) <= 4519364 /\ s32 (- dilithium_mont_red (x * y)) =q - (DSA_RINV * (x * y))) as H.
  { intros i x y Hx Hy. specialize (Fc i x Hx). specialize (Fw i y Hy). cbn in Fc, Fw.
    assert (Z.abs (x * y) <= 33631669 * 42035253) as Hp by (rewrite Z.abs_mul; nia).
    pose proof (mont_red_bound _ _ Hp ltac:(lia)) as Hb. change ((_ + _) / _) with 4519364 in Hb.
    rewrite (sext_small 32) by lia. split; [lia|]. rewrite mont_red_cong by lia. done. }
  split.
  - split; [unfold mul_neg; rewrite length_zip_with; lia|]. apply Forall_lookup. intros i v Hv.
    unfold mul_neg in Hv. apply lookup_zip_with_Some in Hv as (x & y & -> & Hx & Hy). by apply (H i).
  - intros i Hi. rewrite !nth_lookup. unfold mul_neg. rewrite lookup_zip_with.
    destruct (lookup_lt_is_Some_2 c i ltac:(lia)) as [x Hx], (lookup_lt_is_Some_2 w i ltac:(lia)) as [y Hy].
    rewrite Hx, Hy. cbn. by apply (H i).
Qed.

Lemma mul_acc_spec a zt w B : dsa_within 8380416 a -> dsa_within 33747502 zt -> dsa_within B w -> B + 4256057 < 2 ^ 31 ->
  dsa_within (B + 4256057) (mul_acc a zt w) /\
  forall i, (i < DILITHIUM_N)%nat -> nth i (mul_acc a zt w) 0 =q nth i w 0 + DSA_RINV * (nth i a 0 * nth i zt 0).
Proof.
  intros [La Fa] [Lz Fz] [Lw Fw] HB. rewrite Forall_lookup in Fa, Fz, Fw.
  assert (forall i x y v, a !! i = Some x -> zt !! i = Some y -> w !! i = Some v ->
    Z.abs (s32 (v + dilithium_mont_red (x * y))) <= B + 4256057 /\
    s32 (v + dilithium_mont_red (x * y)) =q v + DSA_RINV * (x * y)) as H.
  { intros i x y v Hx Hy Hv. specialize (Fa i x Hx). specialize (Fz i y Hy). specialize (Fw i v Hv). cbn in Fa, Fz, Fw.
    assert (Z.abs (x * y) <= 8380416 * 33747502) as Hp by (rewrite Z.abs_mul; nia).
    pose proof (mont_red_bound _ _ Hp ltac:(lia)) as Hb. change ((_ + _) / _) with 4256057 in Hb.
    rewrite (sext_small 32) by lia. split; [lia|]. rewrite mont_red_cong by lia. done. }
  split.
  - split; [unfold mul_acc; rewrite !length_zip_with; lia|]. apply Forall_lookup. intros i u Hu.
    unfold mul_acc in Hu. apply lookup_zip_with_Some in Hu as (v & p & -> & Hv & Hp).
    apply lookup_zip_with_Some in Hp as (x & y & -> & Hx & Hy). by apply (H i).
  - intros i Hi. rewrite !nth_lookup. unfold mul_acc. rewrite !lookup_zip_with.
    destruct (lookup_lt_is_Some_2 a i ltac:(lia)) as [x Hx], (lookup_lt_is_Some_2 zt i ltac:(lia)) as [y Hy],
      (lookup_lt_is_Some_2 w i ltac:(lia)) as [v Hv].
    rewrite Hx, Hy, Hv. cbn. by apply (H i).
Qed.

Lemma row_sum_spec A z w B : length A = length z -> Forall (dsa_within 8380416) A -> Forall (dsa_within 33747502) z ->
  dsa_within B w -> B + 4256057 * Z.of_nat (length z) < 2 ^ 31 ->
  dsa_within (B + 4256057 * Z.of_nat (length z)) (row_sum A z w) /\
  forall i, (i < DILITHIUM_N)%nat -> nth i (row_sum A z w) 0 =q nth i w 0 +
    DSA_RINV * foldr Z.add 0 (zip_with (fun a zt => nth i a 0 * nth i zt 0) A z).
Proof.
  revert z w B. induction A as [|a A IH]; intros [|zt z] w B L FA Fz Hw HB; try done.
  - cbn [length] in *. rewrite Z.mul_0_r, Z.add_0_r. split; [done|]. intros i Hi. cbn. by rewrite Z.mul_0_r, Z.add_0_r.
  - apply Forall_cons in FA as [Ha FA]. apply Forall_cons in Fz as [Hz Fz]. cbn [length] in *.
    destruct (mul_acc_spec a zt w B Ha Hz Hw ltac:(lia)) as [Hw' Hv].
    destruct (IH z (mul_acc a zt w) (B + 4256057) ltac:(lia) FA Fz Hw' ltac:(lia)) as [Hr Hs].
    split; [replace (B + _) with (B + 4256057 + 4256057 * Z.of_nat (length z)) by lia; exact Hr|].
    intros i Hi. cbn [zip_with foldr]. unfold row_sum. cbn [combine fold_left fst snd]. fold (row_sum A z (mul_acc a zt w)).
    rewrite (Hs i Hi), (Hv i Hi). apply (eqd_diff _ _ 0). lia.
Qed.

(** ** The rows of a signature *)

Section Rows.
Context {DH : DsaHash} {DL : DsaHashLaws DH}.
Variables (pk sig c : list Z) (m : nat).
Hypothesis Hpk : bytes pk.
Hypothesis Hsig : bytes sig.
Hypothesis Hc : dsa_within 1 c.
(** The blocks of the matrix hold enough values. *)
Hypothesis Hm : forall r s, (r < 4)%nat -> (s < 4)%nat ->
  (DILITHIUM_N <= length (dsa_candidates (squeezeblocks (pk_rho pk ++ [Z.of_nat s; Z.of_nat r]) 0 m)))%nat.

(** The vector the inverse transform is applied to. *)
Definition row_in (r : nat) : list Z :=
  row_sum (map (ExpandA (pk_rho pk) m r) (seq 0 4)) (map (fun s => dilithium_ntt_full (sig_z sig s)) (seq 0 4))
    (mul_neg (dilithium_ntt_small_full c) (dilithium_ntt_full (map (fun v => v * 2 ^ 13) (pk_t1 pk r)))).

Lemma ExpandA_within r s : (r < 4)%nat -> (s < 4)%nat -> dsa_within 8380416 (ExpandA (pk_rho pk) m r s).
Proof.
  intros Hr Hs. unfold ExpandA. split; [unfold RejNTTPoly; rewrite length_take; specialize (Hm r s Hr Hs); lia|].
  eapply Forall_impl; [apply RejNTTPoly_reduced|]. cbn. unfold DILITHIUM_Q. lia.
Qed.

Lemma sig_z_transform s : transform (dilithium_ntt_full (sig_z sig s)) (sig_z sig s) /\
  dsa_within 33747502 (dilithium_ntt_full (sig_z sig s)).
Proof.
  apply (ntt_transforms 131072 33747502 _ ntt_bound_17); [lia|].
  split; [unfold sig_z, BitUnpack, SimpleBitUnpack; by rewrite !length_map, length_seq|].
  eapply Forall_impl; [apply BitUnpack_range|]. intros v Hv. change (2 ^ Z.of_nat 17) with 131072 in Hv. cbv beta in *. lia.
Qed.

Lemma pk_t1_transform r : let t := map (fun v => v * 2 ^ 13) (pk_t1 pk r) in
  transform (dilithium_ntt_full t) t /\ dsa_within 42035253 (dilithium_ntt_full t).
Proof.
  apply (ntt_transforms 8380416 42035253 _ ntt_bound); [lia|].
  split; [unfold pk_t1, SimpleBitUnpack; by rewrite !length_map, length_seq|].
  unfold pk_t1, SimpleBitUnpack. rewrite map_map. apply Forall_fmap, Forall_forall. intros i _. unfold compose.
  pose proof (field_range 10 (le_bytes (drop (32 + 320 * r) pk)) i) as R. change (2 ^ Z.of_nat 10) with 1024 in R. change (2 ^ 13) with 8192. lia.
Qed.

Lemma row_in_spec r : (r < 4)%nat -> dsa_within 21543592 (row_in r) /\
  forall i, (i < DILITHIUM_N)%nat -> nth i (row_in r) 0 =q DSA_RINV *
    (foldr Z.add 0 (map (fun s => nth i (ExpandA (pk_rho pk) m r s) 0 * eval (dsa_root i) (sig_z sig s)) (seq 0 4)) -
     eval (dsa_root i) c * eval (dsa_root i) (map (fun v => v * 2 ^ 13) (pk_t1 pk r))).
Proof.
  intros Hr. destruct (ntt_small_transforms c Hc) as [[_ Tc] Wc]. destruct (pk_t1_transform r) as [[_ Tt] Wt].
  destruct (mul_neg_spec _ _ Wc Wt) as [Wn Vn].
  destruct (row_sum_spec (map (ExpandA (pk_rho pk) m r) (seq 0 4))
    (map (fun s => dilithium_ntt_full (sig_z sig s)) (seq 0 4))
    (mul_neg (dilithium_ntt_small_full c) (dilithium_ntt_full (map (fun v => v * 2 ^ 13) (pk_t1 pk r)))) 4519364) as [Ws Vs];
    [by rewrite !length_map| | |exact Wn|done|].
  - apply Forall_fmap, Forall_forall. intros s Hs%elem_of_seq. apply ExpandA_within; lia.
  - apply Forall_fmap, Forall_forall. intros s _. apply sig_z_transform.
  - split; [exact Ws|]. intros i Hi. unfold row_in. rewrite (Vs i Hi), (Vn i Hi), (Tc i Hi), (Tt i Hi).
    cbn [seq map zip_with foldr].
    rewrite !(fun s => proj2 (proj1 (sig_z_transform s)) i Hi). apply (eqd_diff _ _ 0). lia.
Qed.

Lemma code_row_wApprox r : (r < 4)%nat -> invntt_fits (row_in r) ->
  wApprox pk sig m c r (dilithium_invntt_full (row_in r)) /\ dsa_within 4211197 (dilithium_invntt_full (row_in r)).
Proof.
  intros Hr Hf. destruct (row_in_spec r Hr) as [[Lr Fr] Vr].
  destruct (invntt_inverts (row_in r) Lr) as [He Hb]; [eapply Forall_impl; [exact Fr|]; cbn; lia|done|].
  split; [|done]. split; [by destruct Hb|]. intros i Hi. rewrite (He i Hi), (Vr i Hi), Z.mul_assoc.
  rewrite (Z.mul_comm DSA_R), dsa_r_inv, Z.mul_1_l. done.
Qed.

(** The loop over the second dimension. *)
Lemma verify_cols_spec fuel seed r s z a w : (m <= DILITHIUM_GEN_A_NBLOCKS + fuel)%nat -> (r < 4)%nat ->
  (s + length z <= 4)%nat -> length a = DILITHIUM_N ->
  (forall j, (j < 4)%nat -> take 34 (<[32%nat := u8 (Z.of_nat j)]> seed) = pk_rho pk ++ [Z.of_nat j; Z.of_nat r]) ->
  exists a', verify_cols fuel seed s z a w = Some (a', row_sum (map (ExpandA (pk_rho pk) m r) (seq s (length z))) z w) /\
    length a' = DILITHIUM_N.
Proof.
  intros Hf Hr. revert seed s a w. induction z as [|zt z IH]; intros seed s a w Hs La Hseed.
  - exists a. done.
  - cbn [verify_cols length seq map] in *. unfold DILITHIUM_PUB_SEED_SZ.
    destruct (rej_ntt_poly_enough fuel m (<[32%nat := u8 (Z.of_nat s)]> seed) a La Hf) as (E & L & _).
    { unfold DILITHIUM_GEN_A_SEED_SZ. rewrite Hseed by lia. apply Hm; lia. }
    unfold DILITHIUM_GEN_A_SEED_SZ in E, L. rewrite Hseed in E, L by lia. rewrite E.
    apply (IH (<[32%nat := u8 (Z.of_nat s)]> seed) (S s)); [lia|done|].
    intros j Hj. rewrite list_insert_insert_eq. by apply Hseed.
Qed.

(** The loop over the first dimension. *)
Variable hs : list (list Z).
Hypothesis Hlen : (PARAMS_ML_DSA_44_OMEGA <= length (sig_hint sig))%nat.
Hypothesis Hhs : HintBitUnpack (sig_hint sig) PARAMS_ML_DSA_44_K PARAMS_ML_DSA_44_OMEGA = Some hs.
Hypothesis Hfits : forall r, (r < 4)%nat -> invntt_fits (row_in r).

Definition code_w1 (r : nat) : list Z :=
  zip_with (fun x t => use_hint_value (bool_decide (Z.of_nat t ∈ poly_hints (sig_hint sig) PARAMS_ML_DSA_44_OMEGA r)) x)
    (dilithium_invntt_full (row_in r)) (seq 0 DILITHIUM_N).

Lemma hints_checked : dilithium_check_hint (sig_hint sig) PARAMS_ML_DSA_44_K PARAMS_ML_DSA_44_OMEGA = 0.
Proof.
  apply (check_hint_spec (sig_hint sig) PARAMS_ML_DSA_44_K PARAMS_ML_DSA_44_OMEGA);
    [by apply Forall_drop|unfold PARAMS_ML_DSA_44_OMEGA; lia|]. left. by rewrite Hhs.
Qed.

Lemma seed_bytes r j seed : (r < 4)%nat -> (j < 4)%nat -> (34 <= length seed)%nat -> take 32 seed = pk_rho pk ->
  take 34 (<[32%nat := u8 (Z.of_nat j)]> (<[33%nat := u8 (Z.of_nat r)]> seed)) = pk_rho pk ++ [Z.of_nat j; Z.of_nat r].
Proof.
  intros Hr Hj Hs E. rewrite (wrap_small 8), (wrap_small 8) by (unfold in_word; lia).
  assert (length (pk_rho pk) = 32%nat) as L by (rewrite <- E, length_take; lia).
  rewrite <- (take_drop 32 seed), E.
  destruct (drop 32 seed) as [|x [|y l]] eqn:Ed; pose proof (length_drop seed 32) as Ld; rewrite Ed in Ld; cbn in Ld; [lia|lia|].
  rewrite !insert_app_r_alt, L by lia. change (32 - 32)%nat with 0%nat. change (33 - 32)%nat with 1%nat. cbn [insert list_insert].
  rewrite take_app, take_ge, L by lia. done.
Qed.

Lemma verify_cols_row fuel r seed a : (m <= DILITHIUM_GEN_A_NBLOCKS + fuel)%nat -> (r < 4)%nat ->
  (34 <= length seed)%nat -> take 32 seed = pk_rho pk -> length a = DILITHIUM_N ->
  exists a', verify_cols fuel (<[33%nat := u8 (Z.of_nat r)]> seed) 0
    (map (fun s => dilithium_ntt_full (sig_z sig s)) (seq 0 4)) a
    (mul_neg (dilithium_ntt_small_full c) (dilithium_ntt_full (map (fun v => v * 2 ^ 13) (pk_t1 pk r)))) =
    Some (a', row_in r) /\ length a' = DILITHIUM_N.
Proof.
  intros Hf Hr Ls Es La.
  destruct (verify_cols_spec fuel (<[33%nat := u8 (Z.of_nat r)]> seed) r 0
    (map (fun s => dilithium_ntt_full (sig_z sig s)) (seq 0 4)) a
    (mul_neg (dilithium_ntt_small_full c) (dilithium_ntt_full (map (fun v => v * 2 ^ 13) (pk_t1 pk r)))))
    as (a' & E & La'); [done|lia|rewrite length_map, length_seq; lia|done|intros j Hj; by apply seed_bytes|].
  exists a'. split; [|done]. rewrite length_map, length_seq in E. unfold row_in. exact E.
Qed.

Lemma use_hint_row r : (r < 4)%nat ->
  dilithium_use_hint_88 (dilithium_invntt_full (row_in r)) (sig_hint sig) r (hint_start (sig_hint sig) PARAMS_ML_DSA_44_OMEGA r) =
  (code_w1 r, hint_start (sig_hint sig) PARAMS_ML_DSA_44_OMEGA (S r)).
Proof.
  intros Hr. destruct (code_row_wApprox r Hr (Hfits r Hr)) as [_ [Lw Fw]]. unfold code_w1.
  apply use_hint_88_spec; [by apply Forall_drop|done|apply hints_checked|unfold PARAMS_ML_DSA_44_K; lia|done|].
  eapply Forall_impl; [exact Fw|]. intros x Hx. cbv beta in Hx. unfold DILITHIUM_Q. lia.
Qed.

Lemma verify_rows_spec fuel n r seed a w1e : (m <= DILITHIUM_GEN_A_NBLOCKS + fuel)%nat -> (r + n = 4)%nat ->
  (34 <= length seed)%nat -> take 32 seed = pk_rho pk -> length a = DILITHIUM_N ->
  verify_rows fuel n r (drop (32 + 320 * r) pk) (sig_hint sig) (dilithium_ntt_small_full c)
    (map (fun s => dilithium_ntt_full (sig_z sig s)) (seq 0 4)) seed a (hint_start (sig_hint sig) PARAMS_ML_DSA_44_OMEGA r) w1e =
  Some (w1e ++ concat (map (fun r => dilithium_encode_w1_88 (code_w1 r)) (seq r n))).
Proof.
  intros Hf. revert r seed a w1e. induction n as [|n IH]; intros r seed a w1e Hn Ls Es La; [by rewrite app_nil_r|].
  cbn [verify_rows]. rewrite decode_t1_spec by by apply Forall_drop.
  change (SimpleBitUnpack 10 (drop (32 + 320 * r) pk)) with (pk_t1 pk r).
  destruct (verify_cols_row fuel r seed a) as (a' & E & La'); [done|lia|done|done|done|].
  unfold DILITHIUM_D. change (S DILITHIUM_PUB_SEED_SZ) with 33%nat. rewrite E, use_hint_row by lia.
  rewrite drop_drop.
  replace (32 + 320 * r + _)%nat with (32 + 320 * S r)%nat by (change (DILITHIUM_U * DILITHIUM_N / 8)%nat with 320%nat; lia).
  rewrite IH; [|lia|by rewrite length_insert|by rewrite take_insert_ge by lia|done].
  cbn [seq map concat]. by rewrite app_assoc.
Qed.

(** The approximate vector, any representatives. *)
Variable ws : list (list Z).
Hypothesis Hws : length ws = 4%nat.
Hypothesis Hw : forall r w, ws !! r = Some w -> wApprox pk sig m c r w.
(** No hint on a coefficient whose low part is zero. *)
Hypothesis Hz : forall r w hint j x, ws !! r = Some w -> hs !! r = Some hint -> w !! j = Some x ->
  Z.of_nat j ∈ hint -> snd (Decompose x) <> 0.

Lemma use_hint_value_mod b x y : x =q y -> use_hint_value b x = use_hint_value b y.
Proof. unfold eqd, eqm, use_hint_value, Decompose. by intros ->. Qed.

Lemma use_hint_value_range b x : 0 <= use_hint_value b x < 64.
Proof.
  unfold use_hint_value. pose proof (Decompose_range x) as [R _]. destruct (Decompose x) as [r1 r0]. cbn in R.
  destruct b; [|lia]. destruct (0 <=? r0); lia_mod.
Qed.

Lemma use_hints_range (P : nat -> bool) l ts : Forall is_6 (zip_with (fun x t => use_hint_value (P t) x) l ts).
Proof.
  apply Forall_lookup. intros j v (x & t & -> & _ & _)%lookup_zip_with_Some. apply use_hint_value_range.
Qed.

Lemma code_w1_eq r w hint : ws !! r = Some w -> hs !! r = Some hint ->
  dilithium_encode_w1_88 (code_w1 r) = w1Encode (w1_poly hint w).
Proof.
  intros Ew Eh. assert (r < 4)%nat as Hr by (apply lookup_lt_Some in Ew; lia).
  destruct (code_row_wApprox r Hr (Hfits r Hr)) as [[Lr Vr] _]. destruct (Hw r w Ew) as [Lw Vw].
  assert (hint = poly_hints (sig_hint sig) PARAMS_ML_DSA_44_OMEGA r) as Ep.
  { pose proof (HintBitUnpack_hints _ _ _ _ r Hhs ltac:(unfold PARAMS_ML_DSA_44_K; lia)) as E. congruence. }
  rewrite encode_w1_eq.
  - f_equal. unfold code_w1, w1_poly. rewrite <- Ep.
    assert (Forall2 eqd (dilithium_invntt_full (row_in r)) w) as H.
    { apply values_determine; [done|done|]. intros i Hi. by rewrite (Vr i Hi), (Vw i Hi). }
    apply list_eq. intros j. rewrite !lookup_zip_with.
    destruct (w !! j) as [x|] eqn:Ex.
    + destruct (Forall2_lookup_r _ _ _ _ _ H Ex) as (y & Ey & Hyx). rewrite Ey.
      pose proof (lookup_lt_Some _ _ _ Ex). rewrite lookup_seq_lt by lia. cbn [mbind option_bind fmap option_fmap option_map]. f_equal.
      rewrite (use_hint_value_mod _ _ _ Hyx). apply use_hint_value_UseHint. intros [B E]. apply bool_decide_eq_true_1 in B.
      by apply (Hz r w hint j x).
    + apply lookup_ge_None in Ex. rewrite (lookup_ge_None_2 (dilithium_invntt_full (row_in r))); [by cbn [mbind option_bind]|].
      rewrite (Forall2_length _ _ _ H). lia.
  - unfold code_w1. rewrite length_zip_with, length_seq, Lr. apply Nat.min_id.
  - unfold code_w1. apply use_hints_range.
Qed.

Lemma all_rows : concat (map (fun r => dilithium_encode_w1_88 (code_w1 r)) (seq 0 4)) =
  concat (zip_with (fun hint w => w1Encode (w1_poly hint w)) hs ws).
Proof.
  f_equal. apply list_eq. intros r. rewrite lookup_zip_with.
  destruct (ws !! r) as [w|] eqn:Ew.
  - pose proof (lookup_lt_Some _ _ _ Ew) as Hr.
    pose proof (HintBitUnpack_hints _ _ _ _ r Hhs ltac:(unfold PARAMS_ML_DSA_44_K; lia)) as Eh.
    rewrite Eh. cbn [mbind option_bind]. rewrite <- (code_w1_eq r w _ Ew Eh).
    change (map ?f ?l) with (f <$> l). rewrite list_lookup_fmap, lookup_seq_lt by lia. done.
  - apply lookup_ge_None in Ew. rewrite lookup_ge_None_2 by (rewrite length_map, length_seq; lia).
    by destruct (hs !! r).
Qed.

(** The norm check. *)
Lemma norm_check : dilithium_vec_check_low (concat (map (sig_z sig) (seq 0 4))) 4 (2 ^ 17 - 78) =
  if forallb (fun s => forallb (fun x => Z.abs x <? 2 ^ 17 - 78) (sig_z sig s)) (seq 0 4) then 1 else 0.
Proof.
  pose proof (vec_check_low_spec (map (sig_z sig) (seq 0 4)) (2 ^ 17 - 78)) as H.
  rewrite length_map, length_seq in H. rewrite H; [|apply Forall_fmap, Forall_forall; intros s _;
    unfold compose, sig_z, BitUnpack, SimpleBitUnpack; by rewrite !length_map, length_seq|lia].
  cbn [map seq forallb]. done.
Qed.

Lemma w1e_length : length (concat (map (fun r => dilithium_encode_w1_88 (code_w1 r)) (seq 0 4))) = PARAMS_ML_DSA_44_W1_ENC_SZ.
Proof. cbn [seq map concat]. rewrite !length_app, !encode_w1_length. done. Qed.

Lemma seed_start stack : (64 <= length stack)%nat -> (32 <= length pk)%nat ->
  (34 <= length (blit 0 (take DILITHIUM_PUB_SEED_SZ pk) stack))%nat /\
  take 32 (blit 0 (take DILITHIUM_PUB_SEED_SZ pk) stack) = pk_rho pk.
Proof.
  intros Ls Lp. rewrite length_blit by lia. split; [lia|]. unfold blit, pk_rho, DILITHIUM_PUB_SEED_SZ.
  rewrite take_0, (take_ge (take 32 pk)) by (rewrite length_take; lia). cbn [app].
  rewrite take_app_le, take_ge by (rewrite length_take; lia). done.
Qed.

Lemma commit_size : (PARAMS_ML_DSA_44_LAMBDA / 4 = 32)%nat. Proof. reflexivity. Qed.
Lemma z_size : PARAMS_ML_DSA_44_Z_ENC_SIZE = 2304%nat. Proof. vm_cast_no_check (eq_refl 2304%nat). Qed.

Lemma hint_start_drop s : drop PARAMS_ML_DSA_44_Z_ENC_SIZE (drop (PARAMS_ML_DSA_44_LAMBDA / 4) s) = sig_hint s.
Proof. by rewrite z_size, commit_size, drop_drop. Qed.

Lemma verify_mu_spec fuel stack mu : (m <= DILITHIUM_GEN_A_NBLOCKS + fuel)%nat -> (136 <= fuel)%nat ->
  (64 <= length stack)%nat -> (32 <= length pk)%nat ->
  SampleInBall 39 (shake256 (sig_commit sig) 136) = Some c ->
  dilithium_verify_mu fuel true stack pk mu sig PARAMS_ML_DSA_44_SIG_SIZE = Some (0, if verdict mu sig hs ws then 1 else 0).
Proof.
  intros Hf1 Hf2 Ls Lp Hball. unfold dilithium_verify_mu.
  rewrite Nat.eqb_refl. cbn [Z.eqb].
  rewrite hint_start_drop, hints_checked. cbn [Z.eqb]. rewrite !commit_size.
  rewrite vec_decode_gamma1_17 by by apply Forall_drop.
  rewrite length_replicate. change (seq 0 PARAMS_ML_DSA_44_L) with (seq 0 4).
  rewrite (map_ext _ (sig_z sig)) by (intros s; unfold sig_z; by rewrite drop_drop).
  change (s32 (Z.shiftl 1 _ - PARAMS_ML_DSA_44_BETA)) with (2 ^ 17 - 78). change PARAMS_ML_DSA_44_L with 4%nat.
  rewrite norm_check. unfold verdict. destruct (forallb _ (seq 0 4)); cbn [Z.eqb andb]; [|done].
  destruct (sample_in_ball_enough fuel sig 32 39 0 c) as (E & _); [lia|lia|cbn [seq map concat]; rewrite app_nil_r; exact Hball|].
  change PARAMS_ML_DSA_44_TAU with 39%nat. rewrite E, map_map.
  destruct (seed_start stack Ls Lp) as [Lseed Eseed].
  change (drop DILITHIUM_PUB_SEED_SZ pk) with (drop (32 + 320 * 0) pk).
  change 0%nat with (hint_start (sig_hint sig) PARAMS_ML_DSA_44_OMEGA 0) at 4.
  rewrite (verify_rows_spec fuel 4 0) by done. cbn [app].
  unfold dilithium_hash256. rewrite (take_ge (concat _)) by (rewrite w1e_length; done).
  rewrite all_rows. change (take 32 sig) with (sig_commit sig). change DILITHIUM_MU_SZ with 64%nat.
  rewrite (decide_bool_decide _). done.
Qed.

End Rows.

(** ** The properties *)

Section Properties.
Context {DH : DsaHash} {DL : DsaHashLaws DH}.

(** The message representative of FIPS 204 for a context of at most 255 bytes. *)
Definition message_mu (pk ctx msg : list Z) : list Z :=
  shake256 (shake256 pk 64 ++ [0; Z.of_nat (length ctx)] ++ ctx ++ msg) 64.

(** A signature of the right length for a key, with all that verification needs
    of the outside: the challenge from one block of the hash, the matrix from [m]
    blocks, a hint that decodes, and sums of the inverse transform that fit. *)
Record well_formed (pk sig c : list Z) (hs : list (list Z)) (m : nat) : Prop := {
  wf_pk : bytes pk /\ (PARAMS_ML_DSA_44_PK_SIZE <= length pk)%nat;
  wf_sig : bytes sig /\ length sig = PARAMS_ML_DSA_44_SIG_SIZE;
  wf_challenge : SampleInBall 39 (shake256 (sig_commit sig) 136) = Some c;
  wf_matrix : forall r s, (r < 4)%nat -> (s < 4)%nat ->
    (DILITHIUM_N <= length (dsa_candidates (squeezeblocks (pk_rho pk ++ [Z.of_nat s; Z.of_nat r]) 0 m)))%nat;
  wf_hint : HintBitUnpack (sig_hint sig) PARAMS_ML_DSA_44_K PARAMS_ML_DSA_44_OMEGA = Some hs;
  wf_fits : forall r, (r < 4)%nat -> invntt_fits (row_in pk sig c m r) }.

Lemma challenge_within c output : SampleInBall 39 output = Some c -> dsa_within 1 c.
Proof. exact (SampleInBall_small 39 output c). Qed.

(** The approximate vector of a well-formed signature exists and is unique:
    the row the code computes has, at every root, the value of A o z - c o t1,
    in spite of the Montgomery factors, and any polynomial with these values has
    the same coefficients modulo q. *)
Theorem code_row_is_wApprox pk sig c hs m r : well_formed pk sig c hs m -> (r < 4)%nat ->
  let w := dilithium_invntt_full (row_in pk sig c m r) in
  wApprox pk sig m c r w /\ Forall (fun x => Z.abs x < DILITHIUM_Q) w /\
  forall w', wApprox pk sig m c r w' -> Forall2 eqd w w'.
Proof.
  intros [[Hp _] [Hs _] Hc Hm _ Hf] Hr w.
  destruct (code_row_wApprox pk sig c m (challenge_within _ _ Hc) Hm r Hr (Hf r Hr)) as [[L V] [_ B]].
  split; [exact (conj L V)|]. split; [eapply Forall_impl; [exact B|]; cbn; unfold DILITHIUM_Q; lia|].
  intros w' [L' V']. apply values_determine; [done|done|]. intros i Hi.
  etransitivity; [exact (V i Hi)|symmetry; exact (V' i Hi)].
Qed.

Lemma hint_room sig : length sig = PARAMS_ML_DSA_44_SIG_SIZE -> (PARAMS_ML_DSA_44_OMEGA <= length (sig_hint sig))%nat.
Proof. intros L. unfold sig_hint. rewrite length_drop, L. apply Nat.leb_le. reflexivity. Qed.

Lemma key_room (pk : list Z) : (PARAMS_ML_DSA_44_PK_SIZE <= length pk)%nat -> (32 <= length pk)%nat.
Proof. intros L. etransitivity; [|exact L]. apply Nat.leb_le. reflexivity. Qed.

Lemma code_mu pk ctx msg : (length ctx < 256)%nat ->
  dilithium_hash256_ctx_msg (dilithium_shake256 pk PARAMS_ML_DSA_44_PK_SIZE DILITHIUM_TR_SZ) DILITHIUM_TR_SZ 0 ctx
    (u8 (Z.of_nat (length ctx))) msg (length msg) DILITHIUM_MU_SZ =
  message_mu (take PARAMS_ML_DSA_44_PK_SIZE pk) ctx msg.
Proof.
  intros Lctx. unfold dilithium_shake256, dilithium_hash256_ctx_msg, message_mu.
  rewrite (wrap_small 8) by (unfold in_word; lia). rewrite Nat2Z.id, (take_ge ctx), (take_ge msg) by lia.
  destruct (shake256_bytes (take PARAMS_ML_DSA_44_PK_SIZE pk) DILITHIUM_TR_SZ) as [Ltr _].
  rewrite (take_ge (shake256 _ DILITHIUM_TR_SZ)) by lia. reflexivity.
Qed.

(** C4: a call of the application to verify a well-formed signature of ML-DSA-44
    with a context of at most 255 bytes succeeds, and its verdict is that of
    ML-DSA.Verify of FIPS 204: every coefficient of the response is below
    [gamma1 - beta] and the commitment is the hash of the message representative
    and the encoded high bits of the hinted approximate vector [ws], whichever
    representatives modulo q.  The conditions are those of [well_formed], room on
    the heap, fuel for the hash blocks, and no hint on a coefficient whose low
    part is zero. *)
Theorem verification_is_FIPS204 fuel m stack key sig c hs ws ctx msg :
  well_formed (key_p key) sig c hs m ->
  (m <= DILITHIUM_GEN_A_NBLOCKS + fuel)%nat -> (136 <= fuel)%nat -> (64 <= length stack)%nat ->
  (length ctx < 256)%nat ->
  length ws = 4%nat -> (forall r w, ws !! r = Some w -> wApprox (key_p key) sig m c r w) ->
  (forall r w hint j x, ws !! r = Some w -> hs !! r = Some hint -> w !! j = Some x ->
     Z.of_nat j ∈ hint -> snd (Decompose x) <> 0) ->
  let mu := message_mu (take PARAMS_ML_DSA_44_PK_SIZE (key_p key)) ctx msg in
  wc_dilithium_verify_ctx_msg fuel true stack (Some sig) (length sig) (Some ctx) (Z.of_nat (length ctx))
    (Some msg) (length msg) true (Some key) =
  Some (0, Some (if verdict mu sig hs ws then 1 else 0)).
Proof.
  intros [[Hp Lp] [Hs Ls] Hc Hm Hh Hf] Hf1 Hf2 Lst Lctx Lws Hws Hz mu.
  unfold wc_dilithium_verify_ctx_msg, dilithium_verify_ctx_msg. rewrite code_mu, Ls by done. fold mu.
  rewrite (verify_mu_spec (key_p key) sig c m Hp Hs (challenge_within _ _ Hc) Hm hs (hint_room _ Ls) Hh Hf
    ws Lws Hws Hz fuel stack mu Hf1 Hf2 Lst (key_room _ Lp) Hc). reflexivity.
Qed.

(** What verification reports without looking further: BAD_FUNC_ARG for a NULL
    pointer, BUFFER_E for a signature of another length, SIG_VERIFY_E for a hint
    that does not pass the check, MEMORY_E when the heap is full; the verdict is
    0 where one is stored. *)
Theorem verification_errors fuel mem stack sig sigLen ctx ctxLen msg msgLen res key :
  let run := wc_dilithium_verify_ctx_msg fuel mem stack sig sigLen ctx ctxLen msg msgLen res key in
  (key = None \/ sig = None \/ msg = None \/ res = false \/ (ctx = None /\ 0 < ctxLen) -> run = Some (BAD_FUNC_ARG, None)) /\
  (forall k s, key = Some k -> sig = Some s -> is_Some msg -> res = true -> is_Some ctx \/ ctxLen = 0 -> bytes s ->
     (sigLen <> PARAMS_ML_DSA_44_SIG_SIZE -> run = Some (BUFFER_E, Some 0)) /\
     (sigLen = PARAMS_ML_DSA_44_SIG_SIZE ->
        (dilithium_check_hint (sig_hint s) PARAMS_ML_DSA_44_K PARAMS_ML_DSA_44_OMEGA <> 0 ->
           run = Some (SIG_VERIFY_E, Some 0)) /\
        (dilithium_check_hint (sig_hint s) PARAMS_ML_DSA_44_K PARAMS_ML_DSA_44_OMEGA = 0 -> mem = false ->
           run = Some (MEMORY_E, Some 0)))).
Proof.
  cbv zeta. unfold wc_dilithium_verify_ctx_msg. split.
  - intros [-> | [-> | [-> | [-> | [-> H]]]]]; [done|by destruct key|by destruct key, sig|by destruct key, sig, msg|].
    destruct key, sig, msg, res; try done. by apply Z.ltb_lt in H as ->.
  - intros k s -> -> [t ->] -> Hctx Hs.
    assert (exists mu,
      match ctx with
      | None => if 0 <? ctxLen then Some (BAD_FUNC_ARG, None)
                else dilithium_verify_ctx_msg fuel mem stack (Some k) [] ctxLen t msgLen s sigLen
      | Some ctx => dilithium_verify_ctx_msg fuel mem stack (Some k) ctx ctxLen t msgLen s sigLen
      end = option_map (fun '(ret, valid) => (ret, Some valid)) (dilithium_verify_mu fuel mem stack (key_p k) mu s sigLen))
      as [mu ->] by (destruct ctx; [by eexists|]; destruct Hctx as [[? ?] | ->]; [done|by eexists]).
    unfold dilithium_verify_mu. rewrite hint_start_drop.
    destruct (check_hint_spec (sig_hint s) PARAMS_ML_DSA_44_K PARAMS_ML_DSA_44_OMEGA) as [_ Hret];
      [by apply Forall_drop|unfold PARAMS_ML_DSA_44_OMEGA; lia|].
    destruct (Nat.eqb_spec sigLen PARAMS_ML_DSA_44_SIG_SIZE) as [E|E]; [|split; [done|intros; done]].
    split; [done|]. intros _. cbn [Z.eqb]. split.
    + intros Hh. by destruct Hret as [?| ->].
    + by intros -> ->.
Qed.

(** C23: only the low byte of the length of the context is used and the flag that
    a public key is set is not: verification with a context of 256 bytes or more
    is verification with a prefix of it, 256 bytes being the empty context, where
    FIPS 204 returns an error. *)
Theorem context_length_is_cut fuel mem stack sig sigLen ctx ctxLen msg msgLen k set :
  wc_dilithium_verify_ctx_msg fuel mem stack (Some sig) sigLen (Some ctx) ctxLen (Some msg) msgLen true (Some k) =
  wc_dilithium_verify_ctx_msg fuel mem stack (Some sig) sigLen (Some (take (Z.to_nat (u8 ctxLen)) ctx)) (u8 ctxLen)
    (Some msg) msgLen true
    (Some {| key_level := key_level k; key_p := key_p k; key_pubKeySet := set; key_prvKeySet := key_prvKeySet k |}) /\
  (ctxLen = 256 ->
   wc_dilithium_verify_ctx_msg fuel mem stack (Some sig) sigLen (Some ctx) ctxLen (Some msg) msgLen true (Some k) =
   wc_dilithium_verify_ctx_msg fuel mem stack (Some sig) sigLen None 0 (Some msg) msgLen true (Some k)).
Proof.
  split.
  - cbn [wc_dilithium_verify_ctx_msg dilithium_verify_ctx_msg key_p]. do 2 f_equal.
    unfold dilithium_hash256_ctx_msg. rewrite (wrap_small 8 (u8 ctxLen)) by (apply wrap_range; lia).
    by rewrite take_take, Nat.min_id.
  - intros ->. cbn [wc_dilithium_verify_ctx_msg dilithium_verify_ctx_msg]. do 2 f_equal.
Qed.

End Properties.

Lemma known_level level n : pub_key_size level = Some n ->
  (level =? WC_ML_DSA_44) || (level =? WC_ML_DSA_65) || (level =? WC_ML_DSA_87) = true /\ level mod WC_ML_DSA_DRAFT = level.
Proof.
  unfold pub_key_size. destruct (Z.eqb_spec level WC_ML_DSA_44) as [-> |]; [done|].
  destruct (Z.eqb_spec level WC_ML_DSA_65) as [-> |]; [done|]. by destruct (Z.eqb_spec level WC_ML_DSA_87) as [-> |].
Qed.

Lemma set_level_refused k level : pub_key_size level = None -> wc_dilithium_set_level (Some k) level = (BAD_FUNC_ARG, Some k).
Proof.
  unfold pub_key_size, wc_dilithium_set_level. by destruct (level =? WC_ML_DSA_44), (level =? WC_ML_DSA_65), (level =? WC_ML_DSA_87).
Qed.

Lemma set_level_known k level n : pub_key_size level = Some n -> wc_dilithium_set_level (Some k) level =
  (0, Some {| key_level := level; key_p := key_p k; key_pubKeySet := false; key_prvKeySet := false |}).
Proof. intros [E M]%known_level. unfold wc_dilithium_set_level. by rewrite E, M. Qed.

Lemma get_level_known k level n : pub_key_size level = Some n -> key_level k = level ->
  wc_dilithium_get_level (Some k) true = (0, level).
Proof. intros [E _]%known_level <-. unfold wc_dilithium_get_level. by rewrite E. Qed.

Lemma blit_import (l p : list Z) : (length l <= length p)%nat -> take (length l) (blit 0 (take (length l) l) p) = l.
Proof.
  intros L. unfold blit. rewrite take_0, (take_ge l) by done. rewrite (take_ge l) by lia. cbn [app]. by apply take_app_length'.
Qed.

(** A public key imported into a key whose level was set comes back from the
    export, and only with its exact length; setting the level forgets it, and any
    other level is refused. *)
Theorem public_key_roundtrip k level in_ :
  let n := pub_key_size level in
  (n = None -> wc_dilithium_set_level (Some k) level = (BAD_FUNC_ARG, Some k)) /\
  (forall n, pub_key_size level = Some n -> (n <= length (key_p k))%nat ->
   exists k1, wc_dilithium_set_level (Some k) level = (0, Some k1) /\
     wc_dilithium_get_level (Some k1) true = (0, level) /\
     wc_dilithium_export_public (Some k1) true (Some n) = (BAD_FUNC_ARG, Some n, []) /\
     (length in_ <> n -> wc_dilithium_import_public (Some in_) (length in_) (Some k1) = (BAD_FUNC_ARG, Some k1)) /\
     (length in_ = n -> exists k2, wc_dilithium_import_public (Some in_) (length in_) (Some k1) = (0, Some k2) /\
        forall outLen, wc_dilithium_export_public (Some k2) true (Some outLen) =
          if (outLen <? n)%nat then (BUFFER_E, Some n, []) else (0, Some n, in_))).
Proof.
  cbv zeta. split; [apply set_level_refused|]. intros n Hn Hl.
  eexists. split; [by eapply set_level_known|]. split; [by eapply get_level_known|].
  unfold wc_dilithium_export_public, wc_dilithium_import_public. cbn [key_level key_p key_pubKeySet].
  rewrite Hn, Nat.ltb_irrefl. split; [done|]. split.
  - intros H. by apply Nat.eqb_neq in H as ->.
  - intros <-. rewrite Nat.eqb_refl. eexists. split; [done|]. intros outLen. cbn [key_level key_p key_pubKeySet negb].
    rewrite Hn, blit_import by done. done.
Qed.

(** ** Witnesses: a signature with response zero, and a toy hash *)

Definition demo_key : dilithium_key :=
  {| key_level := 2; key_p := map (fun i => u8 (Z.of_nat i * 7)) (seq 0 1312);
     key_pubKeySet := true; key_prvKeySet := false |}.

Definition demo_sig : list Z :=
  map (fun i => u8 (16 + Z.of_nat i)) (seq 0 32) ++ concat (replicate 256 [0; 0; 2; 0; 8; 0; 32; 0; 128]) ++
  replicate 84 0.

Definition demo_c : list Z :=
  match SampleInBall 39 (shake256 (KemHash := toy_hash) (sig_commit demo_sig) 136) with Some c => c | None => [] end.

Lemma bytes_check l : forallb (fun x => (0 <=? x) && (x <? 256)) l = true -> bytes l.
Proof. rewrite forallb_forall, Forall_forall. intros H x Hx%list_elem_of_In%H. unfold is_byte. lia. Qed.

Lemma demo_sig_bytes : bytes demo_sig /\ length demo_sig = PARAMS_ML_DSA_44_SIG_SIZE.
Proof. split; [apply bytes_check; vm_compute; reflexivity|vm_compute; reflexivity]. Qed.

Lemma ntt_zero : dilithium_ntt_full (replicate 256 0) = replicate 256 0.
Proof. vm_cast_no_check (eq_refl (replicate 256 0)). Qed.

Lemma map_seq_replicate {A} (f : nat -> A) n x s : map f (seq 0 n) = replicate n x -> (s < n)%nat -> f s = x.
Proof.
  intros E Hs. assert ((f <$> seq 0 n) !! s = Some x) as H by (change (f <$> ?l) with (map f l); rewrite E; by apply lookup_replicate_2).
  rewrite list_lookup_fmap, lookup_seq_lt in H by done. by injection H.
Qed.

Lemma demo_decoded : dilithium_vec_decode_gamma1 (drop 32 demo_sig) 17 (replicate 4 []) = replicate 4 (replicate 256 0).
Proof. vm_cast_no_check (eq_refl (replicate 4 (replicate 256 0))). Qed.

Lemma demo_z s : (s < 4)%nat -> sig_z demo_sig s = replicate 256 0.
Proof.
  intros Hs. unfold sig_z. rewrite <- drop_drop.
  pose proof (vec_decode_gamma1_17 (drop 32 demo_sig) (replicate 4 []) (Forall_drop _ _ _ (proj1 demo_sig_bytes))) as E.
  rewrite demo_decoded, length_replicate in E. symmetry in E.
  exact (map_seq_replicate _ _ _ _ E Hs).
Qed.

Lemma mul_acc_zero a w B : length a = DILITHIUM_N -> dsa_within B w -> B < 2 ^ 31 -> mul_acc a (replicate 256 0) w = w.
Proof.
  intros La [Lw Fw] HB. unfold mul_acc. apply list_eq. intros i. rewrite !lookup_zip_with.
  destruct (w !! i) as [x|] eqn:Ex; [|done]. pose proof (lookup_lt_Some _ _ _ Ex) as Hi.
  destruct (lookup_lt_is_Some_2 a i ltac:(lia)) as [y Hy].
  rewrite Hy, lookup_replicate_2 by (unfold DILITHIUM_N in *; lia). cbn [mbind option_bind].
  rewrite Z.mul_0_r. change (dilithium_mont_red 0) with 0. rewrite Z.add_0_r.
  rewrite Forall_lookup in Fw. specialize (Fw i x Ex). cbv beta in Fw. rewrite (sext_small 32) by lia. done.
Qed.

Section DemoHash.
Local Existing Instance toy_dsa_hash.

Lemma demo_matrix r s : (DILITHIUM_N <= length (dsa_candidates (squeezeblocks
  (pk_rho (key_p demo_key) ++ [Z.of_nat s; Z.of_nat r]) 0 6)))%nat.
Proof. apply Nat.leb_le. vm_compute. reflexivity. Qed.

Lemma demo_challenge : SampleInBall 39 (shake256 (sig_commit demo_sig) 136) = Some demo_c.
Proof. vm_compute. reflexivity. Qed.

Lemma demo_fits r : (r < 4)%nat -> invntt_fits (row_in (key_p demo_key) demo_sig demo_c 6 r).
Proof.
  intros Hr. destruct (pk_t1_transform (key_p demo_key) r) as [_ Wt].
  destruct (ntt_small_transforms demo_c (challenge_within _ _ demo_challenge)) as [_ Wc].
  destruct (mul_neg_spec _ _ Wc Wt) as [W _]. unfold row_in. cbn [seq map].
  generalize dependent (mul_neg (dilithium_ntt_small_full demo_c)
    (dilithium_ntt_full (map (fun v => v * 2 ^ 13) (pk_t1 (key_p demo_key) r)))). intros w W.
  rewrite !demo_z, ntt_zero by lia. unfold row_sum. cbn [combine fold_left fst snd].
  assert (forall s, length (ExpandA (pk_rho (key_p demo_key)) 6 r s) = DILITHIUM_N) as L.
  { intros s. unfold ExpandA, RejNTTPoly. pose proof (demo_matrix r s). rewrite length_take. lia. }
  rewrite !(mul_acc_zero _ _ _ (L _) W) by done. apply invntt_small_fits.
  destruct W as [Lw Fw]. split; [done|]. eapply Forall_impl; [exact Fw|]. cbn. lia.
Qed.

Lemma demo_well_formed : well_formed (key_p demo_key) demo_sig demo_c [[]; []; []; []] 6.
Proof.
  split.
  - split; [apply bytes_check; vm_compute; reflexivity|apply Nat.leb_le; vm_compute; reflexivity].
  - exact demo_sig_bytes.
  - exact demo_challenge.
  - intros r s _ _. apply demo_matrix.
  - vm_compute. reflexivity.
  - exact demo_fits.
Qed.

Definition demo_ws : list (list Z) :=
  map (fun r => dilithium_invntt_full (row_in (key_p demo_key) demo_sig demo_c 6 r)) (seq 0 4).

Lemma demo_ws_wApprox r w : demo_ws !! r = Some w -> wApprox (key_p demo_key) demo_sig 6 demo_c r w.
Proof.
  unfold demo_ws. change (map ?f ?l) with (f <$> l). rewrite list_lookup_fmap. intros (i & Hi & ->)%fmap_Some.
  apply lookup_seq in Hi as [-> Hr]. cbn [Nat.add] in *.
  apply (code_row_wApprox (key_p demo_key) demo_sig demo_c 6 (challenge_within _ _ demo_challenge)
    (fun r s _ _ => demo_matrix r s) r Hr (demo_fits r Hr)).
Qed.

Lemma code_row_is_wApprox_witness :
  wApprox (key_p demo_key) demo_sig 6 demo_c 2 (dilithium_invntt_full (row_in (key_p demo_key) demo_sig demo_c 6 2)).
Proof. exact (proj1 (code_row_is_wApprox _ _ _ _ 6 2 demo_well_formed ltac:(lia))). Defined.

Lemma verification_is_FIPS204_witness :
  wc_dilithium_verify_ctx_msg 136 true (replicate 64 0) (Some demo_sig) (length demo_sig) (Some [1; 2]) 2
    (Some [9]) 1 true (Some demo_key) =
  Some (0, Some (if verdict (message_mu (take PARAMS_ML_DSA_44_PK_SIZE (key_p demo_key)) [1; 2] [9]) demo_sig
                      [[]; []; []; []] demo_ws then 1 else 0)).
Proof.
  refine (verification_is_FIPS204 136 6 (replicate 64 0) demo_key demo_sig demo_c [[]; []; []; []] demo_ws [1; 2] [9]
    demo_well_formed _ _ _ _ _ demo_ws_wApprox _).
  - unfold DILITHIUM_GEN_A_NBLOCKS. lia.
  - lia.
  - reflexivity.
  - cbn. lia.
  - reflexivity.
  - intros r w hint j x _ Hh _ Hin. exfalso.
    destruct r as [|[|[|[|r]]]]; [injection Hh as <-|injection Hh as <-|injection Hh as <-|injection Hh as <-|done];
      by apply not_elem_of_nil in Hin.
Defined.

Lemma verification_errors_witness :
  wc_dilithium_verify_ctx_msg 0 true [] (Some [1; 2; 3]) 3 None 0 (Some [9]) 1 true (Some demo_key) = Some (BUFFER_E, Some 0) /\
  wc_dilithium_verify_ctx_msg 0 true [] None 3 None 0 (Some [9]) 1 true (Some demo_key) = Some (BAD_FUNC_ARG, None).
Proof.
  split.
  - apply (proj2 (verification_errors 0 true [] (Some [1; 2; 3]) 3 None 0 (Some [9]) 1 true (Some demo_key)) demo_key [1; 2; 3]);
      [reflexivity|reflexivity|by eexists|reflexivity|by right|apply bytes_check; reflexivity|].
    intros E. apply (f_equal (Nat.eqb 3)) in E. vm_compute in E. discriminate.
  - apply (proj1 (verification_errors 0 true [] None 3 None 0 (Some [9]) 1 true (Some demo_key))). right. by left.
Defined.

Lemma context_length_is_cut_witness :
  let sig := replicate 2420 3 in
  wc_dilithium_verify_ctx_msg 136 true (replicate 64 0) (Some sig) 2420 (Some (replicate 256 7)) 256 (Some [9]) 1 true (Some demo_key) =
  wc_dilithium_verify_ctx_msg 136 true (replicate 64 0) (Some sig) 2420 None 0 (Some [9]) 1 true (Some demo_key).
Proof.
  exact (proj2 (context_length_is_cut 136 true (replicate 64 0) (replicate 2420 3) 2420 (replicate 256 7) 256 [9] 1 demo_key false) eq_refl).
Defined.

End DemoHash.

Lemma public_key_roundtrip_witness :
  exists k1 k2, wc_dilithium_set_level (Some demo_key) 2 = (0, Some k1) /\
    wc_dilithium_import_public (Some (replicate 1312 5)) (length (replicate 1312 5)) (Some k1) = (0, Some k2) /\
    wc_dilithium_export_public (Some k2) true (Some 1312%nat) = (0, Some 1312%nat, replicate 1312 5).
Proof.
  destruct (proj2 (public_key_roundtrip demo_key 2 (replicate 1312 5)) 1312%nat) as (k1 & E1 & _ & _ & _ & H).
  - reflexivity.
  - apply Nat.leb_le. vm_compute. reflexivity.
  - destruct H as (k2 & E2 & H); [apply length_replicate|]. exists k1, k2. split; [exact E1|split; [exact E2|]].
    rewrite H, Nat.ltb_irrefl. reflexivity.
Defined.
