(* ===== verification/MldsaHash.v ===== *)
(** * The hashes of ML-DSA (src/boot/wolfcrypt/src/dilithium.c over sha3.c)

    The functions that drive the SHAKE object of a key, as they call sha3.c; the
    functions of FIPS 202 as an instance of [DsaHash]; and the proof that the
    calls compute that instance, whatever the object was used for before.  So the
    theorems on sampling and verification hold of the code with its own SHAKE. *)

From S2P Require Import Prelude.
From S2P Require Import Misc.
From S2P Require Import DtlsDefs.
From S2P Require Import Keccak.
From S2P Require Import Sha3.
From S2P Require Import MlkemReduce.
From S2P Require Import MlkemCodec.
From S2P Require Import MlkemSample.
From S2P Require Import MlkemHash.
From S2P Require Import MldsaHint.
From S2P Require Import MldsaSample.
From S2P Require Import MldsaVerify.

(** ** The calls *)

Definition dilithium_shake256_obj (shake : wc_Sha3) (data : list Z) (dataLen hashLen : nat) : Z * list Z * wc_Sha3 :=
  let '(ret, shake) := wc_InitShake256 shake in
  let '(ret, shake) := if ret =? 0 then wc_Shake256_Update shake (Some data) dataLen else (ret, shake) in
  if ret =? 0 then wc_Shake256_Final shake hashLen else (ret, [], shake).

Definition dilithium_hash256_obj (shake : wc_Sha3) (data1 : list Z) (data1Len : nat) (data2 : list Z)
    (data2Len hashLen : nat) : Z * list Z * wc_Sha3 :=
  let '(ret, shake) := wc_InitShake256 shake in
  let '(ret, shake) := if ret =? 0 then wc_Shake256_Update shake (Some data1) data1Len else (ret, shake) in
  let '(ret, shake) := if ret =? 0 then wc_Shake256_Update shake (Some data2) data2Len else (ret, shake) in
  if ret =? 0 then wc_Shake256_Final shake hashLen else (ret, [], shake).

(** [ctx] may be NULL. *)
Definition dilithium_hash256_ctx_msg_obj (shake : wc_Sha3) (tr : list Z) (trLen : nat) (preHash : Z)
    (ctx : option (list Z)) (ctxLen : Z) (msg : list Z) (msgLen hashLen : nat) : Z * list Z * wc_Sha3 :=
  let prefix := [preHash; ctxLen] in
  let '(ret, shake) := wc_InitShake256 shake in
  let '(ret, shake) := if ret =? 0 then wc_Shake256_Update shake (Some tr) trLen else (ret, shake) in
  let '(ret, shake) := if ret =? 0 then wc_Shake256_Update shake (Some prefix) 2 else (ret, shake) in
  let '(ret, shake) := if ret =? 0 then wc_Shake256_Update shake ctx (Z.to_nat ctxLen) else (ret, shake) in
  let '(ret, shake) := if ret =? 0 then wc_Shake256_Update shake (Some msg) msgLen else (ret, shake) in
  if ret =? 0 then wc_Shake256_Final shake hashLen else (ret, [], shake).

Definition dilithium_squeeze128_obj (shake : wc_Sha3) (in_ : list Z) (inLen outBlocks : nat) : Z * list Z * wc_Sha3 :=
  let '(ret, shake) := wc_InitShake128 shake in
  let '(ret, shake) := if ret =? 0 then wc_Shake128_Absorb shake (Some in_) inLen else (ret, shake) in
  if ret =? 0 then wc_Shake128_SqueezeBlocks shake outBlocks else (ret, [], shake).

(** ** FIPS 202 as the interface *)

Definition sha3_dsa_hash : DsaHash := {|
  dsa_kem := sha3_hash;
  reset256_block := squeezed 136 (keccak_f (replicate 200 0)) |}.

#[export] Instance sha3_dsa_hash_laws : DsaHashLaws sha3_dsa_hash.
Proof.
  split; [apply sha3_hash_laws|]. intros i. apply squeezed_spec; [apply keccak_f_any|].
  apply Nat.leb_le. reflexivity.
Qed.

(** ** The calls compute the interface *)

Lemma shake256_call st data n l : length (sha3_t st) = 200%nat -> bytes data ->
  exists st', dilithium_shake256_obj st data n l = (0, dilithium_shake256 (DH := sha3_dsa_hash) data n l, st') /\ ready st'.
Proof.
  intros L Hd. unfold dilithium_shake256_obj, wc_InitShake256, wc_InitSha3, wc_Shake256_Update, wc_Shake256_Final. cbn [Z.eqb].
  destruct (update_call WC_SHA3_256_COUNT count_256 [] (InitSha3 st) data n) as (st1 & -> & A & Hm);
    [by apply InitSha3_absorbed; [apply count_256|]|constructor|done|]. cbn [Z.eqb].
  by apply (shake_call WC_SHA3_256_COUNT count_256 (take n data)).
Qed.

Lemma hash256_two_call st d1 n1 d2 n2 l : length (sha3_t st) = 200%nat -> bytes d1 -> bytes d2 ->
  exists st', dilithium_hash256_obj st d1 n1 d2 n2 l =
    (0, dilithium_hash256 (DH := sha3_dsa_hash) d1 n1 d2 n2 l, st') /\ ready st'.
Proof.
  intros L H1 H2. unfold dilithium_hash256_obj, wc_InitShake256, wc_InitSha3, wc_Shake256_Update, wc_Shake256_Final. cbn [Z.eqb].
  destruct (update_call WC_SHA3_256_COUNT count_256 [] (InitSha3 st) d1 n1) as (st1 & -> & A & Hm);
    [by apply InitSha3_absorbed; [apply count_256|]|constructor|done|]. cbn [Z.eqb app] in *.
  destruct (update_call WC_SHA3_256_COUNT count_256 _ st1 d2 n2 A Hm H2) as (st2 & -> & A2 & Hm2). cbn [Z.eqb].
  by apply (shake_call WC_SHA3_256_COUNT count_256 _ st2).
Qed.

Lemma update_none_call m st n : absorbed WC_SHA3_256_COUNT m st -> n = 0%nat ->
  wc_Sha3Update st None n WC_SHA3_256_COUNT = (0, st).
Proof. by intros _ ->. Qed.

Lemma ctx_msg_call st tr n pre ctx ctxLen msg k l : length (sha3_t st) = 200%nat -> bytes tr -> is_byte pre ->
  is_byte ctxLen -> (ctx = None -> ctxLen = 0) -> bytes (default [] ctx) -> bytes msg ->
  exists st', dilithium_hash256_ctx_msg_obj st tr n pre ctx ctxLen msg k l =
    (0, dilithium_hash256_ctx_msg (DH := sha3_dsa_hash) tr n pre (default [] ctx) ctxLen msg k l, st') /\ ready st'.
Proof.
  intros L Ht Hp Hc Hn Hx Hm. unfold dilithium_hash256_ctx_msg_obj, dilithium_hash256_ctx_msg, wc_InitShake256, wc_InitSha3,
    wc_Shake256_Update, wc_Shake256_Final. cbn [Z.eqb].
  destruct (update_call WC_SHA3_256_COUNT count_256 [] (InitSha3 st) tr n) as (st1 & -> & A1 & B1);
    [by apply InitSha3_absorbed; [apply count_256|]|constructor|done|]. cbn [Z.eqb app] in *.
  destruct (update_call WC_SHA3_256_COUNT count_256 _ st1 [pre; ctxLen] 2 A1 B1) as (st2 & -> & A2 & B2);
    [by apply Forall_cons; split; [|apply Forall_singleton]|]. cbn [Z.eqb take] in *.
  assert (exists st3, wc_Sha3Update st2 ctx (Z.to_nat ctxLen) WC_SHA3_256_COUNT = (0, st3) /\
    let m := (take n tr ++ [pre; ctxLen]) ++ take (Z.to_nat ctxLen) (default [] ctx) in
    absorbed WC_SHA3_256_COUNT m st3 /\ bytes m) as (st3 & -> & A3 & B3).
  { destruct ctx as [ctx|]; [by apply update_call; [apply count_256|..]|]. cbn [default] in *. exists st2.
    rewrite (update_none_call _ _ _ A2) by (rewrite Hn; done). rewrite take_nil, app_nil_r. done. }
  cbn [Z.eqb].
  destruct (update_call WC_SHA3_256_COUNT count_256 _ st3 msg k A3 B3 Hm) as (st4 & -> & A4 & B4). cbn [Z.eqb].
  rewrite <- !app_assoc in A4, B4. by apply (shake_call WC_SHA3_256_COUNT count_256 _ st4).
Qed.

Lemma squeeze128_call st seed n : length (sha3_t st) = 200%nat -> bytes seed ->
  exists st', dilithium_squeeze128_obj st seed (length seed) n =
    (0, dilithium_squeeze128 (DH := sha3_dsa_hash) seed n, st') /\
    forall ns, squeezes WC_SHA3_128_COUNT ns st' = squeezeblocks (H := sha3_hash) seed n (list_sum ns).
Proof.
  intros L Hs. unfold dilithium_squeeze128_obj, wc_InitShake128, wc_InitSha3, wc_Shake128_Absorb, WC_SHA3_128_COUNT. cbn [Z.eqb].
  destruct (shake_absorb_spec 21 st seed) as (st1 & -> & K & Ea); [lia|done|done|]. cbn [Z.eqb].
  assert (forall ns, squeezes 21 ns st1 = squeezeblocks (H := sha3_hash) seed 0 (list_sum ns)) as H.
  { intros ns. rewrite (squeezes_spec 21 ns st1 (state_bytes (sha3_s st1)) 0) by (done || lia). by rewrite Ea. }
  unfold wc_Shake128_SqueezeBlocks, WC_SHA3_128_COUNT in *. pose proof (fun ns => H (n :: ns)) as Hn. cbn [squeezes] in Hn.
  assert (exists out st', shake_squeeze 21 st1 n = (0, out, st')) as (out & st' & E)
    by (unfold shake_squeeze; destruct (squeeze_loop n 21 (sha3_s st1)); by do 2 eexists).
  rewrite E in *. assert (out = squeezeblocks (H := sha3_hash) seed 0 n) as ->.
  { specialize (Hn []). cbn [squeezes] in Hn. rewrite app_nil_r in Hn. rewrite Hn. f_equal. cbn. lia. }
  exists st'. split; [done|]. intros ns. specialize (Hn ns). cbn [list_sum foldr] in Hn.
  rewrite squeezeblocks_app in Hn. by apply app_inv_head in Hn.
Qed.

Lemma reset_squeezes st ns : ready st ->
  squeezes WC_SHA3_256_COUNT ns st = concat (map (reset256_block (DsaHash := sha3_dsa_hash)) (seq 0 (list_sum ns))).
Proof.
  intros (Es & _ & _). apply (squeezes_spec 17 ns st (replicate 200 0) 0); [|lia|by rewrite Es].
  rewrite Es. split; [done|]. apply Forall_replicate. done.
Qed.

(** C32: the hash calls of ML-DSA compute the functions of FIPS 202 that
    verification is proved with.  Every call starts its object afresh, so what it
    was used for before does not matter: the hash of one, of two and of four
    pieces (a context pointer may be NULL when the context is empty), and the
    expansion of a seed, whose further blocks follow without gap.  A hash leaves
    the object reset: squeezing it again, as the sampling of the challenge does,
    gives blocks that do not depend on what was hashed. *)
Theorem dsa_hash_calls_are_fips202 st d1 n1 d2 n2 ctx ctxLen l seed n ns
    (L : length (sha3_t st) = 200%nat) (H1 : bytes d1) (H2 : bytes d2) (Hs : bytes seed)
    (Hc : is_byte ctxLen) (Hn : ctx = None -> ctxLen = 0) (Hx : bytes (default [] ctx)) :
  (exists st', dilithium_shake256_obj st d1 n1 l = (0, dilithium_shake256 (DH := sha3_dsa_hash) d1 n1 l, st') /\
     squeezes WC_SHA3_256_COUNT ns st' =
       concat (map (reset256_block (DsaHash := sha3_dsa_hash)) (seq 0 (list_sum ns)))) /\
  (exists st', dilithium_hash256_obj st d1 n1 d2 n2 l =
     (0, dilithium_hash256 (DH := sha3_dsa_hash) d1 n1 d2 n2 l, st') /\ ready st') /\
  (exists st', dilithium_hash256_ctx_msg_obj st d1 n1 0 ctx ctxLen d2 n2 l =
     (0, dilithium_hash256_ctx_msg (DH := sha3_dsa_hash) d1 n1 0 (default [] ctx) ctxLen d2 n2 l, st') /\ ready st') /\
  (exists st', dilithium_squeeze128_obj st seed (length seed) n =
     (0, dilithium_squeeze128 (DH := sha3_dsa_hash) seed n, st') /\
     squeezes WC_SHA3_128_COUNT ns st' = squeezeblocks (H := sha3_hash) seed n (list_sum ns)).
Proof.
  split; [|split; [by apply hash256_two_call|split; [by apply ctx_msg_call|]]].
  - destruct (shake256_call st d1 n1 l L H1) as (st' & E & R). exists st'. split; [done|by apply reset_squeezes].
  - destruct (squeeze128_call st seed n L Hs) as (st' & E & R). exists st'. by split.
Qed.

(** The object of a key used before; SHAKE-256 of "abc". *)
Lemma dsa_hash_calls_are_fips202_witness :
  length (sha3_t demo_sha3) = 200%nat /\
  exists st', dilithium_shake256_obj demo_sha3 [0x61; 0x62; 0x63] 3 4 =
    (0, dilithium_shake256 (DH := sha3_dsa_hash) [0x61; 0x62; 0x63] 3 4, st').
Proof.
  split; [reflexivity|].
  destruct (dsa_hash_calls_are_fips202 demo_sha3 [0x61; 0x62; 0x63] 3 [] 0 None 0 4 [] 0 []) as [(st' & E & _) _].
  - reflexivity.
  - repeat constructor; done.
  - constructor.
  - constructor.
  - done.
  - done.
  - constructor.
  - exists st'. exact E.
Defined.
